(* ===== verification/_CoqProject ===== *)
-Q . S2P
Prelude.v
Memory.v
Resume.v
DList.v
SchedState.v
SchedQueues.v
Schedule.v
SchedTask.v
SchedTimer.v
SchedSem.v
SchedSync.v
SchedMsg.v
SchedMsgx.v
CircBuf.v
SchedMbx.v
Fifos.v
Registry.v
MemMgr.v
Bits.v
Tasklets.v
Pqueue.v
PqueueSpec.v
Tbx.v
TbxSpec.v
Watchdog.v
WatchdogSpec.v
Lxrt.v
LxrtSpec.v
Ulldiv.v
Pthread.v
PthreadSpec.v
