(* ===== verification/Prelude.v ===== *)
(** RTAI 24.1: a verification library.

    RTAI adds hard real time to Linux: a scheduler that runs above it, with
    semaphores, messages, mailboxes, typed mailboxes, event flags, timers, POSIX
    threads and message queues, fifos to Linux processes, a memory manager, a
    watchdog and a registry of names.  The library models the NEWLXRT scheduler and
    the modules around it as executable functions on explicit states, and proves
    what each promises.


    * The program and its parts

    The scheduler ([src/newlxrt/scheduler/rtai_sched.c], structs in
    [src/include/rtai_sched.h]) keeps, for each processor, a ready list sorted
    by priority and a timed list sorted by resume time, both headed by the
    task that stands for Linux.  A service runs with interrupts disabled on
    these lists and on the wait queue of its object, and calls [rt_schedule],
    which gives the processor to the head of the ready list.  Semaphores,
    messages and mailboxes are built on the lists and on each other;
    [rtai_bits.c] and [tasklets.c] are modules that call the scheduler from
    outside.  [rtai_fifos.c] is the counterpart of the mailboxes on the side
    of Linux, with queues of its own.  [rt_mem_mgr.c] and [registry.c] depend
    on none of these.  [rtai_pqueue.c] takes its memory from [rt_mem_mgr.c] and
    protects it with semaphores and condition variables of the scheduler;
    [tbx.c] takes its buffers from there, and works on semaphores and on the
    lists of the scheduler itself.  [rtai_watchdog.c] is a task that looks at all
    others and calls the services on tasks.  [rtai_pthread.c] makes tasks for POSIX
    threads, and mutexes and condition variables from the queues of semaphores,
    whose services it does not use.  The tasks of the scheduler are kernel
    tasks or Linux processes; a process changes between soft, when Linux runs it, and
    hard, when the scheduler does, with the help of two threads of Linux.


    * Files

    - [Prelude]: machine integers, masks, record update, field arrays, sorted
      lists, chains of pointers, and their tactics and hints.
    - [Memory]: bytes at addresses: copies, words, ranges.
    - [Resume]: the monad of the services.  A service returns ([Done]), or
      loses the processor with a continuation ([Switch]), or exceeds the bound
      of a loop ([Stuck]); equivalence of outcomes and the monad laws; [lift]
      runs the service of a component on a larger state.
    - [DList]: the circular doubly linked lists of the C code as rings: what
      the four writes of a link and the two of an unlink do, and walks.
    - [SchedState]: the state [RTAI] of the scheduler.  A field of a struct is
      an array by address ([task->f] is [f s task]).
    - [SchedQueues]: [enq_ready_task], [enq_timed_task],
      [wake_up_timed_tasks], [enqueue_blocked], [dequeue_blocked],
      [pass_prio] and the rest of the list operations.
    - [Schedule]: [rt_schedule] and [rt_timer_handler], with the round robin
      and one shot macros; [imuldiv] and [llimd] of
      [src/include/asm-i386/rtai-24.h].
    - [SchedTask]: creation, deletion, priorities, suspension, periodic
      execution, sleeping and the conversions of time.
    - [SchedTimer]: the modes, the start and the stop of the hardware timer.
    - [SchedSem], [SchedSync]: semaphores; condition variables, readers-writer
      and spin locks.
    - [SchedMsg], [SchedMsgx]: messages and remote procedure calls; extended
      messages, which add control blocks and memory to the state.
    - [CircBuf], [SchedMbx]: the circular buffer, and mailboxes, which use it.
    - [Fifos]: [src/fifos/rtai_fifos.c], which uses [CircBuf] too.
    - [Registry]: [src/newlxrt/registry.c] and
      [src/include/rtai_nam2num.h].
    - [MemMgr]: [src/rt_mem_mgr/rt_mem_mgr.c].
    - [Bits]: [src/bits/rtai_bits.c], on the state of the scheduler.
    - [Tasklets]: [src/tasklets/tasklets.c]; its state contains that of the
      scheduler.
    - [Pqueue], [PqueueSpec]: [src/tbx/rtai_pqueue.c]; its state contains those
      of the scheduler and of the memory manager, and the bytes of memory.  The
      first has the services and the lemmas on slots, links and insertion, the
      second the properties.
    - [Tbx], [TbxSpec]: [src/tbx/tbx.c], on the scheduler, the memory manager
      and the bytes of memory; its buffer as a ring of bytes, a mailbox as a
      queue of messages, waiting and broadcasts.
    - [Watchdog], [WatchdogSpec]: [src/watchdog/rtai_watchdog.c], on the state of
      the scheduler; the records of bad tasks as a list.
    - [Lxrt], [LxrtSpec]: the section of [rtai_sched.c] on Linux processes and
      kernel threads, and the requests of [src/newlxrt/newlxrt.c] that use it, on
      the state of the scheduler; its rings of pointers as lists.
    - [Ulldiv]: the division of 64 by 32 bits of [rtai-24.h].
    - [Pthread], [PthreadSpec]: [src/posix/src/rtai_pthread.c]; its state contains
      that of the scheduler, and a mutex or condition variable is the semaphore
      that the struct contains.

    Definitions have the names of the functions they translate; a name with
    [_loop], or one that a comment explains, is a part of a function.


    * What is proved

    Lists.  Every list operation of the scheduler has an abstract
    specification on lists of tasks ([insert_ready], [insert_timed],
    [insert_blocked]) that the linked structs implement; sortedness is
    preserved; dequeuing undoes enqueuing.

    Scheduling.  [rt_schedule] gives the processor to the ready task of highest
    priority, in both modes of the timer and between kernel tasks and processes of
    any kind ([given]), after it woke the tasks whose time has come in one shot
    mode; a round robin task moves behind its equals; periodic tasks do not drift;
    conversions of time round to the nearest below 2^30 and invert each other.

    Synchronisation.  Count and queue of a semaphore agree for ever; a signal
    wakes the first waiting task; priority inheritance follows the chain of
    owners; spin locks exclude; messages arrive once, with the sender's name;
    replies stay inside the caller's buffer; mailboxes and fifos transfer the
    bytes of a bounded queue, in order.

    Modules.  Event flags wake exactly the tasks whose test holds; every due
    release of a timer is called once, the higher priorities first, and the
    manager never sleeps past the next one; the registry is a finite map; the
    memory manager keeps all blocks disjoint, joins free neighbours, and gives
    no memory in use back to Linux.  Message queues are bounded queues by
    priority; a new one lies in a block of its own, and no other byte is written;
    unlinking leaves those who use a queue alone; a task that waits for a
    message lets others send.  A typed
    mailbox is a queue of messages with the urgent ones in front; its services
    that need not wait are those that do not wait; a broadcast reaches whoever
    waits for its turn.  The watchdog suspends exactly the tasks that overrun; its
    safety limit holds under every policy; a slip ends; its parameters stay in
    range.

    Processes.  A process that becomes hard is served in order and enters the ready
    list by priority; one that becomes soft leaves it and is woken by Linux; a
    soft call leaves the scheduler and the process as they were; of the
    requests in a ring exactly the last modulo its size arrive; the reservoir of
    threads refills.

    POSIX threads.  A mutex has one owner between lock and unlock; who must wait for
    it waits by priority and lends it; a signal wakes the one who waits longest and
    a broadcast all; the division behind the conversions of time ends and divides.

    Defects.  Where the code does not do what it means to, a theorem states
    what it does: [llimd_rounds], [resume_keeps_delayed], [rt_return_drops_waiters],
    [rt_rwl_wrlock_if_held], [mbx_send_if_intrudes], [rtf_resize_keeps_iff],
    [rtf_create_named_duplicate], [malloc_free_roundtrip],
    [bits_second_mask_stray], [rt_sendx_if_clobbers], [rt_receivex_bad_task],
    [lowest_priority_never_fires], [rt_insert_timer_ends], [mq_send_too_big],
    [mq_open_drops_access], [mq_notify_refused], [tbx_send_overruns],
    [tbx_waiter_not_suspended], [clean_up_loses_records],
    [register_not_checked], [apic_periodic_is_oneshot], [timer_stopped_runs],
    [wake_ups_delivered], [soft_call_transparent], [get_kthread_floods],
    [start_kthread_leaks], [mutex_two_owners], [recursive_mutex_unusable],
    [cond_signal_wakes], [pthread_descriptors_leak].


    * Decisions

    - One processor: [CONFIG_SMP] is not defined, so that [RT_SCHEDULE*]
      calls [rt_schedule], [RT_SCHEDULE_MAP] does nothing, and the locks are
      the disabled interrupts.  A service is atomic up to its calls of the
      scheduler.
    - A pointer to a task is an integer, with [0], [(void * )1] and [0xFFff]
      as in C; a pointer to a queue or semaphore, which lie inside other
      structs, is an inductive type.
    - The result of an integer operation is wrapped to its width ([i32],
      [i64], [u32]) where it can exceed it.
    - Losing the processor is [Switch]: the continuation is run on whatever
      state the system reached; theorems say in which state the processor is
      lost and what the continuation does on any later state that meets what
      they name.
    - The time stamp counter is a field; requests to the hardware and to Linux
      are events of a log; memory that Linux gives, results of Linux calls and
      the handlers of applications are arguments.
    - The slots of a message queue are bytes at addresses, since the code
      computes the addresses in several ways.  A copy of bytes is an instance
      of [Copier], be it [memcpy] or a loop.  Reading through a null pointer,
      where the code does it, is [Stuck].
    - A [BITS] has the layout of a [SEM], as its header says; the word after
      an argument, which [MASK1] reads, is the argument [after].


    * Bounds

    Walks over lists have [LIST_FUEL] = 1024 steps: the theorems ask for lists
    shorter than that ([fits]).  [SCHED_FUEL] = 64 bounds the times that a
    task that gets the processor back must wait again.  The loops of the memory
    manager have a step for every 16 bytes of a chunk ([blocks_fuel]) and for
    every chunk ([chunks_fuel]), which the invariant shows to be enough.  The
    copies of mailboxes and fifos have a step for every byte ([msg_fuel],
    [send_fuel]), and so have those of typed mailboxes.  The manager of the
    timers has a step for every release that is due.  The walk for the place of
    a message has a step for every slot.  The watchdog has at most 100 records.
    A ring of [klist_t] has at most 127 entries, and the semaphore of the
    reservoir is taken at most [LIST_FUEL] times in a row.  The division of 64 by 32
    bits takes at most 35 turns, of [ULLDIV_FUEL] = 64.
    No theorem of these parts holds because a bound was reached: they all state that the service returns or loses the processor.


    * What is not modelled

    The proc file systems; the copies between user space and the kernel, and the
    dispatchers of requests ([lxrt_handler]) except for the changes between soft
    and hard; the names of POSIX that [src/include/rtai_ksp_posix.h] gives to
    services; the hardware abstraction layer and drivers, which are register
    accesses and assembly; network calls; bindings, examples and the vendored
    mathematical libraries; the older schedulers, which are earlier versions
    of the same services.  Several processors are not modelled. *)

From stdpp Require Export base numbers list option functions tactics decidable sets gmap.
From Stdlib Require Export ZArith Lia Sorting.Sorted.

#[global] Open Scope Z_scope.

(** * Machine integers

    C integers are [Z]; the result of an [int] (32 bit) or [long long]
    (64 bit) operation is wrapped by [i32] and [i64], an [unsigned] one by
    [u32]. *)

Definition i32 (z : Z) : Z := (z + 2147483648) mod 4294967296 - 2147483648.
Definition i64 (z : Z) : Z :=
  (z + 9223372036854775808) mod 18446744073709551616 - 9223372036854775808.
Definition u32 (z : Z) : Z := z mod 4294967296.

Definition INT_MAX : Z := 2147483647.
Definition INT_MIN : Z := -2147483648.
Definition LLONG_MAX : Z := 9223372036854775807.

Definition in_i32 (z : Z) : Prop := INT_MIN <= z <= INT_MAX.
Definition in_i64 (z : Z) : Prop := - LLONG_MAX - 1 <= z <= LLONG_MAX.

Lemma i32_id z : in_i32 z -> i32 z = z.
Proof.
  unfold in_i32, i32, INT_MAX, INT_MIN; intros H.
  rewrite Z.mod_small; lia.
Qed.

Lemma i64_id z : in_i64 z -> i64 z = z.
Proof.
  unfold in_i64, i64, LLONG_MAX; intros H.
  rewrite Z.mod_small; lia.
Qed.

Lemma i32_range z : in_i32 (i32 z).
Proof.
  unfold in_i32, i32, INT_MAX, INT_MIN.
  pose proof (Z.mod_pos_bound (z + 2147483648) 4294967296). lia.
Qed.

Lemma i64_range z : in_i64 (i64 z).
Proof.
  unfold in_i64, i64, LLONG_MAX.
  pose proof (Z.mod_pos_bound (z + 9223372036854775808) 18446744073709551616). lia.
Qed.

(** Wrapping twice is wrapping once, wherever the inner value is used. *)
Lemma i32_add_l a b : i32 (i32 a + b) = i32 (a + b).
Proof.
  unfold i32. f_equal.
  replace ((a + 2147483648) mod 4294967296 - 2147483648 + b + 2147483648)
    with ((a + 2147483648) mod 4294967296 + b) by lia.
  rewrite Zplus_mod_idemp_l. f_equal. lia.
Qed.

(** [x & mask] is non zero: the C test [if (x & mask)]. *)
Definition has (x mask : Z) : bool := negb (Z.land x mask =? 0).

(** [x & ~mask]. *)
Definition clr (x mask : Z) : Z := Z.land x (Z.lnot mask).

(** The C truth value of an integer or pointer, and of a comparison. *)
Definition nz (x : Z) : bool := negb (x =? 0).
Definition b2z (b : bool) : Z := if b then 1 else 0.

Lemma nz_true x : nz x = true <-> x <> 0.
Proof. unfold nz. rewrite negb_true_iff, Z.eqb_neq. done. Qed.

Lemma nz_false x : nz x = false <-> x = 0.
Proof. unfold nz. rewrite negb_false_iff, Z.eqb_eq. done. Qed.

Lemma clr_spec x m i : 0 <= i ->
  Z.testbit (clr x m) i = Z.testbit x i && negb (Z.testbit m i).
Proof. intros. unfold clr. rewrite Z.land_spec, Z.lnot_spec by lia. done. Qed.

Lemma has_false x m : has x m = false <-> Z.land x m = 0.
Proof. unfold has. rewrite negb_false_iff, Z.eqb_eq. done. Qed.

Lemma has_true x m : has x m = true <-> Z.land x m <> 0.
Proof. unfold has. rewrite negb_true_iff, Z.eqb_neq. done. Qed.

(** Setting a mask makes it readable, clearing it makes it unreadable. *)
Lemma has_lor x m : m <> 0 -> 0 <= m -> has (Z.lor x m) m = true.
Proof.
  intros Hm Hp. apply has_true. rewrite Z.land_lor_distr_l, Z.land_diag.
  intros E. apply Z.lor_eq_0_iff in E. lia.
Qed.

Lemma has_clr_same x m : has (clr x m) m = false.
Proof.
  apply has_false. unfold clr.
  rewrite <- Z.land_assoc, (Z.land_comm (Z.lnot m)), Z.land_lnot_diag.
  apply Z.land_0_r.
Qed.

Lemma has_lor_other x m m' : Z.land m m' = 0 -> has (Z.lor x m) m' = has x m'.
Proof.
  intros E. unfold has. rewrite Z.land_lor_distr_l, E, Z.lor_0_r. done.
Qed.

Lemma has_clr_other x m m' : Z.land m m' = 0 -> has (clr x m) m' = has x m'.
Proof.
  intros E. unfold has, clr. f_equal. f_equal.
  apply Z.bits_inj'. intros i Hi.
  rewrite !Z.land_spec, Z.lnot_spec by lia.
  assert (Hb : Z.testbit m i && Z.testbit m' i = false).
  { rewrite <- Z.land_spec, E. apply Z.bits_0. }
  destruct (Z.testbit x i), (Z.testbit m i), (Z.testbit m' i); simpl in *; congruence.
Qed.

(** * Record update

    [s <| f := v |>] is [s] with the field [f] replaced, [s <| f ::= g |>]
    with [g] applied to it.  The update of a field is an instance of
    [Setter], built by [mk_setter] from the eta expansion of the record. *)

Class Eta (R : Type) : Type := eta : R -> R.
Class Setter {R E : Type} (p : R -> E) : Type := set : (E -> E) -> R -> R.
Arguments set {R E} p {_} _ _.

Ltac mk_setter :=
  lazymatch goal with
  | |- @Setter ?R ?E ?p =>
      let f := fresh "f" in
      let r := fresh "r" in
      refine (fun (f : E -> E) (r : R) => _);
      let e := eval cbv [eta] in (@eta R _ r) in
      let e := eval cbv beta delta [Eta] in e in
      let e := (lazymatch e with ?h r => eval unfold h in (h r) | _ => e end) in
      let e := eval cbv beta in e in
      lazymatch eval pattern (p r) in e with
      | ?g _ => exact (g (f (p r)))
      end
  end.

Declare Scope state_scope.
Delimit Scope state_scope with state.
#[global] Open Scope state_scope.

Notation "s '<|' p '::=' f '|>'" := (set p f s)
  (at level 12, left associativity, p at level 9, format "s  '<|'  p  '::='  f  '|>'") : state_scope.
Notation "s '<|' p ':=' v '|>'" := (set p (fun _ => v) s)
  (at level 12, left associativity, p at level 9, format "s  '<|'  p  ':='  v  '|>'") : state_scope.

(** [state_simpl]: a projection of an updated record is the projection of
    the record, or the updated value.  Each step rewrites with an equation
    proved for a variable record: comparing two nested updates by conversion
    takes time exponential in their number. *)
Ltac set_eq p q i f s :=
  match goal with
  | _ => let _ := match goal with _ => constr_eq p q end in
         constr:((fun r g => eq_refl (g (p r)) : p (@set _ _ q i g r) = g (p r)) s f)
  | _ => constr:((fun r g => eq_refl (p r) : p (@set _ _ q i g r) = p r) s f)
  end.

Ltac state_simpl_step :=
  match goal with
  | |- context C [?p (@set _ _ ?q ?i ?f ?s)] =>
      is_const p;
      let _ := constr:(_ : Setter p) in
      let e := set_eq p q i f s in
      let ty := type of (p (set q f s)) in
      let hole := fresh "hole" in
      let P := constr:(fun hole : ty => ltac:(let g := context C [hole] in exact g)) in
      refine (eq_ind_r P _ e);
      cbv beta
  end.
Ltac state_simpl := repeat state_simpl_step.

Ltac state_simpl_in H :=
  repeat
    match type of H with
    | context C [?p (@set _ _ ?q ?i ?f ?s)] =>
        is_const p;
        let _ := constr:(_ : Setter p) in
        let e := set_eq p q i f s in
        let ty := type of (p (set q f s)) in
        let hole := fresh "hole" in
        let P := constr:(fun hole : ty => ltac:(let g := context C [hole] in exact g)) in
        let H' := fresh in
        pose proof (eq_ind _ P H _ e) as H'; cbv beta in H'; clear H; rename H' into H
    end.

(** * Field arrays

    A struct field is an array indexed by the address of the struct: a total
    function, updated by stdpp's [<[a:=v]>]. *)

Lemma upd_eq `{EqDecision K} {V} (f : K -> V) k v : (<[k := v]> f) k = v.
Proof. apply fn_lookup_insert. Qed.

Lemma upd_ne `{EqDecision K} {V} (f : K -> V) k k' v :
  k <> k' -> (<[k := v]> f) k' = f k'.
Proof. intros. by apply fn_lookup_insert_ne. Qed.

Lemma upd_dec `{EqDecision K} {V} (f : K -> V) k k' v :
  (<[k := v]> f) k' = if decide (k = k') then v else f k'.
Proof. case_decide; [subst; apply upd_eq | by apply upd_ne]. Qed.

Create Rewrite HintDb upd.
#[export] Hint Rewrite @upd_eq : upd.
#[export] Hint Rewrite @upd_ne using (done || congruence || lia) : upd.

(** [upd_simpl] rewrites reads over writes; [upd_cases] also splits on the
    equality of the two addresses. *)
Ltac upd_simpl := autorewrite with upd in *.
Ltac upd_cases := rewrite ?upd_dec in *; repeat case_decide; subst.

(** Booleans to propositions, for the conditions of [if]s. *)
Ltac bool_prop :=
  repeat
    match goal with
    | H : _ && _ = true |- _ => apply andb_true_iff in H; destruct H
    | H : _ || _ = false |- _ => apply orb_false_iff in H; destruct H
    | H : (_ =? _) = true |- _ => apply Z.eqb_eq in H
    | H : (_ =? _) = false |- _ => apply Z.eqb_neq in H
    | H : (_ <? _) = true |- _ => apply Z.ltb_lt in H
    | H : (_ <? _) = false |- _ => apply Z.ltb_ge in H
    | H : (_ <=? _) = true |- _ => apply Z.leb_le in H
    | H : (_ <=? _) = false |- _ => apply Z.leb_gt in H
    | H : negb _ = true |- _ => apply negb_true_iff in H
    | H : negb _ = false |- _ => apply negb_false_iff in H
    | H : nz _ = true |- _ => apply nz_true in H
    | H : nz _ = false |- _ => apply nz_false in H
    end.

(** * Lists *)

(** The longest prefix satisfying [p], and what follows it. *)
Fixpoint take_while {A} (p : A -> bool) (l : list A) : list A :=
  match l with
  | [] => []
  | x :: l' => if p x then x :: take_while p l' else []
  end.
Fixpoint drop_while {A} (p : A -> bool) (l : list A) : list A :=
  match l with
  | [] => []
  | x :: l' => if p x then drop_while p l' else l
  end.

Lemma take_drop_while {A} (p : A -> bool) l : take_while p l ++ drop_while p l = l.
Proof. induction l as [|x l IH]; simpl; [done|]. destruct (p x); simpl; congruence. Qed.

Lemma take_while_all {A} (p : A -> bool) l x : x ∈ take_while p l -> p x = true.
Proof.
  induction l as [|y l IH]; simpl; [by intros ?%not_elem_of_nil|].
  destruct (p y) eqn:E; [|by intros ?%not_elem_of_nil].
  intros [->|H]%elem_of_cons; auto.
Qed.

Lemma drop_while_head {A} (p : A -> bool) l x l' : drop_while p l = x :: l' -> p x = false.
Proof.
  induction l as [|y l IH]; simpl; [done|]. destruct (p y) eqn:E; [auto|].
  intros [= -> _]. done.
Qed.

Lemma take_while_ext {A} (p q : A -> bool) l :
  (forall x, x ∈ l -> p x = q x) -> take_while p l = take_while q l.
Proof.
  induction l as [|x l IH]; simpl; [done|]. intros H.
  rewrite (H x) by set_solver. destruct (q x); [f_equal|done]. apply IH. set_solver.
Qed.

Lemma drop_while_ext {A} (p q : A -> bool) l :
  (forall x, x ∈ l -> p x = q x) -> drop_while p l = drop_while q l.
Proof.
  induction l as [|x l IH]; simpl; [done|]. intros H.
  rewrite (H x) by set_solver. destruct (q x); [|done]. apply IH. set_solver.
Qed.

(** The stable insertion of [x] after the prefix that satisfies [p]. *)
Definition insert_after {A} (p : A -> bool) (x : A) (l : list A) : list A :=
  take_while p l ++ x :: drop_while p l.

Lemma insert_after_elem {A} (p : A -> bool) x y l :
  y ∈ insert_after p x l <-> y = x \/ y ∈ l.
Proof.
  unfold insert_after. rewrite <- (take_drop_while p l) at 3.
  rewrite !elem_of_app, elem_of_cons. tauto.
Qed.

Lemma insert_after_ext {A} (p q : A -> bool) x l :
  (forall y, p y = q y) -> insert_after p x l = insert_after q x l.
Proof.
  intros H. unfold insert_after. by rewrite (take_while_ext p q), (drop_while_ext p q).
Qed.

Lemma insert_after_perm {A} (p : A -> bool) x l : insert_after p x l ≡ₚ x :: l.
Proof.
  unfold insert_after. rewrite <- Permutation_middle, take_drop_while. done.
Qed.

(** [l] is sorted by the key [k] (non decreasing). *)
Definition sorted_by {A} (k : A -> Z) (l : list A) : Prop :=
  StronglySorted (fun x y => k x <= k y) l.

Lemma sorted_by_ext {A} (k k' : A -> Z) l :
  (forall x, x ∈ l -> k x = k' x) -> sorted_by k l -> sorted_by k' l.
Proof.
  unfold sorted_by. intros H S. induction S as [|x l S IH F]; constructor.
  - apply IH. set_solver.
  - rewrite Forall_forall in *. intros y Hy.
    rewrite <- !H by set_solver. auto.
Qed.

(** Inserting after the elements with a key at most (or below) [k x] keeps
    the list sorted. *)
Lemma insert_after_sorted {A} (k : A -> Z) (p : A -> bool) x l :
  (forall y, p y = true -> k y <= k x) -> (forall y, p y = false -> k x <= k y) ->
  sorted_by k l -> sorted_by k (insert_after p x l).
Proof.
  intros Ht Hf. unfold sorted_by, insert_after. induction l as [|y l IH]; simpl.
  - intros _. repeat constructor.
  - intros S. inversion_clear S as [|? ? S' F]. destruct (p y) eqn:E; simpl.
    + constructor; [by apply IH|]. rewrite Forall_forall in *. intros z Hz.
      apply insert_after_elem in Hz as [->|Hz]; auto.
    + repeat constructor; auto. rewrite Forall_forall in *.
      intros z Hz. specialize (F z Hz). specialize (Hf y E). lia.
Qed.

(** What follows the elements with a key at most [v] in a sorted list. *)
Lemma drop_while_sorted {A} (k : A -> Z) v l x :
  sorted_by k l -> x ∈ drop_while (fun y => k y <=? v) l -> v < k x.
Proof.
  unfold sorted_by. induction l as [|y l IH]; simpl; [by intros _ ?%not_elem_of_nil|].
  intros S. inversion_clear S as [|? ? S' F]. destruct (k y <=? v) eqn:E; [by apply IH|].
  bool_prop. intros [->|Hx]%elem_of_cons; [done|]. rewrite Forall_forall in F.
  specialize (F x Hx). lia.
Qed.

(** [list_in]: membership and non-membership in list expressions. *)
Ltac list_norm :=
  repeat
    match goal with
    | H : _ ∈ _ :: _ |- _ => apply elem_of_cons in H
    | H : _ ∈ _ ++ _ |- _ => apply elem_of_app in H
    | H : _ ∈ [] |- _ => apply elem_of_nil in H
    | H : _ ∉ _ :: _ |- _ => apply not_elem_of_cons in H
    | H : _ ∉ _ ++ _ |- _ => apply not_elem_of_app in H
    | H : _ /\ _ |- _ => destruct H
    | H : _ \/ _ |- _ => destruct H
    | H : False |- _ => destruct H
    | |- context [_ ∈ _ :: _] => rewrite elem_of_cons
    | |- context [_ ∈ _ ++ _] => rewrite elem_of_app
    | |- context [_ ∈ []] => rewrite elem_of_nil
    end.
Ltac list_in := simpl in *; list_norm; subst; intuition (subst; auto; congruence).

(** Two elements of a list whose pairs, in order, are related. *)
Lemma ForallOrdPairs_elems {A} (R : A -> A -> Prop) l x y :
  ForallOrdPairs R l -> x ∈ l -> y ∈ l -> x = y \/ R x y \/ R y x.
Proof.
  intros H Hx Hy. apply list_elem_of_In in Hx, Hy. destruct (ForallOrdPairs_In H x y Hx Hy); auto.
Qed.

Lemma StronglySorted_elem_pairs {A} (R : A -> A -> Prop) l x y :
  StronglySorted R l -> x ∈ l -> y ∈ l -> x = y \/ R x y \/ R y x.
Proof.
  intros H Hx Hy. apply ForallOrdPairs_elems with (l := l); [|done..].
  clear Hx Hy. induction H; by constructor.
Qed.

(** The two parts of a duplicate-free list are disjoint. *)
Lemma NoDup_app_ne {A} (l1 l2 : list A) x y :
  NoDup (l1 ++ l2) -> x ∈ l1 -> y ∈ l2 -> x <> y.
Proof. intros (_ & H & _)%NoDup_app Hx Hy ->. by apply (H y). Qed.

Lemma nodup_middle {A} (l1 l2 : list A) x : NoDup (l1 ++ x :: l2) -> x ∉ l1 ++ l2 /\ NoDup (l1 ++ l2).
Proof. intros H. rewrite <- Permutation_middle in H. by apply NoDup_cons in H. Qed.

(** * Chains

    The linked lists that end in a null pointer: [l] has the elements from
    [p] to the end of the list that [nx] links. *)

Fixpoint chain (nx : Z -> Z) (p : Z) (l : list Z) : Prop :=
  match l with
  | [] => p = 0
  | a :: l' => p = a /\ a <> 0 /\ chain nx (nx a) l'
  end.

Lemma chain_ext nx nx' p l : (forall a, a ∈ l -> nx a = nx' a) -> chain nx p l -> chain nx' p l.
Proof.
  revert p. induction l as [|a l IH]; simpl; [done|]. intros p H (-> & Ha & Hc).
  rewrite <- H by set_solver. split_and!; [done..|]. apply IH; [|done]. set_solver.
Qed.
