(* ===== verification/Memory.v ===== *)
(** Memory: the bytes of memory.

    Some components keep their data as bytes at addresses: the buffers of
    extended messages, the slots of message queues, the buffers of typed
    mailboxes.  Memory is a function from addresses to bytes; this file has the
    copy of a range, words, ranges as lists, and when two ranges are apart. *)

From S2P Require Import Prelude.

(** * Copies, words, ranges *)

(** After [memcpy(dst, src, n)]. *)
Definition copied (m : Z -> Z) (dst src n : Z) : Z -> Z :=
  fun a => if (dst <=? a) && (a <? dst + n) then m (src + (a - dst)) else m a.

Definition ld32 (m : Z -> Z) (a : Z) : Z :=
  m a + 256 * m (a + 1) + 65536 * m (a + 2) + 16777216 * m (a + 3).

Definition st32 (m : Z -> Z) (a v : Z) : Z -> Z :=
  fun x => if (a <=? x) && (x <? a + 4) then Z.shiftr v (8 * (x - a)) mod 256 else m x.

(** The [n] bytes at [a]. *)
Definition load (m : Z -> Z) (a n : Z) : list Z := (fun i => m (a + i)) <$> seqZ 0 n.

(** Two ranges of memory have no byte in common. *)
Definition apart_mem (a n b k : Z) : Prop := a + n <= b \/ b + k <= a.

Section Memory.
Implicit Types (m : Z -> Z) (a b n v x i dst src : Z).

Lemma st32_in m a v i : 0 <= i < 4 -> st32 m a v (a + i) = Z.shiftr v (8 * i) mod 256.
Proof.
  intros Hi. unfold st32. rewrite (proj2 (Z.leb_le _ _)), (proj2 (Z.ltb_lt _ _)) by lia.
  cbn [andb]. do 3 f_equal. lia.
Qed.

Lemma st32_out m a v x : x < a \/ a + 4 <= x -> st32 m a v x = m x.
Proof. intros Hx. unfold st32. destruct (Z.leb_spec a x), (Z.ltb_spec x (a + 4)); [lia|done..]. Qed.

Lemma ld_st_eq m a v : 0 <= v < 4294967296 -> ld32 (st32 m a v) a = v.
Proof.
  intros Hv. unfold ld32. replace (st32 m a v a) with (st32 m a v (a + 0)) by (f_equal; lia).
  rewrite !st32_in by lia. rewrite !Z.shiftr_div_pow2 by lia.
  change (2 ^ (8 * 0)) with 1. change (2 ^ (8 * 1)) with 256. change (2 ^ (8 * 2)) with 65536.
  change (2 ^ (8 * 3)) with 16777216. rewrite Z.div_1_r. Z.to_euclidean_division_equations. lia.
Qed.

Lemma ld_ext m m' a : (forall i, 0 <= i < 4 -> m' (a + i) = m (a + i)) -> ld32 m' a = ld32 m a.
Proof.
  intros H. unfold ld32. pose proof (H 0 ltac:(lia)) as H0. rewrite Z.add_0_r in H0.
  by rewrite H0, !H by lia.
Qed.

Lemma ld_st_ne m a b v : a + 4 <= b \/ b + 4 <= a -> ld32 (st32 m a v) b = ld32 m b.
Proof. intros Hab. apply ld_ext. intros i Hi. apply st32_out. lia. Qed.

Lemma load_ext m m' a b n : (forall i, 0 <= i < n -> m' (b + i) = m (a + i)) -> load m' b n = load m a n.
Proof. intros H. apply list_fmap_ext. intros k i Hi. apply H. apply lookup_seqZ in Hi. lia. Qed.

Lemma length_load m a n : 0 <= n -> Z.of_nat (length (load m a n)) = n.
Proof. intros Hn. unfold load. rewrite length_fmap, length_seqZ. lia. Qed.

Lemma copied_inside m dst src n i : 0 <= i < n -> copied m dst src n (dst + i) = m (src + i).
Proof.
  intros Hi. unfold copied. rewrite (proj2 (Z.leb_le _ _)), (proj2 (Z.ltb_lt _ _)) by lia.
  cbn [andb]. f_equal. lia.
Qed.

Lemma copied_outside m dst src n a : ~ (dst <= a < dst + n) -> copied m dst src n a = m a.
Proof.
  intros Ha. unfold copied. destruct (Z.leb_spec dst a), (Z.ltb_spec a (dst + n)); try done. lia.
Qed.

Lemma copied_0 m dst src a : copied m dst src 0 a = m a.
Proof. apply copied_outside. lia. Qed.

Lemma load_copied m m' dst src n :
  (forall x, m' x = copied m dst src n x) -> load m' dst n = load m src n.
Proof. intros H. apply load_ext. intros i Hi. by rewrite H, copied_inside. Qed.
End Memory.
