(* ===== verification/Resume.v ===== *)
(** Resume: the effect of the kernel services.

    A service runs atomically (interrupts disabled) on the scheduler state
    until it either returns, or calls the scheduler and loses the processor.
    In the second case what is left of its body is a continuation, run on
    whatever state the system has reached when the task gets the processor
    back.  A loop that exceeds its bound is [Stuck]. *)

From S2P Require Import Prelude.

Inductive Out (S A : Type) : Type :=
  | Done (a : A) (s : S)
  | Switch (s : S) (k : S -> Out S A)
  | Stuck.
Arguments Done {S A} _ _.
Arguments Switch {S A} _ _.
Arguments Stuck {S A}.

Fixpoint bind_out {S A B} (o : Out S A) (f : A -> S -> Out S B) : Out S B :=
  match o with
  | Done a s => f a s
  | Switch s k => Switch s (fun s' => bind_out (k s') f)
  | Stuck => Stuck
  end.

Definition M (S A : Type) : Type := S -> Out S A.

Section Monad.
Context {S : Type}.

#[global] Instance M_ret : MRet (M S) := fun A a s => Done a s.
#[global] Instance M_bind : MBind (M S) := fun A B f m s => bind_out (m s) f.

Definition get : M S S := fun s => Done s s.
Definition put (s : S) : M S unit := fun _ => Done tt s.
Definition modify (f : S -> S) : M S unit := fun s => Done tt (f s).
Definition stuck {A} : M S A := fun _ => Stuck.
(** Lose the processor in state [f s]; continue in the state found later. *)
Definition switch (f : S -> S) : M S unit := fun s => Switch (f s) (Done tt).
Definition of_option {A} (o : option A) : M S A :=
  match o with Some a => mret a | None => stuck end.
(** A C [if] without [else]. *)
Definition when (b : bool) (m : M S unit) : M S unit := if b then m else mret tt.
End Monad.

(** * Reads and writes *)

Section Access.
Context {S : Type}.

(** [p(a) = v]: a write to the field [p] of the struct at [a]. *)
Definition wr {A} `{EqDecision A} {B} (p : S -> A -> B) `{!Setter p} (a : A) (v : B) : M S unit :=
  modify (fun s => s <| p ::= <[a := v]> |>).
(** A write to a global variable. *)
Definition wg {B} (p : S -> B) `{!Setter p} (v : B) : M S unit :=
  modify (fun s => s <| p := v |>).
End Access.

(** * Equality of outcomes

    Two outcomes are equivalent when they return the same values and give up
    the processor in the same states, for every later state. *)

Inductive out_eq {S A} : Out S A -> Out S A -> Prop :=
  | out_eq_done a s : out_eq (Done a s) (Done a s)
  | out_eq_switch s k k' : (forall s', out_eq (k s') (k' s')) -> out_eq (Switch s k) (Switch s k')
  | out_eq_stuck : out_eq Stuck Stuck.

Section Equiv.
Context {S A : Type}.

#[global] Instance out_equiv : Equiv (Out S A) := out_eq.
#[global] Instance M_equiv : Equiv (M S A) := fun m m' => forall s, m s ≡ m' s.

#[global] Instance out_eq_equivalence : Equivalence (≡@{Out S A}).
Proof.
  split.
  - intros o. induction o as [|? ? IH|]; constructor. apply IH.
  - intros o o' H. induction H as [|? ? ? ? IH|]; constructor. apply IH.
  - intros o1 o2 o3 H. revert o3. induction H as [|s k k' H IH|]; intros o3 H';
      inversion H' as [|? ? k3 H3|]; subst; constructor.
    intros s'. apply IH, H3.
Qed.

#[global] Instance M_equivalence : Equivalence (≡@{M S A}).
Proof.
  split.
  - intros m s. done.
  - intros m m' H s. symmetry. apply H.
  - intros m1 m2 m3 H H' s. etransitivity; [apply H|apply H'].
Qed.
End Equiv.

Section Laws.
Context {S : Type}.

Lemma bind_out_proper {A B} (o o' : Out S A) (f f' : A -> S -> Out S B) :
  o ≡ o' -> (forall a s, f a s ≡ f' a s) -> bind_out o f ≡ bind_out o' f'.
Proof. intros H Hf. induction H as [|? ? ? ? IH|]; simpl; [apply Hf| |constructor]. constructor. apply IH. Qed.

#[global] Instance bind_proper {A B} :
  Proper (pointwise_relation A (≡) ==> (≡) ==> (≡)) (mbind (M := M S) (A := A) (B := B)).
Proof. intros f f' Hf m m' Hm s. apply bind_out_proper; [apply Hm|intros; apply Hf]. Qed.

Lemma bind_out_assoc {A B C} (o : Out S A) (f : A -> S -> Out S B) (g : B -> S -> Out S C) :
  bind_out (bind_out o f) g ≡ bind_out o (fun a s => bind_out (f a s) g).
Proof. induction o as [|? ? IH|]; simpl; [reflexivity| |constructor]. constructor. apply IH. Qed.

Lemma bind_assoc {A B C} (m : M S A) (f : A -> M S B) (g : B -> M S C) :
  (m ≫= f) ≫= g ≡ m ≫= (fun a => f a ≫= g).
Proof. intros s. apply bind_out_assoc. Qed.

Lemma bind_ret_l {A B} (a : A) (f : A -> M S B) : mret a ≫= f ≡ f a.
Proof. intros s. done. Qed.

Lemma bind_ret_r {A} (m : M S A) : m ≫= mret ≡ m.
Proof.
  intros s. unfold mbind, M_bind. generalize (m s) as o. intros o.
  induction o as [|? ? IH|]; simpl; constructor. apply IH.
Qed.

(** Sequencing after a computation that returns, or that switches. *)
Lemma bind_done {A B} (m : M S A) (f : A -> M S B) s a s' :
  m s = Done a s' -> (m ≫= f) s = f a s'.
Proof. intros H. unfold mbind, M_bind. by rewrite H. Qed.

Lemma bind_switch {A B} (m : M S A) (f : A -> M S B) s s' k :
  m s = Switch s' k -> (m ≫= f) s = Switch s' (fun s'' => bind_out (k s'') f).
Proof. intros H. unfold mbind, M_bind. by rewrite H. Qed.

Lemma bind_inv_done {A B} (m : M S A) (f : A -> M S B) s b s' :
  (m ≫= f) s = Done b s' -> exists a s1, m s = Done a s1 /\ f a s1 = Done b s'.
Proof. unfold mbind, M_bind. destruct (m s) as [a s1| |]; simpl; naive_solver. Qed.
End Laws.

(** The state a computation that returns leaves, for examples. *)
Definition run {S A} (m : M S A) (s : S) : S :=
  match m s with Done _ s' => s' | _ => s end.

(** Conversion unfolds the monad before the services written in it. *)
#[global] Strategy expand [mbind M_bind mret M_ret bind_out get put modify switch when wr wg].

(** [run_m] computes a service on a state expression as far as its conditions
    are known. *)
Ltac run_m :=
  cbv beta delta [mbind M_bind mret M_ret get put modify when of_option switch stuck wr wg];
  cbn [bind_out negb andb orb]; state_simpl.

(** * Components of a state

    A service of a component, run on a state that contains the component's
    state in its field [p]. *)

Section Lift.
Context {S T : Type} (p : S -> T) `{!Setter p}.

Fixpoint lift_out {A} (s : S) (o : Out T A) : Out S A :=
  match o with
  | Done a t => Done a (s <| p := t |>)
  | Switch t k => Switch (s <| p := t |>) (fun s' => lift_out s' (k (p s')))
  | Stuck => Stuck
  end.

Definition lift {A} (m : M T A) : M S A := fun s => lift_out s (m (p s)).

Lemma lift_done {A} (m : M T A) s a t : m (p s) = Done a t -> lift m s = Done a (s <| p := t |>).
Proof. intros E. unfold lift. by rewrite E. Qed.

Lemma lift_switch {A} (m : M T A) s t k :
  m (p s) = Switch t k -> lift m s = Switch (s <| p := t |>) (fun s' => lift_out s' (k (p s'))).
Proof. intros E. unfold lift. by rewrite E. Qed.
End Lift.
