(* ===== verification/DList.v ===== *)
(** DList: circular doubly linked lists with a header node.

    The ready list, the timed list and the semaphore and message queues of
    the scheduler, and the wait queues of the fifos, are all rings of structs
    linked by a [next] and a [prev] field, with the list header as one of the
    nodes.  [ring nx pv h l] states that the nodes reached from [h] are [l],
    in order; linking and unlinking are the field writes the C code makes. *)

From S2P Require Import Prelude Resume.

Section Ring.
Context {K : Type} `{EqDecision K}.
Implicit Types (nx pv : K -> K) (a b h x y : K) (l : list K).

(** The links of the nodes from [a] to [b], [l] strictly between. *)
Fixpoint seg nx pv a l b : Prop :=
  match l with
  | [] => nx a = b /\ pv b = a
  | x :: l' => nx a = x /\ pv x = a /\ seg nx pv x l' b
  end.

Definition ring nx pv h l : Prop := seg nx pv h l h /\ NoDup (h :: l).

Lemma seg_app nx pv a l1 x l2 b :
  seg nx pv a (l1 ++ x :: l2) b <-> seg nx pv a l1 x /\ seg nx pv x l2 b.
Proof. revert a. induction l1 as [|y l1 IH]; intros a; simpl; [tauto|]. rewrite IH. tauto. Qed.

Lemma seg_next nx pv a l b : seg nx pv a l b -> nx a = hd b l.
Proof. destruct l; simpl; tauto. Qed.

Lemma seg_prev_elem nx pv a l b : seg nx pv a l b -> pv b ∈ a :: l.
Proof.
  revert a. induction l as [|x l IH]; intros a; simpl.
  - intros [_ ->]. list_in.
  - intros (_ & _ & H). apply IH in H. list_in.
Qed.

(** A segment depends on the [next] of all its nodes but [b], and on the
    [prev] of all its nodes but [a]. *)
Lemma seg_frame nx pv nx' pv' a l b :
  (forall y, y ∈ a :: l -> nx' y = nx y) ->
  (forall y, y ∈ l ++ [b] -> pv' y = pv y) ->
  seg nx pv a l b -> seg nx' pv' a l b.
Proof.
  revert a. induction l as [|x l IH]; intros a Hn Hp; simpl.
  - intros [H1 H2]. by rewrite Hn, Hp by (simpl; list_in).
  - intros (H1 & H2 & H3). rewrite Hn, Hp by list_in.
    split_and!; [done..|]. apply IH; [..|done]; intros; [apply Hn|apply Hp]; list_in.
Qed.

(** A segment whose last link is redirected from [b] to [b']. *)
Lemma seg_redirect nx pv nx' pv' a l b b' :
  NoDup (a :: l) -> seg nx pv a l b ->
  (forall y, y ∈ a :: l -> y <> pv b -> nx' y = nx y) ->
  (forall y, y ∈ l -> pv' y = pv y) ->
  nx' (pv b) = b' -> pv' b' = pv b -> seg nx' pv' a l b'.
Proof.
  revert a. induction l as [|x l IH]; intros a Hnd; simpl.
  - intros [H1 H2] _ _ Hn Hp. rewrite H2 in *. done.
  - intros (H1 & H2 & H3) Hn Hp Hn' Hp'. inversion_clear Hnd as [|? ? Ha Hnd'].
    pose proof (seg_prev_elem _ _ _ _ _ H3) as Hin.
    assert (a <> pv b) by (intros ->; done).
    rewrite Hn, Hp by list_in. split_and!; [done..|].
    apply IH; auto; intros; [apply Hn|apply Hp]; list_in.
Qed.

(** * Linking and unlinking *)

(** [x] linked before [b]: the four writes of
    [b->prev = (x->prev = b->prev)->next = x; x->next = b]. *)
Definition link_next nx pv x b : K -> K := <[x := b]> (<[pv b := x]> nx).
Definition link_prev pv x b : K -> K := <[b := x]> (<[x := pv b]> pv).
(** [x] unlinked: [x->prev->next = x->next; x->next->prev = x->prev]. *)
Definition unlink_next nx pv x : K -> K := <[pv x := nx x]> nx.
Definition unlink_prev nx pv x : K -> K := <[nx x := pv x]> pv.

(** The node after the first part of a ring is not in it. *)
Lemma hd_not_in h l1 l2 : NoDup (h :: l1 ++ l2) -> hd h l2 ∉ l1.
Proof.
  intros Hnd Hin. destruct l2 as [|b l2]; simpl in Hin.
  - rewrite app_nil_r in Hnd. by apply NoDup_cons in Hnd as [? _].
  - apply NoDup_cons in Hnd as [_ Hnd].
    by apply (NoDup_app_ne l1 (b :: l2) b b); [|list_in..].
Qed.

Lemma hd_not_tl h l1 b l2 y : NoDup (h :: l1 ++ b :: l2) -> y ∈ l2 ++ [h] -> y <> b.
Proof.
  intros Hnd Hy ->. apply NoDup_cons in Hnd as [Hh Hnd].
  apply NoDup_app in Hnd as (_ & _ & Hnd). apply NoDup_cons in Hnd as [Hb _].
  list_in.
Qed.

Lemma ring_split nx pv h l1 l2 :
  ring nx pv h (l1 ++ l2) -> seg nx pv h l1 (hd h l2).
Proof.
  intros [Hs _]. destruct l2 as [|y l2]; simpl; [by rewrite app_nil_r in Hs|].
  apply seg_app in Hs. tauto.
Qed.

Lemma ring_link nx pv h l1 l2 x :
  ring nx pv h (l1 ++ l2) -> x ∉ h :: l1 ++ l2 ->
  ring (link_next nx pv x (hd h l2)) (link_prev pv x (hd h l2)) h (l1 ++ x :: l2).
Proof.
  intros Hr Hx. pose proof (ring_split _ _ _ _ _ Hr) as H1. destruct Hr as [Hs Hnd].
  pose proof (hd_not_in _ _ _ Hnd) as Hb.
  pose proof (seg_prev_elem _ _ _ _ _ H1) as Hp.
  assert (Hbx : hd h l2 <> x) by (destruct l2; list_in).
  assert (Hpx : pv (hd h l2) <> x) by (intros E; rewrite E in Hp; list_in).
  split; [|rewrite app_comm_cons, <- Permutation_middle; by constructor].
  assert (HA : seg (link_next nx pv x (hd h l2)) (link_prev pv x (hd h l2)) h l1 x).
  { unfold link_next, link_prev. apply (seg_redirect nx pv _ _ _ _ (hd h l2)); auto.
    - rewrite app_comm_cons in Hnd. by apply NoDup_app in Hnd as (? & _ & _).
    - intros y Hy Hyp. rewrite !upd_ne; auto. intros ->. list_in.
    - intros y Hy. rewrite !upd_ne; [done|intros ->; list_in|by intros <-].
    - rewrite upd_ne by auto. apply upd_eq.
    - rewrite upd_ne by done. apply upd_eq. }
  apply seg_app. split; [done|]. unfold link_next, link_prev.
  destruct l2 as [|b l2]; simpl in *; [by rewrite !upd_eq|].
  split; [apply upd_eq|]. split; [apply upd_eq|].
  apply seg_app in Hs as [_ Hs]. revert Hs. apply seg_frame; intros y Hy.
  - rewrite !upd_ne; [done| |intros ->; list_in].
    apply (NoDup_app_ne (h :: l1) (b :: l2)); done.
  - rewrite !upd_ne; [done|intros ->; list_in|].
    apply not_eq_sym. by eapply hd_not_tl.
Qed.

Lemma ring_unlink nx pv h l1 l2 x :
  ring nx pv h (l1 ++ x :: l2) ->
  ring (unlink_next nx pv x) (unlink_prev nx pv x) h (l1 ++ l2).
Proof.
  intros [Hs Hnd]. pose proof Hs as [H1 H2]%seg_app.
  pose proof (seg_next _ _ _ _ _ H2) as Hn.
  pose proof (seg_prev_elem _ _ _ _ _ H1) as Hp.
  assert (Hnd0 : NoDup (h :: l1 ++ l2)).
  { rewrite app_comm_cons, <- Permutation_middle in Hnd. by apply NoDup_cons in Hnd as [_ ?]. }
  pose proof (hd_not_in _ _ _ Hnd0) as Hb.
  split; [|done]. unfold unlink_next, unlink_prev. rewrite Hn.
  assert (HA : seg (<[pv x := hd h l2]> nx) (<[hd h l2 := pv x]> pv) h l1 (hd h l2)).
  { apply (seg_redirect nx pv _ _ _ _ x); auto.
    - rewrite app_comm_cons in Hnd. by apply NoDup_app in Hnd as (? & _ & _).
    - intros y Hy Hyp. by rewrite upd_ne.
    - intros y Hy. rewrite upd_ne; [done|]. by intros <-.
    - apply upd_eq.
    - apply upd_eq. }
  destruct l2 as [|b l2]; simpl in *; [by rewrite app_nil_r|].
  apply seg_app. split; [done|].
  destruct H2 as (_ & _ & H2). revert H2. apply seg_frame; intros y Hy; rewrite upd_ne; try done.
  - apply (NoDup_app_ne (h :: l1) (b :: l2)); done.
  - apply not_eq_sym. by eapply hd_not_tl.
Qed.

(** Cutting off the first part of a ring. *)
Lemma ring_cut nx pv h l1 l2 :
  ring nx pv h (l1 ++ l2) -> ring (<[h := hd h l2]> nx) (<[hd h l2 := h]> pv) h l2.
Proof.
  intros [Hs Hnd].
  assert (Hnd2 : NoDup (h :: l2)).
  { apply NoDup_cons in Hnd as [Hh Hnd]. apply NoDup_cons. split; [list_in|].
    by apply NoDup_app in Hnd as (_ & _ & ?). }
  split; [|done]. destruct l2 as [|b l2]; simpl in *; [by rewrite !upd_eq|].
  rewrite !upd_eq. split_and!; [done..|].
  apply seg_app in Hs as [_ Hs]. apply NoDup_cons in Hnd2 as [Hh Hnd2].
  revert Hs. apply seg_frame; intros y Hy; rewrite upd_ne; try done.
  - intros ->. done.
  - apply not_eq_sym. apply (hd_not_tl h [] b l2); [by apply NoDup_cons|done].
Qed.

(** Links outside the ring and the node are untouched. *)
Lemma link_next_out nx pv h l1 l2 x y :
  ring nx pv h (l1 ++ l2) -> y ∉ x :: h :: l1 ++ l2 ->
  link_next nx pv x (hd h l2) y = nx y.
Proof.
  intros Hr Hy. pose proof (seg_prev_elem _ _ _ _ _ (ring_split _ _ _ _ _ Hr)).
  unfold link_next. rewrite !upd_ne; [done|intros <-; list_in|intros <-; list_in].
Qed.

Lemma link_prev_out pv h l1 l2 x y :
  y ∉ x :: h :: l1 ++ l2 -> link_prev pv x (hd h l2) y = pv y.
Proof.
  intros Hy. unfold link_prev.
  rewrite !upd_ne; [done|intros <-; list_in|]. intros <-. destruct l2; list_in.
Qed.

Lemma unlink_out nx pv h l1 l2 x y :
  ring nx pv h (l1 ++ x :: l2) -> y ∉ h :: l1 ++ x :: l2 ->
  unlink_next nx pv x y = nx y /\ unlink_prev nx pv x y = pv y.
Proof.
  intros [[H1 H2]%seg_app _] Hy.
  pose proof (seg_prev_elem _ _ _ _ _ H1). pose proof (seg_next _ _ _ _ _ H2).
  unfold unlink_next, unlink_prev. split; rewrite upd_ne; try done; intros <-.
  - list_in.
  - destruct l2; list_in.
Qed.

(** The ring of a header linked to itself is empty. *)
Lemma ring_nil nx pv h : nx h = h -> pv h = h -> ring nx pv h [].
Proof. intros. split; [done|]. apply NoDup_singleton. Qed.

Lemma ring_next nx pv h l : ring nx pv h l -> nx h = hd h l.
Proof. intros [Hs _]. by apply seg_next in Hs. Qed.

Lemma ring_NoDup nx pv h l : ring nx pv h l -> NoDup l.
Proof. intros [_ Hnd]. by apply NoDup_cons in Hnd as [_ ?]. Qed.

Lemma ring_not_head nx pv h l x : ring nx pv h l -> x ∈ l -> x <> h.
Proof. intros [_ Hnd] Hx ->. apply NoDup_cons in Hnd as [? _]. done. Qed.

Lemma ring_next_in nx pv h l1 x l2 : ring nx pv h (l1 ++ x :: l2) -> nx x = hd h l2.
Proof. intros [Hs _]. apply seg_app in Hs as [_ Hs]. by apply seg_next in Hs. Qed.

Lemma ring_frame nx pv nx' pv' h l :
  (forall y, y ∈ h :: l -> nx' y = nx y) -> (forall y, y ∈ h :: l -> pv' y = pv y) ->
  ring nx pv h l -> ring nx' pv' h l.
Proof.
  intros Hn Hp [Hs Hnd]. split; [|done]. revert Hs. apply seg_frame; [done|].
  intros y Hy. apply Hp. list_in.
Qed.

(** * Walking

    [while (p(x)) x = x->next;] with at most [fuel] steps. *)
Fixpoint walk (fuel : nat) (p : K -> bool) nx x : option K :=
  if p x then
    match fuel with
    | O => None
    | S fuel' => walk fuel' p nx (nx x)
    end
  else Some x.

Lemma walk_seg nx pv a l b p fuel :
  seg nx pv a l b -> p b = false -> (length l < fuel)%nat ->
  walk fuel p nx (nx a) = Some (hd b (drop_while p l)).
Proof.
  revert a fuel. induction l as [|x l IH]; intros a fuel Hs Hb Hf; simpl in *.
  - destruct Hs as [-> _]. destruct fuel; simpl; rewrite Hb; done.
  - destruct Hs as (-> & _ & Hs). destruct fuel as [|fuel]; [lia|]. simpl.
    destruct (p x) eqn:E; [|done]. by eapply IH; [..|lia].
Qed.

Lemma walk_ring nx pv h l p fuel :
  ring nx pv h l -> p h = false -> (length l < fuel)%nat ->
  walk fuel p nx (nx h) = Some (hd h (drop_while p l)).
Proof. intros [Hs _]. by eapply walk_seg. Qed.
End Ring.

(** A node of a ring is neither its header nor another node of it. *)
Lemma ring_middle `{EqDecision K} (nx pv : K -> K) h l1 x l2 :
  ring nx pv h (l1 ++ x :: l2) -> x <> h /\ x ∉ l1 ++ l2 /\ x ∉ h :: l1 ++ l2.
Proof.
  intros [_ Hnd]. rewrite <- Permutation_middle in Hnd.
  apply NoDup_cons in Hnd as [H1 H2]. apply NoDup_cons in H2 as [H2 _].
  assert (x <> h) by (intros ->; list_in). split_and!; [done|done|]. list_in.
Qed.

(** A ring determines where a node of it is. *)
Lemma ring_app_inj `{EqDecision K} (nx pv : K -> K) h l1 x l2 l1' l2' :
  ring nx pv h (l1 ++ x :: l2) -> ring nx pv h (l1' ++ x :: l2') -> l1 = l1' /\ l2 = l2'.
Proof.
  intros [Hs Hnd] [Hs' Hnd'].
  assert (Hu : forall l l' a, seg nx pv a l h -> seg nx pv a l' h -> h ∉ l -> h ∉ l' -> l = l').
  { induction l as [|y l IH]; intros [|y' l'] a H1 H2 N1 N2; simpl in H1, H2;
      rewrite ?not_elem_of_cons in *; [done|intuition congruence..|].
    destruct H1 as (E1 & _ & H1), H2 as (E2 & _ & H2). assert (y = y') as <- by congruence.
    f_equal. apply (IH _ y H1 H2); tauto. }
  apply NoDup_cons in Hnd as [Hn Hnd]. apply NoDup_cons in Hnd' as [Hn' Hnd'].
  pose proof (Hu _ _ _ Hs Hs' Hn Hn') as E. clear -E Hnd.
  revert l1' E. induction l1 as [|y l1 IH]; intros [|y' l1'] E; simpl in E; [injection E as E|injection E as E0 E..].
  - by subst.
  - exfalso. apply NoDup_cons in Hnd as [Hx _]. apply Hx. subst. rewrite elem_of_app. right. by left.
  - exfalso. apply NoDup_cons in Hnd as [Hx _]. apply Hx. subst. rewrite elem_of_app. right. by left.
  - apply NoDup_cons in Hnd as [_ Hnd]. destruct (IH Hnd _ E) as [-> ->]. by subst.
Qed.

(** The bound on the steps of a walk over a list. *)
Definition LIST_FUEL : nat := Z.to_nat 1024.

(** [while (cond(x)) x = nxt(x);] *)
Definition walkM {S A} `{EqDecision A} (p : A -> bool) (nxt : A -> A) (x : A) : M S A :=
  of_option (walk LIST_FUEL p nxt x).

(** A ring of concrete nodes, by evaluation. *)
Ltac solve_ring :=
  split;
  [ vm_compute; repeat split
  | apply (bool_decide_unpack _); vm_compute; exact I ].
