(* ===== verification/SchedState.v ===== *)
(** SchedState: the state of the scheduler.

    The structs of [include/rtai_sched.h] and the globals of
    [newlxrt/scheduler/rtai_sched.c], for one processor.  A struct field is an
    array indexed by the address of the struct ([task->f] is [f s task]);
    pointers to tasks are integers as in C ([0], [(void * )1] and [0xFFff]
    included), pointers to the queue and semaphore structs, which are embedded
    in other structs, are the inductive types [qptr] and [semp]. *)

From S2P Require Import Prelude Resume DList.

(** * Pointers *)

(** A [SEM *]: a semaphore of its own, or one inside a mailbox, a
    readers-writer lock, a message queue ([rtai_pqueue.c]) or a typed mailbox
    ([tbx.c]). *)
Inductive semp : Type :=
  | Sem (a : Z) | MbxSnd (m : Z) | MbxRcv (m : Z)
  | WrMtx (r : Z) | WrSem (r : Z) | RdSem (r : Z)
  | PqMutex (q : Z) | PqEmp (q : Z) | PqFull (q : Z)
  | TbxSnd (t : Z) | TbxRcv (t : Z) | TbxBcb (t : Z).

(** A [QUEUE *]: null, [SOMETHING], or the address of the [queue],
    [msg_queue] or [ret_queue] of a task or of the [queue] of a semaphore. *)
Inductive qptr : Type :=
  | QNull | QSomething
  | Queue (t : Z) | MsgQueue (t : Z) | RetQueue (t : Z) | SemQueue (s : semp).

#[export] Instance semp_eq_dec : EqDecision semp.
Proof. solve_decision. Defined.
#[export] Instance qptr_eq_dec : EqDecision qptr.
Proof. solve_decision. Defined.

(** * Requests to the hardware and to Linux *)
Inductive event : Type :=
  | PendLinuxSrq (srq : Z) | PendLinuxIrq (irq : Z) | SetTimerChip (delay : Z)
  | SwitchToRealTime | SwitchToLinux | ScheduleLinux | TaskSwitch (prev next : Z)
  | StopKthread (t : Z) | UpdateLinuxTimer | SetTimerDelay | EnableFpu | RestoreFpu (prev : Z)
  | CallSignal (handler : Z) | CallExitHandlers (t : Z) | SaveCr0 | RestoreCr0
  | SaveFpenv (t : Z) | RestoreFpenv (t : Z) | FreeMem (p : Z) | Printk
  | RequestTimer (tick : Z) | FreeTimer | RequestLinuxIrq (irq : Z) | FreeLinuxIrq (irq : Z) | BusySleep (ns : Z).

(** * The state *)
Record RTAI : Type := mkRTAI {
  (* struct rt_task_struct, by task address *)
  magic : Z -> Z;
  state : Z -> Z;
  priority : Z -> Z;
  base_priority : Z -> Z;
  policy : Z -> Z;
  sched_lock_priority : Z -> Z;
  prio_passed_to : Z -> Z;
  period : Z -> Z;
  resume_time : Z -> Z;
  yield_time : Z -> Z;
  rr_quantum : Z -> Z;
  rr_remaining : Z -> Z;
  suspdepth : Z -> Z;
  owndres : Z -> Z;
  msg : Z -> Z;
  uses_fpu : Z -> Z;
  runnable_on_cpus : Z -> Z;
  signal : Z -> Z;
  prev : Z -> Z;
  next : Z -> Z;
  tprev : Z -> Z;
  tnext : Z -> Z;
  rprev : Z -> Z;
  rnext : Z -> Z;
  lnxtsk : Z -> Z;
  retval : Z -> Z;
  nextp : Z -> Z;
  prevp : Z -> Z;
  is_hard : Z -> Z;
  force_soft : Z -> Z;
  resync_frame : Z -> Z;
  exectime0 : Z -> Z;
  exectime1 : Z -> Z;
  stack_bottom : Z -> Z;
  ExitHook : Z -> Z;
  blocked_on : Z -> qptr;
  (* the first word of the area at [stack_bottom]: [receiver] of a proxy *)
  receiver : Z -> Z;
  (* struct rt_queue, by queue address *)
  q_prev : qptr -> qptr;
  q_next : qptr -> qptr;
  q_task : qptr -> Z;
  (* struct rt_semaphore, by semaphore address *)
  sem_magic : semp -> Z;
  sem_type : semp -> Z;
  sem_count : semp -> Z;
  sem_owndby : semp -> Z;
  sem_qtype : semp -> Z;
  (* struct rt_mailbox, by mailbox address *)
  mbx_magic : Z -> Z;
  waiting_task : Z -> Z;
  mbx_owndby : Z -> Z;
  mbx_size : Z -> Z;
  mbx_fbyte : Z -> Z;
  mbx_lbyte : Z -> Z;
  mbx_avbs : Z -> Z;
  mbx_frbs : Z -> Z;
  mbx_bufadr : Z -> list Z;
  (* struct rt_spl_t, by lock address *)
  spl_owndby : Z -> Z;
  spl_count : Z -> Z;
  spl_flags : Z -> Z;
  (* struct task_struct of Linux, by address *)
  p_state : Z -> Z;
  p_rt_priority : Z -> Z;
  (* wake_up_srq and frstk_srq: rings of pointers handed to Linux *)
  wus_in : Z;
  wus_out : Z;
  wus_task : Z -> Z;
  fss_in : Z;
  fss_out : Z;
  fss_mp : Z -> Z;
  (* the per-cpu variables of cpu 0 *)
  rt_smp_current : Z;
  fpu_task : Z;
  rt_time_h : Z;
  rt_half_tick : Z;
  oneshot_timer : Z;
  oneshot_running : Z;
  shot_fired : Z;
  preempt_always : Z;
  sched_rqsted : Z;
  tasks_per_cpu : Z;
  wdog_task : Z;
  to_linux_depth : Z;
  lxrt_hrt_flags : Z;
  switch_time : Z;
  (* rt_times of cpu 0 *)
  linux_tick : Z;
  periodic_tick : Z;
  tick_time : Z;
  linux_time : Z;
  intr_time : Z;
  (* tuned, the timer frequency, the time stamp counter, Linux's [current] *)
  tuned_latency : Z;
  setup_time_TIMER_CPUNIT : Z;
  setup_time_TIMER_UNIT : Z;
  cpu_freq : Z;
  TIMER_FREQ : Z;
  tsc : Z;
  current : Z;
  (* what the scheduler asked of the hardware and of Linux, latest first *)
  log : list event
}.

#[export] Instance RTAI_eta : Eta RTAI := fun s =>
  mkRTAI
    (magic s) (state s) (priority s) (base_priority s) (policy s) (sched_lock_priority s)
    (prio_passed_to s) (period s) (resume_time s) (yield_time s) (rr_quantum s)
    (rr_remaining s) (suspdepth s) (owndres s) (msg s) (uses_fpu s) (runnable_on_cpus s)
    (signal s) (prev s) (next s) (tprev s) (tnext s) (rprev s) (rnext s) (lnxtsk s) (retval
    s) (nextp s) (prevp s) (is_hard s) (force_soft s) (resync_frame s) (exectime0 s)
    (exectime1 s) (stack_bottom s) (ExitHook s) (blocked_on s) (receiver s) (q_prev s)
    (q_next s) (q_task s) (sem_magic s) (sem_type s) (sem_count s) (sem_owndby s) (sem_qtype
    s) (mbx_magic s) (waiting_task s) (mbx_owndby s) (mbx_size s) (mbx_fbyte s) (mbx_lbyte
    s) (mbx_avbs s) (mbx_frbs s) (mbx_bufadr s) (spl_owndby s) (spl_count s) (spl_flags s)
    (p_state s) (p_rt_priority s) (wus_in s) (wus_out s) (wus_task s) (fss_in s) (fss_out s)
    (fss_mp s) (rt_smp_current s) (fpu_task s) (rt_time_h s) (rt_half_tick s) (oneshot_timer
    s) (oneshot_running s) (shot_fired s) (preempt_always s) (sched_rqsted s) (tasks_per_cpu
    s) (wdog_task s) (to_linux_depth s) (lxrt_hrt_flags s) (switch_time s) (linux_tick s)
    (periodic_tick s) (tick_time s) (linux_time s) (intr_time s) (tuned_latency s)
    (setup_time_TIMER_CPUNIT s) (setup_time_TIMER_UNIT s) (cpu_freq s) (TIMER_FREQ s) (tsc
    s) (current s) (log s).

#[export] Instance set_magic : Setter magic := ltac:(mk_setter).
#[export] Instance set_state : Setter state := ltac:(mk_setter).
#[export] Instance set_priority : Setter priority := ltac:(mk_setter).
#[export] Instance set_base_priority : Setter base_priority := ltac:(mk_setter).
#[export] Instance set_policy : Setter policy := ltac:(mk_setter).
#[export] Instance set_sched_lock_priority : Setter sched_lock_priority := ltac:(mk_setter).
#[export] Instance set_prio_passed_to : Setter prio_passed_to := ltac:(mk_setter).
#[export] Instance set_period : Setter period := ltac:(mk_setter).
#[export] Instance set_resume_time : Setter resume_time := ltac:(mk_setter).
#[export] Instance set_yield_time : Setter yield_time := ltac:(mk_setter).
#[export] Instance set_rr_quantum : Setter rr_quantum := ltac:(mk_setter).
#[export] Instance set_rr_remaining : Setter rr_remaining := ltac:(mk_setter).
#[export] Instance set_suspdepth : Setter suspdepth := ltac:(mk_setter).
#[export] Instance set_owndres : Setter owndres := ltac:(mk_setter).
#[export] Instance set_msg : Setter msg := ltac:(mk_setter).
#[export] Instance set_uses_fpu : Setter uses_fpu := ltac:(mk_setter).
#[export] Instance set_runnable_on_cpus : Setter runnable_on_cpus := ltac:(mk_setter).
#[export] Instance set_signal : Setter signal := ltac:(mk_setter).
#[export] Instance set_prev : Setter prev := ltac:(mk_setter).
#[export] Instance set_next : Setter next := ltac:(mk_setter).
#[export] Instance set_tprev : Setter tprev := ltac:(mk_setter).
#[export] Instance set_tnext : Setter tnext := ltac:(mk_setter).
#[export] Instance set_rprev : Setter rprev := ltac:(mk_setter).
#[export] Instance set_rnext : Setter rnext := ltac:(mk_setter).
#[export] Instance set_lnxtsk : Setter lnxtsk := ltac:(mk_setter).
#[export] Instance set_retval : Setter retval := ltac:(mk_setter).
#[export] Instance set_nextp : Setter nextp := ltac:(mk_setter).
#[export] Instance set_prevp : Setter prevp := ltac:(mk_setter).
#[export] Instance set_is_hard : Setter is_hard := ltac:(mk_setter).
#[export] Instance set_force_soft : Setter force_soft := ltac:(mk_setter).
#[export] Instance set_resync_frame : Setter resync_frame := ltac:(mk_setter).
#[export] Instance set_exectime0 : Setter exectime0 := ltac:(mk_setter).
#[export] Instance set_exectime1 : Setter exectime1 := ltac:(mk_setter).
#[export] Instance set_stack_bottom : Setter stack_bottom := ltac:(mk_setter).
#[export] Instance set_ExitHook : Setter ExitHook := ltac:(mk_setter).
#[export] Instance set_blocked_on : Setter blocked_on := ltac:(mk_setter).
#[export] Instance set_receiver : Setter receiver := ltac:(mk_setter).
#[export] Instance set_q_prev : Setter q_prev := ltac:(mk_setter).
#[export] Instance set_q_next : Setter q_next := ltac:(mk_setter).
#[export] Instance set_q_task : Setter q_task := ltac:(mk_setter).
#[export] Instance set_sem_magic : Setter sem_magic := ltac:(mk_setter).
#[export] Instance set_sem_type : Setter sem_type := ltac:(mk_setter).
#[export] Instance set_sem_count : Setter sem_count := ltac:(mk_setter).
#[export] Instance set_sem_owndby : Setter sem_owndby := ltac:(mk_setter).
#[export] Instance set_sem_qtype : Setter sem_qtype := ltac:(mk_setter).
#[export] Instance set_mbx_magic : Setter mbx_magic := ltac:(mk_setter).
#[export] Instance set_waiting_task : Setter waiting_task := ltac:(mk_setter).
#[export] Instance set_mbx_owndby : Setter mbx_owndby := ltac:(mk_setter).
#[export] Instance set_mbx_size : Setter mbx_size := ltac:(mk_setter).
#[export] Instance set_mbx_fbyte : Setter mbx_fbyte := ltac:(mk_setter).
#[export] Instance set_mbx_lbyte : Setter mbx_lbyte := ltac:(mk_setter).
#[export] Instance set_mbx_avbs : Setter mbx_avbs := ltac:(mk_setter).
#[export] Instance set_mbx_frbs : Setter mbx_frbs := ltac:(mk_setter).
#[export] Instance set_mbx_bufadr : Setter mbx_bufadr := ltac:(mk_setter).
#[export] Instance set_spl_owndby : Setter spl_owndby := ltac:(mk_setter).
#[export] Instance set_spl_count : Setter spl_count := ltac:(mk_setter).
#[export] Instance set_spl_flags : Setter spl_flags := ltac:(mk_setter).
#[export] Instance set_p_state : Setter p_state := ltac:(mk_setter).
#[export] Instance set_p_rt_priority : Setter p_rt_priority := ltac:(mk_setter).
#[export] Instance set_wus_in : Setter wus_in := ltac:(mk_setter).
#[export] Instance set_wus_out : Setter wus_out := ltac:(mk_setter).
#[export] Instance set_wus_task : Setter wus_task := ltac:(mk_setter).
#[export] Instance set_fss_in : Setter fss_in := ltac:(mk_setter).
#[export] Instance set_fss_out : Setter fss_out := ltac:(mk_setter).
#[export] Instance set_fss_mp : Setter fss_mp := ltac:(mk_setter).
#[export] Instance set_rt_smp_current : Setter rt_smp_current := ltac:(mk_setter).
#[export] Instance set_fpu_task : Setter fpu_task := ltac:(mk_setter).
#[export] Instance set_rt_time_h : Setter rt_time_h := ltac:(mk_setter).
#[export] Instance set_rt_half_tick : Setter rt_half_tick := ltac:(mk_setter).
#[export] Instance set_oneshot_timer : Setter oneshot_timer := ltac:(mk_setter).
#[export] Instance set_oneshot_running : Setter oneshot_running := ltac:(mk_setter).
#[export] Instance set_shot_fired : Setter shot_fired := ltac:(mk_setter).
#[export] Instance set_preempt_always : Setter preempt_always := ltac:(mk_setter).
#[export] Instance set_sched_rqsted : Setter sched_rqsted := ltac:(mk_setter).
#[export] Instance set_tasks_per_cpu : Setter tasks_per_cpu := ltac:(mk_setter).
#[export] Instance set_wdog_task : Setter wdog_task := ltac:(mk_setter).
#[export] Instance set_to_linux_depth : Setter to_linux_depth := ltac:(mk_setter).
#[export] Instance set_lxrt_hrt_flags : Setter lxrt_hrt_flags := ltac:(mk_setter).
#[export] Instance set_switch_time : Setter switch_time := ltac:(mk_setter).
#[export] Instance set_linux_tick : Setter linux_tick := ltac:(mk_setter).
#[export] Instance set_periodic_tick : Setter periodic_tick := ltac:(mk_setter).
#[export] Instance set_tick_time : Setter tick_time := ltac:(mk_setter).
#[export] Instance set_linux_time : Setter linux_time := ltac:(mk_setter).
#[export] Instance set_intr_time : Setter intr_time := ltac:(mk_setter).
#[export] Instance set_tuned_latency : Setter tuned_latency := ltac:(mk_setter).
#[export] Instance set_setup_time_TIMER_CPUNIT : Setter setup_time_TIMER_CPUNIT := ltac:(mk_setter).
#[export] Instance set_setup_time_TIMER_UNIT : Setter setup_time_TIMER_UNIT := ltac:(mk_setter).
#[export] Instance set_cpu_freq : Setter cpu_freq := ltac:(mk_setter).
#[export] Instance set_TIMER_FREQ : Setter TIMER_FREQ := ltac:(mk_setter).
#[export] Instance set_tsc : Setter tsc := ltac:(mk_setter).
#[export] Instance set_current : Setter current := ltac:(mk_setter).
#[export] Instance set_log : Setter log := ltac:(mk_setter).

(** The state of a zeroed data segment. *)
Definition rtai_zero : RTAI :=
  mkRTAI
    (fun _ => 0) (fun _ => 0) (fun _ => 0) (fun _ => 0) (fun _ => 0) (fun _ => 0) (fun _ =>
    0) (fun _ => 0) (fun _ => 0) (fun _ => 0) (fun _ => 0) (fun _ => 0) (fun _ => 0) (fun _
    => 0) (fun _ => 0) (fun _ => 0) (fun _ => 0) (fun _ => 0) (fun _ => 0) (fun _ => 0) (fun
    _ => 0) (fun _ => 0) (fun _ => 0) (fun _ => 0) (fun _ => 0) (fun _ => 0) (fun _ => 0)
    (fun _ => 0) (fun _ => 0) (fun _ => 0) (fun _ => 0) (fun _ => 0) (fun _ => 0) (fun _ =>
    0) (fun _ => 0) (fun _ => QNull) (fun _ => 0) (fun _ => QNull) (fun _ => QNull) (fun _
    => 0) (fun _ => 0) (fun _ => 0) (fun _ => 0) (fun _ => 0) (fun _ => 0) (fun _ => 0) (fun
    _ => 0) (fun _ => 0) (fun _ => 0) (fun _ => 0) (fun _ => 0) (fun _ => 0) (fun _ => 0)
    (fun _ => []) (fun _ => 0) (fun _ => 0) (fun _ => 0) (fun _ => 0) (fun _ => 0) 0 0 (fun
    _ => 0) 0 0 (fun _ => 0) 0 0 0 0 0 0 0 0 0 0 0 0 0 0 0 0 0 0 0 0 0 0 0 0 0 0 [].

(** * Reads and writes *)

Abbreviation K A := (M RTAI A).

Definition emit (e : event) : K unit := modify (fun s => s <| log ::= cons e |>).

(** * Constants of the sources *)

Definition READY : Z := 1.
Definition SUSPENDED : Z := 2.
Definition DELAYED : Z := 4.
Definition SEMAPHORE : Z := 8.
Definition SEND : Z := 16.
Definition RECEIVE : Z := 32.
Definition RPC : Z := 64.
Definition RETURN : Z := 128.
Definition RUNNING : Z := 256.
Definition MBXSUSP : Z := 512.

Definition PRIO_Q : Z := 0.
Definition FIFO_Q : Z := 4.
Definition RES_Q : Z := 3.
Definition BIN_SEM : Z := 1.
Definition CNT_SEM : Z := 2.
Definition RES_SEM : Z := 3.

Definition RT_TASK_MAGIC : Z := 1967990644. (* 0x754d2774 *)
Definition RT_SEM_MAGIC : Z := -1430462721. (* 0xaabcdeff as an int *)
Definition RT_MBX_MAGIC : Z := 987000475. (* 0x3ad46e9b *)
Definition SEM_ERR : Z := 65535.
Definition SEM_TIMOUT : Z := 65534.
Definition MSG_ERR : Z := 65535.
Definition NOTHING : Z := 0.
Definition SOMETHING : Z := 1.
Definition RT_LINUX_PRIORITY : Z := 2147483647.
Definition RT_HIGHEST_PRIORITY : Z := 0.
Definition RT_LOWEST_PRIORITY : Z := 1073741823.
Definition BASE_SOFT_PRIORITY : Z := 1000000000.
Definition RT_TIME_END : Z := LLONG_MAX.
Definition TASK_HARDREALTIME : Z := 2.
Definition SEMHLF : Z := 65535. (* 0x0000FFFF *)
Definition RPCHLF : Z := 4294901760. (* 0xFFFF0000 *)
Definition RPCINC : Z := 65536.
Definition MAX_SRQ : Z := 128. (* 2 << 6 *)
Definition EINVAL : Z := 22.
Definition ENOMEM : Z := 12.
Definition EBUSY : Z := 16.
Definition EFAULT : Z := 14.
Definition ETIME : Z := 62.
Definition EAGAIN : Z := 11.
Definition ERANGE : Z := 34.
Definition TIMER_8254_IRQ : Z := 0.

(** The address of [rt_smp_linux_task[0]], the task that stands for Linux and
    heads the ready, timed and task lists. *)
Definition rt_linux_task : Z := 16.

(** * Symbolic execution

    [step_m] unfolds the monad and simplifies reads over writes; a call stays
    folded until its specification is rewritten. *)
Ltac unfold_m :=
  cbv beta delta [mbind M_bind mret M_ret get put modify when of_option switch stuck
                  wr wg emit].
Ltac step_m := unfold_m; cbn [bind_out negb andb orb]; state_simpl.
