(* ===== verification/SchedQueues.v ===== *)
(** SchedQueues: the ready list, the timed list and the wait queues.

    The list operations of [newlxrt/scheduler/rtai_sched.c] (sections TASKS
    and SEMAPHORES), on the linked structs of [SchedState], and the lists they
    implement: the ready list of a processor is sorted by priority, its timed
    list by resume time, and the queue of a semaphore or a message queue by
    priority or by arrival. *)

From S2P Require Import Prelude Resume DList SchedState.

(** * Linking

    The writes the C code repeats wherever a task or a queue element is
    linked before another, or unlinked. *)

(** [task->rprev = (x->rprev = task->rprev)->rnext = x; x->rnext = task;] *)
Definition rlink (x task : Z) : K unit :=
  s ← get;
  wr rprev x (rprev s task);;
  s ← get;
  wr rnext (rprev s x) x;;
  wr rprev task x;;
  wr rnext x task.

(** [(task->rprev)->rnext = task->rnext; (task->rnext)->rprev = task->rprev;] *)
Definition runlink (task : Z) : K unit :=
  s ← get;
  wr rnext (rprev s task) (rnext s task);;
  s ← get;
  wr rprev (rnext s task) (rprev s task).

(** The same on [tprev] and [tnext]. *)
Definition tlink (x task : Z) : K unit :=
  s ← get;
  wr tprev x (tprev s task);;
  s ← get;
  wr tnext (tprev s x) x;;
  wr tprev task x;;
  wr tnext x task.

Definition tunlink (task : Z) : K unit :=
  s ← get;
  wr tnext (tprev s task) (tnext s task);;
  s ← get;
  wr tprev (tnext s task) (tprev s task).

(** The same on the [prev] and [next] of the queue structs:
    [q->prev = (task->queue.prev = q->prev)->next = &(task->queue);
     task->queue.next = q;] *)
Definition qlink (x q : qptr) : K unit :=
  s ← get;
  wr q_prev x (q_prev s q);;
  s ← get;
  wr q_next (q_prev s x) x;;
  wr q_prev q x;;
  wr q_next x q.

Definition qunlink (x : qptr) : K unit :=
  s ← get;
  wr q_next (q_prev s x) (q_next s x);;
  s ← get;
  wr q_prev (q_next s x) (q_prev s x).

(** [wake_up_srq.task[wake_up_srq.in] = t;] and the advance of [in], then
    [rt_pend_linux_srq(wake_up_srq.srq)]. *)
Definition wake_up_srq_put (t : Z) : K unit :=
  s ← get;
  wr wus_task (wus_in s) t;;
  wg wus_in (Z.land (wus_in s + 1) (MAX_SRQ - 1));;
  emit (PendLinuxSrq 0).

(** * The ready list *)

Definition enq_ready_edf_task (ready_task : Z) : K unit :=
  s ← get;
  task ← walkM (fun t => (policy s t <? 0) && (period s ready_task >=? period s t))
           (rnext s) (rnext s rt_linux_task);
  rlink ready_task task.

(** The loop of [enq_ready_task]:
    [while (prio >= task->priority) { if ((task = task->rnext)->priority < 0) break; }] *)
Fixpoint enq_ready_walk (fuel : nat) (prio : Z) (s : RTAI) (task : Z) : option Z :=
  if prio >=? priority s task then
    match fuel with
    | O => None
    | S fuel' =>
        let task := rnext s task in
        if priority s task <? 0 then Some task else enq_ready_walk fuel' prio s task
    end
  else Some task.

Definition enq_ready_task (ready_task : Z) : K unit :=
  s ← get;
  if nz (is_hard s ready_task) || negb (p_state s (lnxtsk s ready_task) =? TASK_HARDREALTIME) then
    task ← of_option (enq_ready_walk LIST_FUEL (priority s ready_task) s (rnext s rt_linux_task));
    rlink ready_task task
  else wake_up_srq_put (lnxtsk s ready_task).

Definition renq_ready_task (ready_task prio : Z) : K Z :=
  s ← get;
  if negb (priority s ready_task =? prio) then
    wr priority ready_task prio;;
    when (state s ready_task =? READY) (runlink ready_task;; enq_ready_task ready_task);;
    mret 1
  else mret 0.

Definition renq_current (rt_current prio : Z) : K Z :=
  s ← get;
  if negb (priority s rt_current =? prio) then
    wr priority rt_current prio;;
    runlink rt_current;;
    enq_ready_task rt_current;;
    mret 1
  else mret 0.

(** A soft task that leaves the ready list leaves the Linux one too. *)
Definition soft_to_hardrealtime (task : Z) : K unit :=
  s ← get;
  when (negb (nz (is_hard s task)))
    (wr p_state (lnxtsk s task) TASK_HARDREALTIME;;
     wr p_rt_priority (lnxtsk s task) (i32 (2 * BASE_SOFT_PRIORITY - 1 - priority s task))).

Definition rem_ready_task (task : Z) : K unit :=
  s ← get;
  when (state s task =? READY) (soft_to_hardrealtime task;; runlink task).

Definition rem_ready_current (rt_current : Z) : K unit :=
  soft_to_hardrealtime rt_current;; runlink rt_current.

(** * The timed list *)

Definition enq_timed_task (timed_task : Z) : K unit :=
  s ← get;
  when (negb (nz (is_hard s timed_task)))
    (wr p_state (lnxtsk s timed_task) TASK_HARDREALTIME);;
  s ← get;
  task ← walkM (fun t => resume_time s timed_task >? resume_time s t)
           (tnext s) (tnext s rt_linux_task);
  tlink timed_task task.

(** The states a timeout ends. *)
Definition TIMEOUT_MASK : Z :=
  Z.lor DELAYED (Z.lor SEMAPHORE (Z.lor RECEIVE (Z.lor SEND (Z.lor RPC (Z.lor RETURN MBXSUSP))))).

Fixpoint wake_up_loop (fuel : nat) (task : Z) : K Z :=
  s ← get;
  if resume_time s task <=? rt_time_h s then
    match fuel with
    | O => stuck
    | S fuel' =>
        wr state task (clr (state s task) TIMEOUT_MASK);;
        s ← get;
        when (state s task =? READY)
          (if policy s task <? 0 then enq_ready_edf_task task else enq_ready_task task);;
        s ← get;
        wake_up_loop fuel' (tnext s task)
    end
  else mret task.

Definition wake_up_timed_tasks : K unit :=
  s ← get;
  task ← wake_up_loop LIST_FUEL (tnext s rt_linux_task);
  wr tnext rt_linux_task task;;
  wr tprev task rt_linux_task.

Definition rem_timed_task (task : Z) : K unit :=
  s ← get;
  when (has (state s task) DELAYED) (tunlink task).

(** The processor with the fewest tasks: the first minimum of the counters,
    as the loop over [tasks_per_cpu] finds it. *)
Fixpoint min_tasks_loop (i cpuid : nat) (min : Z) (counts : list Z) : nat :=
  match counts with
  | [] => cpuid
  | c :: counts' =>
      if c <? min then min_tasks_loop (S i) i c counts'
      else min_tasks_loop (S i) cpuid min counts'
  end.

Definition get_min_tasks_cpuid (counts : list Z) : nat :=
  match counts with
  | [] => 0%nat
  | c :: counts' => min_tasks_loop 1 0 c counts'
  end.

(** * The queues of semaphores and messages *)

(** [while ((q = q->next) != queue && (q->task)->priority <= prio);] *)
Definition queue_walk (queue : qptr) (prio : Z) (s : RTAI) : K qptr :=
  walkM (fun q => negb (bool_decide (q = queue)) && (priority s (q_task s q) <=? prio))
    (q_next s) (q_next s queue).

Definition enqueue_blocked (task : Z) (queue : qptr) (qtype : Z) : K unit :=
  wr blocked_on task queue;;
  s ← get;
  q ← (if nz qtype then mret queue else queue_walk queue (priority s task) s);
  qlink (Queue task) q.

Definition dequeue_blocked (task : Z) : K unit :=
  wr prio_passed_to task NOTHING;;
  qunlink (Queue task);;
  wr blocked_on task QNull.

(** [(q = to->blocked_on) && !((to->state & SEMAPHORE) && ((SEM * )q)->qtype)]:
    the task waits in a queue ordered by priority. *)
Definition in_prio_queue (s : RTAI) (t : Z) : bool :=
  negb (bool_decide (blocked_on s t = QNull)) &&
  negb (has (state s t) SEMAPHORE &&
        match blocked_on s t with SemQueue sem => nz (sem_qtype s sem) | _ => false end).

(** The element of a waiting task moved to its place for the priority. *)
Definition requeue_blocked (task prio : Z) : K unit :=
  s ← get;
  let queue := blocked_on s task in
  qunlink (Queue task);;
  s ← get;
  q ← queue_walk queue prio s;
  qlink (Queue task) q.

(** Priority inheritance: the loop of [pass_prio], with the map of the
    processors to schedule. *)
Fixpoint pass_prio_loop (fuel : nat) (to prio schedmap : Z) : K Z :=
  s ← get;
  if nz to && (priority s to >? prio) then
    match fuel with
    | O => stuck
    | S fuel' =>
        wr priority to prio;;
        schedmap ←
          (if state s to =? READY then
             runlink to;; enq_ready_task to;;
             mret (Z.lor schedmap (Z.shiftl 1 (runnable_on_cpus s to)))
           else if in_prio_queue s to then
             requeue_blocked to prio;; mret schedmap
           else mret schedmap);
        s ← get;
        pass_prio_loop fuel' (prio_passed_to s to) prio schedmap
    end
  else mret schedmap.

Definition pass_prio (to from : Z) : K Z :=
  wr prio_passed_to from to;;
  s ← get;
  pass_prio_loop LIST_FUEL to (priority s from) 0.

(** * The lists *)

Definition ready_list (s : RTAI) (l : list Z) : Prop :=
  ring (rnext s) (rprev s) rt_linux_task l.

Definition timed_list (s : RTAI) (l : list Z) : Prop :=
  ring (tnext s) (tprev s) rt_linux_task l.

(** The tasks waiting in [q], the queue of a semaphore or a message queue. *)
Definition wait_queue (s : RTAI) (q : qptr) (l : list Z) : Prop :=
  ring (q_next s) (q_prev s) q (Queue <$> l) /\
  (forall t, t ∈ l -> q_task s (Queue t) = t).

(** Where [enq_ready_task] puts a task of priority [p]: after the tasks whose
    priority is not lower, but not beyond a task that locks the scheduler
    (whose priority is negative) unless it is the first one. *)
Fixpoint insert_ready (prio : Z -> Z) (p t : Z) (l : list Z) : list Z :=
  match l with
  | [] => [t]
  | x :: l' =>
      if p >=? prio x then
        match l' with
        | y :: _ => if prio y <? 0 then x :: t :: l' else x :: insert_ready prio p t l'
        | [] => [x; t]
        end
      else t :: l
  end.

(** At most the first task of the list locks the scheduler. *)
Definition lock_first (prio : Z -> Z) (l : list Z) : Prop :=
  forall x, x ∈ tail l -> 0 <= prio x.

Lemma insert_ready_cons prio p t x y l :
  insert_ready prio p t (x :: y :: l) =
    if p >=? prio x then
      if prio y <? 0 then x :: t :: y :: l else x :: insert_ready prio p t (y :: l)
    else t :: x :: y :: l.
Proof. done. Qed.

Lemma insert_ready_after prio p t l :
  lock_first prio l -> insert_ready prio p t l = insert_after (fun y => prio y <=? p) t l.
Proof.
  unfold insert_after. induction l as [|x [|y l] IH]; intros Hl; [done|..].
  - simpl. rewrite Z.geb_leb. by destruct (prio x <=? p).
  - rewrite insert_ready_cons, Z.geb_leb.
    assert (Hy : (prio y <? 0) = false) by (apply Z.ltb_ge, Hl; list_in).
    rewrite Hy, IH by (intros z Hz; apply Hl; list_in).
    cbn [take_while drop_while]. by destruct (prio x <=? p).
Qed.

Lemma insert_ready_split prio p t l :
  exists l1 l2, l = l1 ++ l2 /\ insert_ready prio p t l = l1 ++ t :: l2.
Proof.
  induction l as [|x [|y l] IH]; [by exists [], []|..].
  - simpl. destruct (p >=? prio x); [by exists [x], []|by exists [], [x]].
  - rewrite insert_ready_cons. destruct (p >=? prio x); [|by exists [], (x :: y :: l)].
    destruct (prio y <? 0); [by exists [x], (y :: l)|].
    destruct IH as (l1 & l2 & E & E'). exists (x :: l1), l2. rewrite E', E. done.
Qed.

Lemma insert_ready_perm prio p t l : insert_ready prio p t l ≡ₚ t :: l.
Proof.
  destruct (insert_ready_split prio p t l) as (l1 & l2 & -> & ->).
  by rewrite Permutation_middle.
Qed.

Lemma insert_ready_head prio p t x l : prio x <= p -> exists l', insert_ready prio p t (x :: l) = x :: l'.
Proof.
  intros H. destruct l as [|y l]; [cbn; rewrite Z.geb_leb, (proj2 (Z.leb_le _ _)) by done; by eexists|].
  rewrite insert_ready_cons, Z.geb_leb, (proj2 (Z.leb_le _ _)) by done. destruct (prio y <? 0); by eexists.
Qed.

Lemma insert_ready_ext prio prio' p t l :
  (forall x, x ∈ l -> prio x = prio' x) ->
  insert_ready prio p t l = insert_ready prio' p t l.
Proof.
  induction l as [|x [|y l] IH]; intros H; [done|..].
  - simpl. rewrite (H x) by list_in. done.
  - rewrite !insert_ready_cons, (H x), (H y) by list_in.
    rewrite IH; [done|]. intros z Hz. apply H. list_in.
Qed.

(** The place of an EDF task: after the EDF tasks with an earlier or equal
    deadline. *)
Definition insert_edf (pol per : Z -> Z) (t : Z) (l : list Z) : list Z :=
  insert_after (fun y => (pol y <? 0) && (per t >=? per y)) t l.

(** The place of a task in the timed list: before the first task that does
    not resume earlier. *)
Definition insert_timed (res : Z -> Z) (t : Z) (l : list Z) : list Z :=
  insert_after (fun y => res t >? res y) t l.

(** The place of a task in a wait queue. *)
Definition insert_blocked (prio : Z -> Z) (qtype t : Z) (l : list Z) : list Z :=
  if nz qtype then l ++ [t] else insert_after (fun y => prio y <=? prio t) t l.

(** [s'] is [s] but for the links of the ready list (timed list, queues). *)
Definition ready_links (s s' : RTAI) : Prop :=
  exists P N, s' = s <| rprev := P |> <| rnext := N |>.
Definition timed_links (s s' : RTAI) : Prop :=
  exists P N, s' = s <| tprev := P |> <| tnext := N |>.

(** A list is short enough to be walked. *)
Definition fits {A} (l : list A) : Prop := (length l < LIST_FUEL)%nat.

(** * Linking, in one step *)

Section Link.
Implicit Types (s : RTAI) (l : list Z).

Lemma rlink_eq x b s :
  rlink x b s = Done tt (s <| rprev := link_prev (rprev s) x b |>
                           <| rnext := link_next (rnext s) (rprev s) x b |>).
Proof.
  unfold rlink. step_m. rewrite upd_eq. reflexivity.
Qed.

Lemma tlink_eq x b s :
  tlink x b s = Done tt (s <| tprev := link_prev (tprev s) x b |>
                           <| tnext := link_next (tnext s) (tprev s) x b |>).
Proof. unfold tlink. step_m. rewrite upd_eq. reflexivity. Qed.

Lemma qlink_eq x b s :
  qlink x b s = Done tt (s <| q_prev := link_prev (q_prev s) x b |>
                           <| q_next := link_next (q_next s) (q_prev s) x b |>).
Proof. unfold qlink. step_m. rewrite upd_eq. reflexivity. Qed.

Lemma upd_self `{EqDecision A} {B} (f : A -> B) a b : (<[a := f b]> f) b = f b.
Proof. rewrite upd_dec. by case_decide. Qed.

Lemma runlink_eq x s :
  runlink x s = Done tt (s <| rnext := unlink_next (rnext s) (rprev s) x |>
                           <| rprev := unlink_prev (rnext s) (rprev s) x |>).
Proof. unfold runlink. step_m. rewrite upd_self. reflexivity. Qed.

Lemma tunlink_eq x s :
  tunlink x s = Done tt (s <| tnext := unlink_next (tnext s) (tprev s) x |>
                           <| tprev := unlink_prev (tnext s) (tprev s) x |>).
Proof. unfold tunlink. step_m. rewrite upd_self. reflexivity. Qed.

Lemma qunlink_eq x s :
  qunlink x s = Done tt (s <| q_next := unlink_next (q_next s) (q_prev s) x |>
                           <| q_prev := unlink_prev (q_next s) (q_prev s) x |>).
Proof. unfold qunlink. step_m. rewrite upd_self. reflexivity. Qed.
End Link.

(** * The ready list *)

Section Ready.
Implicit Types (s : RTAI) (t : Z) (l : list Z).

Lemma ready_links_refl s : ready_links s s.
Proof. exists (rprev s), (rnext s). by destruct s. Qed.

Lemma ready_links_trans s s' s'' : ready_links s s' -> ready_links s' s'' -> ready_links s s''.
Proof. intros (P & N & ->) (P' & N' & ->). by exists P', N'. Qed.

Lemma rlink_spec s t l1 l2 :
  ready_list s (l1 ++ l2) -> t ∉ rt_linux_task :: l1 ++ l2 ->
  exists s', rlink t (hd rt_linux_task l2) s = Done tt s' /\
    ready_links s s' /\ ready_list s' (l1 ++ t :: l2).
Proof.
  intros Hr Ht. eexists. split; [apply rlink_eq|]. split; [by do 2 eexists|].
  unfold ready_list. state_simpl. by apply ring_link.
Qed.

Lemma runlink_spec s t l1 l2 :
  ready_list s (l1 ++ t :: l2) ->
  exists s', runlink t s = Done tt s' /\ ready_links s s' /\ ready_list s' (l1 ++ l2).
Proof.
  intros Hr. eexists. split; [apply runlink_eq|]. split; [by do 2 eexists|].
  unfold ready_list. state_simpl. by apply ring_unlink.
Qed.

(** The walk of [enq_ready_task] stops at the place of [insert_ready]. *)
Lemma enq_ready_walk_spec s p t a l fuel :
  seg (rnext s) (rprev s) a l rt_linux_task ->
  p < priority s rt_linux_task -> 0 <= priority s rt_linux_task ->
  (length l < fuel)%nat ->
  exists l1 l2, l = l1 ++ l2 /\ insert_ready (priority s) p t l = l1 ++ t :: l2 /\
    enq_ready_walk fuel p s (rnext s a) = Some (hd rt_linux_task l2).
Proof.
  intros Hs Hp H0. revert a fuel Hs. induction l as [|x l IH]; intros a fuel Hs Hf.
  - destruct Hs as [-> _]. exists [], []. split_and!; [done..|].
    destruct fuel; simpl; destruct (p >=? priority s rt_linux_task) eqn:E; try done;
      rewrite Z.geb_leb in E; bool_prop; lia.
  - destruct Hs as (-> & _ & Hs). destruct fuel as [|fuel]; [simpl in Hf; lia|].
    cbn [enq_ready_walk]. pose proof (seg_next _ _ _ _ _ Hs) as Hn.
    destruct (p >=? priority s x) eqn:E.
    2:{ exists [], (x :: l). split_and!; [done| |done]. destruct l; simpl; by rewrite E. }
    destruct l as [|y l]; simpl in Hn.
    + exists [x], []. split_and!; [done|simpl; by rewrite E|].
      rewrite Hn. destruct (priority s rt_linux_task <? 0); [done|].
      destruct (IH x fuel Hs) as (l1 & l2 & E1 & _ & E3); [simpl in *; lia|].
      rewrite Hn in E3. rewrite E3. destruct l1, l2; simplify_eq/=; done.
    + rewrite insert_ready_cons, E, Hn. destruct (priority s y <? 0) eqn:Ey.
      * by exists [x], (y :: l).
      * destruct (IH x fuel Hs) as (l1 & l2 & E1 & E2 & E3); [simpl in *; lia|].
        exists (x :: l1), l2. rewrite E2. rewrite Hn in E3. split_and!; [|done..].
        by rewrite E1.
Qed.

Lemma enq_ready_task_spec s t l :
  ready_list s l -> fits l -> t ∉ rt_linux_task :: l ->
  is_hard s t <> 0 -> priority s t < RT_LINUX_PRIORITY ->
  priority s rt_linux_task = RT_LINUX_PRIORITY ->
  exists s', enq_ready_task t s = Done tt s' /\ ready_links s s' /\
    ready_list s' (insert_ready (priority s) (priority s t) t l).
Proof.
  intros Hr Hf Ht Hh Hp Hlx. destruct (enq_ready_walk_spec s (priority s t) t rt_linux_task l
    LIST_FUEL) as (l1 & l2 & -> & -> & Hw); [apply Hr|by rewrite Hlx|by rewrite Hlx|done|].
  apply nz_true in Hh. unfold enq_ready_task. step_m. rewrite Hh, Hw. cbn [orb]. step_m.
  by apply rlink_spec.
Qed.

Lemma enq_ready_edf_task_spec s t l :
  ready_list s l -> fits l -> t ∉ rt_linux_task :: l -> 0 <= policy s rt_linux_task ->
  exists s', enq_ready_edf_task t s = Done tt s' /\ ready_links s s' /\
    ready_list s' (insert_edf (policy s) (period s) t l).
Proof.
  intros Hr Hf Ht Hlx. unfold enq_ready_edf_task, walkM. step_m.
  rewrite (walk_ring _ _ _ _ _ _ Hr); [|by rewrite (proj2 (Z.ltb_ge _ _) Hlx)|done].
  step_m. unfold insert_edf, insert_after. apply rlink_spec; rewrite take_drop_while; done.
Qed.
End Ready.

(** * The timed list *)

Lemma set_tnext_const f s : s <| tnext ::= f |> = s <| tnext := f (tnext s) |>.
Proof. reflexivity. Qed.
Lemma set_tprev_const f s : s <| tprev ::= f |> = s <| tprev := f (tprev s) |>.
Proof. reflexivity. Qed.

(** The ready list after the tasks [l] of the timed list woke up: those whose
    only remaining state is [READY] are put at their place, in order. *)
Fixpoint wake_list (s : RTAI) (l rl : list Z) : list Z :=
  match l with
  | [] => rl
  | t :: l' =>
      wake_list s l'
        (if clr (state s t) TIMEOUT_MASK =? READY then
           if policy s t <? 0 then insert_edf (policy s) (period s) t rl
           else insert_ready (priority s) (priority s t) t rl
         else rl)
  end.

Definition woken (f : Z -> Z) (l : list Z) : Z -> Z :=
  foldl (fun f t => <[t := clr (f t) TIMEOUT_MASK]> f) f l.

Definition expired (s : RTAI) (t : Z) : bool := resume_time s t <=? rt_time_h s.

Section Timed.
Implicit Types (s : RTAI) (t : Z) (l rl : list Z).

Lemma tlink_spec s t l1 l2 :
  timed_list s (l1 ++ l2) -> t ∉ rt_linux_task :: l1 ++ l2 ->
  exists s', tlink t (hd rt_linux_task l2) s = Done tt s' /\
    timed_links s s' /\ timed_list s' (l1 ++ t :: l2).
Proof.
  intros Hr Ht. eexists. split; [apply tlink_eq|]. split; [by do 2 eexists|].
  unfold timed_list. state_simpl. by apply ring_link.
Qed.

Lemma tunlink_spec s t l1 l2 :
  timed_list s (l1 ++ t :: l2) ->
  exists s', tunlink t s = Done tt s' /\ timed_links s s' /\ timed_list s' (l1 ++ l2).
Proof.
  intros Hr. eexists. split; [apply tunlink_eq|]. split.
  - unfold timed_links. do 2 eexists. reflexivity.
  - unfold timed_list. state_simpl. by apply ring_unlink.
Qed.

Lemma enq_timed_task_spec s t l :
  timed_list s l -> fits l -> t ∉ rt_linux_task :: l -> is_hard s t <> 0 ->
  resume_time s t <= RT_TIME_END -> resume_time s rt_linux_task = RT_TIME_END ->
  exists s', enq_timed_task t s = Done tt s' /\ timed_links s s' /\
    timed_list s' (insert_timed (resume_time s) t l).
Proof.
  intros Hr Hf Ht Hh Hres Hlx. apply nz_true in Hh. unfold enq_timed_task, walkM. step_m.
  rewrite Hh. cbn [negb]. step_m.
  rewrite (walk_ring _ _ _ _ _ _ Hr); [|rewrite Hlx, Z.gtb_ltb; apply Z.ltb_ge; lia|done].
  step_m. unfold insert_timed, insert_after. apply tlink_spec; by rewrite take_drop_while.
Qed.

Lemma rem_timed_task_spec s t l1 l2 :
  timed_list s (l1 ++ t :: l2) -> has (state s t) DELAYED = true ->
  exists s', rem_timed_task t s = Done tt s' /\ timed_links s s' /\ timed_list s' (l1 ++ l2).
Proof.
  intros Hr Hd. unfold rem_timed_task. step_m. rewrite Hd. by apply tunlink_spec.
Qed.

Lemma rem_timed_task_not_delayed s t :
  has (state s t) DELAYED = false -> rem_timed_task t s = Done tt s.
Proof. intros Hd. unfold rem_timed_task. step_m. by rewrite Hd. Qed.

(** What [wake_up_loop] reads and keeps. *)
Definition wake_frame s s' l : Prop :=
  exists P N, s' = s <| state := woken (state s) l |> <| rprev := P |> <| rnext := N |>.

Lemma wake_frame_nil s : wake_frame s s [].
Proof. exists (rprev s), (rnext s). by destruct s. Qed.

Lemma wake_list_ext s s' l rl :
  (forall x, x ∈ l -> state s' x = state s x) -> policy s' = policy s ->
  period s' = period s -> priority s' = priority s -> wake_list s' l rl = wake_list s l rl.
Proof.
  intros Hs Hpo Hpe Hpr. revert rl. induction l as [|t l IH]; intros rl; [done|]. simpl.
  rewrite Hpo, Hpe, Hpr, (Hs t) by list_in. apply IH. intros x Hx. apply Hs. list_in.
Qed.

(** A task that wakes up can be put in the ready list. *)
Definition can_wake s t : Prop :=
  t <> rt_linux_task /\ is_hard s t <> 0 /\ priority s t < RT_LINUX_PRIORITY.

(** Linux is the last of both lists. *)
Definition linux_last s : Prop :=
  priority s rt_linux_task = RT_LINUX_PRIORITY /\ 0 <= policy s rt_linux_task /\
  resume_time s rt_linux_task = RT_TIME_END.

Lemma wake_one_spec s t rl :
  ready_list s rl -> fits rl -> t ∉ rl -> can_wake s t -> linux_last s ->
  exists s', (if policy s t <? 0 then enq_ready_edf_task t else enq_ready_task t) s = Done tt s' /\
    ready_links s s' /\
    ready_list s' (if policy s t <? 0 then insert_edf (policy s) (period s) t rl
                   else insert_ready (priority s) (priority s t) t rl).
Proof.
  intros Hr Hf Ht (Hn & Hh & Hp) (L1 & L2 & L3).
  assert (t ∉ rt_linux_task :: rl) by list_in. destruct (policy s t <? 0).
  - by apply enq_ready_edf_task_spec.
  - by apply enq_ready_task_spec.
Qed.

Lemma insert_edf_perm pol per t l : insert_edf pol per t l ≡ₚ t :: l.
Proof. apply insert_after_perm. Qed.

Lemma wake_up_loop_spec s a l rl fuel :
  seg (tnext s) (tprev s) a l rt_linux_task -> ready_list s rl ->
  NoDup (l ++ rl) -> (length (l ++ rl) < LIST_FUEL)%nat -> (length l < fuel)%nat ->
  (forall t, t ∈ take_while (expired s) l -> can_wake s t) -> linux_last s ->
  rt_time_h s < RT_TIME_END ->
  exists s', wake_up_loop fuel (tnext s a) s = Done (hd rt_linux_task (drop_while (expired s) l)) s' /\
    wake_frame s s' (take_while (expired s) l) /\
    ready_list s' (wake_list s (take_while (expired s) l) rl).
Proof.
  revert s a rl fuel. induction l as [|t l IH]; intros s a rl fuel Hs Hr Hnd Hf Hf' Hw HL Hlt.
  - destruct Hs as [Hs _]. destruct HL as (_ & _ & L3). exists s. split_and!; [|apply wake_frame_nil|done].
    destruct fuel; simpl; step_m; rewrite Hs, L3, (proj2 (Z.leb_gt _ _) Hlt); done.
  - destruct Hs as (Ha & _ & Hs). destruct fuel as [|fuel]; [simpl in *; lia|].
    cbn [wake_up_loop take_while drop_while]. step_m. rewrite Ha.
    change (resume_time s t <=? rt_time_h s) with (expired s t).
    cbn [take_while] in Hw. destruct (expired s t) eqn:He.
    2:{ exists s. split_and!; [done|apply wake_frame_nil|done]. }
    step_m. simpl in Hnd. apply NoDup_cons in Hnd as [Htl Hnd].
    assert (Hct : can_wake s t) by (apply Hw; list_in).
    set (s1 := s <| state ::= <[t:=clr (state s t) TIMEOUT_MASK]> |>).
    assert (Hst : forall x, x ∈ l -> state s1 x = state s x).
    { intros x Hx. unfold s1. state_simpl. rewrite upd_ne; [done|]. intros ->. list_in. }
    set (rl1 := if clr (state s t) TIMEOUT_MASK =? READY then
                  if policy s t <? 0 then insert_edf (policy s) (period s) t rl
                  else insert_ready (priority s) (priority s t) t rl else rl).
    assert (H1 : exists s2, (if clr (state s t) TIMEOUT_MASK =? READY then
                  if policy s t <? 0 then enq_ready_edf_task t else enq_ready_task t
                  else (fun s => Done tt s)) s1 = Done tt s2 /\
                  ready_links s1 s2 /\ ready_list s2 rl1).
    { unfold rl1. destruct (_ =? READY).
      - apply (wake_one_spec s1); [done| |list_in|done|done].
        unfold fits. rewrite length_app in Hf. simpl in Hf. lia.
      - exists s1. split_and!; [done|apply ready_links_refl|done]. }
    destruct H1 as (s2 & E2 & (P2 & N2 & F2) & R2).
    rewrite upd_eq, E2. cbn [bind_out].
    assert (Hp : l ++ rl1 ≡ₚ l ++ rl \/ l ++ rl1 ≡ₚ t :: l ++ rl).
    { unfold rl1. destruct (_ =? READY); [right|by left].
      destruct (_ <? 0); rewrite ?insert_edf_perm, ?insert_ready_perm;
        by rewrite <- Permutation_middle. }
    destruct (IH s2 t rl1 fuel) as (s' & E' & (P & N & F') & R').
    + rewrite F2. exact Hs.
    + done.
    + destruct Hp as [Hp|Hp]; rewrite Hp; [done|]. by constructor.
    + destruct Hp as [Hp|Hp]; rewrite Hp; simpl in *; lia.
    + simpl in Hf'. lia.
    + intros x Hx. rewrite F2. apply Hw. rewrite F2 in Hx. list_in.
    + rewrite F2. exact HL.
    + rewrite F2. exact Hlt.
    + exists s'. rewrite F2 in E', F', R'. rewrite F2. split_and!; [exact E'| |].
      * exists P, N. rewrite F'. reflexivity.
      * rewrite (wake_list_ext s) in R'; [exact R'| |done..].
        intros x Hx. apply Hst. rewrite <- (take_drop_while (expired s)). list_in.
Qed.

Lemma wake_up_timed_tasks_eq s l rl :
  timed_list s l -> ready_list s rl -> NoDup (l ++ rl) -> fits (l ++ rl) ->
  (forall t, t ∈ take_while (expired s) l -> can_wake s t) -> linux_last s ->
  rt_time_h s < RT_TIME_END ->
  exists s', wake_up_timed_tasks s = Done tt s' /\
    timed_list s' (drop_while (expired s) l) /\
    ready_list s' (wake_list s (take_while (expired s) l) rl) /\
    exists P N TP TN, s' = s <| state := woken (state s) (take_while (expired s) l) |>
      <| rprev := P |> <| rnext := N |> <| tnext := TN |> <| tprev := TP |>.
Proof.
  intros Ht Hr Hnd Hf Hw HL Hlt. unfold wake_up_timed_tasks. step_m.
  destruct (wake_up_loop_spec s rt_linux_task l rl LIST_FUEL) as (s1 & E & (P & N & F) & R1);
    try done; [apply Ht|unfold fits in Hf; rewrite length_app in Hf; lia|].
  rewrite E. step_m. eexists. split; [done|]. split_and!.
  - unfold timed_list. state_simpl. rewrite F. state_simpl.
    unfold timed_list in Ht. rewrite <- (take_drop_while (expired s) l) in Ht.
    by eapply ring_cut.
  - exact R1.
  - do 4 eexists. rewrite F, set_tprev_const, set_tnext_const. reflexivity.
Qed.
End Timed.

(** * Wait queues *)

(** [s'] is [s] but for the links of the queue elements outside [D]. *)
Definition queue_links (D : qptr -> Prop) (s s' : RTAI) : Prop :=
  exists P N, s' = s <| q_prev := P |> <| q_next := N |> /\
    forall x, ~ D x -> P x = q_prev s x /\ N x = q_next s x.

(** The elements of a queue: its header and the [queue] of its tasks. *)
Definition in_queue (q : qptr) (l : list Z) (x : qptr) : Prop := x ∈ q :: (Queue <$> l).

Section Blocked.
Implicit Types (s : RTAI) (t : Z) (l : list Z) (q : qptr).

Lemma elem_of_Queue t l : Queue t ∈ Queue <$> l <-> t ∈ l.
Proof.
  rewrite list_elem_of_fmap. split; [intros (u & [= ->] & ?); done|]. intros. by exists t.
Qed.

Lemma qlink_spec s q t l1 l2 :
  wait_queue s q (l1 ++ l2) -> t ∉ l1 ++ l2 -> q <> Queue t -> q_task s (Queue t) = t ->
  exists s', qlink (Queue t) (hd q (Queue <$> l2)) s = Done tt s' /\
    queue_links (in_queue q (t :: l1 ++ l2)) s s' /\ wait_queue s' q (l1 ++ t :: l2).
Proof.
  intros [Hr Hq] Ht Hqt Htt. rewrite fmap_app in Hr.
  assert (Hn : Queue t ∉ q :: (Queue <$> l1) ++ (Queue <$> l2)).
  { rewrite <- fmap_app, not_elem_of_cons, elem_of_Queue. by split. }
  eexists. split; [apply qlink_eq|]. split.
  - do 2 eexists. split; [done|]. intros x Hx. unfold in_queue in Hx.
    rewrite fmap_cons, fmap_app in Hx.
    rewrite !not_elem_of_cons in Hx. destruct Hx as (Hx1 & Hx2 & Hx3).
    split; [eapply link_prev_out|eapply link_next_out]; try exact Hr;
      by rewrite !not_elem_of_cons.
  - split; state_simpl.
    + rewrite fmap_app, fmap_cons. by apply ring_link.
    + intros x Hx. rewrite elem_of_app, elem_of_cons in Hx.
      destruct Hx as [Hx|[->|Hx]]; [apply Hq|done|apply Hq]; list_in.
Qed.

Lemma qunlink_spec s q t l1 l2 :
  wait_queue s q (l1 ++ t :: l2) ->
  exists s', qunlink (Queue t) s = Done tt s' /\
    queue_links (in_queue q (l1 ++ t :: l2)) s s' /\ wait_queue s' q (l1 ++ l2).
Proof.
  intros [Hr Hq]. rewrite fmap_app, fmap_cons in Hr. eexists. split; [apply qunlink_eq|]. split.
  - do 2 eexists. split; [reflexivity|]. intros x Hx. unfold in_queue in Hx.
    rewrite fmap_app, fmap_cons in Hx. by destruct (unlink_out _ _ _ _ _ _ _ Hr Hx).
  - split; state_simpl.
    + rewrite fmap_app. by apply ring_unlink.
    + intros x Hx. apply Hq. list_in.
Qed.

Lemma drop_while_fmap {A B} (f : A -> B) (p : B -> bool) (l : list A) :
  drop_while p (f <$> l) = f <$> drop_while (fun x => p (f x)) l.
Proof. induction l as [|x l IH]; simpl; [done|]. by destruct (p (f x)). Qed.

(** The walk stops before the first task of lower priority. *)
Lemma queue_walk_spec s q prio l :
  wait_queue s q l -> fits l ->
  queue_walk q prio s s =
    Done (hd q (Queue <$> drop_while (fun t => priority s t <=? prio) l)) s.
Proof.
  intros [Hr Hq] Hf. unfold queue_walk, walkM.
  rewrite (walk_ring _ _ _ _ _ _ Hr);
    [|by rewrite bool_decide_true|by unfold fits in Hf; rewrite length_fmap].
  step_m. rewrite drop_while_fmap. f_equal. f_equal. f_equal. apply drop_while_ext.
  intros t Ht. rewrite Hq by done. rewrite bool_decide_false; [done|].
  apply (ring_not_head _ _ _ _ _ Hr). by apply elem_of_Queue.
Qed.

Lemma wait_queue_frame s s' q l :
  wait_queue s q l -> q_next s' = q_next s -> q_prev s' = q_prev s ->
  q_task s' = q_task s -> wait_queue s' q l.
Proof. intros Hw E1 E2 E3. unfold wait_queue. by rewrite E1, E2, E3. Qed.

Lemma wait_queue_middle s q t W1 W2 :
  wait_queue s q (W1 ++ t :: W2) -> t ∉ W1 ++ W2 /\ q <> Queue t.
Proof.
  intros [Hr _]. rewrite fmap_app, fmap_cons in Hr.
  destruct (ring_middle _ _ _ _ _ _ Hr) as (H1 & H2 & _).
  rewrite <- fmap_app, elem_of_Queue in H2. split; [done|]. by intros ->.
Qed.

Lemma enqueue_blocked_eq s t q qt l :
  wait_queue s q l -> fits l -> t ∉ l -> q <> Queue t -> q_task s (Queue t) = t ->
  exists s', enqueue_blocked t q qt s = Done tt s' /\
    wait_queue s' q (insert_blocked (priority s) qt t l) /\
    queue_links (in_queue q (t :: l)) (s <| blocked_on ::= <[t := q]> |>) s'.
Proof.
  intros Hw Hf Ht Hq Htt. unfold enqueue_blocked. step_m.
  set (s1 := s <| blocked_on ::= <[t:=q]> |>).
  assert (Hw1 : wait_queue s1 q l) by (by apply (wait_queue_frame s)).
  unfold insert_blocked. destruct (nz qt).
  - step_m. destruct (qlink_spec s1 q t l []) as (s' & E & L & W);
      rewrite ?app_nil_r in *; try done. by exists s'.
  - change (priority s) with (priority s1). rewrite (queue_walk_spec s1 _ _ l) by done. step_m.
    set (p := fun y => priority s1 y <=? priority s1 t).
    pose proof (take_drop_while p l) as Hl. rewrite <- Hl in Hw1, Ht.
    destruct (qlink_spec s1 q t _ _ Hw1 Ht Hq) as (s' & E & L & W); [done|].
    rewrite Hl in L. by exists s'.
Qed.

Lemma dequeue_blocked_eq s t q l1 l2 :
  wait_queue s q (l1 ++ t :: l2) ->
  exists s', dequeue_blocked t s = Done tt s' /\ wait_queue s' q (l1 ++ l2) /\
    queue_links (in_queue q (l1 ++ t :: l2))
      (s <| prio_passed_to ::= <[t := NOTHING]> |> <| blocked_on ::= <[t := QNull]> |>) s'.
Proof.
  intros Hw. unfold dequeue_blocked. step_m.
  set (s1 := s <| prio_passed_to ::= <[t:=NOTHING]> |>).
  destruct (qunlink_spec s1 q t l1 l2) as (s' & E & (P & N & F & L) & W);
    [by apply (wait_queue_frame s)|].
  rewrite E. step_m. eexists. split; [done|]. split; [by apply (wait_queue_frame s')|].
  exists P, N. rewrite F. split; [done|]. exact L.
Qed.
End Blocked.

(** * An example

    Linux, two ready tasks of priorities 1 and 3, and a third task, of
    priority 2, that is in no list. *)

Definition new_task (t prio : Z) (s : RTAI) : RTAI :=
  s <| is_hard ::= <[t := 1]> |> <| priority ::= <[t := prio]> |>
    <| base_priority ::= <[t := prio]> |> <| magic ::= <[t := RT_TASK_MAGIC]> |>
    <| state ::= <[t := READY]> |> <| q_task ::= <[Queue t := t]> |>
    <| q_next ::= <[Queue t := Queue t]> |> <| q_prev ::= <[Queue t := Queue t]> |>
    <| q_task ::= <[MsgQueue t := t]> |> <| q_next ::= <[MsgQueue t := MsgQueue t]> |>
    <| q_prev ::= <[MsgQueue t := MsgQueue t]> |>
    <| q_next ::= <[RetQueue t := RetQueue t]> |> <| q_prev ::= <[RetQueue t := RetQueue t]> |>.

Definition idle : RTAI :=
  rtai_zero <| priority ::= <[rt_linux_task := RT_LINUX_PRIORITY]> |>
    <| resume_time ::= <[rt_linux_task := RT_TIME_END]> |>
    <| state ::= <[rt_linux_task := READY]> |> <| lnxtsk ::= <[rt_linux_task := 1]> |>
    <| rnext ::= <[rt_linux_task := rt_linux_task]> |>
    <| rprev ::= <[rt_linux_task := rt_linux_task]> |>
    <| tnext ::= <[rt_linux_task := rt_linux_task]> |>
    <| tprev ::= <[rt_linux_task := rt_linux_task]> |>
    <| rt_smp_current := rt_linux_task |>.

Definition demo : RTAI :=
  new_task 64 2 (run (enq_ready_task 32;; enq_ready_task 48)
                   (new_task 48 3 (new_task 32 1 idle))).

(** * What waking up does to the lists *)

Lemma insert_blocked_split prio qtype t l :
  exists l1 l2, l = l1 ++ l2 /\ insert_blocked prio qtype t l = l1 ++ t :: l2.
Proof.
  unfold insert_blocked, insert_after. destruct (nz qtype).
  - exists l, []. by rewrite app_nil_r.
  - do 2 eexists. split; [|reflexivity]. by rewrite take_drop_while.
Qed.

Section Woken.
Implicit Types (s : RTAI) (t x : Z) (l rl : list Z).

(** The tasks among [l] that are only waiting for the time. *)
Definition wakes (s : RTAI) (t : Z) : bool := clr (state s t) TIMEOUT_MASK =? READY.

Lemma wake_list_perm s l rl : wake_list s l rl ≡ₚ filter (wakes s) l ++ rl.
Proof.
  revert rl. induction l as [|t l IH]; intros rl; [done|]. simpl. rewrite IH.
  unfold filter; simpl. fold (filter (wakes s) l).
  change (clr (state s t) TIMEOUT_MASK =? READY) with (wakes s t).
  case_decide as D; destruct (wakes s t) eqn:E; try done.
  simpl. rewrite Permutation_middle. apply Permutation_app_head.
  destruct (policy s t <? 0); [apply insert_after_perm|apply insert_ready_perm].
Qed.

Lemma woken_out f l x : x ∉ l -> woken f l x = f x.
Proof.
  unfold woken. revert f. induction l as [|t l IH]; intros f Hx; [done|]. simpl.
  rewrite not_elem_of_cons in Hx. rewrite IH by tauto. rewrite upd_ne; [done|]. intros ->. tauto.
Qed.

Lemma woken_in f l x : NoDup l -> x ∈ l -> woken f l x = clr (f x) TIMEOUT_MASK.
Proof.
  unfold woken. revert f. induction l as [|t l IH]; intros f Hnd Hx; [by apply not_elem_of_nil in Hx|].
  simpl. apply NoDup_cons in Hnd as [Ht Hnd]. apply elem_of_cons in Hx as [->|Hx].
  - pose proof (woken_out (<[t:=clr (f t) TIMEOUT_MASK]> f) l t Ht) as H. unfold woken in H.
    by rewrite H, upd_eq.
  - rewrite IH by done. rewrite upd_ne; [done|]. intros ->. done.
Qed.

Lemma drop_while_expired s l x :
  sorted_by (resume_time s) l -> x ∈ drop_while (expired s) l -> rt_time_h s < resume_time s x.
Proof. apply drop_while_sorted. Qed.
End Woken.

(** * Properties *)

Section Properties.
Implicit Types (s : RTAI) (t : Z) (l : list Z).

(** C1: [enq_ready_task] puts a task in the ready list after the tasks whose
    priority is not lower and before the others, keeps the list sorted by
    priority, and changes nothing but the links of the list. *)
Theorem enq_ready_task_sorted s t l :
  ready_list s l -> fits l -> t ∉ rt_linux_task :: l -> is_hard s t <> 0 ->
  priority s t < RT_LINUX_PRIORITY -> priority s rt_linux_task = RT_LINUX_PRIORITY ->
  lock_first (priority s) l -> sorted_by (priority s) l ->
  exists s' l1 l2, enq_ready_task t s = Done tt s' /\ ready_links s s' /\
    l = l1 ++ l2 /\ ready_list s' (l1 ++ t :: l2) /\
    (forall x, x ∈ l1 -> priority s x <= priority s t) /\
    (forall x, x ∈ l2 -> priority s t < priority s x) /\
    sorted_by (priority s) (l1 ++ t :: l2).
Proof.
  intros Hr Hf Ht Hh Hp Hlx Hlf Hs.
  destruct (enq_ready_task_spec s t l) as (s' & E & L & R); [done..|].
  rewrite insert_ready_after in R by done.
  set (p := fun y => priority s y <=? priority s t) in *.
  exists s', (take_while p l), (drop_while p l). split_and!; [done|done|symmetry; apply take_drop_while|exact R|..].
  - intros x Hx%take_while_all. by apply Z.leb_le.
  - intros x Hx. by apply (drop_while_sorted (priority s) (priority s t) l).
  - apply (insert_after_sorted (priority s)); [..|done]; unfold p; intros y Hy; bool_prop; lia.
Qed.

(** An EDF task (negative policy) enters the ready list after the EDF
    tasks at its head whose deadline, kept in [period], is not later. *)
Theorem enq_ready_edf_task_deadline s t l :
  ready_list s l -> fits l -> t ∉ rt_linux_task :: l -> 0 <= policy s rt_linux_task ->
  exists s' l1 l2, enq_ready_edf_task t s = Done tt s' /\ ready_links s s' /\
    l = l1 ++ l2 /\ ready_list s' (l1 ++ t :: l2) /\
    (forall x, x ∈ l1 -> policy s x < 0 /\ period s x <= period s t) /\
    (forall x, head l2 = Some x -> policy s x < 0 -> period s t < period s x).
Proof.
  intros Hr Hf Ht Hlx. destruct (enq_ready_edf_task_spec s t l) as (s' & E & L & R); [done..|].
  unfold insert_edf, insert_after in R.
  set (p := fun y => (policy s y <? 0) && (period s t >=? period s y)) in *.
  exists s', (take_while p l), (drop_while p l).
  split_and!; [done|done|symmetry; apply take_drop_while|exact R|..].
  - intros x Hx%take_while_all. unfold p in Hx. rewrite Z.geb_leb in Hx. bool_prop. lia.
  - intros x Hx Hpol. destruct (drop_while p l) as [|y l2] eqn:Ed; [done|]. simplify_eq/=.
    apply drop_while_head in Ed. unfold p in Ed.
    rewrite (proj2 (Z.ltb_lt _ _) Hpol), Z.geb_leb in Ed. simpl in Ed. bool_prop. lia.
Qed.

(** [enq_timed_task] keeps the timed list sorted by resume time: the
    task is put before the tasks that do not resume earlier. *)
Theorem enq_timed_task_sorted s t l :
  timed_list s l -> fits l -> t ∉ rt_linux_task :: l -> is_hard s t <> 0 ->
  resume_time s t <= RT_TIME_END -> resume_time s rt_linux_task = RT_TIME_END ->
  sorted_by (resume_time s) l ->
  exists s' l1 l2, enq_timed_task t s = Done tt s' /\ timed_links s s' /\
    l = l1 ++ l2 /\ timed_list s' (l1 ++ t :: l2) /\
    (forall x, x ∈ l1 -> resume_time s x < resume_time s t) /\
    sorted_by (resume_time s) (l1 ++ t :: l2).
Proof.
  intros Hr Hf Ht Hh Hres Hlx Hs.
  destruct (enq_timed_task_spec s t l) as (s' & E & L & R); [done..|].
  unfold insert_timed in R.
  set (p := fun y => resume_time s t >? resume_time s y) in *.
  exists s', (take_while p l), (drop_while p l).
  split_and!; [done|done|symmetry; apply take_drop_while|exact R|..].
  - intros x Hx%take_while_all. unfold p in Hx. rewrite Z.gtb_ltb in Hx. by bool_prop.
  - apply (insert_after_sorted (resume_time s)); [..|done]; unfold p; intros y Hy;
      rewrite Z.gtb_ltb in Hy; bool_prop; lia.
Qed.

(** C13: the timer wakes exactly the tasks whose resume time has come: they
    leave the timed list and the states a timeout ends; those that are left
    with [READY] only enter the ready list, where nothing else changes. *)
Theorem wake_up_timed_tasks_expired s l rl :
  timed_list s l -> ready_list s rl -> sorted_by (resume_time s) l ->
  NoDup (l ++ rl) -> fits (l ++ rl) ->
  (forall t, t ∈ l -> can_wake s t) -> linux_last s -> rt_time_h s < RT_TIME_END ->
  exists s' due rest rl', wake_up_timed_tasks s = Done tt s' /\ l = due ++ rest /\
    (forall x, x ∈ due -> resume_time s x <= rt_time_h s) /\
    (forall x, x ∈ rest -> rt_time_h s < resume_time s x) /\
    timed_list s' rest /\ ready_list s' rl' /\ rl' ≡ₚ filter (wakes s) due ++ rl /\
    (forall x, state s' x = if decide (x ∈ due) then clr (state s x) TIMEOUT_MASK else state s x).
Proof.
  intros Ht Hr Hs Hnd Hf Hw HL Hlt.
  destruct (wake_up_timed_tasks_eq s l rl) as (s' & E & Ht' & Hr' & P & N & TP & TN & F); [done..| |done|done|].
  { intros t Hin. apply Hw. rewrite <- (take_drop_while (expired s)). list_in. }
  exists s', (take_while (expired s) l), (drop_while (expired s) l), (wake_list s (take_while (expired s) l) rl).
  split_and!; [done|symmetry; apply take_drop_while| | |done|done|apply wake_list_perm|].
  - intros x Hx%take_while_all. by apply Z.leb_le.
  - intros x. by apply drop_while_expired.
  - intros x. rewrite F. state_simpl.
    assert (NoDup (take_while (expired s) l)).
    { apply NoDup_app in Hnd as (Hnd & _). rewrite <- (take_drop_while (expired s) l) in Hnd.
      by apply NoDup_app in Hnd as (? & _). }
    case_decide; [by apply woken_in|by apply woken_out].
Qed.

(** C17: a task that blocks on a queue is put, when the queue is ordered by
    priority, after the tasks whose priority is not lower (the queue stays
    sorted), and at the end of the queue otherwise. *)
Theorem enqueue_blocked_order s t q qtype l :
  wait_queue s q l -> fits l -> t ∉ l -> q <> Queue t -> q_task s (Queue t) = t ->
  exists s' l1 l2, enqueue_blocked t q qtype s = Done tt s' /\ l = l1 ++ l2 /\
    wait_queue s' q (l1 ++ t :: l2) /\ blocked_on s' t = q /\
    (qtype <> 0 -> l2 = []) /\
    (qtype = 0 -> sorted_by (priority s) l ->
       sorted_by (priority s) (l1 ++ t :: l2) /\
       forall x, x ∈ l2 -> priority s t < priority s x).
Proof.
  intros Hw Hf Ht Hq Htt.
  destruct (enqueue_blocked_eq s t q qtype l) as (s' & E & W & (P & N & F & _)); [done..|].
  unfold insert_blocked, insert_after in W. destruct (nz qtype) eqn:Eq.
  - apply nz_true in Eq. exists s', l, []. rewrite app_nil_r. split_and!; [done..| |done|lia].
    rewrite F. state_simpl. apply upd_eq.
  - apply nz_false in Eq. exists s', (take_while (fun y => priority s y <=? priority s t) l),
      (drop_while (fun y => priority s y <=? priority s t) l).
    split_and!; [done|by rewrite take_drop_while|exact W| |lia|].
    + rewrite F. state_simpl. apply upd_eq.
    + intros _ Hs. split.
      * apply (insert_after_sorted (priority s)); [..|done]; intros y Hy; bool_prop; lia.
      * intros x. by apply drop_while_sorted.
Qed.

(** A task that blocks and is dequeued leaves the queue as it was, and
    waits for nothing. *)
Theorem enqueue_dequeue_roundtrip s t q qtype l :
  wait_queue s q l -> fits l -> t ∉ l -> q <> Queue t -> q_task s (Queue t) = t ->
  exists s', (enqueue_blocked t q qtype;; dequeue_blocked t) s = Done tt s' /\
    wait_queue s' q l /\ blocked_on s' t = QNull /\ prio_passed_to s' t = NOTHING.
Proof.
  intros Hw Hf Ht Hq Htt.
  destruct (enqueue_blocked_eq s t q qtype l) as (s1 & E & W & _); [done..|].
  destruct (insert_blocked_split (priority s) qtype t l) as (l1 & l2 & -> & Ei).
  rewrite Ei in W. destruct (dequeue_blocked_eq s1 t q l1 l2 W) as (s' & E' & W' & (P & N & F & _)).
  exists s'. split_and!; [|done|..].
  - unfold mbind, M_bind. by rewrite E.
  - rewrite F. state_simpl. apply upd_eq.
  - rewrite F. state_simpl. apply upd_eq.
Qed.

(** A ready task whose priority changes moves to the place of its new
    priority, behind its equals; the result tells that it changed. *)
Theorem renq_ready_task_moves s t prio l1 l2 :
  ready_list s (l1 ++ t :: l2) -> fits (l1 ++ t :: l2) -> state s t = READY ->
  is_hard s t <> 0 -> prio < RT_LINUX_PRIORITY -> priority s t <> prio ->
  priority s rt_linux_task = RT_LINUX_PRIORITY ->
  lock_first (priority s) (l1 ++ l2) -> sorted_by (priority s) (l1 ++ l2) ->
  exists s', renq_ready_task t prio s = Done 1 s' /\ priority s' = <[t := prio]> (priority s) /\
    ready_list s' (insert_after (fun y => priority s y <=? prio) t (l1 ++ l2)) /\
    sorted_by (priority s') (insert_after (fun y => priority s y <=? prio) t (l1 ++ l2)).
Proof.
  intros Hr Hf Hst Hh Hp Hne Hlx Hlf Hs. unfold renq_ready_task. step_m.
  rewrite (proj2 (Z.eqb_neq _ _) Hne). cbn [negb]. step_m. rewrite Hst. cbn [Z.eqb Pos.eqb READY].
  set (s1 := s <| priority ::= <[t:=prio]> |>).
  destruct (runlink_spec s1 t l1 l2 Hr) as (s2 & -> & (P & N & F2) & R2). cbn [bind_out].
  destruct (ring_middle _ _ _ _ _ _ Hr) as (Htl & Ht & Ht').
  assert (Hext : forall x, x ∈ l1 ++ l2 -> priority s2 x = priority s x).
  { intros x Hx. rewrite F2. unfold s1. state_simpl. rewrite upd_ne; [done|]. by intros ->. }
  destruct (enq_ready_task_spec s2 t (l1 ++ l2)) as (s3 & -> & (P3 & N3 & F3) & R3);
    [done|unfold fits in *; rewrite length_app in *; simpl in *; lia|done|by rewrite F2| | |].
  { rewrite F2. unfold s1. state_simpl. by rewrite upd_eq. }
  { rewrite F2. unfold s1. state_simpl. by rewrite upd_ne. }
  assert (Ept : priority s2 t = prio) by (rewrite F2; unfold s1; state_simpl; apply upd_eq).
  rewrite (insert_ready_ext _ (priority s)), insert_ready_after, Ept in R3 by done.
  exists s3. split_and!; [done|by rewrite F3, F2|done|]. rewrite F3, F2. unfold s1. state_simpl.
  apply (insert_after_sorted (<[t:=prio]> (priority s))).
  - intros y Hy. rewrite upd_eq. rewrite upd_dec; case_decide; [done|]. by bool_prop.
  - intros y Hy. rewrite upd_eq. rewrite upd_dec; case_decide; [done|]. bool_prop. lia.
  - apply (sorted_by_ext (priority s)); [|done]. intros x Hx. rewrite upd_ne; [done|]. by intros ->.
Qed.
End Properties.

(** * Witnesses: the theorems on the example *)

Lemma demo_ready : ready_list demo [32; 48].
Proof. solve_ring. Qed.

Ltac by_eval := vm_compute; congruence.
Ltac not_in := apply (bool_decide_unpack _); vm_compute; exact I.
Ltac fits_eval := unfold fits; vm_compute; lia.
Ltac sorted_eval := repeat constructor; vm_compute; congruence.

Lemma demo_sorted : sorted_by (priority demo) [32; 48].
Proof. sorted_eval. Qed.

Lemma enq_ready_task_sorted_witness :
  exists s' l1 l2, enq_ready_task 64 demo = Done tt s' /\ ready_links demo s' /\
    [32; 48] = l1 ++ l2 /\ ready_list s' (l1 ++ 64 :: l2) /\
    (forall x, x ∈ l1 -> priority demo x <= priority demo 64) /\
    (forall x, x ∈ l2 -> priority demo 64 < priority demo x) /\
    sorted_by (priority demo) (l1 ++ 64 :: l2).
Proof.
  apply enq_ready_task_sorted; [exact demo_ready|fits_eval|not_in|by_eval|by_eval|by_eval| |exact demo_sorted].
  intros x Hx. cbn in Hx. apply list_elem_of_singleton in Hx as ->. by_eval.
Defined.

Lemma enq_ready_edf_task_deadline_witness :
  exists s' l1 l2, enq_ready_edf_task 64 demo = Done tt s' /\ ready_links demo s' /\
    [32; 48] = l1 ++ l2 /\ ready_list s' (l1 ++ 64 :: l2) /\
    (forall x, x ∈ l1 -> policy demo x < 0 /\ period demo x <= period demo 64) /\
    (forall x, head l2 = Some x -> policy demo x < 0 -> period demo 64 < period demo x).
Proof.
  apply enq_ready_edf_task_deadline; [exact demo_ready|fits_eval|not_in|by_eval].
Defined.

(** The third task resumes at 10, and is in the timed list of [demo_timed]
    between tasks that resume at 5 and 20. *)
Definition demo_timed : RTAI :=
  run (enq_timed_task 80;; enq_timed_task 96)
    (demo <| resume_time ::= <[64 := 10]> |> <| resume_time ::= <[80 := 5]> |>
          <| resume_time ::= <[96 := 20]> |> <| is_hard ::= <[80 := 1]> |>
          <| is_hard ::= <[96 := 1]> |> <| state ::= <[80 := Z.lor READY DELAYED]> |>
          <| state ::= <[96 := Z.lor READY DELAYED]> |> <| rt_time_h := 7 |>).

Lemma demo_timed_list : timed_list demo_timed [80; 96].
Proof. solve_ring. Qed.

Lemma enq_timed_task_sorted_witness :
  exists s' l1 l2, enq_timed_task 64 demo_timed = Done tt s' /\ timed_links demo_timed s' /\
    [80; 96] = l1 ++ l2 /\ timed_list s' (l1 ++ 64 :: l2) /\
    (forall x, x ∈ l1 -> resume_time demo_timed x < resume_time demo_timed 64) /\
    sorted_by (resume_time demo_timed) (l1 ++ 64 :: l2).
Proof.
  apply enq_timed_task_sorted;
    [exact demo_timed_list|fits_eval|not_in|by_eval|by_eval|by_eval|sorted_eval].
Defined.

Lemma wake_up_timed_tasks_expired_witness :
  exists s' due rest rl', wake_up_timed_tasks demo_timed = Done tt s' /\ [80; 96] = due ++ rest /\
    (forall x, x ∈ due -> resume_time demo_timed x <= rt_time_h demo_timed) /\
    (forall x, x ∈ rest -> rt_time_h demo_timed < resume_time demo_timed x) /\
    timed_list s' rest /\ ready_list s' rl' /\ rl' ≡ₚ filter (wakes demo_timed) due ++ [32; 48] /\
    (forall x, state s' x =
       if decide (x ∈ due) then clr (state demo_timed x) TIMEOUT_MASK else state demo_timed x).
Proof.
  apply wake_up_timed_tasks_expired;
    [exact demo_timed_list|solve_ring|sorted_eval|not_in|fits_eval| |repeat split; by_eval|by_eval].
  intros t Ht. rewrite !elem_of_cons, elem_of_nil in Ht.
  destruct Ht as [->|[->|[]]]; repeat split; by_eval.
Defined.

(** A semaphore with a waiting task of priority 3. *)
Definition demo_queue : RTAI :=
  run (enqueue_blocked 48 (SemQueue (Sem 7)) 0)
    (demo <| q_next ::= <[SemQueue (Sem 7) := SemQueue (Sem 7)]> |>
          <| q_prev ::= <[SemQueue (Sem 7) := SemQueue (Sem 7)]> |>).

Lemma demo_wait_queue : wait_queue demo_queue (SemQueue (Sem 7)) [48].
Proof.
  split; [solve_ring|]. intros t Ht. apply list_elem_of_singleton in Ht as ->. by_eval.
Qed.

Lemma enqueue_blocked_order_witness :
  exists s' l1 l2, enqueue_blocked 64 (SemQueue (Sem 7)) 0 demo_queue = Done tt s' /\
    [48] = l1 ++ l2 /\ wait_queue s' (SemQueue (Sem 7)) (l1 ++ 64 :: l2) /\
    blocked_on s' 64 = SemQueue (Sem 7) /\ (0 <> 0 -> l2 = []) /\
    (0 = 0 -> sorted_by (priority demo_queue) [48] ->
       sorted_by (priority demo_queue) (l1 ++ 64 :: l2) /\
       forall x, x ∈ l2 -> priority demo_queue 64 < priority demo_queue x).
Proof.
  apply (enqueue_blocked_order demo_queue 64 (SemQueue (Sem 7)) 0 [48]);
    [exact demo_wait_queue|fits_eval|not_in|by_eval|by_eval].
Defined.

Lemma enqueue_dequeue_roundtrip_witness :
  exists s', (enqueue_blocked 64 (SemQueue (Sem 7)) 0;; dequeue_blocked 64) demo_queue = Done tt s' /\
    wait_queue s' (SemQueue (Sem 7)) [48] /\ blocked_on s' 64 = QNull /\
    prio_passed_to s' 64 = NOTHING.
Proof.
  apply (enqueue_dequeue_roundtrip demo_queue 64 (SemQueue (Sem 7)) 0 [48]);
    [exact demo_wait_queue|fits_eval|not_in|by_eval|by_eval].
Defined.

Lemma renq_ready_task_moves_witness :
  exists s', renq_ready_task 32 5 demo = Done 1 s' /\ priority s' = <[32 := 5]> (priority demo) /\
    ready_list s' (insert_after (fun y => priority demo y <=? 5) 32 ([] ++ [48])) /\
    sorted_by (priority s') (insert_after (fun y => priority demo y <=? 5) 32 ([] ++ [48])).
Proof.
  apply renq_ready_task_moves;
    [exact demo_ready|fits_eval|by_eval|by_eval|by_eval|by_eval|by_eval| |sorted_eval].
  intros x Hx. cbn in Hx. by apply not_elem_of_nil in Hx.
Defined.
