(* ===== verification/Schedule.v ===== *)
(** Schedule: the choice of the running task.

    [rt_schedule], the macros it is made of (round robin, Linux locking,
    execution time accounting) and the timer interrupt handler
    [rt_timer_handler] of [newlxrt/scheduler/rtai_sched.c], with the scaled
    arithmetic of [include/asm-i386/rtai-24.h] they use. *)

From S2P Require Import Prelude Resume DList SchedState SchedQueues.

(** * Scaled arithmetic

    The inline assembly of [imuldiv] and [llimd], instruction by instruction
    on 32-bit registers: [mull] leaves a 64-bit product in [edx:eax], [divl]
    divides [edx:eax].  A quotient that does not fit a register raises a
    divide error on the processor, which is not modelled. *)

Definition lo32 (z : Z) : Z := z mod 4294967296.
Definition hi32 (z : Z) : Z := (z / 4294967296) mod 4294967296.

Definition imuldiv (i mult div : Z) : Z :=
  let p := u32 i * u32 mult in
  i32 (p / u32 div).

Definition llimd (ll mult div : Z) : Z :=
  let mult := u32 mult in
  let div := u32 div in
  (* mull %esi on the low word *)
  let p0 := lo32 ll * mult in
  let ebx := lo32 p0 in
  let ecx := hi32 p0 in
  (* mull %esi on the high word; addl %ecx,%eax; adcl $0,%edx *)
  let p1 := hi32 ll * mult + ecx in
  (* divl %edi, twice *)
  let qh := p1 / div in
  let rh := p1 mod div in
  let p2 := rh * 4294967296 + ebx in
  let ql := p2 / div in
  let r := p2 mod div in
  let q := lo32 qh * 4294967296 + lo32 ql in
  (* sal $1,%edx; cmpl %edx,%edi; jge *)
  if i32 div >=? i32 (lo32 (2 * r)) then i64 q else i64 (q + 1).

(** [0x7FFF*(CPU_FREQ/TIMER_FREQ)], the longest delay of the 8254. *)
Definition ONESHOT_SPAN (s : RTAI) : Z := u32 (32767 * (cpu_freq s / TIMER_FREQ s)).

(** * Round robin *)

(** The move of the running task after the tasks of the same priority; the
    result tells whether it moved. *)
Definition rr_rotate (rt_current : Z) : K bool :=
  s ← get;
  task ← walkM (fun t => priority s rt_current =? priority s t) (rnext s) (rnext s rt_current);
  if negb (task =? rnext s rt_current) then
    runlink rt_current;; rlink rt_current task;; mret true
  else mret false.

Definition RR_YIELD (rt_current : Z) : K unit :=
  s ← get;
  when (policy s rt_current >? 0)
    (wr rr_remaining rt_current (i32 (yield_time s rt_current - tick_time s));;
     s ← get;
     when (rr_remaining s rt_current <=? 0)
       (wr rr_remaining rt_current (rr_quantum s rt_current);;
        when (state s rt_current =? READY) (_ ← rr_rotate rt_current; mret tt))).

Definition RR_SETYT (new_task : Z) : K unit :=
  s ← get;
  when (policy s new_task >? 0)
    (wr yield_time new_task (i64 (rt_time_h s + rr_remaining s new_task))).

(** [RR_SPREMP]: whether to preempt, and when. *)
Definition RR_SPREMP (s : RTAI) (new_task intr : Z) : bool * Z :=
  if policy s new_task >? 0 then
    (true, if yield_time s new_task <? intr then yield_time s new_task else intr)
  else (false, intr).

(** [RR_TPREMP], on [rt_times.intr_time]. *)
Definition RR_TPREMP (new_task prio : Z) : K bool :=
  s ← get;
  if policy s new_task >? 0 then
    when (yield_time s new_task <? intr_time s) (wg intr_time (yield_time s new_task));;
    mret true
  else mret (nz (preempt_always s) || (prio =? RT_LINUX_PRIORITY)).

(** * Linux locking and execution times *)

Definition LOCK_LINUX : K unit :=
  s ← get;
  when (negb (nz (to_linux_depth s))) (wg lxrt_hrt_flags 1;; emit SwitchToRealTime);;
  wg to_linux_depth (i32 (to_linux_depth s + 1)).

Definition UNLOCK_LINUX : K unit :=
  s ← get;
  if nz (to_linux_depth s) then
    wg to_linux_depth (i32 (to_linux_depth s - 1));;
    s ← get;
    when (negb (nz (to_linux_depth s))) (emit SwitchToLinux;; wg lxrt_hrt_flags 0)
  else emit Printk.

Definition KEXECTIME (rt_current : Z) : K unit :=
  s ← get;
  when (negb (nz (lnxtsk s rt_current)))
    (wr exectime0 rt_current (i64 (exectime0 s rt_current + (tsc s - switch_time s))));;
  wg switch_time (tsc s).

Definition UEXECTIME (rt_current : Z) : K unit :=
  s ← get;
  when (nz (is_hard s rt_current))
    (wr exectime0 rt_current (i64 (exectime0 s rt_current + (tsc s - switch_time s))));;
  wg switch_time (tsc s).

Definition call_signal (t : Z) : K unit :=
  s ← get;
  when (nz (signal s t)) (emit (CallSignal (signal s t))).

(** * Choosing the next task *)

(** The first task of the timed list that must be served before [intr]:
    [while ((task = task->tnext) != &rt_linux_task) if (task->priority <= prio
    && task->resume_time < intr) ...] *)
Fixpoint next_shot (fuel : nat) (s : RTAI) (prio intr task : Z) : option (option Z) :=
  if task =? rt_linux_task then Some None
  else if (priority s task <=? prio) && (resume_time s task <? intr) then Some (Some task)
  else match fuel with
       | O => None
       | S fuel' => next_shot fuel' s prio intr (tnext s task)
       end.

(** The label [fire]: programming the timer for [rt_times.intr_time]. *)
Definition fire : K unit :=
  s ← get;
  let delay := i32 (i32 (intr_time s - tsc s) - tuned_latency s) in
  if delay >=? setup_time_TIMER_CPUNIT s then
    emit (SetTimerChip (imuldiv delay (TIMER_FREQ s) (cpu_freq s)))
  else
    wg intr_time (i64 (tsc s + setup_time_TIMER_CPUNIT s));;
    emit (SetTimerChip (setup_time_TIMER_UNIT s)).

(** The head of the ready list and its priority ([TASK_TO_SCHEDULE]). *)
Definition task_to_schedule : K (Z * Z) :=
  s ← get;
  let new_task := rnext s rt_linux_task in
  mret (new_task, priority s new_task).

(** What [rt_schedule] does with the first task to serve, if any. *)
Definition program_timer (preempt : bool) (intr prio : Z) (shot : option Z) : K unit :=
  s ← get;
  match shot with
  | Some task => wg intr_time (resume_time s task);; wg shot_fired 1;; fire
  | None =>
      when (preempt || (negb (nz (shot_fired s)) && (prio =? RT_LINUX_PRIORITY)))
        (when preempt (wg intr_time intr);; wg shot_fired 1;; fire)
  end.

(** The first part of [rt_schedule], up to the release of the lock. *)
Definition sched_choose (rt_current : Z) : K Z :=
  RR_YIELD rt_current;;
  s ← get;
  if nz (oneshot_running s) then
    wg rt_time_h (i64 (tsc s + rt_half_tick s));;
    wake_up_timed_tasks;;
    '(new_task, prio) ← task_to_schedule;
    RR_SETYT new_task;;
    s ← get;
    let intr := if nz (shot_fired s) then intr_time s else i64 (intr_time s + ONESHOT_SPAN s) in
    let '(preempt, intr) := RR_SPREMP s new_task intr in
    shot ← of_option (next_shot LIST_FUEL s prio intr (tnext s rt_linux_task));
    program_timer preempt intr prio shot;;
    mret new_task
  else
    '(new_task, _) ← task_to_schedule;
    RR_SETYT new_task;;
    mret new_task.

(** * Giving the processor to another task *)

(** The bound on the times a resumed task finds that it must wait again. *)
Definition SCHED_FUEL : nat := 64.

(** A switch that involves a kernel task, up to the return of
    [rt_exchange_tasks] in the task that was switched out.  The result is the
    task of a [goto schedlnxtsk]. *)
Definition switch_kernel (rt_current new_task : Z) : K (option Z) :=
  s ← get;
  new_task ←
    (if nz (lnxtsk s rt_current) then
       LOCK_LINUX;; emit SaveCr0;; wr nextp rt_linux_task rt_current;; mret new_task
     else if nz (lnxtsk s new_task) then
       wr prevp rt_linux_task new_task;; s ← get; mret (nextp s rt_linux_task)
     else mret new_task);
  KEXECTIME rt_current;;
  switch (fun s => s <| rt_smp_current := new_task |>);;
  s ← get;
  if nz (lnxtsk s rt_current) then
    UNLOCK_LINUX;; emit RestoreCr0;;
    s ← get;
    if negb (rt_current =? prevp s rt_linux_task) then mret (Some (prevp s rt_linux_task))
    else call_signal rt_current;; mret None
  else
    when (nz (uses_fpu s rt_current))
      (emit EnableFpu;;
       when (negb (rt_current =? fpu_task s))
         (emit (SaveFpenv (fpu_task s));; wg fpu_task rt_current;;
          emit (RestoreFpenv rt_current)));;
    call_signal rt_current;; mret None.

Section Soft.
Context (rt_schedule : K unit).

Definition make_current_soft (rt_current : Z) : K unit :=
  s ← get;
  wr state rt_current (clr (state s rt_current) READY);;
  wr force_soft rt_current 0;;
  wake_up_srq_put (lnxtsk s rt_current);;
  runlink rt_current;;
  rt_schedule;;
  wr is_hard rt_current 0;;
  s ← get;
  wr state rt_current (Z.lor (state s rt_current) READY);;
  s ← get;
  when (negb (state s rt_current =? READY))
    (wr p_state (current s) TASK_HARDREALTIME;; rt_schedule).

(** A switch between user space tasks one of which is hard.  The result
    tells that the task resumed in Linux is not ready.  [RestoreFpu] is the
    reload of the floating point state of the Linux task, if it used it. *)
Definition switch_hard (rt_current new_task : Z) : K bool :=
  s ← get;
  let prev := current s in
  when (negb (nz (is_hard s rt_current))) (LOCK_LINUX;; wr lnxtsk rt_linux_task prev);;
  wg rt_smp_current new_task;;
  UEXECTIME rt_current;;
  switch (fun s => s <| log ::= cons (TaskSwitch prev (lnxtsk s new_task)) |>);;
  emit (RestoreFpu prev);;
  call_signal rt_current;;
  s ← get;
  if negb (nz (is_hard s rt_current)) then
    UNLOCK_LINUX;; s ← get; mret (negb (state s rt_current =? READY))
  else
    when (nz (force_soft s rt_current)) (make_current_soft rt_current);; mret false.
End Soft.

(** [while (((rt_current)->state |= READY) != READY) { ... schedule(); ... }] *)
Fixpoint soft_wait (fuel : nat) (rt_current : Z) : K unit :=
  s ← get;
  wr state rt_current (Z.lor (state s rt_current) READY);;
  s ← get;
  if state s rt_current =? READY then mret tt
  else
    match fuel with
    | O => stuck
    | S fuel' =>
        wr p_state (current s) TASK_HARDREALTIME;;
        switch (fun s => s <| log ::= cons ScheduleLinux |>);;
        soft_wait fuel' rt_current
    end.

(** A switch between soft user space tasks, left to Linux. *)
Definition switch_soft (rt_current new_task : Z) : K unit :=
  s ← get;
  when (negb (new_task =? rt_linux_task))
    (wr p_rt_priority (lnxtsk s new_task) BASE_SOFT_PRIORITY);;
  wg rt_smp_current new_task;;
  UNLOCK_LINUX;;
  switch (fun s => s <| log ::= cons ScheduleLinux |>);;
  when (negb (rt_current =? rt_linux_task))
    (soft_wait SCHED_FUEL rt_current;;
     LOCK_LINUX;;
     s ← get;
     wr p_rt_priority (lnxtsk s rt_current) BASE_SOFT_PRIORITY;;
     enq_ready_task rt_current;;
     wg rt_smp_current rt_current).

(** The body of [rt_schedule] from [repeat] on, with the rest of its
    iterations and the calls of [make_current_soft] given by [again]. *)
Definition schedule_step (again : Z -> K unit) (rt_current : Z) : K unit :=
  new_task ← sched_choose rt_current;
  if new_task =? rt_current then mret tt
  else
    s ← get;
    goto ←
      (if negb (nz (lnxtsk s new_task)) || negb (nz (lnxtsk s rt_current)) then
         switch_kernel rt_current new_task
       else mret (Some new_task));
    match goto with
    | None => mret tt
    | Some new_task =>
        s ← get;
        if nz (is_hard s new_task) || nz (is_hard s rt_current) then
          repeat ← switch_hard
                     (s ← get; wg sched_rqsted 1;; again (rt_smp_current s))
                     rt_current new_task;
          when repeat (again rt_current)
        else switch_soft rt_current new_task
    end.

Fixpoint schedule_loop (fuel : nat) (rt_current : Z) : K unit :=
  match fuel with
  | O => stuck
  | S fuel' => schedule_step (schedule_loop fuel') rt_current
  end.

Definition rt_schedule : K unit :=
  s ← get;
  wg sched_rqsted 1;;
  schedule_loop SCHED_FUEL (rt_smp_current s).

(** * The timer interrupt *)

Definition rt_timer_choose (rt_current : Z) : K Z :=
  s ← get;
  wg tick_time (intr_time s);;
  wg rt_time_h (i64 (intr_time s + rt_half_tick s));;
  when (intr_time s >=? linux_time s)
    (wg linux_time (i64 (linux_time s + linux_tick s));; emit UpdateLinuxTimer);;
  wake_up_timed_tasks;;
  RR_YIELD rt_current;;
  '(new_task, prio) ← task_to_schedule;
  RR_SETYT new_task;;
  s ← get;
  (if nz (oneshot_timer s) then
     wg intr_time (i64 (tick_time s + ONESHOT_SPAN s));;
     preempt ← RR_TPREMP new_task prio;
     s ← get;
     shot ← of_option (next_shot LIST_FUEL s prio (intr_time s) (tnext s rt_linux_task));
     match shot with
     | Some task => wg intr_time (resume_time s task);; wg shot_fired 1;; fire
     | None =>
         wg shot_fired (b2z preempt);;
         when preempt
           (wg intr_time
              (if linux_time s >? tick_time s then linux_time s
               else i64 (tick_time s + Z.shiftr (linux_tick s) 1));;
            fire)
     end
   else
     wg intr_time (i64 (intr_time s + periodic_tick s));; emit SetTimerDelay);;
  mret new_task.

Definition rt_timer_handler : K unit :=
  s ← get;
  let rt_current := rt_smp_current s in
  wg sched_rqsted 1;;
  new_task ← rt_timer_choose rt_current;
  if new_task =? rt_current then mret tt
  else
    s ← get;
    goto ←
      (if negb (nz (lnxtsk s new_task)) || negb (nz (lnxtsk s rt_current)) then
         switch_kernel rt_current new_task
       else mret (Some new_task));
    match goto with
    | None => mret tt
    | Some new_task =>
        s ← get;
        if nz (is_hard s new_task) || nz (is_hard s rt_current) then
          not_ready ← switch_hard rt_schedule rt_current new_task;
          when not_ready (emit Printk)
        else emit Printk
    end.

(** * Scaled arithmetic: the result *)

Lemma lo_hi32 z : 0 <= z < 18446744073709551616 ->
  z = hi32 z * 4294967296 + lo32 z /\ 0 <= lo32 z < 4294967296 /\ 0 <= hi32 z < 4294967296.
Proof.
  intros Hz. unfold hi32, lo32.
  pose proof (Z.mod_pos_bound z 4294967296 eq_refl).
  pose proof (Z.div_mod z 4294967296 ltac:(lia)).
  assert (0 <= z / 4294967296 < 4294967296).
  { split; [apply Z.div_pos; lia|apply Z.div_lt_upper_bound; lia]. }
  rewrite (Z.mod_small (z / 4294967296)) by lia. lia.
Qed.

(** Long division by [div] in base 2^32. *)
Lemma long_division p ebx div :
  0 <= p -> 0 <= ebx < 4294967296 -> 0 < div ->
  let rh := p mod div in
  let p2 := rh * 4294967296 + ebx in
  p * 4294967296 + ebx = (p / div * 4294967296 + p2 / div) * div + p2 mod div /\
  0 <= p2 / div < 4294967296 /\ 0 <= p2 mod div < div.
Proof.
  intros Hp Hb Hd rh p2.
  pose proof (Z.div_mod p div ltac:(lia)) as E1. pose proof (Z.mod_pos_bound p div Hd) as B1.
  pose proof (Z.div_mod p2 div ltac:(lia)) as E2. pose proof (Z.mod_pos_bound p2 div Hd) as B2.
  change (p mod div) with rh in E1, B1.
  assert (0 <= p2 < div * 4294967296) by (unfold p2; nia).
  split_and!; [unfold p2 in *; nia| | |lia|lia].
  - apply Z.div_pos; lia.
  - apply Z.div_lt_upper_bound; lia.
Qed.

(** The value [llimd] computes: [ll * mult / div] and a remainder whose double
    exceeds [div] counts one more, if the double is not negative as an [int]. *)
Lemma llimd_value ll mult div :
  0 <= ll <= LLONG_MAX -> 0 <= mult < 4294967296 -> 0 < div <= INT_MAX ->
  ll * mult < div * LLONG_MAX ->
  let r := (ll * mult) mod div in
  llimd ll mult div = ll * mult / div + (if (div <? 2 * r) && (2 * r <=? INT_MAX) then 1 else 0).
Proof.
  intros Hll Hm Hd Hq r. unfold LLONG_MAX, INT_MAX in *. unfold llimd.
  assert (Eu : forall z, 0 <= z < 4294967296 -> u32 z = z) by (intros; apply Z.mod_small; lia).
  cbv zeta. rewrite (Eu mult), (Eu div) by lia.
  destruct (lo_hi32 ll) as (Ell & Hlo & Hhi); [lia|].
  destruct (lo_hi32 (lo32 ll * mult)) as (Ep & Hlo' & Hhi'); [nia|].
  set (p1 := hi32 ll * mult + hi32 (lo32 ll * mult)).
  set (ebx := lo32 (lo32 ll * mult)) in *.
  assert (Ellm : ll * mult = p1 * 4294967296 + ebx) by (unfold p1; nia).
  assert (0 <= p1) by (unfold p1; nia).
  destruct (long_division p1 ebx div) as (El & Hql & Hr); [lia..|].
  set (p2 := p1 mod div * 4294967296 + ebx) in *.
  rewrite <- Ellm in El.
  assert (Hqh : 0 <= p1 / div < 4294967296).
  { split; [apply Z.div_pos; lia|]. apply Z.div_lt_upper_bound; [lia|]. nia. }
  assert (Elo : forall z, 0 <= z < 4294967296 -> lo32 z = z) by (intros; apply Z.mod_small; lia).
  rewrite !Elo by lia.
  assert (Eq : p1 / div * 4294967296 + p2 / div = ll * mult / div).
  { apply (Z.div_unique_pos _ _ _ (p2 mod div)); lia. }
  assert (Er : p2 mod div = r).
  { apply (Z.mod_unique_pos _ _ (ll * mult / div)); [lia|]. rewrite <- Eq. lia. }
  rewrite Eq, Er. rewrite Er in Hr. clearbody r.
  assert (0 <= ll * mult / div < 9223372036854775807).
  { split; [apply Z.div_pos; nia|]. apply Z.div_lt_upper_bound; lia. }
  rewrite (i32_id div) by (unfold in_i32, INT_MIN, INT_MAX; lia). rewrite Z.geb_leb, i64_id by (unfold in_i64, LLONG_MAX; lia).
  rewrite i64_id by (unfold in_i64, LLONG_MAX; lia).
  destruct (Z.leb_spec (2 * r) 2147483647) as [Hs|Hs].
  - rewrite (i32_id (2 * r)) by (unfold in_i32, INT_MIN, INT_MAX; lia). rewrite andb_true_r.
    destruct (Z.leb_spec (2 * r) div), (Z.ltb_spec div (2 * r)); lia.
  - rewrite andb_false_r. assert (i32 (2 * r) <= 0).
    { unfold i32. replace (2 * r + 2147483648) with (2 * r - 2147483648 + 1 * 4294967296) by lia.
      rewrite Z_mod_plus_full, Z.mod_small by lia. lia. }
    rewrite (proj2 (Z.leb_le _ _)) by lia. lia.
Qed.

Lemma llimd_eq ll mult div :
  0 <= ll <= LLONG_MAX -> 0 <= mult < 4294967296 -> 0 < div <= 1073741824 ->
  ll * mult < div * LLONG_MAX ->
  llimd ll mult div =
    ll * mult / div + (if 2 * ((ll * mult) mod div) >? div then 1 else 0).
Proof.
  intros Hll Hm Hd Hq. rewrite llimd_value by (unfold INT_MAX; lia).
  pose proof (Z.mod_pos_bound (ll * mult) div ltac:(lia)) as B.
  by rewrite (proj2 (Z.leb_le _ INT_MAX)), andb_true_r, Z.gtb_ltb by (unfold INT_MAX; lia).
Qed.

(** The error is at most half a unit when no remainder reaches [2 ^ 30]. *)
Lemma llimd_half ll mult div :
  0 <= ll <= LLONG_MAX -> 0 <= mult < 4294967296 -> 0 < div <= 1073741824 ->
  ll * mult < div * LLONG_MAX ->
  2 * Z.abs (llimd ll mult div * div - ll * mult) <= div /\ 0 <= llimd ll mult div <= LLONG_MAX.
Proof.
  intros Hll Hm Hd Hq. rewrite llimd_eq by done.
  pose proof (Z.div_mod (ll * mult) div ltac:(lia)) as E.
  pose proof (Z.mod_pos_bound (ll * mult) div ltac:(lia)) as B.
  assert (0 <= ll * mult / div < LLONG_MAX).
  { split; [apply Z.div_pos; nia|]. apply Z.div_lt_upper_bound; lia. }
  rewrite Z.gtb_ltb. destruct (Z.ltb_spec div (2 * ((ll * mult) mod div))); split; nia.
Qed.

(** C29: [llimd], for [ll] and [mult] that are not negative, a positive [div] and a
    quotient that fits: the 64 by 32 bit division is exact and the result does
    not overflow.  A remainder below [2 ^ 30], and so any result for a [div] of
    at most [2 ^ 30], is rounded to the nearest; a remainder from [2 ^ 30] on,
    whose double is negative as an [int], is always rounded down, although it
    is more than half of [div]. *)
Theorem llimd_rounds ll mult div :
  0 <= ll <= LLONG_MAX -> 0 <= mult <= INT_MAX -> 0 < div <= INT_MAX ->
  ll * mult < div * LLONG_MAX ->
  let r := (ll * mult) mod div in
  0 <= llimd ll mult div <= LLONG_MAX /\
  (r < 1073741824 -> 2 * Z.abs (llimd ll mult div * div - ll * mult) <= div) /\
  (1073741824 <= r -> llimd ll mult div = ll * mult / div /\ div < 2 * (ll * mult - llimd ll mult div * div)).
Proof.
  intros Hll Hm Hd Hq r. rewrite llimd_value by (unfold INT_MAX in *; lia). fold r.
  pose proof (Z.div_mod (ll * mult) div ltac:(lia)) as E.
  pose proof (Z.mod_pos_bound (ll * mult) div ltac:(lia)) as B. fold r in E, B.
  assert (Hq' : 0 <= ll * mult / div < LLONG_MAX).
  { split; [apply Z.div_pos; nia|]. apply Z.div_lt_upper_bound; lia. }
  set (q := ll * mult / div) in *. clearbody q r. unfold INT_MAX in *.
  destruct (Z.ltb_spec div (2 * r)), (Z.leb_spec (2 * r) 2147483647); cbn [andb];
    (split; [lia|split; intros; [|split]; nia]).
Qed.

(** At 600 MHz, and at 2 GHz with a remainder of [1999999999]. *)
Lemma llimd_rounds_witness :
  (0 <= llimd 1000003 1000000000 600000007 <= LLONG_MAX /\
   ((1000003 * 1000000000) mod 600000007 < 1073741824 ->
      2 * Z.abs (llimd 1000003 1000000000 600000007 * 600000007 - 1000003 * 1000000000) <= 600000007) /\
   (1073741824 <= (1000003 * 1000000000) mod 600000007 ->
      llimd 1000003 1000000000 600000007 = 1000003 * 1000000000 / 600000007 /\
      600000007 < 2 * (1000003 * 1000000000 - llimd 1000003 1000000000 600000007 * 600000007))) /\
  0 <= llimd 1999999999 1 2000000000 <= LLONG_MAX /\
  ((1999999999 * 1) mod 2000000000 < 1073741824 ->
     2 * Z.abs (llimd 1999999999 1 2000000000 * 2000000000 - 1999999999 * 1) <= 2000000000) /\
  (1073741824 <= (1999999999 * 1) mod 2000000000 ->
     llimd 1999999999 1 2000000000 = 1999999999 * 1 / 2000000000 /\
     2000000000 < 2 * (1999999999 * 1 - llimd 1999999999 1 2000000000 * 2000000000)).
Proof. split; apply llimd_rounds; unfold LLONG_MAX, INT_MAX; lia. Defined.

(** * Choosing the next task *)

Lemma next_shot_eq s prio intr a l fuel :
  seg (tnext s) (tprev s) a l rt_linux_task -> rt_linux_task ∉ l -> (length l < fuel)%nat ->
  next_shot fuel s prio intr (tnext s a) =
    Some (List.find (fun t => (priority s t <=? prio) && (resume_time s t <? intr)) l).
Proof.
  revert a fuel. induction l as [|t l IH]; intros a fuel Hs Hl Hf.
  - destruct Hs as [-> _]. by destruct fuel.
  - destruct Hs as (-> & _ & Hs). apply not_elem_of_cons in Hl as [Ht Hl].
    destruct fuel as [|fuel]; [simpl in Hf; lia|]. cbn [next_shot List.find].
    rewrite (proj2 (Z.eqb_neq _ _)) by congruence.
    destruct (_ && _); [done|]. apply IH; [done|done|simpl in Hf; lia].
Qed.

(** What the scheduler keeps in all it does. *)
Record kept (s s' : RTAI) : Prop := {
  kp_order : priority s' = priority s /\ resume_time s' = resume_time s /\ is_hard s' = is_hard s;
  kp_procs : lnxtsk s' = lnxtsk s /\ rt_smp_current s' = rt_smp_current s /\ current s' = current s;
  kp_pass : prevp s' = prevp s /\ nextp s' = nextp s;
  kp_ring : wus_in s' = wus_in s /\ wus_out s' = wus_out s /\ wus_task s' = wus_task s;
  kp_log : forall e, e ∈ log s -> e ∈ log s'
}.

(** What it may change before it gives the processor away, once the lists are
    made. *)
Record sched_frame (s s' : RTAI) : Prop := {
  sf_kept : kept s s';
  sf_ready : rnext s' = rnext s /\ rprev s' = rprev s;
  sf_timed : tnext s' = tnext s /\ tprev s' = tprev s;
  sf_state : state s' = state s
}.

Ltac frame :=
  split; [split; [by repeat split|by repeat split|by repeat split|by repeat split|
    intros ? ?; state_simpl; repeat first [rewrite elem_of_cons|rewrite elem_of_app]; tauto]|by repeat split|by repeat split|done].

#[export] Instance kept_refl : Reflexive kept.
Proof. intros s. split; [by repeat split..|done]. Qed.

#[export] Instance kept_trans : Transitive kept.
Proof.
  intros s1 s2 s3 [(A1 & A2 & A3) (A4 & A5 & A6) (A7 & A8) (A9 & A10 & A11) A12]
    [(B1 & B2 & B3) (B4 & B5 & B6) (B7 & B8) (B9 & B10 & B11) B12].
  split; [split_and!; congruence..|]. intros e He. by apply B12, A12.
Qed.

#[export] Instance sched_frame_refl : Reflexive sched_frame.
Proof. intros s. by repeat split. Qed.

#[export] Instance sched_frame_trans : Transitive sched_frame.
Proof.
  intros s1 s2 s3 [K1 (A1 & A2) (A3 & A4) A5] [K2 (B1 & B2) (B3 & B4) B5].
  split; [by transitivity s2|split; congruence..|congruence].
Qed.

Section Frames.
Implicit Types (s : RTAI) (t c : Z).

Lemma fire_frame s : exists s', fire s = Done tt s' /\ sched_frame s s'.
Proof.
  unfold fire. step_m. destruct (_ >=? _); step_m; eexists; (split; [reflexivity|frame]).
Qed.

Lemma program_timer_frame preempt intr prio shot s :
  exists s', program_timer preempt intr prio shot s = Done tt s' /\ sched_frame s s'.
Proof.
  unfold program_timer. step_m.
  assert (H : forall s1, sched_frame s (s1 <| shot_fired := 1 |>) ->
            exists s', fire (s1 <| shot_fired := 1 |>) = Done tt s' /\ sched_frame s s').
  { intros s1 F1. destruct (fire_frame (s1 <| shot_fired := 1 |>)) as (s' & -> & F).
    exists s'. split; [done|]. exact (sched_frame_trans _ _ _ F1 F). }
  destruct shot as [task|]; step_m; [apply (H (s <| intr_time := resume_time s task |>)); frame|].
  destruct (preempt || _); [|exists s; split; [done|apply sched_frame_refl]].
  destruct preempt; step_m; [apply (H (s <| intr_time := intr |>)); frame|apply (H s); frame].
Qed.

Lemma RR_SETYT_frame t s : exists s', RR_SETYT t s = Done tt s' /\ sched_frame s s'.
Proof.
  unfold RR_SETYT. step_m. destruct (policy s t >? 0); step_m; eexists; (split; [reflexivity|]); [frame|apply sched_frame_refl].
Qed.

Lemma KEXECTIME_eq s c : exists e w, KEXECTIME c s = Done tt (s <| exectime0 := e |> <| switch_time := w |>).
Proof.
  unfold KEXECTIME. step_m. destruct (negb (nz (lnxtsk s c))); step_m.
  - by do 2 eexists.
  - exists (exectime0 s), (tsc s). by destruct s.
Qed.

Lemma UEXECTIME_eq s c : exists e w, UEXECTIME c s = Done tt (s <| exectime0 := e |> <| switch_time := w |>).
Proof.
  unfold UEXECTIME. step_m. destruct (nz (is_hard s c)); step_m.
  - by do 2 eexists.
  - exists (exectime0 s), (tsc s). by destruct s.
Qed.

Lemma call_signal_eq s t : exists lg, call_signal t s = Done tt (s <| log := lg ++ log s |>).
Proof.
  unfold call_signal. step_m. destruct (nz (signal s t)); step_m; [by exists [CallSignal (signal s t)]|].
  exists []. by destruct s.
Qed.

Lemma LOCK_LINUX_eq s : exists f lg,
  LOCK_LINUX s = Done tt (s <| lxrt_hrt_flags := f |> <| log := (lg ++ log s) |> <| to_linux_depth := i32 (to_linux_depth s + 1) |>).
Proof.
  unfold LOCK_LINUX. step_m. destruct (nz (to_linux_depth s)); step_m.
  - exists (lxrt_hrt_flags s), []. by destruct s.
  - by exists 1, [SwitchToRealTime].
Qed.

Lemma UNLOCK_LINUX_eq s : exists f lg d,
  UNLOCK_LINUX s = Done tt (s <| lxrt_hrt_flags := f |> <| log := (lg ++ log s) |> <| to_linux_depth := d |>).
Proof.
  unfold UNLOCK_LINUX. step_m. destruct (nz (to_linux_depth s)); step_m.
  - destruct (negb _); step_m; [by eexists 0, [SwitchToLinux], _|].
    exists (lxrt_hrt_flags s), [], (i32 (to_linux_depth s - 1)). by destruct s.
  - exists (lxrt_hrt_flags s), [Printk], (to_linux_depth s). by destruct s.
Qed.

Lemma RR_YIELD_off t s : policy s t <= 0 -> RR_YIELD t s = Done tt s.
Proof.
  intros H. unfold RR_YIELD. step_m. by rewrite Z.gtb_ltb, (proj2 (Z.ltb_ge _ _)).
Qed.
End Frames.

(** * Round robin: the place of the running task *)

(** The walk of the round robin stops after the tasks of the same priority. *)
Lemma rr_rotate_spec s c l1 eqs l2 :
  ready_list s (l1 ++ c :: eqs ++ l2) -> fits (l1 ++ c :: eqs ++ l2) ->
  priority s c < priority s rt_linux_task ->
  (forall x, x ∈ eqs -> priority s x = priority s c) ->
  (forall x, head l2 = Some x -> priority s x <> priority s c) ->
  exists s', rr_rotate c s = Done (negb (bool_decide (eqs = []))) s' /\ ready_links s s' /\
    ready_list s' (l1 ++ eqs ++ c :: l2).
Proof.
  intros Hr Hf Hlx Heq Hl2. pose proof Hr as [Hseg Hnd]. apply seg_app in Hseg as [_ Hseg].
  set (p := fun t => priority s c =? priority s t).
  assert (Hd : drop_while p (eqs ++ l2) = l2).
  { clear -Heq Hl2. induction eqs as [|x eqs IH]; simpl.
    - destruct l2 as [|y l2]; [done|]. simpl. unfold p.
      rewrite (proj2 (Z.eqb_neq _ _)); [done|]. intros E. by apply (Hl2 y).
    - unfold p at 1. rewrite (Heq x), Z.eqb_refl by left. apply IH. intros y Hy. apply Heq. by right. }
  assert (Hw : walk LIST_FUEL p (rnext s) (rnext s c) = Some (hd rt_linux_task l2)).
  { rewrite (walk_seg _ _ _ _ _ _ _ Hseg); [by rewrite Hd|unfold p; apply Z.eqb_neq; lia|].
    unfold fits in Hf. rewrite length_app in Hf. simpl in Hf. lia. }
  unfold rr_rotate, walkM. step_m. fold p. rewrite Hw. step_m.
  rewrite (seg_next _ _ _ _ _ Hseg). destruct eqs as [|x eqs]; simpl app.
  - rewrite Z.eqb_refl. simpl. exists s. split_and!; [done|apply ready_links_refl|done].
  - rewrite bool_decide_false by done. simpl hd.
    rewrite (proj2 (Z.eqb_neq _ _)).
    2:{ intros E. apply (hd_not_in rt_linux_task (l1 ++ c :: x :: eqs) l2);
          [by rewrite <- app_assoc|]. rewrite E, elem_of_app. right. by right; left. }
    cbn [negb]. destruct (runlink_spec s c l1 ((x :: eqs) ++ l2) Hr) as (s1 & E1 & L1 & R1).
    unfold mbind, M_bind. rewrite E1. cbn [bind_out].
    destruct (ring_middle _ _ _ _ _ _ Hr) as (Hc1 & Hc2 & Hc3).
    rewrite app_assoc in R1. destruct (rlink_spec s1 c (l1 ++ x :: eqs) l2) as (s2 & E2 & L2 & R2);
      [done|by rewrite <- app_assoc|].
    rewrite E2. step_m. exists s2. split_and!; [done|by eapply ready_links_trans|].
    by rewrite <- app_assoc in R2.
Qed.

(** The slice of the running task is not over, or it is not ready. *)
Definition no_rotation (s : RTAI) (c : Z) : Prop :=
  policy s c <= 0 \/ 0 < i32 (yield_time s c - tick_time s) \/ state s c <> READY.

(** A running task of the round robin that is ready is in the ready list. *)
Definition can_rotate (s : RTAI) (c : Z) (l : list Z) : Prop :=
  0 < policy s c -> state s c = READY -> c ∈ l /\ priority s c < priority s rt_linux_task.

(** The order of the ready list changes among equals only. *)
Definition rotated (s : RTAI) (c : Z) (l l' : list Z) : Prop :=
  l' ≡ₚ l /\ priority s <$> l' = priority s <$> l /\ (no_rotation s c -> l' = l).

Section Rotation.
Implicit Types (s : RTAI) (c : Z) (l : list Z).

Lemma rotated_same s c l : rotated s c l l.
Proof. done. Qed.

Lemma fmap_equals (k : Z -> Z) c l1 eqs l2 :
  (forall x, x ∈ eqs -> k x = k c) -> k <$> l1 ++ eqs ++ c :: l2 = k <$> l1 ++ c :: eqs ++ l2.
Proof.
  intros H. rewrite !fmap_app, !fmap_cons, !fmap_app. f_equal. induction eqs as [|x eqs IH]; [done|].
  cbn [fmap list_fmap app]. rewrite (H x) by list_in. f_equal. apply IH. intros y Hy. apply H. list_in.
Qed.

Lemma sorted_by_fmap {A} (k : A -> Z) (l l' : list A) : k <$> l' = k <$> l -> sorted_by k l -> sorted_by k l'.
Proof.
  unfold sorted_by. revert l. induction l' as [|x l' IH]; intros [|y l] E S; [constructor|done..|].
  cbn in E. injection E as E1 E2. apply StronglySorted_inv in S as [S F]. constructor; [by apply (IH l)|].
  rewrite Forall_forall in *. intros z Hz. rewrite E1.
  assert (Hk : k z ∈ k <$> l) by (rewrite <- E2; by apply list_elem_of_fmap_2).
  apply list_elem_of_fmap in Hk as (w & -> & Hw). by apply F.
Qed.

Lemma lock_first_fmap prio l l' : prio <$> l' = prio <$> l -> lock_first prio l -> lock_first prio l'.
Proof.
  intros E H x Hx. assert (E' : prio <$> tail l' = prio <$> tail l) by (destruct l', l; cbn in *; congruence).
  assert (Hk : prio x ∈ prio <$> tail l) by (rewrite <- E'; by apply list_elem_of_fmap_2).
  apply list_elem_of_fmap in Hk as (w & -> & Hw). by apply H.
Qed.

Lemma RR_YIELD_spec s c l :
  ready_list s l -> fits l -> can_rotate s c l ->
  exists r P N l', let s' := s <| rr_remaining := r |> <| rprev := P |> <| rnext := N |> in
    RR_YIELD c s = Done tt s' /\ ready_list s' l' /\ rotated s c l l'.
Proof.
  intros Hr Hf Hc. assert (Hid : forall r, exists P N, s <| rr_remaining := r |> = s <| rr_remaining := r |> <| rprev := P |> <| rnext := N |>).
  { intros r. exists (rprev s), (rnext s). by destruct s. }
  unfold RR_YIELD. step_m. rewrite Z.gtb_ltb. destruct (Z.ltb_spec 0 (policy s c)) as [Hp|Hp].
  2:{ destruct (Hid (rr_remaining s)) as (P & N & E). exists (rr_remaining s), P, N, l.
      replace (s <| rr_remaining := rr_remaining s |>) with s in * by (by destruct s). rewrite <- E. by split_and!. }
  step_m. rewrite upd_eq. destruct (Z.leb_spec (i32 (yield_time s c - tick_time s)) 0) as [Hle|Hgt]; step_m.
  2:{ destruct (Hid (<[c := i32 (yield_time s c - tick_time s)]> (rr_remaining s))) as (P & N & E). do 3 eexists. exists l.
      split; [exact (f_equal (Done tt) E)|]. rewrite <- E. by split. }
  destruct (Z.eqb_spec (state s c) READY) as [Hst|Hst]; step_m.
  2:{ match goal with |- context [Done tt ?x] => set (s1 := x) end.
      exists (rr_remaining s1), (rprev s), (rnext s), l. split; [unfold s1; by destruct s|]. split; [exact Hr|].
      apply rotated_same. }
  destruct (Hc Hp Hst) as [Hin Hlx]. apply list_elem_of_split in Hin as (l1 & l3 & ->).
  set (p := fun x => priority s x =? priority s c).
  pose proof (take_drop_while p l3) as E3. set (eqs := take_while p l3) in *. set (l2 := drop_while p l3) in *. rewrite <- E3 in *.
  assert (Heq : forall x, x ∈ eqs -> priority s x = priority s c).
  { intros x Hx. by apply take_while_all, Z.eqb_eq in Hx. }
  match goal with |- context [rr_rotate c ?x] => set (s1 := x) end.
  destruct (rr_rotate_spec s1 c l1 eqs l2) as (s2 & E & (P & N & F) & R); [done|done|done|done| |].
  { intros x Hx. unfold l2 in Hx. clear -Hx. induction l3 as [|y l3 IH]; [done|]. cbn [drop_while] in Hx.
    destruct (p y) eqn:Ey; [by apply IH|]. injection Hx as <-. unfold p in Ey. by apply Z.eqb_neq. }
  rewrite E. cbn [bind_out]. exists (rr_remaining s1), P, N, (l1 ++ eqs ++ c :: l2).
  assert (F' : s2 = s <| rr_remaining := rr_remaining s1 |> <| rprev := P |> <| rnext := N |>) by (rewrite F; unfold s1; by destruct s).
  split; [by rewrite F'|]. split; [by rewrite <- F'|]. split; [|split].
  - by rewrite (Permutation_middle eqs l2 c).
  - by apply fmap_equals.
  - intros [Hn|[Hn|Hn]]; [lia|lia|done].
Qed.
End Rotation.

(** With the timer in periodic mode the choice is the head of the ready list. *)
Lemma sched_choose_periodic_eq s c l :
  ready_list s l -> policy s c <= 0 -> oneshot_running s = 0 ->
  exists y, sched_choose c s = Done (hd rt_linux_task l) (s <| yield_time := y |>).
Proof.
  intros Hr Hp Ho. unfold sched_choose, task_to_schedule. unfold mbind at 1, M_bind at 1.
  rewrite RR_YIELD_off by done. cbn [bind_out]. step_m. rewrite Ho. cbn [nz negb Z.eqb]. step_m.
  rewrite (ring_next _ _ _ _ Hr). unfold RR_SETYT. step_m. destruct (policy s (hd rt_linux_task l) >? 0); step_m.
  - by eexists.
  - exists (yield_time s). by destruct s.
Qed.

(** The time at which the scheduler looks at the timed list. *)
Definition sched_now (s : RTAI) : Z := i64 (tsc s + rt_half_tick s).

(** The tasks that it wakes: none in periodic mode, where the timer does. *)
Definition due (s : RTAI) (tl : list Z) : list Z :=
  if nz (oneshot_running s) then take_while (fun x => resume_time s x <=? sched_now s) tl else [].
Definition not_due (s : RTAI) (tl : list Z) : list Z :=
  if nz (oneshot_running s) then drop_while (fun x => resume_time s x <=? sched_now s) tl else tl.

(** The scheduler can be called with the ready list [rl] and, in one shot mode,
    the timed list [tl]. *)
Record can_schedule (s : RTAI) (tl rl : list Z) : Prop := {
  cs_ready : ready_list s rl;
  cs_fits : fits (tl ++ rl);
  cs_rotate : can_rotate s (rt_smp_current s) rl;
  cs_timed : oneshot_running s <> 0 ->
    timed_list s tl /\ NoDup (tl ++ rl) /\ linux_last s /\ sched_now s < RT_TIME_END /\
    forall t, t ∈ due s tl -> can_wake s t
}.

(** [sched_choose] with all it does to the lists: round robin, and the tasks
    that wake up in one shot mode, for which the timer is set anew. *)
Lemma sched_choose_spec s tl rl :
  can_schedule s tl rl ->
  exists s' rl0, let rl' := wake_list s (due s tl) rl0 in
    sched_choose (rt_smp_current s) s = Done (hd rt_linux_task rl') s' /\
    rotated s (rt_smp_current s) rl rl0 /\ ready_list s' rl' /\
    (oneshot_running s <> 0 -> timed_list s' (not_due s tl)) /\
    state s' = woken (state s) (due s tl) /\ kept s s'.
Proof.
  intros [Hr Hf Hy Ht]. set (c := rt_smp_current s) in *.
  destruct (RR_YIELD_spec s c rl) as (r & P & N & rl0 & E & R0 & Rot); [done| |done|].
  { unfold fits in *. rewrite length_app in Hf. lia. }
  set (s0 := s <| rr_remaining := r |> <| rprev := P |> <| rnext := N |>) in *.
  unfold sched_choose. unfold mbind at 1, M_bind at 1. rewrite E. cbn [bind_out]. step_m.
  change (oneshot_running s0) with (oneshot_running s). unfold due, not_due.
  destruct (Z.eq_dec (oneshot_running s) 0) as [Ho|Ho].
  - rewrite Ho. cbn [nz negb Z.eqb]. unfold task_to_schedule. step_m. rewrite (ring_next _ _ _ _ R0).
    destruct (RR_SETYT_frame (hd rt_linux_task rl0) s0) as (s1 & E1 & [K (L1 & L2) _ S1]). rewrite E1. step_m.
    exists s1, rl0. split; [reflexivity|]. split; [exact Rot|]. cbn [wake_list]. split.
    { unfold ready_list. rewrite L1, L2. exact R0. }
    split; [done|]. split; [exact S1|]. etransitivity; [|exact K]. unfold s0. split; [by repeat split..|done].
  - destruct (Ht Ho) as (Htl & Hnd & HL & Hlt & Hw). apply nz_true in Ho. unfold due in Hw. rewrite Ho in *. step_m.
    set (now := s0 <| rt_time_h := i64 (tsc s0 + rt_half_tick s0) |>).
    destruct Rot as (Rp & Rk & Rn).
    assert (Hnd0 : NoDup (tl ++ rl0)) by (by rewrite Rp). assert (Hf0 : fits (tl ++ rl0)).
    { unfold fits in *. rewrite length_app in *. by rewrite (Permutation_length Rp). }
    destruct (wake_up_timed_tasks_eq now tl rl0) as (s1 & -> & Ht1 & Hr1 & P1 & N1 & TP & TN & F1);
      [exact Htl|exact R0|exact Hnd0|exact Hf0|exact Hw|exact HL|exact Hlt|].
    change (take_while (expired now) tl) with (take_while (fun x => resume_time s x <=? sched_now s) tl) in *.
    change (drop_while (expired now) tl) with (drop_while (fun x => resume_time s x <=? sched_now s) tl) in *.
    set (d := take_while _ tl) in *. set (rest := drop_while _ tl) in *.
    rewrite (wake_list_ext s now d rl0) in Hr1 by done.
    cbn [bind_out]. unfold task_to_schedule. step_m. rewrite (ring_next _ _ _ _ Hr1).
    set (rl' := wake_list s d rl0) in *.
    destruct (RR_SETYT_frame (hd rt_linux_task rl') s1) as (s2 & -> & F2). cbn [bind_out]. step_m.
    destruct (RR_SPREMP s2 (hd rt_linux_task rl') _) as [preempt intr] eqn:Er. step_m.
    assert (Ht2 : timed_list s2 rest).
    { unfold timed_list. destruct F2 as [_ _ (-> & ->) _]. exact Ht1. }
    rewrite (next_shot_eq _ _ _ _ rest LIST_FUEL (proj1 Ht2));
      [|intros Hin; by apply (ring_not_head _ _ _ _ _ Ht2 Hin)|].
    2:{ unfold fits in Hf. rewrite length_app in Hf. unfold rest.
        rewrite <- (take_drop_while (fun x => resume_time s x <=? sched_now s) tl), length_app in Hf. lia. }
    step_m. match goal with |- context [program_timer ?a ?b ?d ?e ?x] => destruct (program_timer_frame a b d e x) as (s3 & -> & F3) end.
    cbn [bind_out]. exists s3, rl0. pose proof (sched_frame_trans _ _ _ F2 F3) as [K (L1 & L2) (L3 & L4) S3].
    split; [reflexivity|]. split; [by split_and!|]. unfold ready_list, timed_list. rewrite L1, L2, L3, L4, S3.
    split; [exact Hr1|]. split; [intros _; exact Ht1|]. split; [by rewrite F1|].
    etransitivity; [|exact K]. rewrite F1. unfold now, s0. split; [by repeat split..|done].
Qed.


(** * Giving the processor away *)

Lemma rt_schedule_unfold s :
  rt_schedule s = schedule_step (schedule_loop 63) (rt_smp_current s) (s <| sched_rqsted := 1 |>).
Proof. reflexivity. Qed.

(** The running task keeps the processor if it is the first one. *)
Lemma rt_schedule_stays s l :
  ready_list s l -> hd rt_linux_task l = rt_smp_current s -> policy s (rt_smp_current s) <= 0 -> oneshot_running s = 0 ->
  exists y, rt_schedule s = Done tt (s <| sched_rqsted := 1 |> <| yield_time := y |>).
Proof.
  intros Hr Hc Hp Ho. rewrite rt_schedule_unfold.
  destruct (sched_choose_periodic_eq (s <| sched_rqsted := 1 |>) (rt_smp_current s) l) as (y & E); [done..|].
  unfold schedule_step. unfold mbind at 1, M_bind at 1. rewrite E. cbn [bind_out]. rewrite Hc, Z.eqb_refl. by exists y.
Qed.

(** What is left as it was when the processor is lost. *)
Record left_as (s s' : RTAI) : Prop := {
  la_order : priority s' = priority s /\ resume_time s' = resume_time s /\ is_hard s' = is_hard s;
  la_ready : rnext s' = rnext s /\ rprev s' = rprev s;
  la_timed : tnext s' = tnext s /\ tprev s' = tprev s;
  la_state : state s' = state s /\ current s' = current s;
  la_ring : wus_in s' = wus_in s /\ wus_out s' = wus_out s /\ wus_task s' = wus_task s;
  la_log : forall e, e ∈ log s -> e ∈ log s'
}.

Ltac left_frame :=
  split; [by repeat split|by repeat split|by repeat split|by repeat split|by repeat split|
    intros ? ?; state_simpl; repeat first [rewrite elem_of_cons|rewrite elem_of_app]; tauto].

Lemma left_as_trans s1 s2 s3 : left_as s1 s2 -> left_as s2 s3 -> left_as s1 s3.
Proof.
  intros [(A1 & A2 & A3) (A4 & A5) (A6 & A7) (A8 & A9) (A10 & A11 & A12) A13]
    [(B1 & B2 & B3) (B4 & B5) (B6 & B7) (B8 & B9) (B10 & B11 & B12) B13].
  split; [split_and!; congruence..|]. intros e He. by apply B13, A13.
Qed.

Lemma frame_left s s' : sched_frame s s' -> left_as s s'.
Proof.
  intros [[K1 (_ & _ & K2) _ K3 K4] F1 F2 F3]. split; [exact K1|exact F1|exact F2|by split|exact K3|exact K4].
Qed.

(** A process that lost the processor to another one returns when it gets it back. *)
Definition hard_resumes (c : Z) (k : RTAI -> Out RTAI unit) : Prop :=
  forall s, (if is_hard s c =? 0 then state s c = READY else force_soft s c = 0) ->
    exists s', k s = Done tt s' /\ sched_frame s s'.

(** A task that lost the processor in a switch with a kernel task returns when it
    gets it back, unless it is a process and another process is to run: to that
    it hands the processor on. *)
Definition kernel_resumes (c : Z) (k : RTAI -> Out RTAI unit) : Prop :=
  forall s, let p := prevp s rt_linux_task in
    (lnxtsk s c = 0 \/ p = c -> exists s', k s = Done tt s' /\ sched_frame s s') /\
    (lnxtsk s c <> 0 -> p <> c ->
       exists s' k', k s = Switch s' k' /\ left_as s s' /\ rt_smp_current s' = p /\
         (is_hard s c <> 0 \/ is_hard s p <> 0 -> hard_resumes c k')).

(** The process to be resumed for each task.  When a soft task
    [c] gives the processor to a hard one, Linux is the process that was running. *)
Definition processes (s : RTAI) (c : Z) : Z -> Z :=
  if is_hard s c =? 0 then <[rt_linux_task := current s]> (lnxtsk s) else lnxtsk s.

(** The scheduler, called by [c], gives the processor to [t], which it does not
    give up in state [s'].  From a kernel task the way to a process leads
    through the process that was switched to kernel tasks last, which finds
    in [prevp] whom to hand it on to. *)
Definition given (o : Out RTAI unit) (s s' : RTAI) (c t : Z) : Prop :=
  if t =? c then o = Done tt s' /\ rt_smp_current s' = c
  else exists k, o = Switch s' k /\
    if lnxtsk s c =? 0 then
      kernel_resumes c k /\
      if lnxtsk s t =? 0 then rt_smp_current s' = t
      else rt_smp_current s' = nextp s rt_linux_task /\ prevp s' rt_linux_task = t
    else
      rt_smp_current s' = t /\
      if lnxtsk s t =? 0 then kernel_resumes c k /\ nextp s' rt_linux_task = c
      else if (is_hard s t =? 0) && (is_hard s c =? 0) then head (log s') = Some ScheduleLinux
      else hard_resumes c k /\ head (log s') = Some (TaskSwitch (current s) (processes s c t)).

Section Give.
Implicit Types (s : RTAI) (t c : Z).

Ltac kexectime := match goal with |- context [KEXECTIME ?c ?x] =>
  let E := fresh "E" in destruct (KEXECTIME_eq x c) as (? & ? & E); rewrite E; clear E; step_m end.
Ltac uexectime := match goal with |- context [UEXECTIME ?c ?x] =>
  let E := fresh "E" in destruct (UEXECTIME_eq x c) as (? & ? & E); rewrite E; clear E; step_m end.
Ltac signalled := match goal with |- context [call_signal ?c ?x] =>
  let E := fresh "E" in destruct (call_signal_eq x c) as (? & E); rewrite E; clear E; step_m end.
Ltac locked := match goal with |- context [LOCK_LINUX ?x] =>
  let E := fresh "E" in destruct (LOCK_LINUX_eq x) as (? & ? & E); rewrite E; clear E; step_m end.
Ltac unlocked := match goal with |- context [UNLOCK_LINUX ?x] =>
  let E := fresh "E" in destruct (UNLOCK_LINUX_eq x) as (? & ? & ? & E); rewrite E; clear E; step_m end.

Lemma switch_hard_spec (repeat : K unit) (again : K unit) c t s :
  is_hard s t <> 0 \/ is_hard s c <> 0 ->
  exists s' k, (r ← switch_hard again c t; when r repeat) s = Switch s' k /\
    left_as s s' /\ rt_smp_current s' = t /\ hard_resumes c k /\
    head (log s') = Some (TaskSwitch (current s) (processes s c t)).
Proof.
  intros H. assert (R : forall prev, hard_resumes c (fun s2 => bind_out
     ((emit (RestoreFpu prev);; call_signal c;; s ← get;
       if negb (nz (is_hard s c)) then UNLOCK_LINUX;; s ← get; mret (negb (state s c =? READY))
       else when (nz (force_soft s c)) (make_current_soft again c);; mret false) s2) (fun r => when r repeat))).
  { intros prev s2 H2. step_m. signalled. unfold nz. destruct (is_hard s2 c =? 0); cbn [negb].
    - unlocked. rewrite H2. cbn [negb Z.eqb Pos.eqb READY]. step_m. eexists. split; [reflexivity|frame].
    - rewrite H2. cbn [negb Z.eqb]. step_m. eexists. split; [reflexivity|frame]. }
  unfold switch_hard, processes. step_m. unfold nz. destruct (is_hard s c =? 0); cbn [negb]; step_m; [locked|]; uexectime;
    (eexists _, _; split; [reflexivity|]; split; [left_frame|]; split; [done|]; split; [exact (R _)|]);
    state_simpl; reflexivity.
Qed.

(** What the scheduler does once it knows the next task. *)
Definition hand_over (again : Z -> K unit) (c : Z) (goto : option Z) : K unit :=
  match goto with
  | None => mret tt
  | Some new_task =>
      s ← get;
      if nz (is_hard s new_task) || nz (is_hard s c) then
        repeat ← switch_hard (s ← get; wg sched_rqsted 1;; again (rt_smp_current s)) c new_task;
        when repeat (again c)
      else switch_soft c new_task
  end.

Lemma schedule_step_unfold again c :
  schedule_step again c =
  (new_task ← sched_choose c;
   if new_task =? c then mret tt
   else
     s ← get;
     goto ←
       (if negb (nz (lnxtsk s new_task)) || negb (nz (lnxtsk s c)) then switch_kernel c new_task
        else mret (Some new_task));
     hand_over again c goto).
Proof. reflexivity. Qed.

Lemma hand_over_spec again c t s :
  exists s' k, hand_over again c (Some t) s = Switch s' k /\ left_as s s' /\ rt_smp_current s' = t /\
    if (is_hard s t =? 0) && (is_hard s c =? 0) then head (log s') = Some ScheduleLinux
    else hard_resumes c k /\ head (log s') = Some (TaskSwitch (current s) (processes s c t)).
Proof.
  unfold hand_over. unfold mbind at 1, M_bind at 1, get at 1. cbn [bind_out].
  destruct (nz (is_hard s t) || nz (is_hard s c)) eqn:H.
  - destruct (switch_hard_spec (again c) (s ← get; wg sched_rqsted 1;; again (rt_smp_current s)) c t s)
      as (s' & k & E & L & C & R & T).
    { apply orb_true_iff in H as [H|H]; apply nz_true in H; auto. }
    exists s', k. split; [exact E|]. split; [exact L|]. split; [exact C|].
    unfold nz in H. destruct (is_hard s t =? 0), (is_hard s c =? 0); [done|by split..].
  - unfold nz in H. apply orb_false_iff in H as [H1 H2]. apply negb_false_iff in H1, H2. rewrite H1, H2. cbn [andb].
    unfold switch_soft. step_m. destruct (negb (t =? rt_linux_task)); step_m; unlocked;
      (eexists _, _; split; [reflexivity|]; split; [left_frame|]; split; [done|]); state_simpl; reflexivity.
Qed.

Lemma switch_kernel_spec again c t s :
  t <> c -> lnxtsk s c = 0 \/ lnxtsk s t = 0 ->
  exists s' k, (goto ← switch_kernel c t; hand_over again c goto) s = Switch s' k /\ left_as s s' /\
    kernel_resumes c k /\
    if lnxtsk s c =? 0 then
      if lnxtsk s t =? 0 then rt_smp_current s' = t
      else rt_smp_current s' = nextp s rt_linux_task /\ prevp s' rt_linux_task = t
    else rt_smp_current s' = t /\ nextp s' rt_linux_task = c.
Proof.
  intros Hne H. set (resume := s0 ← get;
      goto ← (if nz (lnxtsk s0 c) then
        UNLOCK_LINUX;; emit RestoreCr0;;
        s ← get;
        if negb (c =? prevp s rt_linux_task) then mret (Some (prevp s rt_linux_task))
        else call_signal c;; mret None
      else
        when (nz (uses_fpu s0 c))
          (emit EnableFpu;;
           when (negb (c =? fpu_task s0))
             (emit (SaveFpenv (fpu_task s0));; wg fpu_task c;; emit (RestoreFpenv c)));;
        call_signal c;; mret None);
      hand_over again c goto).
  assert (R : kernel_resumes c resume).
  { intros s0 p. split.
    - intros Hp. unfold resume. step_m. destruct (nz (lnxtsk s0 c)) eqn:Ec.
      + apply nz_true in Ec. destruct Hp as [Hp|Hp]; [done|]. unlocked. fold p. rewrite Hp, Z.eqb_refl. step_m. signalled.
        eexists. split; [reflexivity|frame].
      + step_m. destruct (nz (uses_fpu s0 c)); step_m; [destruct (negb (c =? fpu_task s0)); step_m|]; signalled;
          (eexists; split; [reflexivity|frame]).
    - intros Hc Hp. apply nz_true in Hc. unfold resume. step_m. rewrite Hc. unlocked. fold p.
      rewrite (proj2 (Z.eqb_neq c p)) by congruence. step_m.
      match goal with |- context [hand_over again c (Some p) ?x] => destruct (hand_over_spec again c p x) as (s' & k & E & L & C & HH); set (s1 := x) in * end.
      exists s', k. split; [exact E|]. split; [|split; [exact C|]].
      + eapply left_as_trans; [|exact L]. unfold s1. left_frame.
      + intros Hd. change (is_hard s1) with (is_hard s0) in HH.
        destruct (Z.eqb_spec (is_hard s0 p) 0), (Z.eqb_spec (is_hard s0 c) 0); cbn [andb] in HH; tauto. }
  unfold switch_kernel. step_m. destruct (nz (lnxtsk s c)) eqn:Ec.
  - locked. kexectime. eexists _, _. split; [reflexivity|]. split; [left_frame|]. split; [exact R|].
    apply nz_true in Ec. rewrite (proj2 (Z.eqb_neq _ _) Ec). state_simpl. by rewrite upd_eq.
  - apply nz_false in Ec. destruct (nz (lnxtsk s t)) eqn:Et; step_m; kexectime;
      (eexists _, _; split; [reflexivity|]); (split; [left_frame|]); (split; [exact R|]); rewrite Ec, Z.eqb_refl.
    + apply nz_true in Et. rewrite (proj2 (Z.eqb_neq _ _) Et). state_simpl. by rewrite upd_eq.
    + apply nz_false in Et. by rewrite Et, Z.eqb_refl.
Qed.

(** Once the choice is made. *)
Lemma schedule_step_given again c t s s1 :
  sched_choose c s = Done t s1 -> rt_smp_current s1 = c ->
  exists s', left_as s1 s' /\ given (schedule_step again c s) s1 s' c t.
Proof.
  intros E Hc. rewrite schedule_step_unfold. rewrite (bind_done _ _ _ _ _ E). unfold given.
  destruct (Z.eqb_spec t c) as [->|Hne].
  { exists s1. split; [|done]. split; [by repeat split..|done]. }
  unfold mbind at 1, M_bind at 1, get at 1. cbn [bind_out].
  destruct (negb (nz (lnxtsk s1 t)) || negb (nz (lnxtsk s1 c))) eqn:H.
  - destruct (switch_kernel_spec again c t s1 Hne) as (s' & k & E2 & L & R & C).
    { unfold nz in H. apply orb_true_iff in H as [H|H]; rewrite negb_involutive in H; apply Z.eqb_eq in H; auto. }
    exists s'. split; [exact L|]. exists k. split; [exact E2|]. revert C.
    unfold nz in H. destruct (lnxtsk s1 c =? 0); [by split|]. destruct (lnxtsk s1 t =? 0); [tauto|done].
  - destruct (hand_over_spec again c t s1) as (s' & k & E2 & L & C & R). exists s'. split; [exact L|]. exists k.
    split; [exact E2|]. apply orb_false_iff in H as [H1 H2]. unfold nz in H1, H2. rewrite negb_involutive in H1, H2.
    rewrite H1, H2. by split.
Qed.
End Give.

(** [rt_schedule] from its call to the loss of the processor. *)
Lemma rt_schedule_spec s tl rl :
  can_schedule s tl rl ->
  exists s' rl0, let rl' := wake_list s (due s tl) rl0 in
    rotated s (rt_smp_current s) rl rl0 /\ ready_list s' rl' /\
    (oneshot_running s <> 0 -> timed_list s' (not_due s tl)) /\
    state s' = woken (state s) (due s tl) /\ priority s' = priority s /\ is_hard s' = is_hard s /\
    (wus_in s' = wus_in s /\ wus_out s' = wus_out s /\ wus_task s' = wus_task s) /\
    (forall e, e ∈ log s -> e ∈ log s') /\
    given (rt_schedule s) s s' (rt_smp_current s) (hd rt_linux_task rl').
Proof.
  intros [C1 C2 C3 C4]. rewrite rt_schedule_unfold.
  destruct (sched_choose_spec (s <| sched_rqsted := 1 |>) tl rl) as (s1 & rl0 & E & Rot & R & T & S & K);
    [by split|].
  destruct K as [(K1 & K2 & K3) (K4 & K5 & K6) (K7 & K8) (K9 & K10 & K11) K12].
  rewrite (wake_list_ext s) in R, E by done.
  destruct (schedule_step_given (schedule_loop 63) (rt_smp_current s) _ _ _ E) as
    (s' & [(L1 & L2 & L3) (L4 & L5) (L6 & L7) (L8 & L9) (L10 & L11 & L12) L13] & G); [by rewrite K5|].
  exists s', rl0. cbv zeta. unfold ready_list, timed_list in *. rewrite L1, L3, L4, L5, L6, L7, L8, L10, L11, L12.
  split; [exact Rot|]. split; [exact R|]. split; [exact T|]. split; [exact S|]. split; [exact K1|]. split; [exact K3|].
  split; [by split_and!|]. split; [intros e He; by apply L13, K12|].
  unfold given, processes in *. rewrite K3, K4, K6, K8 in G. exact G.
Qed.

Lemma given_not_stuck o s s' c t : given o s s' c t -> o <> Stuck.
Proof. unfold given. destruct (t =? c); [by intros [-> _]|by intros (k & -> & _)]. Qed.

Lemma wake_list_sorted s l rl :
  (forall x, x ∈ l -> 0 <= policy s x /\ 0 <= priority s x) ->
  lock_first (priority s) rl -> sorted_by (priority s) rl ->
  lock_first (priority s) (wake_list s l rl) /\ sorted_by (priority s) (wake_list s l rl).
Proof.
  revert rl. induction l as [|t l IH]; intros rl Hl Hlf Hs; [done|]. cbn [wake_list].
  assert (Ht : 0 <= policy s t /\ 0 <= priority s t) by (apply Hl; list_in).
  destruct Ht as [Hpo Hpr].
  apply IH; [intros x Hx; apply Hl; list_in|..]; (destruct (_ =? READY); [|done]);
    rewrite (proj2 (Z.ltb_ge _ _) Hpo), insert_ready_after by done.
  - intros x Hx. destruct rl as [|y rl]; [by apply not_elem_of_nil in Hx|].
    unfold insert_after in Hx. cbn [take_while drop_while] in Hx.
    destruct (priority s y <=? priority s t) eqn:E; cbn [app tail] in Hx.
    + apply (insert_after_elem _ t x rl) in Hx as [->|Hx]; [done|]. by apply Hlf.
    + apply elem_of_cons in Hx as [->|Hx]; [bool_prop; lia|]. by apply Hlf.
  - apply insert_after_sorted; [..|done]; intros y Hy; bool_prop; lia.
Qed.

Lemma sorted_head (k : Z -> Z) d l x : sorted_by k l -> x ∈ l -> k (hd d l) <= k x.
Proof.
  intros S. destruct S as [|y l S F]; [by intros ?%not_elem_of_nil|]. simpl.
  intros [->|Hx]%elem_of_cons; [lia|]. rewrite Forall_forall in F. by apply F.
Qed.

(** * Properties *)

(** C2: [rt_schedule], in both modes of the timer and for all kinds of tasks, when
    nothing is due: the processor is given to the first task of the ready list,
    which has the highest priority (the smallest number), to Linux when the list
    is empty; the running task goes on exactly if it is that task.  The list
    changes only when the slice of the running task is over, and then only among
    tasks of equal priority. *)
Theorem rt_schedule_highest s tl l :
  can_schedule s tl l -> due s tl = [] -> sorted_by (priority s) l ->
  exists s' l', let t := hd rt_linux_task l' in
    ready_list s' l' /\ rotated s (rt_smp_current s) l l' /\ sorted_by (priority s) l' /\
    priority s' = priority s /\ state s' = state s /\
    (forall x, x ∈ l -> priority s t <= priority s x) /\
    given (rt_schedule s) s s' (rt_smp_current s) t.
Proof.
  intros Hc Hd Hs. destruct (rt_schedule_spec s tl l Hc) as (s' & l' & Rot & R & _ & S & P & _ & _ & _ & G).
  rewrite Hd in *. pose proof Rot as (Rp & Rk & _). pose proof (sorted_by_fmap _ _ _ Rk Hs) as Hs'.
  exists s', l'. do 5 (split; [assumption|]). split; [|exact G].
  intros x Hx. apply sorted_head; [exact Hs'|by rewrite Rp].
Qed.

(** C7: in one shot mode [rt_schedule] first wakes the tasks whose time has come:
    exactly these leave the timed list and lose the states that a timeout ends,
    and those that wait for nothing else enter the ready list; it then gives
    the processor to the first task of that list, which has the highest
    priority, those just woken included, unless one of these is scheduled by
    its deadline. *)
Theorem rt_schedule_wakes s tl rl :
  can_schedule s tl rl -> oneshot_running s <> 0 -> sorted_by (resume_time s) tl ->
  exists s' d rest rl', let t := hd rt_linux_task rl' in
    tl = d ++ rest /\ (forall x, x ∈ d -> resume_time s x <= sched_now s) /\
    (forall x, x ∈ rest -> sched_now s < resume_time s x) /\
    timed_list s' rest /\ ready_list s' rl' /\ rl' ≡ₚ filter (wakes s) d ++ rl /\
    (forall x, state s' x = if decide (x ∈ d) then clr (state s x) TIMEOUT_MASK else state s x) /\
    priority s' = priority s /\ given (rt_schedule s) s s' (rt_smp_current s) t /\
    (lock_first (priority s) rl -> sorted_by (priority s) rl ->
     (forall x, x ∈ d -> 0 <= policy s x /\ 0 <= priority s x) ->
     sorted_by (priority s) rl' /\ forall x, x ∈ rl' -> priority s t <= priority s x).
Proof.
  intros Hc Ho Hst. destruct (rt_schedule_spec s tl rl Hc) as (s' & rl0 & Rot & R & T & S & P & _ & _ & _ & G).
  destruct (cs_timed _ _ _ Hc Ho) as (_ & Hnd & _). specialize (T Ho).
  assert (E : due s tl ++ not_due s tl = tl).
  { unfold due, not_due. apply nz_true in Ho. rewrite Ho. apply take_drop_while. }
  exists s', (due s tl), (not_due s tl), (wake_list s (due s tl) rl0). destruct Rot as (Rp & Rk & _).
  split; [done|]. split; [|split; [|split; [exact T|split; [exact R|split; [|split; [|split; [exact P|split; [exact G|]]]]]]]].
  - intros x Hx. unfold due in Hx. apply nz_true in Ho. rewrite Ho in Hx. apply take_while_all in Hx. by apply Z.leb_le.
  - intros x Hx. unfold not_due in Hx. apply nz_true in Ho. rewrite Ho in Hx. by apply drop_while_sorted in Hx.
  - by rewrite wake_list_perm, Rp.
  - intros x. rewrite S. case_decide; [|by apply woken_out]. apply woken_in; [|done].
    rewrite <- E, <- app_assoc in Hnd. by apply NoDup_app in Hnd as [? _].
  - intros Hlf Hs Hd. destruct (wake_list_sorted s (due s tl) rl0) as [_ Hs'];
      [exact Hd|by eapply lock_first_fmap|by eapply sorted_by_fmap|].
    split; [exact Hs'|]. intros x. by apply sorted_head.
Qed.

(** Round robin. A ready task whose time slice is over gets a new slice and
    moves behind the tasks of its priority; before that it only gets the time
    that remains, and keeps its place. *)
Theorem RR_YIELD_rotates s c l1 eqs l2 :
  ready_list s (l1 ++ c :: eqs ++ l2) -> fits (l1 ++ c :: eqs ++ l2) ->
  priority s c < priority s rt_linux_task -> 0 < policy s c -> state s c = READY ->
  in_i32 (yield_time s c - tick_time s) ->
  (forall x, x ∈ eqs -> priority s x = priority s c) ->
  (forall x, head l2 = Some x -> priority s x <> priority s c) ->
  exists s', RR_YIELD c s = Done tt s' /\
    (yield_time s c <= tick_time s ->
       rr_remaining s' c = rr_quantum s c /\ ready_list s' (l1 ++ eqs ++ c :: l2)) /\
    (tick_time s < yield_time s c ->
       rr_remaining s' c = yield_time s c - tick_time s /\ ready_list s' (l1 ++ c :: eqs ++ l2)).
Proof.
  intros Hr Hf Hlx Hp Hst Hi Heq Hl2. unfold RR_YIELD. step_m.
  rewrite Z.gtb_ltb, (proj2 (Z.ltb_lt _ _) Hp), i32_id by done. step_m. rewrite upd_eq.
  destruct (Z.leb_spec (yield_time s c - tick_time s) 0) as [Hle|Hgt]; step_m.
  - rewrite Hst. cbn [Z.eqb Pos.eqb READY]. step_m.
    set (s1 := s <| rr_remaining ::= _ |> <| rr_remaining ::= _ |>).
    destruct (rr_rotate_spec s1 c l1 eqs l2) as (s2 & E & (P & N & F) & R); [done..|].
    rewrite E. cbn [bind_out]. exists s2. split_and!; [done| |lia]. intros _. split; [|done].
    rewrite F. unfold s1. state_simpl. apply upd_eq.
  - eexists. split_and!; [done|lia|]. intros _. state_simpl. by rewrite upd_eq.
Qed.

(** The interrupts of Linux stay off from the first [LOCK_LINUX] to the
    last [UNLOCK_LINUX]: in nested pairs only the outermost switches the
    processor between the two systems. *)
Theorem linux_lock_nesting s :
  0 <= to_linux_depth s < INT_MAX ->
  exists s', (LOCK_LINUX;; UNLOCK_LINUX) s = Done tt s' /\
    to_linux_depth s' = to_linux_depth s /\
    log s' = (if to_linux_depth s =? 0 then [SwitchToLinux; SwitchToRealTime] else []) ++ log s /\
    (to_linux_depth s <> 0 -> lxrt_hrt_flags s' = lxrt_hrt_flags s).
Proof.
  intros Hd. unfold LOCK_LINUX, UNLOCK_LINUX.
  assert (E1 : i32 (to_linux_depth s + 1) = to_linux_depth s + 1)
    by (apply i32_id; unfold in_i32, INT_MAX, INT_MIN in *; lia).
  assert (E2 : i32 (to_linux_depth s + 1 - 1) = to_linux_depth s)
    by (rewrite i32_id by (unfold in_i32, INT_MAX, INT_MIN in *; lia); lia).
  assert (E3 : nz (to_linux_depth s + 1) = true) by (apply nz_true; lia).
  step_m. destruct (Z.eqb_spec (to_linux_depth s) 0) as [E0|E0].
  - rewrite (proj2 (nz_false _) E0). step_m. rewrite E1, E3. step_m. rewrite E2.
    rewrite (proj2 (nz_false _) E0). step_m. eexists. by split_and!.
  - rewrite (proj2 (nz_true _) E0). step_m. rewrite E1, E3. step_m. rewrite E2.
    rewrite (proj2 (nz_true _) E0). step_m. eexists. by split_and!.
Qed.

(** * Witnesses *)

(** The task of priority 3 runs, and the one of priority 1 is ready. *)
Definition demo_run : RTAI := demo <| rt_smp_current := 48 |>.

(** Two hard processes of priority 3; the first one runs, and has used its slice. *)
Definition demo_rr_hard : RTAI :=
  demo <| rt_smp_current := 32 |> <| priority ::= <[32 := 3]> |> <| policy ::= <[32 := 1]> |>
       <| lnxtsk ::= <[32 := 900]> |> <| lnxtsk ::= <[48 := 901]> |> <| current := 900 |>.

(** The task of priority 3 runs; nothing is due at 2, the task 80 is at 7. *)
Definition demo_oneshot (now : Z) : RTAI :=
  demo_timed <| rt_smp_current := 48 |> <| oneshot_running := 1 |> <| tsc := now |>.

Lemma demo_oneshot_can_schedule now : now = 2 \/ now = 7 -> can_schedule (demo_oneshot now) [80; 96] [32; 48].
Proof.
  intros H. split.
  - destruct H as [->| ->]; solve_ring.
  - fits_eval.
  - intros Hp. destruct H as [->| ->]; by vm_compute in Hp.
  - intros _. split; [destruct H as [->| ->]; solve_ring|]. split; [not_in|].
    split; [destruct H as [->| ->]; repeat split; by_eval|]. split; [destruct H as [->| ->]; by_eval|].
    intros t Ht. assert (E : t = 80).
    { destruct H as [->| ->]; [assert (E : due (demo_oneshot 2) [80; 96] = []) by by_eval|
        assert (E : due (demo_oneshot 7) [80; 96] = [80]) by by_eval]; rewrite E in Ht; list_norm; done. }
    rewrite E. destruct H as [->| ->]; (split; [by_eval|]); (split; by_eval).
Qed.

Lemma rt_schedule_highest_witness :
  (exists s' l', let t := hd rt_linux_task l' in
    ready_list s' l' /\ rotated demo_rr_hard 32 [32; 48] l' /\ sorted_by (priority demo_rr_hard) l' /\
    priority s' = priority demo_rr_hard /\ state s' = state demo_rr_hard /\
    (forall x, x ∈ [32; 48] -> priority demo_rr_hard t <= priority demo_rr_hard x) /\
    given (rt_schedule demo_rr_hard) demo_rr_hard s' 32 t) /\
  exists s' l', let t := hd rt_linux_task l' in
    ready_list s' l' /\ rotated (demo_oneshot 2) 48 [32; 48] l' /\ sorted_by (priority (demo_oneshot 2)) l' /\
    priority s' = priority (demo_oneshot 2) /\ state s' = state (demo_oneshot 2) /\
    (forall x, x ∈ [32; 48] -> priority (demo_oneshot 2) t <= priority (demo_oneshot 2) x) /\
    given (rt_schedule (demo_oneshot 2)) (demo_oneshot 2) s' 48 t.
Proof.
  split.
  - apply (rt_schedule_highest demo_rr_hard [] [32; 48]); [|by_eval|sorted_eval].
    split; [solve_ring|fits_eval|intros _ _; split; [list_in|by_eval]|]. intros H. exfalso. apply H. by_eval.
  - apply (rt_schedule_highest (demo_oneshot 2) [80; 96] [32; 48]); [apply demo_oneshot_can_schedule; by left|by_eval|sorted_eval].
Defined.

Lemma rt_schedule_wakes_witness :
  exists s' d rest rl', let t := hd rt_linux_task rl' in
    [80; 96] = d ++ rest /\ (forall x, x ∈ d -> resume_time (demo_oneshot 7) x <= sched_now (demo_oneshot 7)) /\
    (forall x, x ∈ rest -> sched_now (demo_oneshot 7) < resume_time (demo_oneshot 7) x) /\
    timed_list s' rest /\ ready_list s' rl' /\ rl' ≡ₚ filter (wakes (demo_oneshot 7)) d ++ [32; 48] /\
    (forall x, state s' x = if decide (x ∈ d) then clr (state (demo_oneshot 7) x) TIMEOUT_MASK
                            else state (demo_oneshot 7) x) /\
    priority s' = priority (demo_oneshot 7) /\ given (rt_schedule (demo_oneshot 7)) (demo_oneshot 7) s' 48 t /\
    (lock_first (priority (demo_oneshot 7)) [32; 48] -> sorted_by (priority (demo_oneshot 7)) [32; 48] ->
     (forall x, x ∈ d -> 0 <= policy (demo_oneshot 7) x /\ 0 <= priority (demo_oneshot 7) x) ->
     sorted_by (priority (demo_oneshot 7)) rl' /\
     forall x, x ∈ rl' -> priority (demo_oneshot 7) t <= priority (demo_oneshot 7) x).
Proof.
  apply (rt_schedule_wakes (demo_oneshot 7) [80; 96] [32; 48]);
    [apply demo_oneshot_can_schedule; by right|by_eval|sorted_eval].
Defined.

(** Two tasks of priority 3; the first one, with the round robin policy, has
    used its slice. *)
Definition demo_rr : RTAI :=
  demo <| policy ::= <[48 := 1]> |> <| rr_quantum ::= <[48 := 9]> |>
       <| priority ::= <[32 := 3]> |> <| yield_time ::= <[32 := 5]> |>
       <| policy ::= <[32 := 1]> |> <| rr_quantum ::= <[32 := 9]> |> <| tick_time := 6 |>.

Lemma RR_YIELD_rotates_witness :
  exists s', RR_YIELD 32 demo_rr = Done tt s' /\
    (yield_time demo_rr 32 <= tick_time demo_rr ->
       rr_remaining s' 32 = rr_quantum demo_rr 32 /\ ready_list s' ([] ++ [48] ++ 32 :: [])) /\
    (tick_time demo_rr < yield_time demo_rr 32 ->
       rr_remaining s' 32 = yield_time demo_rr 32 - tick_time demo_rr /\
       ready_list s' ([] ++ 32 :: [48] ++ [])).
Proof.
  apply RR_YIELD_rotates;
    [solve_ring|fits_eval|by_eval|by_eval|by_eval|split; by_eval| |done].
  intros x Hx. apply list_elem_of_singleton in Hx as ->. by_eval.
Defined.

Lemma linux_lock_nesting_witness :
  exists s', (LOCK_LINUX;; UNLOCK_LINUX) demo = Done tt s' /\
    to_linux_depth s' = to_linux_depth demo /\
    log s' = (if to_linux_depth demo =? 0 then [SwitchToLinux; SwitchToRealTime] else []) ++ log demo /\
    (to_linux_depth demo <> 0 -> lxrt_hrt_flags s' = lxrt_hrt_flags demo).
Proof. apply linux_lock_nesting. split; by_eval. Defined.
