(* ===== verification/SchedTask.v ===== *)
(** SchedTask: the services on tasks.

    Creation and deletion, priorities, suspension, periodic execution, timing
    and time conversions: the sections TASKS, TIME CONVERSIONS and TIMINGS of
    [newlxrt/scheduler/rtai_sched.c].  A service is the whole function: its
    guards, its writes and its calls of the scheduler. *)

From S2P Require Import Prelude Resume DList SchedState SchedQueues Schedule.

(** [RT_CURRENT] *)
Definition RT_CURRENT (s : RTAI) : Z := rt_smp_current s.

(** * Time *)

(** Conversions: a sign, and [llimd] on the absolute value. *)
Definition count2nano (s : RTAI) (counts : Z) : Z :=
  let sign := counts >? 0 in
  let counts := if sign then counts else i64 (- counts) in
  let counts := if nz (oneshot_timer s) then llimd counts 1000000000 (cpu_freq s)
                else llimd counts 1000000000 (TIMER_FREQ s) in
  if sign then counts else i64 (- counts).

Definition nano2count (s : RTAI) (ns : Z) : Z :=
  let sign := ns >? 0 in
  let ns := if sign then ns else i64 (- ns) in
  let ns := if nz (oneshot_timer s) then llimd ns (cpu_freq s) 1000000000
            else llimd ns (TIMER_FREQ s) 1000000000 in
  if sign then ns else i64 (- ns).

(** On the only processor the [_cpuid] variants are the same functions. *)
Definition count2nano_cpuid (s : RTAI) (counts : Z) : Z := count2nano s counts.
Definition nano2count_cpuid (s : RTAI) (ns : Z) : Z := nano2count s ns.

Definition get_time (s : RTAI) : Z := if nz (oneshot_timer s) then tsc s else tick_time s.
Definition rt_get_time (s : RTAI) : Z := get_time s.
Definition rt_get_time_cpuid (s : RTAI) : Z :=
  if nz (oneshot_timer s) then tsc s else tick_time s.
Definition rt_get_time_ns (s : RTAI) : Z :=
  if nz (oneshot_timer s) then llimd (tsc s) 1000000000 (cpu_freq s)
  else llimd (tick_time s) 1000000000 (TIMER_FREQ s).
Definition rt_get_cpu_time_ns (s : RTAI) : Z := llimd (tsc s) 1000000000 (cpu_freq s).

(** * Creation *)

(** [rt_linux_task.prev->next = task; ...]: a task at the end of the list of
    all the tasks, which [next] links to a null pointer. *)
Definition link_task (task : Z) : K unit :=
  wr next task 0;;
  s ← get;
  wr next (prev s rt_linux_task) task;;
  wr prev task (prev s rt_linux_task);;
  wr prev rt_linux_task task.

(** [queue.prev = queue.next = &queue; queue.task = t] *)
Definition queue_init (q : qptr) (t : Z) : K unit :=
  wr q_prev q q;; wr q_next q q;; wr q_task q t.

(** The stores [set_rtext] and [rt_task_init_cpuid] have in common, in
    [RTAI]'s fields: the trap handlers, the tick queue, the user space flags
    and [system_data_ptr] are not part of the state. *)
Definition task_init (task priority_ uses_fpu_ signal_ : Z) : K unit :=
  wr uses_fpu task (if nz uses_fpu_ then 1 else 0);;
  wr runnable_on_cpus task 0;;
  wr receiver task 0;;
  wr magic task RT_TASK_MAGIC;;
  wr policy task 0;;
  wr owndres task 0;;
  wr priority task priority_;;
  wr base_priority task priority_;;
  wr prio_passed_to task 0;;
  wr period task 0;;
  wr resume_time task RT_TIME_END;;
  queue_init (Queue task) task;;
  queue_init (MsgQueue task) task;;
  wr msg task 0;;
  queue_init (RetQueue task) NOTHING;;
  wr tprev task task;; wr tnext task task;; wr rprev task task;; wr rnext task task;;
  wr blocked_on task QNull;;
  wr signal task signal_;;
  wr resync_frame task 0;;
  wr ExitHook task 0;;
  wr exectime0 task 0.

(** The watchdog keeps the highest priority for itself. *)
Definition watchdog_reserves (s : RTAI) (task priority_ : Z) : bool :=
  nz (wdog_task s) && negb (wdog_task s =? task) && (priority_ =? RT_HIGHEST_PRIORITY).

Definition set_rtext (task priority_ uses_fpu_ signal_ cpuid relink : Z) : K Z :=
  s ← get;
  if (magic s task =? RT_TASK_MAGIC) || (u32 cpuid >=? 1) || (priority_ <? 0) then mret (- EINVAL)
  else if watchdog_reserves s task priority_ then emit Printk;; mret (- EBUSY)
  else
    task_init task priority_ uses_fpu_ signal_;;
    wr stack_bottom task task;;
    wr force_soft task 0;;
    wg tasks_per_cpu (i32 (tasks_per_cpu s + 1));;
    (if nz relink then
       wr suspdepth task 1;; wr is_hard task 1;;
       wr state task (Z.lor READY SUSPENDED);;
       wr lnxtsk task relink
     else
       wr suspdepth task 0;; wr is_hard task 0;;
       wr state task READY;;
       wr lnxtsk task (current s));;
    link_task task;;
    mret 0.

(** [st] is the result of [sched_malloc]. *)
Definition rt_task_init_cpuid (st task priority_ uses_fpu_ signal_ cpuid : Z) : K Z :=
  s ← get;
  if (magic s task =? RT_TASK_MAGIC) || (u32 cpuid >=? 1) || (priority_ <? 0) then mret (- EINVAL)
  else if negb (nz st) then mret (- ENOMEM)
  else if watchdog_reserves s task priority_ then emit Printk;; mret (- EBUSY)
  else
    wg tasks_per_cpu (i32 (tasks_per_cpu s + 1));;
    wr stack_bottom task st;;
    task_init task priority_ uses_fpu_ signal_;;
    wr suspdepth task 1;;
    wr state task (Z.lor SUSPENDED READY);;
    wr is_hard task 1;;
    wr lnxtsk task 0;;
    link_task task;;
    mret 0.

Definition rt_task_init (st task priority_ uses_fpu_ signal_ : Z) : K Z :=
  s ← get;
  rt_task_init_cpuid st task priority_ uses_fpu_ signal_
    (Z.of_nat (get_min_tasks_cpuid [tasks_per_cpu s])).

Definition rt_set_sched_policy (task policy_ rr_quantum_ns : Z) : K unit :=
  wr policy task (if nz policy_ then 1 else 0);;
  when (nz policy_)
    (s ← get;
     wr rr_quantum task (i32 (nano2count_cpuid s rr_quantum_ns));;
     s ← get;
     when (nz (Z.land (rr_quantum s task) 4026531840) || negb (nz (rr_quantum s task)))
       (wr rr_quantum task (linux_tick s));;
     s ← get;
     wr rr_remaining task (rr_quantum s task);;
     wr yield_time task 0).

(** * Priorities *)

Definition rt_get_prio (s : RTAI) (task : Z) : Z :=
  if negb (magic s task =? RT_TASK_MAGIC) then - EINVAL else base_priority s task.

Definition rt_get_inher_prio (s : RTAI) (task : Z) : Z :=
  if negb (magic s task =? RT_TASK_MAGIC) then - EINVAL else base_priority s task.

(** The search for the shortest period: [htask], or 0. *)
Fixpoint rms_find (fuel : nat) (s : RTAI) (task period_ htask : Z) : option Z :=
  let task := next s task in
  if negb (nz task) then Some htask
  else match fuel with
       | O => None
       | S fuel' =>
           if (priority s task >=? 0) && (policy s task >=? 0) && nz (period s task) &&
              (period s task <? period_)
           then rms_find fuel' s task (period s task) task
           else rms_find fuel' s task period_ htask
       end.

(** The outer loop, over the tasks too. *)
Fixpoint rms_assign (fuel : nat) (task prio : Z) : K unit :=
  s ← get;
  let task := next s task in
  if negb (nz task) then mret tt
  else match fuel with
       | O => stuck
       | S fuel' =>
           htask ← of_option (rms_find LIST_FUEL s rt_linux_task RT_TIME_END 0);
           if nz htask then
             wr priority htask (-1);;
             wr base_priority htask prio;;
             rms_assign fuel' task (prio + 1)
           else mret tt
       end.

(** The label [ret]. *)
Fixpoint rms_restore (fuel : nat) (task : Z) : K unit :=
  s ← get;
  let task := next s task in
  if negb (nz task) then mret tt
  else match fuel with
       | O => stuck
       | S fuel' =>
           when (priority s task <? 0) (wr priority task (base_priority s task));;
           rms_restore fuel' task
       end.

Definition rt_spv_RMS : K unit :=
  rms_assign LIST_FUEL rt_linux_task 0;;
  rms_restore LIST_FUEL rt_linux_task.

(** The loop of [rt_change_prio] along the chain of the tasks the priority
    was passed to, with the map of the processors to schedule. *)
Fixpoint change_prio_loop (fuel : nat) (task priority_ schedmap : Z) : K Z :=
  wr priority task priority_;;
  s ← get;
  schedmap ←
    (if state s task =? READY then
       runlink task;; enq_ready_task task;;
       mret (Z.lor schedmap (Z.shiftl 1 (runnable_on_cpus s task)))
     else if in_prio_queue s task then
       requeue_blocked task priority_;;
       mret (Z.lor schedmap (Z.shiftl 1 (runnable_on_cpus s task)))
     else mret schedmap);
  s ← get;
  let task := prio_passed_to s task in
  if nz task && (priority s task >? priority_) then
    match fuel with
    | O => stuck
    | S fuel' => change_prio_loop fuel' task priority_ schedmap
    end
  else mret schedmap.

(** [schedmap] is the value of the local variable the C code does not
    initialise. *)
Definition rt_change_prio (schedmap task priority_ : Z) : K Z :=
  s ← get;
  if negb (magic s task =? RT_TASK_MAGIC) || (priority_ <? 0) then mret (- EINVAL)
  else
    let prio := base_priority s task in
    if prio =? priority_ then mret prio
    else
      wr base_priority task priority_;;
      when ((priority_ <? priority s task) || (prio =? priority s task))
        (schedmap ← change_prio_loop LIST_FUEL task priority_ schedmap;
         when (nz schedmap) rt_schedule);;
      mret prio.

Definition rt_sched_lock : K unit :=
  s ← get;
  let rt_current := rt_smp_current s in
  if priority s rt_current >=? 0 then
    wr sched_lock_priority rt_current (priority s rt_current);;
    wr priority rt_current (-1);;
    wg sched_rqsted (-1)
  else wr priority rt_current (i32 (priority s rt_current - 1)).

Definition rt_sched_unlock : K unit :=
  s ← get;
  let rt_current := rt_smp_current s in
  when (priority s rt_current <? 0)
    (wr priority rt_current (priority s rt_current + 1);;
     s ← get;
     when (negb (nz (priority s rt_current)))
       (wr priority rt_current (sched_lock_priority s rt_current);;
        s ← get;
        when (negb (priority s rt_current =? RT_LINUX_PRIORITY))
          (runlink rt_current;; enq_ready_task rt_current);;
        s ← get;
        when (sched_rqsted s >? 0) rt_schedule)).

(** * Deletion *)

(** The senders left in a message queue ([mask] is the states they leave). *)
Fixpoint clr_queue (fuel : nat) (mask : Z) (queue q : qptr) : K unit :=
  s ← get;
  let q := q_next s q in
  if bool_decide (q = queue) then mret tt
  else match fuel with
       | O => stuck
       | S fuel' =>
           let t := q_task s q in
           rem_timed_task t;;
           s ← get;
           when (negb (state s t =? READY))
             (wr state t (clr (state s t) mask);;
              s ← get;
              when (state s t =? READY) (enq_ready_task t));;
           wr blocked_on t QNull;;
           clr_queue fuel' mask queue q
       end.

(** A task that waits for a semaphore gives its place up. *)
Definition clr_blocked (task : Z) : K unit :=
  s ← get;
  when (negb (bool_decide (blocked_on s task = QNull)))
    (qunlink (Queue task);;
     s ← get;
     when (has (state s task) SEMAPHORE)
       (match blocked_on s task with
        | SemQueue sem =>
            wr sem_count sem (i32 (sem_count s sem + 1));;
            s ← get;
            when (nz (sem_type s sem) && (sem_count s sem >? 1)) (wr sem_count sem 1)
        | _ => stuck
        end)).

Definition clr_rtext (task : Z) : K Z :=
  s ← get;
  if negb (magic s task =? RT_TASK_MAGIC) || (priority s task =? RT_LINUX_PRIORITY) then
    mret (- EINVAL)
  else
    let rt_current := rt_smp_current s in
    (if negb (nz (Z.land (owndres s task) SEMHLF)) || (task =? rt_current) ||
        (priority s rt_current =? RT_LINUX_PRIORITY) then
       emit (CallExitHandlers task);;
       rem_timed_task task;;
       clr_blocked task;;
       clr_queue LIST_FUEL (Z.lor SEND (Z.lor RPC DELAYED)) (MsgQueue task) (MsgQueue task);;
       clr_queue LIST_FUEL (Z.lor RETURN DELAYED) (RetQueue task) (RetQueue task);;
       s ← get;
       wr next (prev s task) (next s task);;
       (if negb (nz (next s task)) then wr prev rt_linux_task (prev s task)
        else wr prev (next s task) (prev s task));;
       when (fpu_task s =? task) (wg fpu_task rt_linux_task);;
       when (negb (nz (lnxtsk s task)))
         (wr fss_mp (fss_in s) (stack_bottom s task);;
          wg fss_in (Z.land (fss_in s + 1) (MAX_SRQ - 1));;
          emit (PendLinuxSrq 1));;
       wr magic task 0;;
       rem_ready_task task;;
       wr state task 0;;
       s ← get;
       wg tasks_per_cpu (i32 (tasks_per_cpu s - 1));;
       when (task =? rt_current) rt_schedule
     else wr suspdepth task (- 2147483647));;
    mret 0.

(** [start_stop_kthread(task, 0, ...)], the death of the Linux thread of the
    task, is left to Linux. *)
Definition rt_task_delete (task : Z) : K Z :=
  r ← clr_rtext task;
  s ← get;
  when ((r =? 0) && nz (lnxtsk s task)) (emit (StopKthread task));;
  mret 0.

Definition rt_get_task_state (s : RTAI) (task : Z) : Z := state s task.

(** * Suspension *)

Definition rt_task_yield : K unit :=
  s ← get;
  moved ← rr_rotate (rt_smp_current s);
  when moved rt_schedule.

Definition rt_task_suspend (task : Z) : K Z :=
  s ← get;
  if nz task && negb (magic s task =? RT_TASK_MAGIC) then mret (- EINVAL)
  else
    let task := if nz task then task else RT_CURRENT s in
    wr suspdepth task (i32 (suspdepth s task + 1));;
    when (negb (nz (suspdepth s task)) && negb (nz (owndres s task)))
      (rem_ready_task task;;
       s ← get;
       wr state task (Z.lor (state s task) SUSPENDED);;
       when (task =? RT_CURRENT s) rt_schedule);;
    mret 0.

Definition rt_task_resume (task : Z) : K Z :=
  s ← get;
  if negb (magic s task =? RT_TASK_MAGIC) then mret (- EINVAL)
  else
    wr suspdepth task (i32 (suspdepth s task - 1));;
    s ← get;
    when (negb (nz (suspdepth s task)))
      (rem_timed_task task;;
       s ← get;
       wr state task (clr (state s task) SUSPENDED);;
       s ← get;
       when (clr (state s task) DELAYED =? READY)
         (enq_ready_task task;; rt_schedule));;
    mret 0.

(** * Periodic tasks *)

Definition rt_task_make_periodic (task start_time period_ : Z) : K Z :=
  s ← get;
  if negb (magic s task =? RT_TASK_MAGIC) then mret (- EINVAL)
  else
    wr resume_time task start_time;;
    wr period task period_;;
    wr suspdepth task 0;;
    when (negb (has (state s task) DELAYED))
      (rem_ready_task task;;
       s ← get;
       wr state task (Z.lor (clr (state s task) SUSPENDED) DELAYED);;
       enq_timed_task task);;
    rt_schedule;;
    mret 0.

Definition rt_task_make_periodic_relative_ns (task start_delay period_ : Z) : K Z :=
  s ← get;
  if negb (magic s task =? RT_TASK_MAGIC) then mret (- EINVAL)
  else
    wr resume_time task (i64 (rt_get_time_cpuid s + nano2count_cpuid s start_delay));;
    wr period task (nano2count_cpuid s period_);;
    wr suspdepth task 0;;
    when (negb (has (state s task) DELAYED))
      (rem_ready_task task;;
       s ← get;
       wr state task (Z.lor (clr (state s task) SUSPENDED) DELAYED);;
       enq_timed_task task);;
    rt_schedule;;
    mret 0.

(** [state |= DELAYED], then the task moves from the ready list to the timed
    list and the scheduler is called. *)
Definition sleep_current (rt_current : Z) : K unit :=
  s ← get;
  wr state rt_current (Z.lor (state s rt_current) DELAYED);;
  rem_ready_current rt_current;;
  enq_timed_task rt_current;;
  rt_schedule.

Definition rt_task_wait_period : K unit :=
  s ← get;
  let rt_current := rt_smp_current s in
  if nz (resync_frame s rt_current) then
    wr resync_frame rt_current 0;;
    wr resume_time rt_current (rt_get_time s)
  else
    wr resume_time rt_current (i64 (resume_time s rt_current + period s rt_current));;
    s ← get;
    when (resume_time s rt_current >? rt_time_h s) (sleep_current rt_current).

Definition rt_task_set_resume_end_times (resume end_ : Z) : K unit :=
  s ← get;
  let rt_current := rt_smp_current s in
  wr policy rt_current (-1);;
  wr priority rt_current 0;;
  wr resume_time rt_current
    (if resume >? 0 then resume else i64 (resume_time s rt_current - resume));;
  s ← get;
  wr period rt_current (if end_ >? 0 then end_ else i64 (resume_time s rt_current - end_));;
  sleep_current rt_current.

Definition rt_set_resume_time (task new_resume_time : Z) : K Z :=
  s ← get;
  if negb (magic s task =? RT_TASK_MAGIC) then mret (- EINVAL)
  else if has (state s task) DELAYED then
    wr resume_time task new_resume_time;;
    s ← get;
    if (negb (tnext s task =? rt_linux_task) &&
        (i64 (new_resume_time - resume_time s (tnext s task)) >? 0)) ||
       (i64 (new_resume_time - resume_time s (tprev s task)) <? 0) then
      rem_timed_task task;; enq_timed_task task;; rt_schedule;; mret 0
    else mret (- ETIME)
  else mret (- ETIME).

Definition rt_set_period (task new_period : Z) : K Z :=
  s ← get;
  if negb (magic s task =? RT_TASK_MAGIC) then mret (- EINVAL)
  else wr period task new_period;; mret 0.

Definition next_period (s : RTAI) : Z :=
  let rt_current := rt_smp_current s in
  i64 (resume_time s rt_current + period s rt_current).

(** * Sleeping *)

Definition rt_sleep (delay : Z) : K unit :=
  s ← get;
  let rt_current := rt_smp_current s in
  wr resume_time rt_current
    (i64 ((if nz (oneshot_timer s) then tsc s else tick_time s) + delay));;
  s ← get;
  when (resume_time s rt_current >? rt_time_h s) (sleep_current rt_current).

Definition rt_sleep_until (time : Z) : K unit :=
  s ← get;
  let rt_current := rt_smp_current s in
  wr resume_time rt_current time;;
  when (time >? rt_time_h s) (sleep_current rt_current).

Definition rt_task_wakeup_sleeping (task : Z) : K Z :=
  s ← get;
  if negb (magic s task =? RT_TASK_MAGIC) then mret (- EINVAL)
  else
    rem_timed_task task;;
    s ← get;
    when (negb (state s task =? READY))
      (wr state task (clr (state s task) DELAYED);;
       s ← get;
       when (state s task =? READY) (enq_ready_task task;; rt_schedule));;
    mret 0.

(** * The watchdog, and small services *)

(** [while ((task = task->next)) if (task != wd && task->priority ==
    RT_HIGHEST_PRIORITY) return ...;] *)
Fixpoint other_highest (fuel : nat) (s : RTAI) (wd task : Z) : option bool :=
  let task := next s task in
  if negb (nz task) then Some false
  else if negb (task =? wd) && (priority s task =? RT_HIGHEST_PRIORITY) then Some true
  else match fuel with
       | O => None
       | S fuel' => other_highest fuel' s wd task
       end.

Definition rt_register_watchdog (wd : Z) : K Z :=
  s ← get;
  if nz (wdog_task s) then mret (- EBUSY)
  else
    found ← of_option (other_highest LIST_FUEL s wd rt_linux_task);
    if found : bool then mret (- EBUSY) else wg wdog_task wd;; mret 0.

Definition rt_deregister_watchdog (wd : Z) : K unit :=
  s ← get;
  when (wdog_task s =? wd) (wg wdog_task 0).

Definition rt_whoami (s : RTAI) : Z := rt_smp_current s.

Definition rt_task_signal_handler (task handler : Z) : K Z :=
  s ← get;
  if negb (magic s task =? RT_TASK_MAGIC) then mret (- EINVAL)
  else wr signal task handler;; mret 0.

Definition rt_task_use_fpu (task use_fpu_flag : Z) : K Z :=
  s ← get;
  if negb (magic s task =? RT_TASK_MAGIC) then mret (- EINVAL)
  else wr uses_fpu task (if nz use_fpu_flag then 1 else 0);; mret 0.

Definition rt_linux_use_fpu (use_fpu_flag : Z) : K unit :=
  wr uses_fpu rt_linux_task (if nz use_fpu_flag then 1 else 0).

Definition rt_preempt_always (yes_no : Z) : K unit :=
  wg preempt_always (if nz yes_no then 1 else 0).

(** [while (frstk_srq.out != frstk_srq.in) { sched_free(...); ... }] *)
Fixpoint frstk_srq_handler (fuel : nat) : K unit :=
  s ← get;
  if fss_out s =? fss_in s then mret tt
  else match fuel with
       | O => stuck
       | S fuel' =>
           emit (FreeMem (fss_mp s (fss_out s)));;
           wg fss_out (Z.land (fss_out s + 1) (MAX_SRQ - 1));;
           frstk_srq_handler fuel'
       end.

(** [init_module]: the task of Linux, the modes of the timer ([OneShot],
    [PreemptAlways]) and the calibration of its latencies ([Latency],
    [SetupTimeTIMER]); the requests to the kernel are left out. *)
Definition init_module (OneShot PreemptAlways Latency SetupTimeTIMER : Z) : K unit :=
  let lx := rt_linux_task in
  s ← get;
  wr uses_fpu lx 1;; wr magic lx 0;; wr is_hard lx 0;; wr policy lx 0;;
  wr runnable_on_cpus lx 0;;
  wr state lx READY;;
  queue_init (MsgQueue lx) lx;;
  wr msg lx 0;;
  queue_init (RetQueue lx) NOTHING;;
  wr priority lx RT_LINUX_PRIORITY;;
  wr base_priority lx RT_LINUX_PRIORITY;;
  wr signal lx 0;;
  wr prev lx lx;;
  wr resume_time lx RT_TIME_END;;
  wr tprev lx lx;; wr tnext lx lx;; wr rprev lx lx;; wr rnext lx lx;;
  wr next lx 0;;
  wr lnxtsk lx (current s);;
  wg rt_smp_current lx;;
  wg fpu_task lx;;
  wg oneshot_timer (if nz OneShot then 1 else 0);;
  wg oneshot_running 0;;
  wg preempt_always (if nz PreemptAlways then 1 else 0);;
  wg tuned_latency (imuldiv Latency (cpu_freq s) 1000000000);;
  wg setup_time_TIMER_CPUNIT (imuldiv SetupTimeTIMER (cpu_freq s) 1000000000);;
  wg setup_time_TIMER_UNIT (imuldiv SetupTimeTIMER (TIMER_FREQ s) 1000000000);;
  wg fss_in 0;; wg fss_out 0.

(** * Leaving and entering the lists *)

(** [m] gives up the processor, or not, in [rt_schedule], and then returns [a]. *)
Definition schedules {A} (o : Out RTAI A) (s' : RTAI) (a : A) : Prop :=
  o = bind_out (rt_schedule s') (fun _ s => Done a s).

Lemma rem_ready_task_spec s t l1 l2 :
  ready_list s (l1 ++ t :: l2) -> state s t = READY -> is_hard s t <> 0 ->
  exists s', rem_ready_task t s = Done tt s' /\ ready_links s s' /\ ready_list s' (l1 ++ l2).
Proof.
  intros Hr Hs Hh. apply nz_true in Hh. unfold rem_ready_task, soft_to_hardrealtime. step_m.
  rewrite Hs. cbn [Z.eqb Pos.eqb READY]. step_m. rewrite Hh. step_m. by apply runlink_spec.
Qed.

Lemma rem_ready_task_other s t : state s t <> READY -> rem_ready_task t s = Done tt s.
Proof. intros H. unfold rem_ready_task. step_m. by rewrite (proj2 (Z.eqb_neq _ _) H). Qed.

Lemma rem_ready_current_spec s t l1 l2 :
  ready_list s (l1 ++ t :: l2) -> is_hard s t <> 0 ->
  exists s', rem_ready_current t s = Done tt s' /\ ready_links s s' /\ ready_list s' (l1 ++ l2).
Proof.
  intros Hr Hh. apply nz_true in Hh. unfold rem_ready_current, soft_to_hardrealtime. step_m.
  rewrite Hh. step_m. by apply runlink_spec.
Qed.

(** The bits of the states of these services. *)
Lemma state_bits :
  clr (Z.lor READY SUSPENDED) SUSPENDED = READY /\ clr READY DELAYED = READY /\
  has (Z.lor READY SUSPENDED) DELAYED = false /\ has READY DELAYED = false.
Proof. by repeat split. Qed.

Lemma fits_middle {A} (l1 l2 : list A) x : fits (l1 ++ x :: l2) -> fits (l1 ++ l2).
Proof. unfold fits. rewrite !length_app. simpl. lia. Qed.

(** [enq_ready_task] of a task in a sorted list, without its split. *)
Lemma enq_ready_task_at s t l :
  ready_list s l -> fits l -> t ∉ rt_linux_task :: l -> is_hard s t <> 0 ->
  priority s t < RT_LINUX_PRIORITY -> priority s rt_linux_task = RT_LINUX_PRIORITY ->
  lock_first (priority s) l ->
  exists s', enq_ready_task t s = Done tt s' /\ ready_links s s' /\
    ready_list s' (insert_after (fun y => priority s y <=? priority s t) t l).
Proof.
  intros Hr Hf Ht Hh Hp Hlx Hlf. destruct (enq_ready_task_spec s t l) as (s' & E & L & R); [done..|].
  rewrite insert_ready_after in R by done. by exists s'.
Qed.

(** [rt_task_suspend] of a ready task that does not run. *)
Lemma rt_task_suspend_spec s t l1 l2 :
  t <> 0 -> magic s t = RT_TASK_MAGIC -> ready_list s (l1 ++ t :: l2) -> state s t = READY ->
  is_hard s t <> 0 -> suspdepth s t = 0 -> owndres s t = 0 ->
  exists P N, let s' := s <| suspdepth ::= <[t := 1]> |> <| rprev := P |> <| rnext := N |>
                          <| state ::= <[t := Z.lor READY SUSPENDED]> |> in
    ready_list s' (l1 ++ l2) /\
    (t <> rt_smp_current s -> rt_task_suspend t s = Done 0 s') /\
    (t = rt_smp_current s -> schedules (rt_task_suspend t s) s' 0).
Proof.
  intros H0 Hm Hr Hst Hh Hd Ho. unfold rt_task_suspend, schedules. step_m.
  rewrite (proj2 (nz_true _) H0), Hm, Z.eqb_refl. step_m. rewrite Hd, Ho.
  change (nz 0) with false. change (i32 (0 + 1)) with 1. step_m.
  set (s1 := s <| suspdepth ::= <[t := 1]> |>).
  destruct (rem_ready_task_spec s1 t l1 l2) as (s2 & -> & (P & N & F) & R); [done..|].
  step_m. exists P, N. unfold RT_CURRENT.
  assert (Ec : rt_smp_current s2 = rt_smp_current s) by (by rewrite F).
  assert (Est : state s2 t = READY) by (by rewrite F).
  rewrite Ec, Est, F. split_and!; [by rewrite F in R|intros Hne|intros Heq].
  - by rewrite (proj2 (Z.eqb_neq _ _) Hne).
  - by rewrite (proj2 (Z.eqb_eq _ _) Heq).
Qed.

(** [rt_task_resume] of a task suspended once: whatever the bit [DELAYED], it
    enters the ready list, and the scheduler is called. *)
Lemma rt_task_resume_spec s t l st :
  magic s t = RT_TASK_MAGIC -> ready_list s l -> fits l -> t ∉ rt_linux_task :: l ->
  state s t = Z.lor (Z.lor READY SUSPENDED) st -> st = 0 \/ (st = DELAYED /\ exists l1 l2, timed_list s (l1 ++ t :: l2)) ->
  is_hard s t <> 0 -> suspdepth s t = 1 -> priority s t < RT_LINUX_PRIORITY ->
  priority s rt_linux_task = RT_LINUX_PRIORITY -> lock_first (priority s) l ->
  exists s', schedules (rt_task_resume t s) s' 0 /\
    state s' = <[t := Z.lor READY st]> (state s) /\ suspdepth s' = <[t := 0]> (suspdepth s) /\
    ready_list s' (insert_after (fun y => priority s y <=? priority s t) t l) /\
    (forall l1 l2, st = DELAYED -> timed_list s (l1 ++ t :: l2) -> timed_list s' (l1 ++ l2)).
Proof.
  intros Hm Hr Hf Ht Hst Hdl Hh Hd Hp Hlx Hlf. unfold schedules, rt_task_resume. step_m.
  rewrite Hm, Z.eqb_refl. step_m. rewrite upd_eq, Hd. change (i32 (1 - 1)) with 0.
  change (nz 0) with false. step_m.
  set (s1 := s <| suspdepth ::= <[t := 0]> |>).
  assert (exists s2, rem_timed_task t s1 = Done tt s2 /\ timed_links s1 s2 /\
    (forall l1 l2, st = DELAYED -> timed_list s (l1 ++ t :: l2) -> timed_list s2 (l1 ++ l2)))
    as (s2 & -> & (P & N & F2) & Ht2).
  { destruct Hdl as [->|[-> (l1 & l2 & Htl)]].
    - exists s1. rewrite rem_timed_task_not_delayed by (unfold s1; state_simpl; by rewrite Hst).
      split_and!; [done| |done]. exists (tprev s1), (tnext s1). by destruct s1.
    - destruct (rem_timed_task_spec s1 t l1 l2 Htl) as (s2 & E2 & L2 & R2);
        [unfold s1; state_simpl; by rewrite Hst|].
      exists s2. split_and!; [done|done|]. intros l1' l2' _ Htl'.
      destruct (ring_app_inj _ _ _ _ _ _ _ _ Htl Htl') as [-> ->]. exact R2. }
  cbn [bind_out]. step_m. rewrite !upd_eq.
  assert (Es2 : state s2 t = Z.lor (Z.lor READY SUSPENDED) st) by (by rewrite F2).
  rewrite Es2.
  assert (Ec : clr (Z.lor (Z.lor READY SUSPENDED) st) SUSPENDED = Z.lor READY st /\
               clr (Z.lor READY st) DELAYED = READY) by (by destruct Hdl as [->|[-> _]]).
  destruct Ec as [Ec1 Ec2]. rewrite Ec1, Ec2. cbn [Z.eqb Pos.eqb READY]. step_m.
  set (s3 := s2 <| state ::= <[t := Z.lor READY st]> |>).
  destruct (enq_ready_task_at s3 t l) as (s4 & -> & (P4 & N4 & F4) & R4);
    [unfold s3; rewrite ?F2; done..|].
  cbn [bind_out]. exists s4. split_and!.
  - done.
  - rewrite F4. unfold s3. by rewrite F2.
  - rewrite F4. unfold s3. by rewrite F2.
  - unfold s3 in R4. by rewrite F2 in R4.
  - intros l1 l2 E Htl. rewrite F4. by apply Ht2.
Qed.

(** * Properties *)

(** A ready task is suspended: it leaves the ready list, keeps the other
    tasks in order, and counts one suspension; the scheduler is called only
    if it was running. *)
Theorem rt_task_suspend_ready s t l1 l2 :
  t <> 0 -> magic s t = RT_TASK_MAGIC -> ready_list s (l1 ++ t :: l2) -> state s t = READY ->
  is_hard s t <> 0 -> suspdepth s t = 0 -> owndres s t = 0 ->
  exists s', ready_list s' (l1 ++ l2) /\ state s' t = Z.lor READY SUSPENDED /\
    suspdepth s' t = 1 /\ rt_smp_current s' = rt_smp_current s /\
    (t <> rt_smp_current s -> rt_task_suspend t s = Done 0 s') /\
    (t = rt_smp_current s -> schedules (rt_task_suspend t s) s' 0).
Proof.
  intros H0 Hm Hr Hst Hh Hd Ho.
  destruct (rt_task_suspend_spec s t l1 l2) as (P & N & R & H1 & H2); [done..|].
  eexists. split_and!; [exact R| | | |exact H1|exact H2]; state_simpl; by rewrite ?upd_eq.
Qed.

(** Suspensions nest: a suspension of a task that is suspended only counts,
    and the resumption that undoes it only counts back. *)
Theorem suspend_resume_nested s t :
  t <> 0 -> magic s t = RT_TASK_MAGIC -> 0 < suspdepth s t < INT_MAX ->
  (_ ← rt_task_suspend t; rt_task_resume t) s =
    Done 0 (s <| suspdepth ::= <[t := suspdepth s t + 1]> |> <| suspdepth ::= <[t := suspdepth s t]> |>).
Proof.
  intros H0 Hm Hd. unfold rt_task_suspend, rt_task_resume. step_m.
  rewrite (proj2 (nz_true _) H0), Hm, Z.eqb_refl. step_m.
  rewrite (proj2 (nz_true _)) by lia. step_m. rewrite Hm, Z.eqb_refl. step_m.
  rewrite upd_eq. unfold INT_MAX in Hd.
  assert (E1 : i32 (suspdepth s t + 1) = suspdepth s t + 1)
    by (apply i32_id; unfold in_i32, INT_MIN, INT_MAX; lia).
  assert (E2 : i32 (suspdepth s t + 1 - 1) = suspdepth s t)
    by (rewrite i32_id by (unfold in_i32, INT_MIN, INT_MAX; lia); lia).
  rewrite E1, upd_eq, E2, (proj2 (nz_true (suspdepth s t))) by lia. done.
Qed.

(** A ready task that is suspended and resumed is ready again, behind the
    tasks of its priority, and the scheduler is called once. *)
Theorem suspend_resume_ready s t l1 l2 :
  t <> 0 -> magic s t = RT_TASK_MAGIC -> ready_list s (l1 ++ t :: l2) -> fits (l1 ++ t :: l2) ->
  state s t = READY -> is_hard s t <> 0 -> suspdepth s t = 0 -> owndres s t = 0 ->
  t <> rt_smp_current s -> priority s t < RT_LINUX_PRIORITY ->
  priority s rt_linux_task = RT_LINUX_PRIORITY -> lock_first (priority s) (l1 ++ l2) ->
  exists s', schedules ((_ ← rt_task_suspend t; rt_task_resume t) s) s' 0 /\
    state s' t = READY /\ suspdepth s' t = 0 /\
    ready_list s' (insert_after (fun y => priority s y <=? priority s t) t (l1 ++ l2)).
Proof.
  intros H0 Hm Hr Hf Hst Hh Hd Ho Hc Hp Hlx Hlf.
  destruct (rt_task_suspend_spec s t l1 l2) as (P & N & R & H1 & _); [done..|].
  destruct (ring_middle _ _ _ _ _ _ Hr) as (_ & _ & Ht). apply fits_middle in Hf.
  set (s1 := s <| suspdepth ::= _ |> <| rprev := _ |> <| rnext := _ |> <| state ::= _ |>) in *.
  destruct (rt_task_resume_spec s1 t (l1 ++ l2) 0) as (s' & E & F1 & F2 & R' & _);
    [done|exact R|done|done|unfold s1; state_simpl; by rewrite upd_eq|by left|done
    |unfold s1; state_simpl; by rewrite upd_eq|done|done|done|].
  exists s'. unfold schedules in *. rewrite (bind_done _ _ _ _ _ (H1 Hc)), E, F1, F2, !upd_eq.
  by split_and!.
Qed.

(** A task suspended while it sleeps (a periodic task, say) that is resumed
    before its time keeps the bit [DELAYED] although it is in the ready list
    and no more in the timed list: its state is not [READY], and later
    [rem_ready_task] does not take it out of the ready list. *)
Theorem resume_keeps_delayed s t l tl1 tl2 :
  magic s t = RT_TASK_MAGIC -> ready_list s l -> fits l -> t ∉ rt_linux_task :: l ->
  timed_list s (tl1 ++ t :: tl2) -> state s t = Z.lor (Z.lor READY SUSPENDED) DELAYED ->
  is_hard s t <> 0 -> suspdepth s t = 1 -> priority s t < RT_LINUX_PRIORITY ->
  priority s rt_linux_task = RT_LINUX_PRIORITY -> lock_first (priority s) l ->
  exists s', schedules (rt_task_resume t s) s' 0 /\
    ready_list s' (insert_after (fun y => priority s y <=? priority s t) t l) /\
    timed_list s' (tl1 ++ tl2) /\ state s' t = Z.lor READY DELAYED /\
    rem_ready_task t s' = Done tt s'.
Proof.
  intros Hm Hr Hf Ht Htl Hst Hh Hd Hp Hlx Hlf.
  destruct (rt_task_resume_spec s t l DELAYED) as (s' & E & F1 & F2 & R' & T'); [done|done|done|done|done| |done|done|done|done|done|].
  { right. split; [done|]. by exists tl1, tl2. }
  exists s'. assert (Es : state s' t = Z.lor READY DELAYED) by (by rewrite F1, upd_eq).
  split_and!; [done|done|by apply T'|done|]. apply rem_ready_task_other. by rewrite Es.
Qed.

(** The end of the sleeping services: the running task moves to the timed list. *)
Lemma sleep_current_spec s c l1 l2 tl :
  ready_list s (l1 ++ c :: l2) -> timed_list s tl -> fits tl -> c ∉ rt_linux_task :: tl ->
  is_hard s c <> 0 -> resume_time s c <= RT_TIME_END -> resume_time s rt_linux_task = RT_TIME_END ->
  exists s', sleep_current c s = rt_schedule s' /\ ready_list s' (l1 ++ l2) /\
    timed_list s' (insert_timed (resume_time s) c tl) /\
    state s' = <[c := Z.lor (state s c) DELAYED]> (state s) /\ resume_time s' = resume_time s /\
    rt_smp_current s' = rt_smp_current s.
Proof.
  intros Hr Ht Hf Hc Hh Hres Hlx. unfold sleep_current. step_m.
  set (s1 := s <| state ::= _ |>).
  destruct (rem_ready_current_spec s1 c l1 l2) as (s2 & -> & (P & N & F2) & R2); [done..|].
  cbn [bind_out].
  destruct (enq_timed_task_spec s2 c tl) as (s3 & -> & (P3 & N3 & F3) & R3);
    [unfold timed_list; rewrite F2; exact Ht|exact Hf|exact Hc|rewrite F2; exact Hh
    |rewrite F2; exact Hres|rewrite F2; exact Hlx|].
  cbn [bind_out]. exists s3. rewrite F2 in R3. rewrite F3, F2. unfold s1. state_simpl.
  rewrite F3, F2 in R3. rewrite F2 in R2.
  by split_and!.
Qed.

(** The periods of a task do not drift: [rt_task_wait_period] sets the
    release exactly one period after the previous one; the task sleeps until
    then, in its place of the timed list, or goes on at once if it is late. *)
Theorem rt_task_wait_period_release s c l1 l2 tl :
  c = rt_smp_current s -> resync_frame s c = 0 ->
  ready_list s (l1 ++ c :: l2) -> timed_list s tl -> fits tl -> c ∉ rt_linux_task :: tl ->
  is_hard s c <> 0 -> in_i64 (resume_time s c + period s c) ->
  resume_time s rt_linux_task = RT_TIME_END ->
  let due := resume_time s c + period s c in
  (due <= rt_time_h s ->
     rt_task_wait_period s = Done tt (s <| resume_time ::= <[c := due]> |>)) /\
  (rt_time_h s < due ->
     exists s', rt_task_wait_period s = rt_schedule s' /\ resume_time s' c = due /\
       has (state s' c) DELAYED = true /\ ready_list s' (l1 ++ l2) /\
       timed_list s' (insert_timed (<[c := due]> (resume_time s)) c tl)).
Proof.
  intros -> Hrs Hr Ht Hf Hc Hh Hi Hlx due. unfold rt_task_wait_period. step_m.
  rewrite Hrs. change (nz 0) with false. step_m. rewrite upd_eq, i64_id by done. fold due.
  rewrite Z.gtb_ltb. split; intros Hd.
  - rewrite (proj2 (Z.ltb_ge _ _) Hd). done.
  - rewrite (proj2 (Z.ltb_lt _ _) Hd). set (s1 := s <| resume_time ::= _ |>).
    destruct (sleep_current_spec s1 (rt_smp_current s) l1 l2 tl) as (s' & E & R & T & Fs & Fr & _);
      [done..| | |].
    { unfold s1. state_simpl. rewrite upd_eq. destruct Hi as [_ Hi]. exact Hi. }
    { unfold s1. state_simpl. rewrite upd_ne; [done|]. intros E. rewrite E in Hc. list_in. }
    exists s'. rewrite Fs, Fr. unfold s1. state_simpl. rewrite !upd_eq.
    split_and!; [done|done|by rewrite has_lor|done|exact T].
Qed.

(** A task of the ready list moved to the place of its priority. *)
Lemma requeue_ready_spec s t l1 l2 :
  ready_list s (l1 ++ t :: l2) -> fits (l1 ++ t :: l2) -> is_hard s t <> 0 ->
  priority s t < RT_LINUX_PRIORITY -> priority s rt_linux_task = RT_LINUX_PRIORITY ->
  lock_first (priority s) (l1 ++ l2) ->
  exists s', (runlink t;; enq_ready_task t) s = Done tt s' /\ ready_links s s' /\
    ready_list s' (insert_after (fun y => priority s y <=? priority s t) t (l1 ++ l2)).
Proof.
  intros Hr Hf Hh Hp Hlx Hlf. destruct (ring_middle _ _ _ _ _ _ Hr) as (_ & _ & Ht).
  apply fits_middle in Hf. destruct (runlink_spec s t l1 l2 Hr) as (s1 & E1 & (P & N & ->) & R1).
  destruct (enq_ready_task_at _ t (l1 ++ l2) R1) as (s2 & E2 & (P2 & N2 & ->) & R2); [done..|].
  unfold mbind, M_bind. rewrite E1. cbn [bind_out]. eexists. split; [exact E2|].
  split; [by do 2 eexists|exact R2].
Qed.

(** Locking and unlocking the scheduler in nested pairs: an inner pair
    changes nothing, an outer one gives the task its priority back without a
    call of the scheduler, behind the ready tasks of that priority. *)
Theorem sched_lock_unlock s c l1 l2 :
  c = rt_smp_current s -> ready_list s (l1 ++ c :: l2) -> fits (l1 ++ c :: l2) ->
  INT_MIN < priority s c < RT_LINUX_PRIORITY -> is_hard s c <> 0 ->
  priority s rt_linux_task = RT_LINUX_PRIORITY -> lock_first (priority s) (l1 ++ l2) ->
  exists s', (rt_sched_lock;; rt_sched_unlock) s = Done tt s' /\ priority s' c = priority s c /\
    (priority s c < -1 -> ready_list s' (l1 ++ c :: l2)) /\
    (0 <= priority s c -> sched_rqsted s' = -1 /\
       ready_list s' (insert_after (fun y => priority s y <=? priority s c) c (l1 ++ l2))).
Proof.
  intros Hc Hr Hf Hp Hh Hlx Hlf.
  unfold rt_sched_lock, rt_sched_unlock. step_m. rewrite <- !Hc.
  rewrite Z.geb_leb. destruct (Z.leb_spec 0 (priority s c)) as [H0|H0]; step_m; rewrite <- !Hc, !upd_eq.
  - change (-1 <? 0) with true. step_m. rewrite !upd_eq. change (nz (-1 + 1)) with false. step_m.
    rewrite upd_eq, (proj2 (Z.eqb_neq _ _)) by lia. step_m.
    set (s1 := s <| sched_lock_priority ::= _ |> <| priority ::= _ |> <| sched_rqsted := _ |>
                 <| priority ::= _ |> <| priority ::= _ |>).
    assert (Ep : forall x, priority s1 x = priority s x).
    { intros x. unfold s1. state_simpl. rewrite !upd_dec. by repeat case_decide; subst. }
    assert (Hr1 : ready_list s1 (l1 ++ c :: l2)) by (unfold s1, ready_list; state_simpl; exact Hr).
    assert (Hh1 : is_hard s1 c <> 0) by (unfold s1; state_simpl; exact Hh).
    assert (Eq1 : sched_rqsted s1 = -1) by (unfold s1; state_simpl; reflexivity).
    clearbody s1.
    destruct (requeue_ready_spec s1 c l1 l2) as (s2 & E2 & (P & N & F2) & R2);
      [exact Hr1|exact Hf|exact Hh1|rewrite Ep; lia|by rewrite Ep| |].
    { intros x Hx. rewrite Ep. by apply Hlf. }
    unfold mbind, M_bind in E2. rewrite E2. cbn [bind_out].
    assert (Eq2 : sched_rqsted s2 = -1) by (rewrite F2; state_simpl; exact Eq1).
    rewrite Eq2. exists s2. split_and!; [reflexivity| |lia|].
    + rewrite F2. state_simpl. apply Ep.
    + intros _. split; [exact Eq2|].
      rewrite <- (insert_after_ext (fun y => priority s1 y <=? priority s1 c)); [exact R2|].
      intros y. by rewrite !Ep.
  - rewrite i32_id by (unfold in_i32, INT_MIN, INT_MAX, RT_LINUX_PRIORITY in *; lia).
    rewrite (proj2 (Z.ltb_lt _ _)) by lia. step_m. rewrite !upd_eq.
    replace (priority s c - 1 + 1) with (priority s c) by lia.
    rewrite (proj2 (nz_true _)) by lia. step_m. eexists. split_and!; [done| |intros _; exact Hr|lia].
    state_simpl. by rewrite upd_eq.
Qed.

(** A new task is suspended, once, with its priority, empty message
    queues, at the end of the task list; a task that exists, a wrong
    processor or priority, a lack of memory and the priority of the watchdog
    are refused, and then nothing is created. *)
Theorem rt_task_init_creates s st task prio fpu sig cpuid :
  task <> rt_linux_task -> prev s rt_linux_task <> task ->
  0 <= cpuid < 4294967296 -> 0 <= tasks_per_cpu s < INT_MAX ->
  (magic s task = RT_TASK_MAGIC \/ 1 <= cpuid \/ prio < 0 ->
     rt_task_init_cpuid st task prio fpu sig cpuid s = Done (- EINVAL) s) /\
  (magic s task <> RT_TASK_MAGIC -> cpuid = 0 -> 0 <= prio -> st = 0 ->
     rt_task_init_cpuid st task prio fpu sig cpuid s = Done (- ENOMEM) s) /\
  (magic s task <> RT_TASK_MAGIC -> cpuid = 0 -> 0 <= prio -> st <> 0 ->
   (wdog_task s = 0 \/ 0 < prio) ->
     exists s', rt_task_init_cpuid st task prio fpu sig cpuid s = Done 0 s' /\
       magic s' task = RT_TASK_MAGIC /\ state s' task = Z.lor SUSPENDED READY /\
       suspdepth s' task = 1 /\ priority s' task = prio /\ base_priority s' task = prio /\
       lnxtsk s' task = 0 /\ is_hard s' task = 1 /\ blocked_on s' task = QNull /\
       q_task s' (Queue task) = task /\
       wait_queue s' (MsgQueue task) [] /\ wait_queue s' (RetQueue task) [] /\
       next s' (prev s rt_linux_task) = task /\ prev s' task = prev s rt_linux_task /\
       next s' task = 0 /\ prev s' rt_linux_task = task /\
       tasks_per_cpu s' = tasks_per_cpu s + 1).
Proof.
  intros Ht Hpv Hcpu Htpc. assert (Ecpu : u32 cpuid = cpuid) by (apply Z.mod_small; lia).
  unfold rt_task_init_cpuid. split_and!.
  - intros H. step_m. rewrite Ecpu.
    assert (E : (magic s task =? RT_TASK_MAGIC) || (cpuid >=? 1) || (prio <? 0) = true).
    { rewrite !orb_true_iff, Z.eqb_eq, Z.geb_le, Z.ltb_lt. lia. }
    by rewrite E.
  - intros Hm -> Hp ->. step_m. rewrite (proj2 (Z.eqb_neq _ _) Hm), (proj2 (Z.ltb_ge _ _) Hp). done.
  - intros Hm -> Hp Hst Hw. step_m.
    rewrite (proj2 (Z.eqb_neq _ _) Hm), (proj2 (Z.ltb_ge _ _) Hp), (proj2 (nz_true _) Hst).
    assert (E : watchdog_reserves s task prio = false).
    { unfold watchdog_reserves. destruct Hw as [->|Hw]; [done|].
      rewrite (proj2 (Z.eqb_neq prio RT_HIGHEST_PRIORITY)) by (unfold RT_HIGHEST_PRIORITY; lia).
      by rewrite andb_false_r. }
    change (u32 0 >=? 1) with false. rewrite E. unfold task_init, queue_init, link_task. step_m.
    eexists. split; [reflexivity|]. state_simpl.
    rewrite i32_id by (unfold in_i32, INT_MIN, INT_MAX in *; lia).
    unfold wait_queue, ring. simpl seg. state_simpl.
    split_and!; first
      [ apply NoDup_singleton
      | intros x Hx; by apply not_elem_of_nil in Hx
      | repeat first [rewrite upd_eq | rewrite upd_ne by congruence]; done ].
Qed.

(** The conversion of [llimd], rounded twice, there and back. *)
Lemma llimd_back c f :
  0 <= c -> 0 < f < 1000000000 -> c * 1000000000 < f * LLONG_MAX ->
  0 <= llimd c 1000000000 f <= LLONG_MAX /\ llimd (llimd c 1000000000 f) f 1000000000 = c.
Proof.
  intros Hc Hf Hb. unfold LLONG_MAX in *.
  destruct (llimd_half c 1000000000 f) as [R1 B1]; [unfold LLONG_MAX; lia..|].
  split; [done|]. set (n := llimd c 1000000000 f) in *. unfold LLONG_MAX in *.
  assert (n * f < 1000000000 * 9223372036854775807) by nia.
  destruct (llimd_half n f 1000000000) as [R2 B2]; [unfold LLONG_MAX; lia..|]. nia.
Qed.

(** Below 1 GHz nothing is lost when a time is converted to nanoseconds
    and back, whatever its sign. *)
Theorem count_nano_roundtrip s c :
  let f := if nz (oneshot_timer s) then cpu_freq s else TIMER_FREQ s in
  0 < f < 1000000000 -> Z.abs c * 1000000000 < f * LLONG_MAX ->
  nano2count s (count2nano s c) = c.
Proof.
  intros f Hf Hb. destruct (llimd_back (Z.abs c) f) as [B R]; [lia|done|done|].
  assert (E1 : count2nano s c = if c >? 0 then llimd (Z.abs c) 1000000000 f
                                else - llimd (Z.abs c) 1000000000 f).
  { unfold count2nano. fold f. unfold LLONG_MAX in *.
    rewrite Z.gtb_ltb. destruct (Z.ltb_spec 0 c).
    - rewrite Z.abs_eq in * by lia. unfold f. by destruct (nz _).
    - rewrite (i64_id (- c)) by (unfold in_i64, LLONG_MAX; lia). rewrite Z.abs_neq in * by lia.
      unfold f in *. destruct (nz _); apply i64_id; unfold in_i64, LLONG_MAX; lia. }
  rewrite E1. unfold nano2count. set (n := llimd (Z.abs c) 1000000000 f) in *.
  assert (E2 : (if nz (oneshot_timer s) then llimd n (cpu_freq s) 1000000000
                else llimd n (TIMER_FREQ s) 1000000000) = Z.abs c).
  { rewrite <- R. unfold f. by destruct (nz _). }
  assert (Hc : Z.abs c <= LLONG_MAX) by (unfold LLONG_MAX in *; nia).
  assert (En : n = 0 -> c = 0).
  { intros E0. rewrite E0, llimd_eq in R by (unfold LLONG_MAX; lia).
    rewrite Z.mul_0_l, Zmod_0_l, Zdiv_0_l in R. change (2 * 0) with 0 in R.
    rewrite Z.gtb_ltb, (proj2 (Z.ltb_ge _ _)) in R by lia. lia. }
  unfold LLONG_MAX in *. rewrite !Z.gtb_ltb. destruct (Z.ltb_spec 0 c).
  - rewrite (proj2 (Z.ltb_lt _ _)) by (assert (n <> 0) by (intros E0; apply En in E0; lia); lia).
    rewrite E2. lia.
  - rewrite (proj2 (Z.ltb_ge _ _)) by lia.
    rewrite Z.opp_involutive, (i64_id n) by (unfold in_i64, LLONG_MAX; lia).
    rewrite E2, i64_id by (unfold in_i64, LLONG_MAX; lia). lia.
Qed.

(** * Witnesses *)

(** Two ready tasks; the second one runs. *)
Lemma rt_task_suspend_ready_witness :
  exists s', ready_list s' ([32] ++ []) /\ state s' 48 = Z.lor READY SUSPENDED /\
    suspdepth s' 48 = 1 /\ rt_smp_current s' = rt_smp_current demo_run /\
    (48 <> rt_smp_current demo_run -> rt_task_suspend 48 demo_run = Done 0 s') /\
    (48 = rt_smp_current demo_run -> schedules (rt_task_suspend 48 demo_run) s' 0).
Proof. apply rt_task_suspend_ready; first [solve_ring | by_eval]. Defined.

(** A task suspended once. *)
Definition demo_suspended : RTAI :=
  demo <| state ::= <[64 := Z.lor READY SUSPENDED]> |> <| suspdepth ::= <[64 := 1]> |>.

Lemma suspend_resume_nested_witness :
  (_ ← rt_task_suspend 64; rt_task_resume 64) demo_suspended =
    Done 0 (demo_suspended <| suspdepth ::= <[64 := suspdepth demo_suspended 64 + 1]> |>
                           <| suspdepth ::= <[64 := suspdepth demo_suspended 64]> |>).
Proof. apply suspend_resume_nested; [by_eval|by_eval|split; by_eval]. Defined.

(** No task locks the scheduler, by evaluation on a list of two tasks. *)
Ltac lock_first_eval :=
  let x := fresh in let Hx := fresh in
  intros x Hx; cbn in Hx; rewrite ?elem_of_cons, ?elem_of_nil in Hx;
  repeat destruct Hx as [->|Hx]; try destruct Hx; by_eval.

Lemma suspend_resume_ready_witness :
  exists s', schedules ((_ ← rt_task_suspend 48; rt_task_resume 48) demo) s' 0 /\
    state s' 48 = READY /\ suspdepth s' 48 = 0 /\
    ready_list s' (insert_after (fun y => priority demo y <=? priority demo 48) 48 ([32] ++ [])).
Proof.
  apply suspend_resume_ready;
    [by_eval|by_eval|solve_ring|fits_eval|by_eval|by_eval|by_eval|by_eval|by_eval|by_eval|by_eval
    |lock_first_eval].
Defined.

(** A sleeping task that was suspended too. *)
Definition demo_asleep : RTAI :=
  demo_timed <| magic ::= <[80 := RT_TASK_MAGIC]> |> <| suspdepth ::= <[80 := 1]> |>
             <| state ::= <[80 := Z.lor (Z.lor READY SUSPENDED) DELAYED]> |>.

Lemma resume_keeps_delayed_witness :
  exists s', schedules (rt_task_resume 80 demo_asleep) s' 0 /\
    ready_list s' (insert_after (fun y => priority demo_asleep y <=? priority demo_asleep 80) 80 [32; 48]) /\
    timed_list s' ([] ++ [96]) /\ state s' 80 = Z.lor READY DELAYED /\
    rem_ready_task 80 s' = Done tt s'.
Proof.
  apply resume_keeps_delayed;
    [by_eval|solve_ring|fits_eval|not_in|solve_ring|by_eval|by_eval|by_eval|by_eval|by_eval
    |lock_first_eval].
Defined.

(** The running task has a period of 10. *)
Definition demo_period : RTAI :=
  demo_timed <| rt_smp_current := 48 |> <| period ::= <[48 := 10]> |>
             <| resume_time ::= <[48 := 4]> |>.

Lemma rt_task_wait_period_release_witness :
  let due := resume_time demo_period 48 + period demo_period 48 in
  (due <= rt_time_h demo_period ->
     rt_task_wait_period demo_period = Done tt (demo_period <| resume_time ::= <[48 := due]> |>)) /\
  (rt_time_h demo_period < due ->
     exists s', rt_task_wait_period demo_period = rt_schedule s' /\ resume_time s' 48 = due /\
       has (state s' 48) DELAYED = true /\ ready_list s' ([32] ++ []) /\
       timed_list s' (insert_timed (<[48 := due]> (resume_time demo_period)) 48 [80; 96])).
Proof.
  apply (rt_task_wait_period_release demo_period 48 [32] [] [80; 96]);
    [by_eval|by_eval|solve_ring|solve_ring|fits_eval|not_in|by_eval|split; by_eval|by_eval].
Defined.

Lemma sched_lock_unlock_witness :
  exists s', (rt_sched_lock;; rt_sched_unlock) demo_run = Done tt s' /\
    priority s' 48 = priority demo_run 48 /\
    (priority demo_run 48 < -1 -> ready_list s' ([32] ++ 48 :: [])) /\
    (0 <= priority demo_run 48 -> sched_rqsted s' = -1 /\
       ready_list s' (insert_after (fun y => priority demo_run y <=? priority demo_run 48) 48 ([32] ++ []))).
Proof.
  apply sched_lock_unlock;
    [by_eval|solve_ring|fits_eval|split; by_eval|by_eval|by_eval|lock_first_eval].
Defined.

Lemma rt_task_init_creates_witness :
  (magic demo 112 = RT_TASK_MAGIC \/ 1 <= 0 \/ 4 < 0 ->
     rt_task_init_cpuid 7 112 4 1 0 0 demo = Done (- EINVAL) demo) /\
  (magic demo 112 <> RT_TASK_MAGIC -> 0 = 0 -> 0 <= 4 -> 7 = 0 ->
     rt_task_init_cpuid 7 112 4 1 0 0 demo = Done (- ENOMEM) demo) /\
  (magic demo 112 <> RT_TASK_MAGIC -> 0 = 0 -> 0 <= 4 -> 7 <> 0 ->
   (wdog_task demo = 0 \/ 0 < 4) ->
     exists s', rt_task_init_cpuid 7 112 4 1 0 0 demo = Done 0 s' /\
       magic s' 112 = RT_TASK_MAGIC /\ state s' 112 = Z.lor SUSPENDED READY /\
       suspdepth s' 112 = 1 /\ priority s' 112 = 4 /\ base_priority s' 112 = 4 /\
       lnxtsk s' 112 = 0 /\ is_hard s' 112 = 1 /\ blocked_on s' 112 = QNull /\
       q_task s' (Queue 112) = 112 /\
       wait_queue s' (MsgQueue 112) [] /\ wait_queue s' (RetQueue 112) [] /\
       next s' (prev demo rt_linux_task) = 112 /\ prev s' 112 = prev demo rt_linux_task /\
       next s' 112 = 0 /\ prev s' rt_linux_task = 112 /\
       tasks_per_cpu s' = tasks_per_cpu demo + 1).
Proof. apply rt_task_init_creates; [by_eval|by_eval|split; by_eval|split; by_eval]. Defined.

Lemma count_nano_roundtrip_witness :
  nano2count (demo <| oneshot_timer := 1 |> <| cpu_freq := 400000001 |>)
    (count2nano (demo <| oneshot_timer := 1 |> <| cpu_freq := 400000001 |>) (-12345)) = -12345.
Proof. apply count_nano_roundtrip; [split; by_eval|by_eval]. Defined.
