(* ===== verification/SchedTimer.v ===== *)
(** SchedTimer: the start and the stop of the hardware timer.

    The section on timer modes of [newlxrt/scheduler/rtai_sched.c] for one
    processor, and [rt_busy_sleep].  The requests to the hardware are events;
    the times that the hardware abstraction layer sets up when the timer is
    requested ([rt_times]) and the largest tick of the chip ([LATCH]) are
    arguments. *)

From S2P Require Import Prelude Resume DList SchedState SchedQueues Schedule SchedTask.

(** [struct rt_times], as the abstraction layer leaves it. *)
Record TIMES : Type := mkTIMES {
  hal_linux_tick : Z;
  hal_tick_time : Z;
  hal_intr_time : Z;
  hal_linux_time : Z;
  hal_periodic_tick : Z
}.

Definition TIMER_8254_IRQ : Z := 0.

(** [while (rdtsc() < end_time);] *)
Definition rt_busy_sleep (ns : Z) : K unit := emit (BusySleep ns).

Definition rt_is_hard_timer_running (s : RTAI) : Z := if nz (rt_time_h s) then 1 else 0.

Definition stop_rt_timer : K unit :=
  emit (FreeLinuxIrq TIMER_8254_IRQ);;
  emit FreeTimer;;
  wg oneshot_running 0;;
  wg oneshot_timer 0;;
  rt_busy_sleep 10000000.

Definition rt_set_periodic_mode : K unit :=
  stop_rt_timer;;
  wg oneshot_running 0;;
  wg oneshot_timer 0.

Definition rt_set_oneshot_mode : K unit :=
  stop_rt_timer;;
  wg oneshot_timer 1.

(** What Linux gets of the interrupts of its timer. *)
Definition recover_jiffies : K unit :=
  s ← get;
  when (tick_time s >=? linux_time s)
    (wg linux_time (i64 (linux_time s + linux_tick s));;
     emit (PendLinuxIrq TIMER_8254_IRQ)).

Section Start.
Context (LATCH : Z) (request : Z -> TIMES).

(** [(x + 1) >> 1] *)
Definition half (x : Z) : Z := Z.shiftr (i32 (x + 1)) 1.

Definition start_rt_timer (period : Z) : K Z :=
  s ← get;
  (if nz (oneshot_timer s) then
     emit (RequestTimer 0);;
     wg rt_half_tick (half (tuned_latency s));;
     wg shot_fired 1;;
     wg oneshot_running 1
   else
     let tick := if period >? LATCH then LATCH else period in
     emit (RequestTimer tick);;
     wg rt_half_tick (half (hal_periodic_tick (request tick))));;
  let times := request (if nz (oneshot_timer s) then 0 else if period >? LATCH then LATCH else period) in
  wg linux_tick (hal_linux_tick times);;
  wg tick_time (hal_tick_time times);;
  wg intr_time (hal_intr_time times);;
  wg linux_time (hal_linux_time times);;
  wg periodic_tick (hal_periodic_tick times);;
  s ← get;
  wg rt_time_h (i64 (hal_tick_time times + rt_half_tick s));;
  emit (RequestLinuxIrq TIMER_8254_IRQ);;
  mret period.

(** [setup_mode[0]] is [mode] and [count]. *)
Definition start_rt_apic_timers (mode count : Z) : K unit :=
  s ← get;
  if mode =? 1 then
    let period := if count <? 2000000000 then count else 2000000000 in
    _ ← start_rt_timer (i32 (nano2count s period)); mret tt
  else
    rt_set_oneshot_mode;;
    _ ← start_rt_timer 0; mret tt.
End Start.

(** * Properties *)

Section TimerLemmas.
Context (LATCH : Z) (request : Z -> TIMES).
Implicit Types (s : RTAI) (period : Z).

(** The tick that is asked of the hardware: 0 for a single shot. *)
Definition tick_asked s period : Z := if nz (oneshot_timer s) then 0 else Z.min period LATCH.

(** The timer has been started with the tick [tick] and the half tick [h]. *)
Definition started s tick h s' : Prop :=
  log s' = RequestLinuxIrq TIMER_8254_IRQ :: RequestTimer tick :: log s /\
  rt_half_tick s' = h /\ rt_time_h s' = i64 (hal_tick_time (request tick) + h) /\
  tick_time s' = hal_tick_time (request tick) /\ linux_time s' = hal_linux_time (request tick) /\
  intr_time s' = hal_intr_time (request tick) /\ oneshot_timer s' = oneshot_timer s.

Lemma min_tick period : (if period >? LATCH then LATCH else period) = Z.min period LATCH.
Proof. destruct (Z.gtb_spec period LATCH); lia. Qed.

Lemma start_rt_timer_spec s period :
  exists s', start_rt_timer LATCH request period s = Done period s' /\
    started s (tick_asked s period)
      (half (if nz (oneshot_timer s) then tuned_latency s else hal_periodic_tick (request (tick_asked s period)))) s' /\
    oneshot_running s' = (if nz (oneshot_timer s) then 1 else oneshot_running s).
Proof.
  unfold start_rt_timer, started, tick_asked, emit. run_m. rewrite min_tick.
  destruct (nz (oneshot_timer s)) eqn:E; run_m; eexists; (split; [reflexivity|]); state_simpl; by split_and!.
Qed.
End TimerLemmas.

(** The timer is started in the mode that was set: after
    [rt_set_oneshot_mode] with a single shot, after [rt_set_periodic_mode] with
    the period, but at most [LATCH]; the first release is due half a tick after
    the time of the hardware. *)
Theorem timer_starts_in_mode LATCH request s period :
  exists s1 s2, (rt_set_oneshot_mode;; start_rt_timer LATCH request period) s = Done period s1 /\
    (rt_set_periodic_mode;; start_rt_timer LATCH request period) s = Done period s2 /\
    oneshot_running s1 = 1 /\ oneshot_running s2 = 0 /\
    head (tail (log s1)) = Some (RequestTimer 0) /\
    head (tail (log s2)) = Some (RequestTimer (Z.min period LATCH)) /\
    rt_time_h s1 = i64 (hal_tick_time (request 0) + half (tuned_latency s)) /\
    rt_time_h s2 = i64 (hal_tick_time (request (Z.min period LATCH)) + half (hal_periodic_tick (request (Z.min period LATCH)))).
Proof.
  unfold rt_set_oneshot_mode, rt_set_periodic_mode, stop_rt_timer, rt_busy_sleep, emit. run_m.
  match goal with |- exists s1 s2, start_rt_timer _ _ _ ?x = _ /\ start_rt_timer _ _ _ ?y = _ /\ _ => set (a := x); set (b := y) end.
  assert (Ea : oneshot_timer a = 1 /\ tuned_latency a = tuned_latency s) by (unfold a; state_simpl; done).
  assert (Eb : oneshot_timer b = 0 /\ oneshot_running b = 0) by (unfold b; state_simpl; done).
  destruct Ea as [Ea Ea'], Eb as [Eb Eb'].
  destruct (start_rt_timer_spec LATCH request a period) as (s1 & -> & (L1 & _ & H1 & _ & _ & _ & _) & R1).
  destruct (start_rt_timer_spec LATCH request b period) as (s2 & -> & (L2 & _ & H2 & _ & _ & _ & _) & R2).
  exists s1, s2. rewrite L1, L2, H1, H2, R1, R2. unfold tick_asked. rewrite Ea, Ea', Eb, Eb'. cbn [nz Z.eqb negb head tail].
  by split_and!.
Qed.

(** A timer that was stopped still counts as running, and the mode that was
    set is lost: the next start is periodic. *)
Theorem timer_stopped_runs LATCH request s period :
  exists s1 s2, start_rt_timer LATCH request period s = Done period s1 /\ stop_rt_timer s1 = Done tt s2 /\
    rt_is_hard_timer_running s2 = rt_is_hard_timer_running s1 /\
    exists s3, start_rt_timer LATCH request period s2 = Done period s3 /\
      head (tail (log s3)) = Some (RequestTimer (Z.min period LATCH)).
Proof.
  destruct (start_rt_timer_spec LATCH request s period) as (s1 & -> & _ & _). exists s1. unfold stop_rt_timer, rt_busy_sleep, emit. run_m.
  eexists. split; [reflexivity|]. split; [reflexivity|]. split; [unfold rt_is_hard_timer_running; by state_simpl|].
  match goal with |- exists s3, start_rt_timer _ _ _ ?x = _ /\ _ => set (b := x) end.
  assert (Eb : oneshot_timer b = 0) by (unfold b; state_simpl; done).
  destruct (start_rt_timer_spec LATCH request b period) as (s3 & -> & (L & _) & _). exists s3. rewrite L.
  unfold tick_asked. by rewrite Eb.
Qed.

(** A periodic timer that is asked of [start_rt_apic_timers] while the one
    shot mode is set is a one shot timer. *)
Theorem apic_periodic_is_oneshot LATCH request s count :
  nz (oneshot_timer s) = true ->
  exists s', start_rt_apic_timers LATCH request 1 count s = Done tt s' /\
    oneshot_running s' = 1 /\ oneshot_timer s' = oneshot_timer s /\
    log s' = RequestLinuxIrq TIMER_8254_IRQ :: RequestTimer 0 :: log s.
Proof.
  intros Ho. unfold start_rt_apic_timers. run_m. cbn [Z.eqb Pos.eqb]. run_m.
  destruct (start_rt_timer_spec LATCH request s (i32 (nano2count s (if count <? 2000000000 then count else 2000000000))))
    as (s' & -> & (L & _ & _ & _ & _ & _ & E) & R).
  exists s'. rewrite L, R, E. unfold tick_asked. by rewrite Ho.
Qed.

Lemma apic_periodic_is_oneshot_witness :
  exists s', start_rt_apic_timers 11932 (fun t => mkTIMES t 0 t t t) 1 1000000 (rtai_zero <| oneshot_timer := 1 |>) = Done tt s' /\
    oneshot_running s' = 1 /\ oneshot_timer s' = 1 /\ log s' = [RequestLinuxIrq TIMER_8254_IRQ; RequestTimer 0].
Proof.
  destruct (apic_periodic_is_oneshot 11932 (fun t => mkTIMES t 0 t t t) (rtai_zero <| oneshot_timer := 1 |>) 1000000)
    as (s' & E & H1 & H2 & H3); [reflexivity|]. exists s'. split; [exact E|]. split; [exact H1|]. by rewrite H2, H3.
Defined.
