(* ===== verification/SchedSem.v ===== *)
(** SchedSem: semaphores.

    Counting, binary and resource semaphores: the section SEMAPHORES of
    [newlxrt/scheduler/rtai_sched.c].  The type of a semaphore is negative if
    binary, zero if counting, positive if it is a resource, and then one more
    than the times its owner locked it again. *)

From S2P Require Import Prelude Resume DList SchedState SchedQueues Schedule SchedTask.

(** * Operations *)

Definition rt_typed_sem_init (sem : semp) (value type : Z) : K unit :=
  wr sem_magic sem RT_SEM_MAGIC;;
  wr sem_count sem value;;
  wr sem_qtype sem (if negb (type =? RES_SEM) && nz (Z.land type FIFO_Q) then 1 else 0);;
  let type := Z.land type 3 - 2 in
  wr sem_type sem type;;
  (if (type <? 0) && (value >? 1) then wr sem_count sem 1
   else when (type >? 0) (wr sem_count sem 1;; wr sem_type sem 1));;
  wr q_prev (SemQueue sem) (SemQueue sem);;
  wr q_next (SemQueue sem) (SemQueue sem);;
  wr sem_owndby sem 0;;
  wr q_task (SemQueue sem) 0.

Definition rt_sem_init (sem : semp) (value : Z) : K unit := rt_typed_sem_init sem value CNT_SEM.

(** [if (task->state != READY && (task->state &= ~mask) == READY)
    enq_ready_task(task);] and whether the task was made ready. *)
Definition make_ready (task mask : Z) : K bool :=
  s ← get;
  if negb (state s task =? READY) then
    wr state task (clr (state s task) mask);;
    s ← get;
    if state s task =? READY then enq_ready_task task;; mret true else mret false
  else mret false.

(** [--task->owndres] for a resource, then the priority the task falls back
    to: its base priority, or that of the first task whose message it has not
    received, or, when it owns other resources, none. *)
Definition drop_resource (task : Z) : K unit :=
  s ← get;
  when (nz (Z.land (owndres s task) SEMHLF)) (wr owndres task (i32 (owndres s task - 1))).

Definition fallback_prio (s : RTAI) (task : Z) : option Z :=
  if negb (nz (owndres s task)) then Some (base_priority s task)
  else if negb (nz (Z.land (owndres s task) SEMHLF)) then
    let priority_ := priority s (q_task s (q_next s (MsgQueue task))) in
    Some (if base_priority s task >? priority_ then priority_ else base_priority s task)
  else None.

(** The end of the ownership of the running task. *)
Definition release_current (rt_current : Z) : K Z :=
  drop_resource rt_current;;
  s ← get;
  sched ← match fallback_prio s rt_current with
          | Some p => renq_current rt_current p
          | None => mret 0
          end;
  s ← get;
  if nz (suspdepth s rt_current) then
    if suspdepth s rt_current >? 0 then
      wr state rt_current (Z.lor (state s rt_current) SUSPENDED);;
      rem_ready_current rt_current;;
      mret 1
    else rt_task_delete rt_current;; mret sched
  else mret sched.

(** The end of the ownership of any task; note that a task that must suspend
    is out of [READY] when [rem_ready_task] tests it. *)
Definition release_owner (task : Z) : K Z :=
  drop_resource task;;
  s ← get;
  sched ← match fallback_prio s task with
          | Some p => renq_ready_task task p
          | None => mret 0
          end;
  s ← get;
  if nz (suspdepth s task) then
    if suspdepth s task >? 0 then
      wr state task (Z.lor (state s task) SUSPENDED);;
      rem_ready_task task;;
      mret 1
    else rt_task_delete task;; mret sched
  else mret sched.

(** The loop of [rt_sem_delete] on the waiting tasks. *)
Fixpoint sem_delete_loop (fuel : nat) (sem : semp) (q : qptr) : K unit :=
  s ← get;
  let q := q_next s q in
  let task := q_task s q in
  if bool_decide (q = SemQueue sem) || negb (nz task) then mret tt
  else match fuel with
       | O => stuck
       | S fuel' =>
           rem_timed_task task;;
           _ ← make_ready task (Z.lor SEMAPHORE DELAYED);
           sem_delete_loop fuel' sem q
       end.

Definition rt_sem_delete (sem : semp) : K Z :=
  s ← get;
  if negb (sem_magic s sem =? RT_SEM_MAGIC) then mret SEM_ERR
  else
    wr sem_magic sem 0;;
    sem_delete_loop LIST_FUEL sem (SemQueue sem);;
    s ← get;
    let task := sem_owndby s sem in
    (if nz task && (sem_type s sem >? 0) then
       sched ← release_owner task;
       when (nz sched) rt_schedule
     else rt_schedule);;
    mret 0.

Definition rt_sem_count (s : RTAI) (sem : semp) : Z := sem_count s sem.

(** The count after a signal. *)
Definition sem_post (sem : semp) : K unit :=
  s ← get;
  if nz (sem_type s sem) then
    wr sem_count sem (i32 (sem_count s sem + 1));;
    s ← get;
    when (sem_count s sem >? 1) (wr sem_count sem 1)
  else wr sem_count sem (i32 (sem_count s sem + 1)).

(** The label [res] of [rt_sem_signal]. *)
Definition sem_signal_res (sem : semp) (tosched : bool) : K unit :=
  s ← get;
  when (sem_type s sem >? 0)
    (wr sem_owndby sem 0;;
     sched ← release_current (rt_smp_current s);
     if nz sched then rt_schedule else when tosched rt_schedule).

Definition rt_sem_signal (sem : semp) : K Z :=
  s ← get;
  if negb (sem_magic s sem =? RT_SEM_MAGIC) then mret SEM_ERR
  else if sem_type s sem >? 1 then wr sem_type sem (sem_type s sem - 1);; mret 0
  else
    sem_post sem;;
    s ← get;
    let task := q_task s (q_next s (SemQueue sem)) in
    (if nz task then
       dequeue_blocked task;;
       rem_timed_task task;;
       ready ← make_ready task (Z.lor SEMAPHORE DELAYED);
       s ← get;
       if (ready : bool) then
         if sem_type s sem <=? 0 then rt_schedule else sem_signal_res sem true
       else sem_signal_res sem false
     else sem_signal_res sem false);;
    mret 0.

(** The loop of [rt_sem_broadcast]; the result is the map of the processors to
    schedule. *)
Fixpoint sem_broadcast_loop (fuel : nat) (sem : semp) (q : qptr) (schedmap : Z) : K Z :=
  s ← get;
  let q := q_next s q in
  if bool_decide (q = SemQueue sem) then mret schedmap
  else match fuel with
       | O => stuck
       | S fuel' =>
           let task := q_task s q in
           dequeue_blocked task;;
           rem_timed_task task;;
           ready ← make_ready task (Z.lor SEMAPHORE DELAYED);
           s ← get;
           sem_broadcast_loop fuel' sem q
             (if (ready : bool) then Z.lor schedmap (Z.shiftl 1 (runnable_on_cpus s task))
              else schedmap)
       end.

Definition rt_sem_broadcast (sem : semp) : K Z :=
  s ← get;
  if negb (sem_magic s sem =? RT_SEM_MAGIC) then mret SEM_ERR
  else
    schedmap ← sem_broadcast_loop LIST_FUEL sem (SemQueue sem) 0;
    wr sem_count sem 0;;
    wr q_next (SemQueue sem) (SemQueue sem);;
    wr q_prev (SemQueue sem) (SemQueue sem);;
    when (nz schedmap) rt_schedule;;
    mret 0.

(** [(sem->owndby = task)->owndres++], for a resource. *)
Definition sem_own (sem : semp) (task : Z) : K unit :=
  s ← get;
  when (sem_type s sem >? 0)
    (wr sem_owndby sem task;;
     wr owndres task (i32 (owndres s task + 1))).

Definition rt_sem_wait (sem : semp) : K Z :=
  s ← get;
  if negb (sem_magic s sem =? RT_SEM_MAGIC) then mret SEM_ERR
  else
    let rt_current := rt_smp_current s in
    let count := sem_count s sem in
    if count <=? 0 then
      if (sem_type s sem >? 0) && (sem_owndby s sem =? rt_current) then
        wr sem_type sem (i32 (sem_type s sem + 1));; mret count
      else
        when (sem_type s sem >? 0) (_ ← pass_prio (sem_owndby s sem) rt_current; mret tt);;
        s ← get;
        wr sem_count sem (i32 (sem_count s sem - 1));;
        wr state rt_current (Z.lor (state s rt_current) SEMAPHORE);;
        rem_ready_current rt_current;;
        enqueue_blocked rt_current (SemQueue sem) (sem_qtype s sem);;
        rt_schedule;;
        s ← get;
        if negb (bool_decide (blocked_on s rt_current = QNull)) ||
           negb (sem_magic s sem =? RT_SEM_MAGIC) then
          wr prio_passed_to rt_current NOTHING;; mret SEM_ERR
        else sem_own sem rt_current;; mret (sem_count s sem)
    else
      wr sem_count sem (count - 1);;
      sem_own sem rt_current;;
      mret count.

Definition rt_sem_wait_if (sem : semp) : K Z :=
  s ← get;
  if negb (sem_magic s sem =? RT_SEM_MAGIC) then mret SEM_ERR
  else
    let count := sem_count s sem in
    if count <=? 0 then
      if (sem_type s sem >? 0) && (sem_owndby s sem =? RT_CURRENT s) then
        wr sem_type sem (i32 (sem_type s sem + 1));; mret 0
      else mret count
    else
      wr sem_count sem (count - 1);;
      sem_own sem (RT_CURRENT s);;
      mret count.

Definition rt_sem_wait_until (sem : semp) (time : Z) : K Z :=
  s ← get;
  if negb (sem_magic s sem =? RT_SEM_MAGIC) then mret SEM_ERR
  else
    let rt_current := rt_smp_current s in
    let count := sem_count s sem in
    if count <=? 0 then
      wr blocked_on rt_current (SemQueue sem);;
      wr resume_time rt_current time;;
      if (time >? rt_time_h s) && (sem_type s sem >? 0) && (sem_owndby s sem =? rt_current) then
        wr sem_type sem (i32 (sem_type s sem + 1));; mret 0
      else
        (if time >? rt_time_h s then
           when (sem_type s sem >? 0) (_ ← pass_prio (sem_owndby s sem) rt_current; mret tt);;
           s ← get;
           wr sem_count sem (i32 (sem_count s sem - 1));;
           wr state rt_current (Z.lor (state s rt_current) (Z.lor SEMAPHORE DELAYED));;
           rem_ready_current rt_current;;
           enqueue_blocked rt_current (SemQueue sem) (sem_qtype s sem);;
           enq_timed_task rt_current;;
           rt_schedule
         else
           wr sem_count sem (i32 (count - 1));;
           wr q_next (Queue rt_current) (Queue rt_current);;
           wr q_prev (Queue rt_current) (Queue rt_current));;
        s ← get;
        if negb (sem_magic s sem =? RT_SEM_MAGIC) then
          wr prio_passed_to rt_current NOTHING;; mret SEM_ERR
        else if negb (bool_decide (blocked_on s rt_current = QNull)) then
          dequeue_blocked rt_current;;
          s ← get;
          wr sem_count sem (i32 (sem_count s sem + 1));;
          s ← get;
          when ((sem_count s sem >? 1) && nz (sem_type s sem)) (wr sem_count sem 1);;
          mret SEM_TIMOUT
        else sem_own sem rt_current;; mret (sem_count s sem)
    else
      wr sem_count sem (count - 1);;
      sem_own sem rt_current;;
      mret count.

Definition rt_sem_wait_timed (sem : semp) (delay : Z) : K Z :=
  s ← get;
  rt_sem_wait_until sem (i64 (get_time s + delay)).

(** A barrier keeps the number of its tasks in [owndby]. *)
Definition rt_sem_wait_barrier (sem : semp) : K Z :=
  s ← get;
  if negb (sem_magic s sem =? RT_SEM_MAGIC) then mret SEM_ERR
  else
    when (negb (nz (sem_owndby s sem)))
      (wr sem_owndby sem (if sem_count s sem <? 1 then 1 else sem_count s sem);;
       wr sem_type sem 0;;
       wr sem_count sem 0);;
    s ← get;
    (if i32 (1 - sem_count s sem) <? i32 (sem_owndby s sem) then rt_sem_wait sem
     else rt_sem_broadcast sem);;
    mret 0.

(** * Blocking and waking *)

Section SemLemmas.
Implicit Types (s : RTAI) (t c : Z) (sem : semp) (l W : list Z).

(** The count after [sem_post]: at most 1 unless the semaphore counts. *)
Definition posted (s : RTAI) (sem : semp) : Z :=
  if nz (sem_type s sem) then Z.min (sem_count s sem + 1) 1 else sem_count s sem + 1.

Lemma sem_post_eq s sem :
  in_i32 (sem_count s sem + 1) ->
  exists f, sem_post sem s = Done tt (s <| sem_count := f |>) /\
    forall x, f x = (<[sem := posted s sem]> (sem_count s)) x.
Proof.
  intros Hi. unfold sem_post, posted. step_m. rewrite i32_id by done.
  destruct (nz (sem_type s sem)); step_m; rewrite ?upd_eq.
  - rewrite Z.gtb_ltb. destruct (Z.ltb_spec 1 (sem_count s sem + 1)); step_m.
    + eexists. split; [reflexivity|]. intros x. rewrite Z.min_r by lia.  rewrite !upd_dec. state_simpl.
      case_decide as E; [done|]. by rewrite upd_ne.
    + eexists. split; [reflexivity|]. intros x. by rewrite Z.min_l by lia.
  - eexists. by split.
Qed.

(** The state in which the running task has blocked on [sem]. *)
Definition blocks s c sem s' : Prop :=
  exists P N QP QN, s' = s <| sem_count ::= <[sem := sem_count s sem - 1]> |>
    <| state ::= <[c := Z.lor (state s c) SEMAPHORE]> |> <| rprev := P |> <| rnext := N |>
    <| blocked_on ::= <[c := SemQueue sem]> |> <| q_prev := QP |> <| q_next := QN |>.

(** What [rt_sem_wait] does in the task [c] when it gets the processor back. *)
Definition woken_up c sem : K Z :=
  s ← get;
  if negb (bool_decide (blocked_on s c = QNull)) || negb (sem_magic s sem =? RT_SEM_MAGIC) then
    wr prio_passed_to c NOTHING;; mret SEM_ERR
  else sem_own sem c;; mret (sem_count s sem).

Lemma woken_up_spec s c sem :
  woken_up c sem s =
    if bool_decide (blocked_on s c = QNull) && (sem_magic s sem =? RT_SEM_MAGIC) then
      if sem_type s sem >? 0 then
        Done (sem_count s sem) (s <| sem_owndby ::= <[sem := c]> |> <| owndres ::= <[c := i32 (owndres s c + 1)]> |>)
      else Done (sem_count s sem) s
    else Done SEM_ERR (s <| prio_passed_to ::= <[c := NOTHING]> |>).
Proof.
  unfold woken_up. step_m. destruct (bool_decide _), (_ =? _); cbn [negb orb andb]; step_m; [|done..].
  unfold sem_own. step_m. by destruct (sem_type s sem >? 0).
Qed.

Lemma rt_sem_wait_blocks s c sem l1 l2 W :
  c = rt_smp_current s -> sem_magic s sem = RT_SEM_MAGIC -> in_i32 (sem_count s sem - 1) ->
  sem_count s sem <= 0 -> sem_type s sem <= 0 ->
  ready_list s (l1 ++ c :: l2) -> is_hard s c <> 0 ->
  wait_queue s (SemQueue sem) W -> fits W -> c ∉ W -> q_task s (Queue c) = c ->
  exists s', rt_sem_wait sem s = (rt_schedule;; woken_up c sem) s' /\ blocks s c sem s' /\
    ready_list s' (l1 ++ l2) /\
    wait_queue s' (SemQueue sem) (insert_blocked (priority s) (sem_qtype s sem) c W).
Proof.
  intros Hc Hm Hi Hcnt Hty Hr Hh Hw Hf Hcw Htt. unfold rt_sem_wait. step_m.
  rewrite <- Hc, Hm, Z.eqb_refl. step_m. rewrite (proj2 (Z.leb_le _ _) Hcnt).
  rewrite Z.gtb_ltb, (proj2 (Z.ltb_ge _ _) Hty). step_m. rewrite i32_id by done.
  set (s1 := s <| sem_count ::= _ |> <| state ::= _ |>).
  assert (Hr1 : ready_list s1 (l1 ++ c :: l2)) by (unfold s1, ready_list; state_simpl; exact Hr).
  destruct (rem_ready_current_spec s1 c l1 l2) as (s2 & -> & (P & N & F2) & R2);
    [done|unfold s1; state_simpl; exact Hh|].
  cbn [bind_out].
  destruct (enqueue_blocked_eq s2 c (SemQueue sem) (sem_qtype s sem) W)
    as (s3 & -> & W3 & (QP & QN & F3 & _)); [|done|done|done|..].
  { apply (wait_queue_frame s); [done|rewrite F2; unfold s1; state_simpl; reflexivity..]. }
  { rewrite F2. unfold s1. state_simpl. exact Htt. }
  cbn [bind_out]. exists s3. split; [unfold woken_up, sem_own; step_m; reflexivity|].
  assert (Epr : priority s2 = priority s) by (rewrite F2; unfold s1; state_simpl; reflexivity).
  split_and!.
  - exists P, N, QP, QN. rewrite F3, F2. reflexivity.
  - rewrite F3. unfold ready_list in *. state_simpl. exact R2.
  - rewrite Epr in W3. exact W3.
Qed.

(** The first waiting task, as the head of the queue gives it. *)
Lemma wait_queue_head s q W :
  wait_queue s q W -> q_task s q = 0 -> q_task s (q_next s q) = hd 0 W.
Proof.
  intros [Hr Hq] H0. rewrite (ring_next _ _ _ _ Hr). destruct W as [|t W]; [done|].
  simpl. apply Hq. list_in.
Qed.

Lemma make_ready_spec s t mask l :
  state s t <> READY -> clr (state s t) mask = READY ->
  ready_list s l -> fits l -> t ∉ rt_linux_task :: l -> is_hard s t <> 0 ->
  priority s t < RT_LINUX_PRIORITY -> priority s rt_linux_task = RT_LINUX_PRIORITY ->
  lock_first (priority s) l ->
  exists P N, let s' := s <| state ::= <[t := READY]> |> <| rprev := P |> <| rnext := N |> in
    make_ready t mask s = Done true s' /\
    ready_list s' (insert_after (fun y => priority s y <=? priority s t) t l).
Proof.
  intros Hst Hclr Hr Hf Ht Hh Hp Hlx Hlf. unfold make_ready. step_m.
  rewrite (proj2 (Z.eqb_neq _ _) Hst). step_m. rewrite upd_eq, Hclr. cbn [Z.eqb Pos.eqb READY]. step_m.
  set (s1 := s <| state ::= _ |>).
  destruct (enq_ready_task_at s1 t l) as (s2 & -> & (P & N & ->) & R2);
    [unfold s1, ready_list in *; state_simpl; exact Hr|done|done|unfold s1; state_simpl; exact Hh
    |unfold s1; state_simpl; exact Hp|unfold s1; state_simpl; exact Hlx
    |unfold s1; state_simpl; exact Hlf|].
  exists P, N. split; [reflexivity|]. unfold s1, ready_list in *. state_simpl_in R2. state_simpl.
  exact R2.
Qed.

(** The state in which a signal of [sem] has woken its first waiting task. *)
Definition wakes_head s t sem s' : Prop :=
  exists f P N QP QN, s' = s <| sem_count := f |> <| prio_passed_to ::= <[t := NOTHING]> |>
    <| blocked_on ::= <[t := QNull]> |> <| q_prev := QP |> <| q_next := QN |>
    <| state ::= <[t := READY]> |> <| rprev := P |> <| rnext := N |> /\
    forall x, f x = (<[sem := posted s sem]> (sem_count s)) x.

Lemma rt_sem_signal_wakes s t sem W l :
  sem_magic s sem = RT_SEM_MAGIC -> in_i32 (sem_count s sem + 1) -> sem_type s sem <= 0 ->
  wait_queue s (SemQueue sem) (t :: W) -> q_task s (SemQueue sem) = 0 -> t <> 0 ->
  state s t = Z.lor READY SEMAPHORE ->
  ready_list s l -> fits l -> t ∉ rt_linux_task :: l -> is_hard s t <> 0 ->
  priority s t < RT_LINUX_PRIORITY -> priority s rt_linux_task = RT_LINUX_PRIORITY ->
  lock_first (priority s) l ->
  exists s', schedules (rt_sem_signal sem s) s' 0 /\ wakes_head s t sem s' /\
    wait_queue s' (SemQueue sem) W /\
    ready_list s' (insert_after (fun y => priority s y <=? priority s t) t l).
Proof.
  intros Hm Hi Hty Hw Hq0 Ht0 Hst Hr Hf Ht Hh Hp Hlx Hlf. unfold schedules, rt_sem_signal. step_m.
  rewrite Hm, Z.eqb_refl. step_m. rewrite Z.gtb_ltb, (proj2 (Z.ltb_ge _ _)) by lia.
  destruct (sem_post_eq s sem Hi) as (f & -> & Ef). cbn [bind_out]. step_m.
  rewrite (wait_queue_head _ _ _ Hw Hq0). cbn [hd]. rewrite (proj2 (nz_true _) Ht0).
  set (s1 := s <| sem_count := f |>).
  destruct (dequeue_blocked_eq s1 t (SemQueue sem) [] W) as (s2 & -> & W2 & (QP & QN & F2 & _));
    [by apply (wait_queue_frame s)|].
  cbn [bind_out app] in *.
  assert (Es2 : state s2 t = Z.lor READY SEMAPHORE) by (rewrite F2; unfold s1; state_simpl; exact Hst).
  rewrite rem_timed_task_not_delayed by (by rewrite Es2). cbn [bind_out].
  destruct (make_ready_spec s2 t (Z.lor SEMAPHORE DELAYED) l) as (P & N & E3 & R3);
    [rewrite Es2; done|by rewrite Es2|rewrite F2; unfold s1, ready_list in *; state_simpl; exact Hr
    |done|done|rewrite F2; unfold s1; state_simpl; exact Hh|rewrite F2; unfold s1; state_simpl; exact Hp
    |rewrite F2; unfold s1; state_simpl; exact Hlx|rewrite F2; unfold s1; state_simpl; exact Hlf|].
  rewrite E3. cbn [bind_out]. step_m.
  assert (Ety : sem_type s2 sem = sem_type s sem) by (rewrite F2; unfold s1; state_simpl; reflexivity).
  assert (Epr : priority s2 = priority s) by (rewrite F2; unfold s1; state_simpl; reflexivity).
  rewrite Ety, (proj2 (Z.leb_le _ _) Hty). rewrite Epr in R3.
  eexists. split; [reflexivity|]. split_and!; [|by apply (wait_queue_frame s2)|exact R3].
  exists f, P, N, QP, QN. split; [rewrite F2; reflexivity|exact Ef].
Qed.
End SemLemmas.

(** * Properties *)

(** The tasks waiting for a counting or binary semaphore, and its count. *)
Definition sem_inv (s : RTAI) (sem : semp) (W : list Z) : Prop :=
  sem_magic s sem = RT_SEM_MAGIC /\ sem_type s sem <= 0 /\
  wait_queue s (SemQueue sem) W /\ q_task s (SemQueue sem) = 0 /\
  (W = [] -> 0 <= sem_count s sem) /\
  (W <> [] -> sem_count s sem = - Z.of_nat (length W)) /\
  (sem_type s sem <> 0 -> sem_count s sem <= 1).

(** The running task can block on [sem], of which [W] wait, and leave the ready
    list with [l]. *)
Definition can_block (s : RTAI) (sem : semp) (W l : list Z) : Prop :=
  exists l1 l2, let c := rt_smp_current s in
    l = l1 ++ l2 /\ ready_list s (l1 ++ c :: l2) /\ is_hard s c <> 0 /\ fits W /\ c ∉ W /\ q_task s (Queue c) = c.

(** A task that waits for [sem] only can enter the ready list [l]. *)
Definition can_resume (s : RTAI) (t : Z) (l : list Z) : Prop :=
  t <> 0 /\ state s t = Z.lor READY SEMAPHORE /\ ready_list s l /\ fits l /\
  t ∉ rt_linux_task :: l /\ is_hard s t <> 0 /\ priority s t < RT_LINUX_PRIORITY /\
  priority s rt_linux_task = RT_LINUX_PRIORITY /\ lock_first (priority s) l.

(** A task that waits for a semaphore without a unit left leaves the ready
    list and takes its place in the queue of the semaphore, the count tells
    that one more waits, and the scheduler is called. *)
Theorem rt_sem_wait_queues s sem l1 l2 W :
  let c := rt_smp_current s in
  sem_magic s sem = RT_SEM_MAGIC -> in_i32 (sem_count s sem - 1) ->
  sem_count s sem <= 0 -> sem_type s sem <= 0 ->
  ready_list s (l1 ++ c :: l2) -> is_hard s c <> 0 ->
  wait_queue s (SemQueue sem) W -> fits W -> c ∉ W -> q_task s (Queue c) = c ->
  exists s', rt_sem_wait sem s = (rt_schedule;; woken_up c sem) s' /\
    ready_list s' (l1 ++ l2) /\
    wait_queue s' (SemQueue sem) (insert_blocked (priority s) (sem_qtype s sem) c W) /\
    sem_count s' sem = sem_count s sem - 1 /\ state s' c = Z.lor (state s c) SEMAPHORE /\
    blocked_on s' c = SemQueue sem.
Proof.
  intros c Hm Hi Hcnt Hty Hr Hh Hw Hf Hcw Htt.
  destruct (rt_sem_wait_blocks s c sem l1 l2 W) as
    (s' & E & (P & N & QP & QN & F) & R & W'); [done..|].
  exists s'. split_and!; [done..| | |]; rewrite F; state_simpl; apply upd_eq.
Qed.

(** A signal gives the unit to the first waiting task: it leaves the
    queue, waits for nothing, is ready behind the tasks of its priority, and
    the scheduler is called. *)
Theorem rt_sem_signal_head s t sem W l :
  sem_magic s sem = RT_SEM_MAGIC -> in_i32 (sem_count s sem + 1) -> sem_type s sem <= 0 ->
  wait_queue s (SemQueue sem) (t :: W) -> q_task s (SemQueue sem) = 0 -> t <> 0 ->
  state s t = Z.lor READY SEMAPHORE ->
  ready_list s l -> fits l -> t ∉ rt_linux_task :: l -> is_hard s t <> 0 ->
  priority s t < RT_LINUX_PRIORITY -> priority s rt_linux_task = RT_LINUX_PRIORITY ->
  lock_first (priority s) l ->
  exists s', schedules (rt_sem_signal sem s) s' 0 /\ wait_queue s' (SemQueue sem) W /\
    ready_list s' (insert_after (fun y => priority s y <=? priority s t) t l) /\
    state s' t = READY /\ blocked_on s' t = QNull /\ sem_count s' sem = posted s sem.
Proof.
  intros Hm Hi Hty Hw Hq0 Ht0 Hst Hr Hf Ht Hh Hp Hlx Hlf.
  destruct (rt_sem_signal_wakes s t sem W l) as
    (s' & E & (f & P & N & QP & QN & F & Ef) & W' & R); [done..|].
  exists s'. split_and!; [done..| | |]; rewrite F; state_simpl; rewrite ?upd_eq; [done..|].
  rewrite Ef. apply upd_eq.
Qed.


(** The cases without a waiting task, and [rt_sem_wait_if]. *)
Lemma rt_sem_wait_free s sem :
  sem_magic s sem = RT_SEM_MAGIC -> 0 < sem_count s sem -> sem_type s sem <= 0 ->
  let s' := s <| sem_count ::= <[sem := sem_count s sem - 1]> |> in
  rt_sem_wait sem s = Done (sem_count s sem) s' /\ rt_sem_wait_if sem s = Done (sem_count s sem) s'.
Proof.
  intros Hm Hc Hty s'. unfold rt_sem_wait, rt_sem_wait_if, sem_own. step_m.
  rewrite Hm, Z.eqb_refl. step_m. rewrite (proj2 (Z.leb_gt _ _) Hc). step_m.
  by rewrite !Z.gtb_ltb, (proj2 (Z.ltb_ge _ _) Hty).
Qed.

Lemma rt_sem_wait_if_busy s sem :
  sem_magic s sem = RT_SEM_MAGIC -> sem_count s sem <= 0 -> sem_type s sem <= 0 ->
  rt_sem_wait_if sem s = Done (sem_count s sem) s.
Proof.
  intros Hm Hc Hty. unfold rt_sem_wait_if. step_m. rewrite Hm, Z.eqb_refl. step_m.
  by rewrite (proj2 (Z.leb_le _ _) Hc), Z.gtb_ltb, (proj2 (Z.ltb_ge _ _) Hty).
Qed.

Lemma rt_sem_signal_free s sem :
  sem_magic s sem = RT_SEM_MAGIC -> in_i32 (sem_count s sem + 1) -> sem_type s sem <= 0 ->
  wait_queue s (SemQueue sem) [] -> q_task s (SemQueue sem) = 0 ->
  exists f, rt_sem_signal sem s = Done 0 (s <| sem_count := f |>) /\
    forall x, f x = (<[sem := posted s sem]> (sem_count s)) x.
Proof.
  intros Hm Hi Hty Hw Hq0. unfold rt_sem_signal. step_m.
  rewrite Hm, Z.eqb_refl. step_m. rewrite Z.gtb_ltb, (proj2 (Z.ltb_ge _ _)) by lia.
  destruct (sem_post_eq s sem Hi) as (f & -> & Ef). cbn [bind_out]. step_m.
  rewrite (wait_queue_head _ _ _ Hw Hq0). cbn [hd]. change (nz 0) with false.
  unfold sem_signal_res. step_m. rewrite Z.gtb_ltb, (proj2 (Z.ltb_ge _ _) Hty). by exists f.
Qed.

Lemma insert_blocked_length prio qt t l : length (insert_blocked prio qt t l) = S (length l).
Proof.
  destruct (insert_blocked_split prio qt t l) as (l1 & l2 & -> & ->). rewrite !length_app. simpl. lia.
Qed.

(** The invariant after a step that changed the count and the queue. *)
Lemma sem_inv_after s s' sem W :
  sem_magic s' = sem_magic s -> sem_type s' = sem_type s -> q_task s' = q_task s ->
  sem_magic s sem = RT_SEM_MAGIC -> sem_type s sem <= 0 -> q_task s (SemQueue sem) = 0 ->
  wait_queue s' (SemQueue sem) W ->
  (W = [] -> 0 <= sem_count s' sem) /\
  (W <> [] -> sem_count s' sem = - Z.of_nat (length W)) /\
  (sem_type s sem <> 0 -> sem_count s' sem <= 1) -> sem_inv s' sem W.
Proof. unfold sem_inv. intros -> -> -> ? ? ? ? (?&?&?). by split_and!. Qed.

(** The invariant after the three steps that change it. *)
Lemma sem_inv_taken s sem :
  sem_inv s sem [] -> 0 < sem_count s sem -> sem_inv (s <| sem_count ::= <[sem := sem_count s sem - 1]> |>) sem [].
Proof.
  intros (Hm & Hty & Hw & Hq0 & H0 & HW & Hb) Hp. unfold sem_inv. state_simpl. rewrite upd_eq.
  split_and!; [done|done|by apply (wait_queue_frame s)|done|lia|done|lia].
Qed.

Lemma sem_inv_blocked s s' c sem W :
  sem_inv s sem W -> sem_count s sem <= 0 -> blocks s c sem s' ->
  wait_queue s' (SemQueue sem) (insert_blocked (priority s) (sem_qtype s sem) c W) ->
  sem_inv s' sem (insert_blocked (priority s) (sem_qtype s sem) c W).
Proof.
  intros (Hm & Hty & Hw & Hq0 & H0 & HW & Hb) Hc (P & N & QP & QN & F) W'.
  eapply (sem_inv_after s s');
    [rewrite F; state_simpl; reflexivity|rewrite F; state_simpl; reflexivity|rewrite F; state_simpl; reflexivity
    |done|done|done|exact W'|].
  split_and!; rewrite F; state_simpl; rewrite upd_eq.
  - intros E0. apply (f_equal length) in E0. by rewrite insert_blocked_length in E0.
  - rewrite insert_blocked_length. intros _. destruct W as [|t W].
    + specialize (H0 eq_refl). cbn [length]. lia.
    + rewrite HW by done. cbn [length]. lia.
  - lia.
Qed.

Lemma sem_inv_woken s s' t sem W :
  sem_inv s sem (t :: W) -> wakes_head s t sem s' -> wait_queue s' (SemQueue sem) W -> sem_inv s' sem W.
Proof.
  intros (Hm & Hty & Hw & Hq0 & H0 & HW & Hb) (f & P & N & QP & QN & F & Ef) W'.
  eapply (sem_inv_after s s');
    [rewrite F; state_simpl; reflexivity|rewrite F; state_simpl; reflexivity|rewrite F; state_simpl; reflexivity
    |done|done|done|exact W'|].
  assert (Hp : posted s sem = sem_count s sem + 1).
  { unfold posted. rewrite HW by done. cbn [length]. destruct (nz _); lia. }
  specialize (HW ltac:(done)). cbn [length] in HW.
  split_and!; rewrite F; state_simpl; rewrite Ef, upd_eq, Hp; destruct W; cbn [length] in *; intros; first [done | lia].
Qed.

Lemma sem_inv_posted s sem f :
  sem_inv s sem [] -> (forall x, f x = (<[sem := posted s sem]> (sem_count s)) x) ->
  sem_inv (s <| sem_count := f |>) sem [].
Proof.
  intros (Hm & Hty & Hw & Hq0 & H0 & HW & Hb) Ef.
  eapply (sem_inv_after s);
    [state_simpl; reflexivity|state_simpl; reflexivity|state_simpl; reflexivity|done|done|done|by apply (wait_queue_frame s)|].
  state_simpl. rewrite Ef, upd_eq. specialize (H0 eq_refl). unfold posted. destruct (nz (sem_type s sem)) eqn:En; bool_prop.
  - split_and!; [lia|done|lia].
  - split_and!; [lia|done|by rewrite En].
Qed.

Lemma sem_inv_count s sem W :
  sem_inv s sem W -> Z.of_nat (length W) < INT_MAX ->
  - INT_MAX <= sem_count s sem /\ (0 < sem_count s sem -> W = []).
Proof.
  intros (Hm & Hty & Hw & Hq0 & H0 & HW & Hb) Hl. unfold INT_MAX in *.
  destruct W as [|t W]; [specialize (H0 eq_refl); by split; [lia|]|]. rewrite HW by done. split; [lia|]. cbn [length]. lia.
Qed.

(** C18: the count of a semaphore that is not a resource and its queue [W]
    agree: the count is not negative if no task waits, otherwise minus the
    number of the waiting tasks; it never exceeds 1 if the semaphore is binary.
    Every service keeps them so.  With units left a wait takes one and returns
    the count.  Without one, [rt_sem_wait_if] returns and changes nothing;
    [rt_sem_wait] puts the task in the queue and out of the ready list,
    changes nothing but the count, the queue and the task's state, and calls
    the scheduler; resumed, it returns the count if a signal took it from the
    queue and the semaphore exists, else an error.  A signal counts the unit
    if no task waits; else it takes the first one from the queue and makes it
    ready at its priority, and calls the scheduler. *)
Theorem sem_inv_preserved s sem W :
  sem_inv s sem W -> Z.of_nat (length W) < INT_MAX -> sem_count s sem < INT_MAX ->
  let c := rt_smp_current s in
  (0 < sem_count s sem ->
     let s' := s <| sem_count ::= <[sem := sem_count s sem - 1]> |> in
     rt_sem_wait sem s = Done (sem_count s sem) s' /\ rt_sem_wait_if sem s = Done (sem_count s sem) s' /\ sem_inv s' sem W) /\
  (sem_count s sem <= 0 -> rt_sem_wait_if sem s = Done (sem_count s sem) s) /\
  (sem_count s sem <= 0 -> forall l, can_block s sem W l ->
     exists s', rt_sem_wait sem s = (rt_schedule;; woken_up c sem) s' /\ blocks s c sem s' /\
       sem_inv s' sem (insert_blocked (priority s) (sem_qtype s sem) c W) /\ ready_list s' l) /\
  (forall s2 W2, sem_inv s2 sem W2 ->
     exists s', woken_up c sem s2 = Done (if bool_decide (blocked_on s2 c = QNull) then sem_count s2 sem else SEM_ERR) s' /\
       sem_inv s' sem W2) /\
  (W = [] -> exists s', rt_sem_signal sem s = Done 0 s' /\ sem_count s' sem = posted s sem /\ sem_inv s' sem []) /\
  (forall t W' l, W = t :: W' -> can_resume s t l ->
     exists s', rt_sem_signal sem s = (rt_schedule;; mret 0) s' /\ wakes_head s t sem s' /\ sem_inv s' sem W' /\
       ready_list s' (insert_after (fun y => priority s y <=? priority s t) t l)).
Proof.
  intros Hs Hlen Hmax c. destruct (sem_inv_count s sem W Hs Hlen) as [Hmin Hpos].
  assert (Hi : in_i32 (sem_count s sem + 1)) by (unfold in_i32, INT_MIN, INT_MAX in *; lia).
  pose proof Hs as (Hm & Hty & Hw & Hq0 & _).
  split; [|split; [|split; [|split; [|split]]]].
  - intros Hc. pose proof (Hpos Hc) as ->. destruct (rt_sem_wait_free s sem Hm Hc Hty) as [E1 E2].
    split; [exact E1|]. split; [exact E2|]. by apply sem_inv_taken.
  - intros Hc. by apply rt_sem_wait_if_busy.
  - intros Hc l (l1 & l2 & -> & Hr & Hh & Hf & Hcw & Htt).
    destruct (rt_sem_wait_blocks s c sem l1 l2 W) as (s' & E & B & R & W');
      [done|done|unfold in_i32, INT_MIN, INT_MAX in *; lia|done..|].
    exists s'. split; [exact E|]. split; [exact B|]. split; [by apply (sem_inv_blocked s)|exact R].
  - intros s2 W2 Hs2. pose proof Hs2 as (Hm2 & Hty2 & Hw2 & _). rewrite woken_up_spec, Hm2, Z.eqb_refl, andb_true_r.
    rewrite Z.gtb_ltb, (proj2 (Z.ltb_ge _ _) Hty2). destruct (bool_decide _); (eexists; split; [reflexivity|]); [done|].
    destruct Hs2 as (A1 & A2 & A3 & A4). split; [exact A1|]. split; [exact A2|]. split; [|exact A4]. by apply (wait_queue_frame s2).
  - intros ->. destruct (rt_sem_signal_free s sem) as (f & E & Ef); [done..|].
    eexists. split; [exact E|]. split; [state_simpl; rewrite Ef; apply upd_eq|]. by apply sem_inv_posted.
  - intros t W' l -> (A1 & A2 & A3 & A4 & A5 & A6 & A7 & A8 & A9).
    destruct (rt_sem_signal_wakes s t sem W' l) as (s' & E & B & Q & R); [done..|].
    exists s'. split; [exact E|]. split; [exact B|]. split; [by apply (sem_inv_woken s s' t)|exact R].
Qed.

(** A wait that cannot wait, because its time has come, gives the unit it
    took back: count and queue of the semaphore are as before, the task stays
    ready and waits for nothing. *)
Theorem rt_sem_wait_until_expired s sem time W :
  let c := rt_smp_current s in
  sem_magic s sem = RT_SEM_MAGIC -> in_i32 (sem_count s sem - 1) ->
  sem_count s sem <= 0 -> time <= rt_time_h s ->
  wait_queue s (SemQueue sem) W -> c ∉ W ->
  exists s', rt_sem_wait_until sem time s = Done SEM_TIMOUT s' /\
    sem_count s' sem = sem_count s sem /\ wait_queue s' (SemQueue sem) W /\
    blocked_on s' c = QNull /\ state s' = state s /\ rnext s' = rnext s /\ rprev s' = rprev s /\
    tnext s' = tnext s /\ tprev s' = tprev s.
Proof.
  intros c Hm Hi Hcnt Ht Hw Hc. unfold rt_sem_wait_until, dequeue_blocked, qunlink. step_m.
  rewrite Hm, Z.eqb_refl. step_m. rewrite (proj2 (Z.leb_le _ _) Hcnt). fold c. step_m.
  rewrite Z.gtb_ltb, (proj2 (Z.ltb_ge _ _) Ht). step_m. fold c.
  rewrite Hm, Z.eqb_refl, upd_eq. step_m.
  rewrite bool_decide_false by (state_simpl; by rewrite upd_eq). step_m. rewrite !upd_eq.
  rewrite (i32_id (sem_count s sem - 1)) by done.
  replace (sem_count s sem - 1 + 1) with (sem_count s sem) by lia.
  unfold in_i32, INT_MIN, INT_MAX in Hi. rewrite i32_id by (unfold in_i32, INT_MIN, INT_MAX; lia).
  rewrite Z.gtb_ltb, (proj2 (Z.ltb_ge _ _)) by lia. step_m.
  eexists. split; [reflexivity|]. state_simpl. rewrite !upd_eq. split_and!; try done.
  destruct Hw as [Hr Hq]. split; [|by state_simpl].
  state_simpl.
  assert (Hn : forall y, y ∈ SemQueue sem :: (Queue <$> W) -> Queue c <> y).
  { intros y [->|Hy]%elem_of_cons; [done|]. intros <-. by rewrite elem_of_Queue in Hy. }
  revert Hr. apply ring_frame; intros y Hy; rewrite !upd_ne; auto.
Qed.

(** An element of a wait queue moved to the place of a priority. *)
Lemma requeue_blocked_spec s t prio q W1 W2 :
  blocked_on s t = q -> wait_queue s q (W1 ++ t :: W2) -> fits (W1 ++ t :: W2) ->
  exists QP QN, let s' := s <| q_prev := QP |> <| q_next := QN |> in
    requeue_blocked t prio s = Done tt s' /\
    wait_queue s' q (insert_after (fun y => priority s y <=? prio) t (W1 ++ W2)).
Proof.
  intros Hb Hw Hf. unfold requeue_blocked. step_m. rewrite Hb.
  destruct (qunlink_spec s q t W1 W2 Hw) as (s1 & -> & (QP & QN & -> & _) & W1').
  step_m. set (s1 := s <| q_prev := QP |> <| q_next := QN |>) in *.
  rewrite (queue_walk_spec s1 q prio (W1 ++ W2)) by (done || by eapply fits_middle). cbn [bind_out].
  change (priority s1) with (priority s).
  set (p := fun y => priority s y <=? prio). destruct Hw as [Hr Hq].
  rewrite fmap_app, fmap_cons in Hr. pose proof (ring_middle _ _ _ _ _ _ Hr) as (H1 & H2 & _).
  rewrite <- fmap_app, elem_of_Queue in H2.
  rewrite <- (take_drop_while p (W1 ++ W2)) in W1', H2.
  destruct (qlink_spec s1 q t _ _ W1' H2) as (s2 & E & (QP2 & QN2 & -> & _) & W2');
    [done|apply Hq; list_in|].
  exists QP2, QN2. split; [rewrite E; reflexivity|exact W2'].
Qed.

(** One step of the inheritance: at a task that waits in a queue ordered by
    priority, at a ready task, and at the end of the chain. *)
Lemma pass_prio_waiting n s t p m q W1 W2 :
  t <> 0 -> p < priority s t -> state s t <> READY -> in_prio_queue s t = true ->
  blocked_on s t = q -> wait_queue s q (W1 ++ t :: W2) -> fits (W1 ++ t :: W2) ->
  exists QP QN, let s' := s <| priority ::= <[t := p]> |> <| q_prev := QP |> <| q_next := QN |> in
    pass_prio_loop (S n) t p m s = pass_prio_loop n (prio_passed_to s t) p m s' /\
    wait_queue s' q (insert_after (fun y => priority s y <=? p) t (W1 ++ W2)).
Proof.
  intros Ht Hp Hst Hin Hb Hw Hf. destruct (wait_queue_middle _ _ _ _ _ Hw) as [Htw _].
  set (s1 := s <| priority ::= <[t := p]> |>).
  destruct (requeue_blocked_spec s1 t p q W1 W2) as (QP & QN & E & W');
    [exact Hb|by apply (wait_queue_frame s)|done|].
  exists QP, QN. cbn [pass_prio_loop]. step_m.
  rewrite (proj2 (nz_true _) Ht), Z.gtb_ltb, (proj2 (Z.ltb_lt _ _) Hp). step_m. fold s1.
  rewrite (proj2 (Z.eqb_neq _ _) Hst), Hin, E. cbn [bind_out]. step_m.
  split; [reflexivity|].
  assert (Ep : forall y, y ∈ W1 ++ W2 -> priority s1 y = priority s y).
  { intros y Hy. unfold s1. state_simpl. rewrite upd_ne; [done|]. by intros ->. }
  unfold insert_after in *. rewrite (take_while_ext _ (fun y => priority s1 y <=? p)) by (intros; by rewrite Ep).
  rewrite (drop_while_ext _ (fun y => priority s1 y <=? p)) by (intros; by rewrite Ep). exact W'.
Qed.

Lemma pass_prio_ready n s t p m l1 l2 :
  t <> 0 -> p < priority s t -> priority s t <= RT_LINUX_PRIORITY -> state s t = READY ->
  is_hard s t <> 0 -> ready_list s (l1 ++ t :: l2) -> fits (l1 ++ t :: l2) ->
  priority s rt_linux_task = RT_LINUX_PRIORITY -> lock_first (priority s) (l1 ++ l2) ->
  exists P N, let s' := s <| priority ::= <[t := p]> |> <| rprev := P |> <| rnext := N |> in
    pass_prio_loop (S n) t p m s =
      pass_prio_loop n (prio_passed_to s t) p (Z.lor m (Z.shiftl 1 (runnable_on_cpus s t))) s' /\
    ready_list s' (insert_after (fun y => priority s y <=? p) t (l1 ++ l2)).
Proof.
  intros Ht Hp Hpl Hst Hh Hr Hf Hlx Hlf. destruct (ring_middle _ _ _ _ _ _ Hr) as (Htl & Hti & _).
  set (s1 := s <| priority ::= <[t := p]> |>).
  assert (Ep : forall y, y ∈ l1 ++ l2 -> priority s1 y = priority s y).
  { intros y Hy. unfold s1. state_simpl. rewrite upd_ne; [done|]. by intros ->. }
  assert (Ept : priority s1 t = p) by (unfold s1; state_simpl; apply upd_eq).
  destruct (requeue_ready_spec s1 t l1 l2) as (s2 & E & (P & N & F) & R);
    [exact Hr|done|exact Hh|lia|unfold s1; state_simpl; by rewrite upd_ne| |].
  { intros x Hx. rewrite Ep by (destruct (l1 ++ l2); [by apply not_elem_of_nil in Hx|by right]). by apply Hlf. }
  exists P, N. cbn [pass_prio_loop]. step_m.
  rewrite (proj2 (nz_true _) Ht), Z.gtb_ltb, (proj2 (Z.ltb_lt _ _) Hp). step_m. fold s1.
  rewrite Hst. cbn [Z.eqb Pos.eqb READY]. unfold mbind, M_bind in E.
  destruct (runlink t s1) as [u s1'| |]; [|done|done]. cbn [bind_out] in E |- *. rewrite E. step_m.
  rewrite F. split; [reflexivity|]. rewrite F in R.
  unfold insert_after in *. rewrite (take_while_ext _ (fun y => priority s1 y <=? priority s1 t)), 
    (drop_while_ext _ (fun y => priority s1 y <=? priority s1 t)); [exact R|intros; by rewrite Ept, Ep..].
Qed.

Lemma pass_prio_end n s p m : pass_prio_loop n 0 p m s = Done m s.
Proof. by destruct n. Qed.

(** C19: priority inheritance, through a chain. A task that waits for a
    resource passes its priority to the owner; if that one itself waits for
    another resource, it moves in its queue, and the priority is passed on to
    the owner of that, which moves in the ready list: both run at the
    priority of the first task, no other task changes, and the scheduler is
    told to run. *)
Theorem pass_prio_chain s from mid own q W1 W2 l1 l2 :
  mid <> 0 -> own <> 0 -> own <> mid -> own <> from -> from <> mid -> rt_linux_task <> own ->
  rt_linux_task <> mid ->
  priority s from < priority s mid -> priority s from < priority s own ->
  prio_passed_to s mid = own -> prio_passed_to s own = 0 ->
  state s mid <> READY -> in_prio_queue s mid = true -> blocked_on s mid = q ->
  wait_queue s q (W1 ++ mid :: W2) -> fits (W1 ++ mid :: W2) ->
  state s own = READY -> is_hard s own <> 0 ->
  ready_list s (l1 ++ own :: l2) -> fits (l1 ++ own :: l2) -> mid ∉ l1 ++ l2 ->
  priority s rt_linux_task = RT_LINUX_PRIORITY -> lock_first (priority s) (l1 ++ l2) ->
  priority s own <= RT_LINUX_PRIORITY -> 0 <= runnable_on_cpus s own ->
  let p := priority s from in
  exists s' map, pass_prio mid from s = Done map s' /\ has map (Z.shiftl 1 (runnable_on_cpus s own)) = true /\
    prio_passed_to s' from = mid /\
    (forall x, priority s' x = if decide (x = mid \/ x = own) then p else priority s x) /\
    wait_queue s' q (insert_after (fun y => priority s y <=? p) mid (W1 ++ W2)) /\
    ready_list s' (insert_after (fun y => priority s y <=? p) own (l1 ++ l2)).
Proof.
  intros Hm0 Ho0 Hom Hof Hfm Hlo Hlm Hpm Hpo Hpt Hpt0 Hsm Hin Hb Hw Hfw Hso Hho Hr Hf Hml Hlx Hlf Hpl Hrun p.
  destruct (ring_middle _ _ _ _ _ _ Hr) as (_ & Hor & _).
  destruct (wait_queue_middle _ _ _ _ _ Hw) as [Hmw _].
  unfold pass_prio. step_m. fold p. change LIST_FUEL with (S (S 1022%nat)).
  set (n := 1022%nat). clearbody n.
  set (s1 := s <| prio_passed_to ::= <[from := mid]> |>).
  assert (Epass : forall x, x <> from -> prio_passed_to s1 x = prio_passed_to s x)
    by (intros x Hx; unfold s1; state_simpl; by rewrite upd_ne).
  destruct (pass_prio_waiting (S n) s1 mid p 0 q W1 W2) as (QP & QN & E2 & W');
    [done|exact Hpm|exact Hsm|exact Hin|exact Hb|by apply (wait_queue_frame s)|done|].
  rewrite E2, Epass, Hpt by done.
  set (s2 := s1 <| priority ::= _ |> <| q_prev := _ |> <| q_next := _ |>) in *.
  assert (Ep2 : forall x, x <> mid -> priority s2 x = priority s x)
    by (intros x Hx; unfold s2, s1; state_simpl; by rewrite upd_ne).
  assert (Epr : forall x, x ∈ l1 ++ l2 -> priority s2 x = priority s x)
    by (intros x Hx; apply Ep2; by intros ->).
  destruct (pass_prio_ready n s2 own p 0 l1 l2) as (P & N & E3 & R');
    [done|by rewrite Ep2|by rewrite Ep2|exact Hso|exact Hho|exact Hr|done|by rewrite Ep2| |].
  { intros x Hx. rewrite Epr by (destruct (l1 ++ l2); [by apply not_elem_of_nil in Hx|by right]).
    by apply Hlf. }
  change (prio_passed_to s2 own) with (prio_passed_to s1 own) in E3.
  rewrite Epass, Hpt0, pass_prio_end in E3 by done.
  rewrite E3. do 2 eexists. split; [reflexivity|]. split_and!.
  - rewrite Z.lor_0_l. apply has_true. rewrite Z.land_diag. intros E0.
    apply Z.shiftl_eq_0_iff in E0; [lia|done].
  - unfold s2, s1. state_simpl. apply upd_eq.
  - intros x. unfold s2, s1. state_simpl. rewrite !upd_dec. repeat case_decide; intuition congruence.
  - by apply (wait_queue_frame s2).
  - unfold insert_after in *. rewrite (take_while_ext _ (fun y => priority s2 y <=? p)),
      (drop_while_ext _ (fun y => priority s2 y <=? p)); [exact R'|intros; by rewrite Epr..].
Qed.

(** * Witnesses *)

(** The task of priority 3 runs, and the one of priority 2 waits for a
    counting semaphore. *)
Definition demo_sem : RTAI :=
  run (rt_typed_sem_init (Sem 7) (-1) CNT_SEM;; enqueue_blocked 64 (SemQueue (Sem 7)) 0;;
       wr state 64 (Z.lor READY SEMAPHORE)) demo_run.

Lemma demo_sem_queue : wait_queue demo_sem (SemQueue (Sem 7)) [64].
Proof. split; [solve_ring|]. intros t Ht. apply list_elem_of_singleton in Ht as ->. by_eval. Qed.

Lemma rt_sem_wait_queues_witness :
  exists s', rt_sem_wait (Sem 7) demo_sem = (rt_schedule;; woken_up 48 (Sem 7)) s' /\
    ready_list s' ([32] ++ []) /\
    wait_queue s' (SemQueue (Sem 7)) (insert_blocked (priority demo_sem) (sem_qtype demo_sem (Sem 7)) 48 [64]) /\
    sem_count s' (Sem 7) = sem_count demo_sem (Sem 7) - 1 /\
    state s' 48 = Z.lor (state demo_sem 48) SEMAPHORE /\
    blocked_on s' 48 = SemQueue (Sem 7).
Proof.
  apply (rt_sem_wait_queues demo_sem (Sem 7) [32] [] [64]);
    [by_eval|split; by_eval|by_eval|by_eval|solve_ring|by_eval|exact demo_sem_queue|fits_eval|not_in|by_eval].
Defined.

Lemma rt_sem_signal_head_witness :
  exists s', schedules (rt_sem_signal (Sem 7) demo_sem) s' 0 /\ wait_queue s' (SemQueue (Sem 7)) [] /\
    ready_list s' (insert_after (fun y => priority demo_sem y <=? priority demo_sem 64) 64 [32; 48]) /\
    state s' 64 = READY /\ blocked_on s' 64 = QNull /\
    sem_count s' (Sem 7) = posted demo_sem (Sem 7).
Proof.
  apply rt_sem_signal_head;
    [by_eval|split; by_eval|by_eval|exact demo_sem_queue|by_eval|by_eval|by_eval|solve_ring|fits_eval
    |not_in|by_eval|by_eval|by_eval|lock_first_eval].
Defined.

(** The semaphore has a waiting task; with [demo_sem2] it has two units. *)
Definition demo_sem2 : RTAI := run (rt_typed_sem_init (Sem 7) 2 CNT_SEM) demo_run.

Lemma demo_sem_inv : sem_inv demo_sem (Sem 7) [64].
Proof. split_and!; [by_eval|by_eval|exact demo_sem_queue|by_eval|by_eval|intros _; by_eval|by_eval]. Qed.

Lemma demo_sem2_inv : sem_inv demo_sem2 (Sem 7) [].
Proof.
  split_and!; [by_eval|by_eval| |by_eval|by_eval|intros H; by destruct H|by_eval].
  split; [solve_ring|]. intros t Ht. by apply not_elem_of_nil in Ht.
Qed.

Lemma demo_sem_can_block : can_block demo_sem (Sem 7) [64] [32].
Proof. exists [32], []. split_and!; [done|solve_ring|by_eval|fits_eval|not_in|by_eval]. Qed.

Lemma demo_sem_can_resume : can_resume demo_sem 64 [32; 48].
Proof.
  split_and!; [by_eval|by_eval|solve_ring|fits_eval|not_in|by_eval|by_eval|by_eval|lock_first_eval].
Qed.

Lemma sem_inv_preserved_witness :
  (exists s', rt_sem_wait (Sem 7) demo_sem = (rt_schedule;; woken_up 48 (Sem 7)) s' /\ blocks demo_sem 48 (Sem 7) s' /\
     sem_inv s' (Sem 7) [64; 48] /\ ready_list s' [32]) /\
  (exists s', rt_sem_signal (Sem 7) demo_sem = (rt_schedule;; mret 0) s' /\ wakes_head demo_sem 64 (Sem 7) s' /\
     sem_inv s' (Sem 7) [] /\ ready_list s' [32; 64; 48]) /\
  (exists s', rt_sem_wait (Sem 7) demo_sem2 = Done 2 s' /\ sem_inv s' (Sem 7) []) /\
  exists s', rt_sem_signal (Sem 7) demo_sem2 = Done 0 s' /\ sem_count s' (Sem 7) = 3 /\ sem_inv s' (Sem 7) [].
Proof.
  destruct (sem_inv_preserved demo_sem (Sem 7) [64] demo_sem_inv) as (_ & _ & H1 & _ & _ & H2); [by_eval|by_eval|].
  destruct (sem_inv_preserved demo_sem2 (Sem 7) [] demo_sem2_inv) as (H3 & _ & _ & _ & H4 & _); [by_eval|by_eval|].
  split; [exact (H1 ltac:(by_eval) [32] demo_sem_can_block)|].
  split; [exact (H2 64 [] [32; 48] eq_refl demo_sem_can_resume)|].
  split; [|exact (H4 eq_refl)]. destruct (H3 ltac:(by_eval)) as (E & _ & I). eexists. split; [exact E|exact I].
Defined.

Lemma rt_sem_wait_until_expired_witness :
  exists s', rt_sem_wait_until (Sem 7) 0 demo_sem = Done SEM_TIMOUT s' /\
    sem_count s' (Sem 7) = sem_count demo_sem (Sem 7) /\ wait_queue s' (SemQueue (Sem 7)) [64] /\
    blocked_on s' 48 = QNull /\ state s' = state demo_sem /\ rnext s' = rnext demo_sem /\
    rprev s' = rprev demo_sem /\ tnext s' = tnext demo_sem /\ tprev s' = tprev demo_sem.
Proof.
  apply rt_sem_wait_until_expired;
    [by_eval|split; by_eval|by_eval|by_eval|exact demo_sem_queue|not_in].
Defined.

(** The semaphore is a resource of the running task. *)
Definition demo_res : RTAI :=
  demo_sem <| sem_type ::= <[Sem 7 := 1]> |> <| sem_owndby ::= <[Sem 7 := 48]> |>
           <| prio_passed_to ::= <[64 := 48]> |>.

Lemma pass_prio_chain_witness :
  let p := priority demo_res 32 in
  exists s' map, pass_prio 64 32 demo_res = Done map s' /\
    has map (Z.shiftl 1 (runnable_on_cpus demo_res 48)) = true /\
    prio_passed_to s' 32 = 64 /\
    (forall x, priority s' x = if decide (x = 64 \/ x = 48) then p else priority demo_res x) /\
    wait_queue s' (SemQueue (Sem 7)) (insert_after (fun y => priority demo_res y <=? p) 64 ([] ++ [])) /\
    ready_list s' (insert_after (fun y => priority demo_res y <=? p) 48 ([32] ++ [])).
Proof.
  apply (pass_prio_chain demo_res 32 64 48 (SemQueue (Sem 7)) [] [] [32] []);
    [by_eval|by_eval|by_eval|by_eval|by_eval|by_eval|by_eval|by_eval|by_eval|by_eval|by_eval|by_eval
    |by_eval|by_eval| |fits_eval|by_eval|by_eval|solve_ring|fits_eval|not_in|by_eval|lock_first_eval
    |by_eval|by_eval].
  split; [solve_ring|]. intros t Ht. apply list_elem_of_singleton in Ht as ->. by_eval.
Defined.
