(* ===== verification/SchedSync.v ===== *)
(** SchedSync: condition variables, readers-writer locks and recursive spin
    locks, the last sections of [newlxrt/scheduler/rtai_sched.c].

    The first two are built on the semaphores; a readers-writer lock holds the
    resource semaphore [wrmtx] of the writer and the counting semaphores
    [wrsem] and [rdsem] where writers and readers wait.  The number of readers
    is kept in [rdsem.owndby]. *)

From S2P Require Import Prelude Resume DList SchedState SchedQueues Schedule SchedTask SchedSem.

(** * Condition variables *)

Definition rt_cond_wait (cnd mtx : semp) : K Z :=
  rt_sem_signal mtx;;
  rt_sem_wait cnd;;
  rt_sem_wait mtx;;
  mret 0.

Definition rt_cond_wait_until (cnd mtx : semp) (time : Z) : K Z :=
  rt_sem_signal mtx;;
  ret ← rt_sem_wait_until cnd time;
  if ret >=? SEM_TIMOUT then mret (-1)
  else
    ret ← rt_sem_wait_until mtx time;
    mret (if ret >=? SEM_TIMOUT then -1 else 0).

Definition rt_cond_wait_timed (cnd mtx : semp) (delay : Z) : K Z :=
  s ← get;
  rt_cond_wait_until cnd mtx (i64 (get_time s + delay)).

(** * Readers-writer locks *)

Definition rt_rwl_init (rwl : Z) : K Z :=
  rt_typed_sem_init (WrMtx rwl) 1 RES_SEM;;
  rt_typed_sem_init (WrSem rwl) 0 CNT_SEM;;
  rt_typed_sem_init (RdSem rwl) 0 CNT_SEM;;
  mret 0.

(** [x |= !y] *)
Definition or_not (ret r : Z) : Z := Z.lor ret (b2z (r =? 0)).

Definition rt_rwl_delete (rwl : Z) : K Z :=
  ret ← rt_sem_delete (RdSem rwl);
  r1 ← rt_sem_delete (WrSem rwl);
  r2 ← rt_sem_delete (WrMtx rwl);
  mret (if nz (or_not (or_not ret r1) r2) then 0 else SEM_ERR).

(** The first task waiting to write (to read), or 0. *)
Definition first_writer (s : RTAI) (rwl : Z) : Z := q_task s (q_next s (SemQueue (WrSem rwl))).
Definition first_reader (s : RTAI) (rwl : Z) : Z := q_task s (q_next s (SemQueue (RdSem rwl))).

(** A reader must wait: the lock is written, or a writer of no lower priority
    waits. *)
Definition read_blocked (s : RTAI) (rwl rt_current : Z) : bool :=
  nz (sem_owndby s (WrMtx rwl)) ||
  (nz (first_writer s rwl) && (priority s (first_writer s rwl) <=? priority s rt_current)).

Definition add_reader (rwl : Z) : K unit :=
  s ← get;
  wr sem_owndby (RdSem rwl) (i32 (sem_owndby s (RdSem rwl) + 1)).

(** The loop of [rt_rwl_rdlock] and [rt_rwl_rdlock_until], on the wait they
    use. *)
Fixpoint rdlock_loop (fuel : nat) (wait : K Z) (rwl rt_current : Z) : K Z :=
  s ← get;
  if read_blocked s rwl rt_current then
    if sem_owndby s (WrMtx rwl) =? rt_current then mret (SEM_ERR + 1)
    else match fuel with
         | O => stuck
         | S fuel' =>
             ret ← wait;
             if ret >=? SEM_TIMOUT then mret ret else rdlock_loop fuel' wait rwl rt_current
         end
  else add_reader rwl;; mret 0.

Definition rt_rwl_rdlock (rwl : Z) : K Z :=
  s ← get;
  rdlock_loop SCHED_FUEL (rt_sem_wait (RdSem rwl)) rwl (rt_smp_current s).

Definition rt_rwl_rdlock_if (rwl : Z) : K Z :=
  s ← get;
  if negb (nz (sem_owndby s (WrMtx rwl))) &&
     (negb (nz (first_writer s rwl)) ||
      (priority s (first_writer s rwl) >? priority s (RT_CURRENT s)))
  then add_reader rwl;; mret 0
  else mret (-1).

Definition rt_rwl_rdlock_until (rwl time : Z) : K Z :=
  s ← get;
  rdlock_loop SCHED_FUEL (rt_sem_wait_until (RdSem rwl) time) rwl (rt_smp_current s).

Definition rt_rwl_rdlock_timed (rwl delay : Z) : K Z :=
  s ← get;
  rt_rwl_rdlock_until rwl (i64 (get_time s + delay)).

(** The loop of [rt_rwl_wrlock] and [rt_rwl_wrlock_until]. *)
Fixpoint wrlock_loop (fuel : nat) (wait : K Z) (rwl : Z) : K (option Z) :=
  s ← get;
  if nz (sem_owndby s (RdSem rwl)) then
    match fuel with
    | O => stuck
    | S fuel' =>
        ret ← wait;
        if ret >=? SEM_TIMOUT then mret (Some ret) else wrlock_loop fuel' wait rwl
    end
  else mret None.

Definition wrlock (wait_sem wait_mtx : K Z) (rwl : Z) : K Z :=
  r ← wrlock_loop SCHED_FUEL wait_sem rwl;
  match r with
  | Some ret => mret ret
  | None =>
      ret ← wait_mtx;
      mret (if ret >=? SEM_TIMOUT then ret else 0)
  end.

Definition rt_rwl_wrlock (rwl : Z) : K Z :=
  wrlock (rt_sem_wait (WrSem rwl)) (rt_sem_wait (WrMtx rwl)) rwl.

Definition rt_rwl_wrlock_if (rwl : Z) : K Z :=
  s ← get;
  if negb (nz (sem_owndby s (RdSem rwl))) then
    ret ← rt_sem_wait_if (WrMtx rwl);
    mret (if ret >=? 0 then 0 else -1)
  else mret (-1).

Definition rt_rwl_wrlock_until (rwl time : Z) : K Z :=
  wrlock (rt_sem_wait_until (WrSem rwl) time) (rt_sem_wait_until (WrMtx rwl) time) rwl.

Definition rt_rwl_wrlock_timed (rwl delay : Z) : K Z :=
  s ← get;
  rt_rwl_wrlock_until rwl (i64 (get_time s + delay)).

Definition rt_rwl_unlock (rwl : Z) : K Z :=
  s ← get;
  (if nz (sem_owndby s (WrMtx rwl)) then _ ← rt_sem_signal (WrMtx rwl); mret tt
   else when (nz (sem_owndby s (RdSem rwl)))
          (wr sem_owndby (RdSem rwl) (i32 (sem_owndby s (RdSem rwl) - 1))));;
  s ← get;
  when (negb (nz (sem_owndby s (WrMtx rwl))) && negb (nz (sem_owndby s (RdSem rwl))))
    (let wtask := first_writer s rwl in
     let rtask := first_reader s rwl in
     if nz wtask && nz rtask then
       _ ← (if priority s wtask <? priority s rtask then rt_sem_signal (WrSem rwl)
            else rt_sem_signal (RdSem rwl)); mret tt
     else if nz wtask then _ ← rt_sem_signal (WrSem rwl); mret tt
     else when (nz rtask) (_ ← rt_sem_signal (RdSem rwl); mret tt));;
  mret 0.

(** * Recursive spin locks

    [flags] is the processor's flags when the service is called.  On the only
    processor a lock that another task holds is never released while the loop
    of [rt_spl_lock] spins with the interrupts disabled: it is [Stuck]. *)

Definition rt_spl_init (spl : Z) : K Z :=
  wr spl_owndby spl 0;; wr spl_count spl 0;; mret 0.

Definition rt_spl_delete (spl : Z) : K Z := mret 0.

(** [cmpxchg(&spl->owndby, 0, rt_current)] *)
Definition spl_cmpxchg (spl rt_current : Z) : K Z :=
  s ← get;
  when (spl_owndby s spl =? 0) (wr spl_owndby spl rt_current);;
  mret (spl_owndby s spl).

Definition rt_spl_lock (flags spl : Z) : K Z :=
  s ← get;
  let rt_current := rt_smp_current s in
  if spl_owndby s spl =? rt_current then
    wr spl_count spl (i32 (spl_count s spl + 1));; mret 0
  else
    locked ← spl_cmpxchg spl rt_current;
    if nz locked then stuck else wr spl_flags spl flags;; mret 0.

Definition rt_spl_lock_if (flags spl : Z) : K Z :=
  s ← get;
  let rt_current := rt_smp_current s in
  if spl_owndby s spl =? rt_current then
    wr spl_count spl (i32 (spl_count s spl + 1));; mret 0
  else
    locked ← spl_cmpxchg spl rt_current;
    if nz locked then mret (-1) else wr spl_flags spl flags;; mret 0.

(** The loop ends at the first [cmpxchg] or when the time stamp counter
    reaches [end_time]. *)
Definition rt_spl_lock_timed (flags spl ns : Z) : K Z :=
  s ← get;
  let rt_current := rt_smp_current s in
  if spl_owndby s spl =? rt_current then
    wr spl_count spl (i32 (spl_count s spl + 1));; mret 0
  else
    let end_time := i64 (tsc s + imuldiv ns (cpu_freq s) 1000000000) in
    locked ← spl_cmpxchg spl rt_current;
    if nz locked then wg tsc (Z.max (tsc s) end_time);; mret (-1)
    else wr spl_flags spl flags;; mret 0.

Definition rt_spl_unlock (spl : Z) : K Z :=
  s ← get;
  let rt_current := rt_smp_current s in
  if spl_owndby s spl =? rt_current then
    (if nz (spl_count s spl) then wr spl_count spl (spl_count s spl - 1)
     else wr spl_owndby spl 0;; wr spl_count spl 0);;
    mret 0
  else mret (-1).

(** * Properties *)

(** [rt_rwl_wrlock_if] reports success, and takes nothing, when another
    task is writing and no task waits to write: the count of [wrmtx], which
    is then 0, is taken for an acquisition. *)
Theorem rt_rwl_wrlock_if_held s rwl :
  sem_owndby s (RdSem rwl) = 0 -> sem_magic s (WrMtx rwl) = RT_SEM_MAGIC ->
  sem_count s (WrMtx rwl) = 0 -> sem_owndby s (WrMtx rwl) <> rt_smp_current s ->
  rt_rwl_wrlock_if rwl s = Done 0 s.
Proof.
  intros Hrd Hm Hc Ho. unfold rt_rwl_wrlock_if, rt_sem_wait_if, RT_CURRENT. step_m.
  rewrite Hrd. change (nz 0) with false. step_m. rewrite Hm, Hc, (proj2 (Z.eqb_neq _ _) Ho).
  cbn. by rewrite andb_false_r.
Qed.

(** The lock is free, or the running task owns it. *)
Definition spl_available (s : RTAI) (spl : Z) : bool :=
  (spl_owndby s spl =? 0) || (spl_owndby s spl =? rt_smp_current s).

(** A recursive spin lock excludes: a task takes it exactly when it is
    free or its own, and owns it then; a lock another task owns is neither
    taken nor released; a lock that is released as often as it was taken is
    as it was. *)
Theorem spl_excludes s spl flags :
  rt_smp_current s <> 0 -> 0 <= spl_count s spl < INT_MAX ->
  (spl_available s spl = false ->
     rt_spl_lock_if flags spl s = Done (-1) s /\ rt_spl_unlock spl s = Done (-1) s /\
     rt_spl_lock flags spl s = Stuck) /\
  (spl_available s spl = true ->
     (spl_owndby s spl = 0 -> spl_count s spl = 0) ->
     exists s1 s2, rt_spl_lock_if flags spl s = Done 0 s1 /\ rt_spl_lock flags spl s = Done 0 s1 /\
       spl_owndby s1 spl = rt_smp_current s /\
       rt_spl_unlock spl s1 = Done 0 s2 /\
       spl_owndby s2 spl = spl_owndby s spl /\ spl_count s2 spl = spl_count s spl).
Proof.
  intros Hc Hn. unfold spl_available, rt_spl_lock_if, rt_spl_lock, rt_spl_unlock, spl_cmpxchg.
  destruct (Z.eqb_spec (spl_owndby s spl) (rt_smp_current s)) as [Eo|Eo].
  - split; [by rewrite orb_true_r|]. intros _ _. step_m. rewrite Eo, Z.eqb_refl.
    assert (Hi : i32 (spl_count s spl + 1) = spl_count s spl + 1)
      by (apply i32_id; unfold in_i32, INT_MIN, INT_MAX in *; lia).
    do 2 eexists. split_and!; [reflexivity|reflexivity|done| | |].
    + step_m. rewrite Eo, Z.eqb_refl. step_m. rewrite upd_eq, Hi, (proj2 (nz_true _)) by lia. reflexivity.
    + by state_simpl.
    + state_simpl. rewrite upd_eq. lia.
  - rewrite orb_false_r. split.
    + intros E0. step_m. rewrite (proj2 (Z.eqb_neq _ _) Eo), E0. step_m. apply Z.eqb_neq in E0.
      by rewrite (proj2 (nz_true _) E0).
    + intros E0 Hcnt. apply Z.eqb_eq in E0. specialize (Hcnt E0). step_m.
      rewrite (proj2 (Z.eqb_neq _ _) Eo), E0. cbn [Z.eqb nz negb]. step_m.
      do 2 eexists. split_and!; [reflexivity|reflexivity|by (state_simpl; rewrite upd_eq)| | |].
      * step_m. rewrite upd_eq, Z.eqb_refl, Hcnt. reflexivity.
      * state_simpl. by rewrite upd_eq.
      * state_simpl. by rewrite upd_eq.
Qed.

(** * Witnesses *)

(** The task 32 is writing; the task 48 runs. *)
Definition demo_rwl : RTAI :=
  run (_ ← rt_rwl_init 7; wg rt_smp_current 32;; _ ← rt_rwl_wrlock 7; wg rt_smp_current 48) demo_run.

Lemma rt_rwl_wrlock_if_held_witness :
  sem_owndby demo_rwl (WrMtx 7) = 32 /\ rt_rwl_wrlock_if 7 demo_rwl = Done 0 demo_rwl.
Proof. split; [by_eval|]. apply rt_rwl_wrlock_if_held; by_eval. Defined.

Lemma spl_excludes_witness :
  (spl_available demo_run 5 = false ->
     rt_spl_lock_if 1 5 demo_run = Done (-1) demo_run /\ rt_spl_unlock 5 demo_run = Done (-1) demo_run /\
     rt_spl_lock 1 5 demo_run = Stuck) /\
  (spl_available demo_run 5 = true ->
     (spl_owndby demo_run 5 = 0 -> spl_count demo_run 5 = 0) ->
     exists s1 s2, rt_spl_lock_if 1 5 demo_run = Done 0 s1 /\ rt_spl_lock 1 5 demo_run = Done 0 s1 /\
       spl_owndby s1 5 = rt_smp_current demo_run /\
       rt_spl_unlock 5 s1 = Done 0 s2 /\
       spl_owndby s2 5 = spl_owndby demo_run 5 /\ spl_count s2 5 = spl_count demo_run 5).
Proof. apply spl_excludes; [by_eval|split; by_eval]. Defined.
