(* ===== verification/SchedMsg.v ===== *)
(** SchedMsg: messages and remote procedure calls between tasks.

    [rt_send], [rt_rpc], [rt_return] and [rt_receive] with their variants: the
    section MESSAGES of [newlxrt/scheduler/rtai_sched.c].  A sender waits in
    the [msg_queue] of the receiver, a caller whose message was received in
    its [ret_queue]; the task fields of these queues ([msg_queue.task],
    [ret_queue.task]) hold the peer of the exchange. *)

From S2P Require Import Prelude Resume DList SchedState SchedQueues Schedule SchedTask SchedSem.

(** [task->msg_queue.task], [task->ret_queue.task] *)
Definition peer (s : RTAI) (task : Z) : Z := q_task s (MsgQueue task).
Definition set_peer (task t : Z) : K unit := wr q_task (MsgQueue task) t.
Definition ret_task (s : RTAI) (task : Z) : Z := q_task s (RetQueue task).

(** The receiver waits for a message from this task, or from any. *)
Definition receiving (s : RTAI) (task rt_current : Z) : bool :=
  has (state s task) RECEIVE && (negb (nz (peer s task)) || (peer s task =? rt_current)).

(** The message handed to a waiting receiver; whether it was made ready. *)
Definition deliver (task rt_current msg_ : Z) : K bool :=
  wr msg task msg_;;
  set_peer task rt_current;;
  wr q_task (RetQueue task) NOTHING;;
  rem_timed_task task;;
  make_ready task (Z.lor RECEIVE DELAYED).

(** * Sending *)

(** [if (rt_current->msg_queue.task != rt_current) {...}]: whether the
    exchange ended before it was complete. *)
Definition send_end (rt_current task : Z) : K Z :=
  s ← get;
  if negb (peer s rt_current =? rt_current) then set_peer rt_current rt_current;; mret 0
  else mret task.

Definition rt_send (task msg_ : Z) : K Z :=
  s ← get;
  if negb (magic s task =? RT_TASK_MAGIC) then mret MSG_ERR
  else
    let rt_current := rt_smp_current s in
    (if receiving s task rt_current then
       ready ← deliver task rt_current msg_;
       when ready rt_schedule
     else
       wr msg rt_current msg_;;
       set_peer rt_current task;;
       enqueue_blocked rt_current (MsgQueue task) 0;;
       s ← get;
       wr state rt_current (Z.lor (state s rt_current) SEND);;
       rem_ready_current rt_current;;
       rt_schedule);;
    send_end rt_current task.

Definition rt_send_if (task msg_ : Z) : K Z :=
  s ← get;
  if negb (magic s task =? RT_TASK_MAGIC) then mret MSG_ERR
  else
    let rt_current := rt_smp_current s in
    if receiving s task rt_current then
      ready ← deliver task rt_current msg_;
      when ready rt_schedule;;
      send_end rt_current task
    else mret 0.

Definition rt_send_until (task msg_ time : Z) : K Z :=
  s ← get;
  if negb (magic s task =? RT_TASK_MAGIC) then mret MSG_ERR
  else
    let rt_current := rt_smp_current s in
    (if receiving s task rt_current then
       ready ← deliver task rt_current msg_;
       when ready rt_schedule
     else
       set_peer rt_current task;;
       wr resume_time rt_current time;;
       if time >? rt_time_h s then
         wr msg rt_current msg_;;
         enqueue_blocked rt_current (MsgQueue task) 0;;
         s ← get;
         wr state rt_current (Z.lor (state s rt_current) (Z.lor SEND DELAYED));;
         rem_ready_current rt_current;;
         enq_timed_task rt_current;;
         rt_schedule
       else
         wr q_next (Queue rt_current) (Queue rt_current);;
         wr q_prev (Queue rt_current) (Queue rt_current));;
    s ← get;
    if negb (peer s rt_current =? rt_current) then
      dequeue_blocked rt_current;; set_peer rt_current rt_current;; mret 0
    else mret task.

Definition rt_send_timed (task msg_ delay : Z) : K Z :=
  s ← get;
  rt_send_until task msg_ (i64 (get_time s + delay)).

(** * Remote procedure calls

    The result is the task, and what is stored in [*result]. *)

(** The call handed to a waiting receiver. *)
Definition rpc_deliver (task rt_current to_do : Z) : K unit :=
  wr msg rt_current to_do;;
  _ ← deliver task rt_current to_do;
  mret tt.

(** The call queued to a receiver that does not wait. *)
Definition rpc_enqueue (task rt_current to_do : Z) : K unit :=
  wr msg rt_current to_do;;
  s ← get;
  wr owndres task (i32 (owndres s task + RPCINC));;
  _ ← pass_prio task rt_current;
  enqueue_blocked rt_current (MsgQueue task) 0.

Definition add_state (task mask : Z) : K unit :=
  s ← get; wr state task (Z.lor (state s task) mask).

(** The end of [rt_rpc] and [rt_rpc_if]. *)
Definition rpc_end (rt_current task : Z) : K (Z * option Z) :=
  s ← get;
  if peer s rt_current =? rt_current then mret (task, Some (msg s rt_current))
  else set_peer rt_current rt_current;; mret (0, None).

Definition rt_rpc (task to_do : Z) : K (Z * option Z) :=
  s ← get;
  if negb (magic s task =? RT_TASK_MAGIC) then mret (MSG_ERR, None)
  else
    let rt_current := rt_smp_current s in
    (if receiving s task rt_current then
       rpc_deliver task rt_current to_do;; add_state rt_current RETURN
     else rpc_enqueue task rt_current to_do;; add_state rt_current RPC);;
    rem_ready_current rt_current;;
    set_peer rt_current task;;
    rt_schedule;;
    rpc_end rt_current task.

Definition rt_rpc_if (task to_do : Z) : K (Z * option Z) :=
  s ← get;
  if negb (magic s task =? RT_TASK_MAGIC) then mret (MSG_ERR, None)
  else
    let rt_current := rt_smp_current s in
    if receiving s task rt_current then
      rpc_deliver task rt_current to_do;;
      add_state rt_current RETURN;;
      rem_ready_current rt_current;;
      set_peer rt_current task;;
      rt_schedule;;
      rpc_end rt_current task
    else mret (0, None).

Definition rt_rpc_until (task to_do time : Z) : K (Z * option Z) :=
  s ← get;
  if negb (magic s task =? RT_TASK_MAGIC) then mret (MSG_ERR, None)
  else
    let rt_current := rt_smp_current s in
    expired ←
      (if receiving s task rt_current then
         rpc_deliver task rt_current to_do;;
         add_state rt_current (Z.lor RETURN DELAYED);;
         mret false
       else
         wr resume_time rt_current time;;
         if time <=? rt_time_h s then mret true
         else
           rpc_enqueue task rt_current to_do;;
           add_state rt_current (Z.lor RPC DELAYED);;
           mret false);
    if (expired : bool) then mret (0, None)
    else
      rem_ready_current rt_current;;
      set_peer rt_current task;;
      enq_timed_task rt_current;;
      rt_schedule;;
      s ← get;
      if peer s rt_current =? rt_current then mret (task, Some (msg s rt_current))
      else
        dequeue_blocked rt_current;; set_peer rt_current rt_current;; mret (0, None).

Definition rt_rpc_timed (task to_do delay : Z) : K (Z * option Z) :=
  s ← get;
  rt_rpc_until task to_do (i64 (get_time s + delay)).

Definition rt_isrpc (s : RTAI) (task : Z) : Z := Z.land (state s task) RETURN.

Definition rt_return (task result : Z) : K Z :=
  s ← get;
  if negb (magic s task =? RT_TASK_MAGIC) then mret MSG_ERR
  else
    let rt_current := rt_smp_current s in
    if has (state s task) RETURN && (peer s task =? rt_current) then
      dequeue_blocked task;;
      s ← get;
      when (nz (Z.land (owndres s rt_current) RPCHLF))
        (wr owndres rt_current (i32 (owndres s rt_current - RPCINC)));;
      s ← get;
      sched ← match fallback_prio s rt_current with
              | Some p => renq_current rt_current p
              | None => mret 0
              end;
      wr msg task result;;
      set_peer task task;;
      rem_timed_task task;;
      ready ← make_ready task (Z.lor RETURN DELAYED);
      (if (ready : bool) then rt_schedule else when (nz sched) rt_schedule);;
      mret task
    else mret 0.

(** * Receiving

    The result is the task, and what is stored in [*msg]. *)

(** The sender to serve: the named one, or the first of the message queue. *)
Definition sender (s : RTAI) (task rt_current : Z) : Z :=
  if nz task then task else q_task s (q_next s (MsgQueue rt_current)).

(** [(task->state & (SEND | RPC)) && task->msg_queue.task == rt_current] *)
Definition sending (s : RTAI) (task rt_current : Z) : bool :=
  has (state s task) (Z.lor SEND RPC) && (peer s task =? rt_current).

Definition rt_evdrp (s : RTAI) (task : Z) : Z * option Z :=
  if nz task && negb (magic s task =? RT_TASK_MAGIC) then (MSG_ERR, None)
  else
    let rt_current := rt_smp_current s in
    let task := sender s task rt_current in
    if sending s task rt_current then (task, Some (msg s task)) else (0, None).

(** The message of a waiting sender or caller is taken. *)
Definition take_message (task rt_current : Z) : K Z :=
  dequeue_blocked task;;
  rem_timed_task task;;
  s ← get;
  let msg_ := msg s task in
  set_peer rt_current task;;
  (if has (state s task) SEND then
     set_peer task task;;
     ready ← make_ready task (Z.lor SEND DELAYED);
     when ready rt_schedule
   else
     when (has (state s task) RPC)
       (enqueue_blocked task (RetQueue rt_current) 0;;
        s ← get;
        wr state task (Z.lor (clr (state s task) (Z.lor RPC DELAYED)) RETURN)));;
  mret msg_.

(** The task the message came from; 0 when the wait ended without one. *)
Definition receive_peer (rt_current : Z) : K Z :=
  s ← get;
  task ←
    (if nz (ret_task s rt_current) then wr q_task (RetQueue rt_current) NOTHING;; mret 0
     else mret (peer s rt_current));
  set_peer rt_current rt_current;;
  mret task.

(** A proxy expects an immediate return. *)
Definition proxy_return (task rt_current : Z) : K unit :=
  s ← get;
  when (nz task && nz (stack_bottom s task) && (receiver s task =? rt_current))
    (_ ← rt_return task 0; mret tt).

Definition rt_receive (task : Z) : K (Z * option Z) :=
  s ← get;
  if nz task && negb (magic s task =? RT_TASK_MAGIC) then mret (MSG_ERR, None)
  else
    let rt_current := rt_smp_current s in
    let task := sender s task rt_current in
    msg_ ←
      (if sending s task rt_current then take_message task rt_current
       else
         wr q_task (RetQueue rt_current) SOMETHING;;
         add_state rt_current RECEIVE;;
         rem_ready_current rt_current;;
         set_peer rt_current (if negb (task =? rt_current) then task else 0);;
         rt_schedule;;
         s ← get;
         mret (msg s rt_current));
    task ← receive_peer rt_current;
    proxy_return task rt_current;;
    mret (task, Some msg_).

Definition rt_receive_if (task : Z) : K (Z * option Z) :=
  s ← get;
  if nz task && negb (magic s task =? RT_TASK_MAGIC) then mret (MSG_ERR, None)
  else
    let rt_current := rt_smp_current s in
    let task := sender s task rt_current in
    if sending s task rt_current then
      msg_ ← take_message task rt_current;
      task ← receive_peer rt_current;
      proxy_return task rt_current;;
      mret (task, Some msg_)
    else mret (0, None).

Definition rt_receive_until (task time : Z) : K (Z * option Z) :=
  s ← get;
  if nz task && negb (magic s task =? RT_TASK_MAGIC) then mret (MSG_ERR, None)
  else
    let rt_current := rt_smp_current s in
    let task := sender s task rt_current in
    msg_ ←
      (if sending s task rt_current then
         m ← take_message task rt_current; mret (Some m)
       else
         wr q_task (RetQueue rt_current) SOMETHING;;
         wr resume_time rt_current time;;
         if time >? rt_time_h s then
           add_state rt_current (Z.lor RECEIVE DELAYED);;
           rem_ready_current rt_current;;
           set_peer rt_current (if negb (task =? rt_current) then task else 0);;
           enq_timed_task rt_current;;
           rt_schedule;;
           s ← get;
           mret (Some (msg s rt_current))
         else mret None);
    task ← receive_peer rt_current;
    proxy_return task rt_current;;
    mret (task, msg_).

Definition rt_receive_timed (task delay : Z) : K (Z * option Z) :=
  s ← get;
  rt_receive_until task (i64 (get_time s + delay)).

(** * Properties *)

Section MsgProperties.
Implicit Types (s : RTAI) (t task : Z) (l W : list Z).

(** The state in which a message was handed to a waiting receiver. *)
Lemma deliver_spec s t c m l :
  state s t = Z.lor READY RECEIVE ->
  ready_list s l -> fits l -> t ∉ rt_linux_task :: l -> is_hard s t <> 0 ->
  priority s t < RT_LINUX_PRIORITY -> priority s rt_linux_task = RT_LINUX_PRIORITY ->
  lock_first (priority s) l ->
  exists P N, let s' := s <| msg ::= <[t := m]> |> <| q_task ::= <[MsgQueue t := c]> |>
                          <| q_task ::= <[RetQueue t := NOTHING]> |>
                          <| state ::= <[t := READY]> |> <| rprev := P |> <| rnext := N |> in
    deliver t c m s = Done true s' /\
    ready_list s' (insert_after (fun y => priority s y <=? priority s t) t l).
Proof.
  intros Hst Hr Hf Ht Hh Hp Hlx Hlf. unfold deliver, set_peer. step_m.
  set (s1 := s <| msg ::= _ |> <| q_task ::= _ |> <| q_task ::= _ |>).
  assert (Es : state s1 t = Z.lor READY RECEIVE) by (unfold s1; state_simpl; exact Hst).
  rewrite rem_timed_task_not_delayed by (by rewrite Es). step_m.
  destruct (make_ready_spec s1 t (Z.lor RECEIVE DELAYED) l) as (P & N & E & R);
    [by rewrite Es|by rewrite Es|unfold s1, ready_list in *; state_simpl; exact Hr|done|done
    |unfold s1; state_simpl; exact Hh|unfold s1; state_simpl; exact Hp
    |unfold s1; state_simpl; exact Hlx|unfold s1; state_simpl; exact Hlf|].
  exists P, N. split; [exact E|]. exact R.
Qed.

(** [rt_send_if] never waits: it refuses what is not a task, leaves a
    task that does not receive from it alone, and otherwise hands the message
    over: the receiver knows the sender, is ready, and the scheduler is
    called. *)
Theorem rt_send_if_delivers s t m l :
  let c := rt_smp_current s in
  (magic s t <> RT_TASK_MAGIC -> rt_send_if t m s = Done MSG_ERR s) /\
  (magic s t = RT_TASK_MAGIC -> receiving s t c = false -> rt_send_if t m s = Done 0 s) /\
  (magic s t = RT_TASK_MAGIC -> state s t = Z.lor READY RECEIVE ->
   peer s t = 0 \/ peer s t = c ->
   ready_list s l -> fits l -> t ∉ rt_linux_task :: l -> is_hard s t <> 0 ->
   priority s t < RT_LINUX_PRIORITY -> priority s rt_linux_task = RT_LINUX_PRIORITY ->
   lock_first (priority s) l ->
   exists s', rt_send_if t m s = bind_out (rt_schedule s') (fun _ => send_end c t) /\
     msg s' t = m /\ peer s' t = c /\ ret_task s' t = NOTHING /\ state s' t = READY /\
     ready_list s' (insert_after (fun y => priority s y <=? priority s t) t l)).
Proof.
  intros c. split_and!.
  - intros Hm. unfold rt_send_if. step_m. by rewrite (proj2 (Z.eqb_neq _ _) Hm).
  - intros Hm Hrc. unfold rt_send_if. step_m. fold c. by rewrite Hm, Z.eqb_refl, Hrc.
  - intros Hm Hst Hpeer Hr Hf Ht Hh Hp Hlx Hlf.
    assert (Hrc : receiving s t c = true).
    { unfold receiving. rewrite Hst. cbn [andb has]. change (has (Z.lor READY RECEIVE) RECEIVE) with true.
      destruct Hpeer as [->| ->]; [done|]. by rewrite Z.eqb_refl, orb_true_r. }
    destruct (deliver_spec s t c m l) as (P & N & E & R); [done..|].
    unfold rt_send_if. step_m. fold c. rewrite Hm, Z.eqb_refl, Hrc. step_m. rewrite E. step_m.
    eexists. split; [reflexivity|]. unfold peer, ret_task. state_simpl. rewrite !upd_eq.
    split_and!; [done| |done|done|exact R]. rewrite upd_ne by done. by rewrite upd_eq.
Qed.

(** A ready task that changes to the priority it has. *)
Lemma renq_current_same s c : renq_current c (priority s c) s = Done 0 s.
Proof. unfold renq_current. step_m. by rewrite Z.eqb_refl. Qed.

(** A task that is in no queue, but whose element still has the links of the
    time it waited alone in [q], empties [q] when it is dequeued. *)
Lemma dequeue_blocked_stale s t q :
  q <> Queue t -> q_prev s (Queue t) = q -> q_next s (Queue t) = q ->
  exists QP QN, let s' := s <| prio_passed_to ::= <[t := NOTHING]> |> <| q_next := QN |>
                            <| q_prev := QP |> <| blocked_on ::= <[t := QNull]> |> in
    dequeue_blocked t s = Done tt s' /\ wait_queue s' q [].
Proof.
  intros Hq Hp Hn. unfold dequeue_blocked. step_m. rewrite qunlink_eq. step_m.
  do 2 eexists. split; [reflexivity|]. split; [|intros x Hx; by apply not_elem_of_nil in Hx].
  state_simpl. unfold unlink_next, unlink_prev. rewrite Hp, Hn.
  apply ring_nil; apply upd_eq.
Qed.

(** A caller whose message was received at once is in no queue, but
    [rt_return] dequeues it: if it once waited alone for a semaphore, the
    tasks that wait there now are dropped from its queue, though they still
    are blocked and counted. *)
Theorem rt_return_drops_waiters s t result sem W l :
  let c := rt_smp_current s in
  magic s t = RT_TASK_MAGIC -> state s t = Z.lor READY RETURN -> peer s t = c ->
  q_prev s (Queue t) = SemQueue sem -> q_next s (Queue t) = SemQueue sem ->
  wait_queue s (SemQueue sem) W -> t ∉ W ->
  owndres s c = 0 -> priority s c = base_priority s c ->
  ready_list s l -> fits l -> t ∉ rt_linux_task :: l -> is_hard s t <> 0 ->
  priority s t < RT_LINUX_PRIORITY -> priority s rt_linux_task = RT_LINUX_PRIORITY ->
  lock_first (priority s) l ->
  exists s', schedules (rt_return t result s) s' t /\ wait_queue s' (SemQueue sem) [] /\
    sem_count s' sem = sem_count s sem /\
    forall x, x ∈ W -> blocked_on s' x = blocked_on s x /\ state s' x = state s x.
Proof.
  intros c Hm Hst Hpeer Hqp Hqn Hw Htw Ho Hpr Hr Hf Ht Hh Hp Hlx Hlf.
  destruct (dequeue_blocked_stale s t (SemQueue sem)) as (QP & QN & Ed & W'); [done..|].
  set (s1 := s <| prio_passed_to ::= _ |> <| q_next := _ |> <| q_prev := _ |> <| blocked_on ::= _ |>) in *.
  unfold schedules, rt_return, set_peer. step_m. fold c. rewrite Hm, Z.eqb_refl, Hst, Hpeer, Z.eqb_refl.
  change (has (Z.lor READY RETURN) RETURN) with true. step_m. rewrite Ed. step_m.
  assert (Eo : owndres s1 c = 0) by (unfold s1; state_simpl; exact Ho).
  assert (Ef : fallback_prio s1 c = Some (priority s1 c))
    by (unfold fallback_prio; rewrite Eo; unfold s1; state_simpl; by rewrite Hpr).
  rewrite Eo. change (nz (Z.land 0 RPCHLF)) with false. step_m. rewrite Ef, renq_current_same. step_m.
  set (s2 := s1 <| msg ::= _ |> <| q_task ::= _ |>).
  assert (Es : state s2 t = Z.lor READY RETURN) by (unfold s2, s1; state_simpl; exact Hst).
  rewrite rem_timed_task_not_delayed by (by rewrite Es). step_m.
  destruct (make_ready_spec s2 t (Z.lor RETURN DELAYED) l) as (P & N & E & R);
    [by rewrite Es|by rewrite Es|unfold s2, s1, ready_list in *; state_simpl; exact Hr|done|done
    |unfold s2, s1; state_simpl; exact Hh|unfold s2, s1; state_simpl; exact Hp
    |unfold s2, s1; state_simpl; exact Hlx|unfold s2, s1; state_simpl; exact Hlf|].
  rewrite E. step_m. eexists. split; [reflexivity|]. split_and!.
  - destruct W' as [W1 W2]. split; [exact W1|intros x Hx; by apply not_elem_of_nil in Hx].
  - unfold s2, s1. by state_simpl.
  - intros x Hx. unfold s2, s1. state_simpl. rewrite !upd_ne by (intros ->; done). done.
Qed.


(** A waiting sender is served: its message is taken, and it is ready. *)
Lemma take_message_spec s t c W l :
  wait_queue s (MsgQueue c) (t :: W) -> state s t = Z.lor READY SEND -> t <> c ->
  ready_list s l -> fits l -> t ∉ rt_linux_task :: l -> is_hard s t <> 0 ->
  priority s t < RT_LINUX_PRIORITY -> priority s rt_linux_task = RT_LINUX_PRIORITY ->
  lock_first (priority s) l ->
  exists s', schedules (take_message t c s) s' (msg s t) /\ state s' t = READY /\ peer s' t = t /\ peer s' c = t /\
    wait_queue s' (MsgQueue c) W /\
    ready_list s' (insert_after (fun y => priority s y <=? priority s t) t l).
Proof.
  intros Hw Hst Hne Hr Hf Ht Hh Hp Hlx Hlf. unfold schedules, take_message, set_peer. step_m.
  destruct (dequeue_blocked_eq s t (MsgQueue c) [] W Hw) as (s1 & -> & W1 & (QP & QN & F1 & _)).
  cbn [app] in W1. step_m.
  assert (Es : state s1 t = Z.lor READY SEND) by (rewrite F1; state_simpl; exact Hst).
  rewrite rem_timed_task_not_delayed by (by rewrite Es). step_m. rewrite Es.
  change (has (Z.lor READY SEND) SEND) with true. step_m.
  set (s2 := s1 <| q_task ::= _ |> <| q_task ::= _ |>).
  assert (Es2 : state s2 t = Z.lor READY SEND) by (unfold s2; state_simpl; exact Es).
  destruct (make_ready_spec s2 t (Z.lor SEND DELAYED) l) as (P & N & E & R);
    [by rewrite Es2|by rewrite Es2|unfold s2, ready_list in *; state_simpl; rewrite F1; state_simpl; exact Hr
    |done|done|unfold s2; state_simpl; rewrite F1; state_simpl; exact Hh
    |unfold s2; state_simpl; rewrite F1; state_simpl; exact Hp
    |unfold s2; state_simpl; rewrite F1; state_simpl; exact Hlx
    |unfold s2; state_simpl; rewrite F1; state_simpl; exact Hlf|].
  rewrite E. step_m.
  assert (Em : msg s1 t = msg s t) by (rewrite F1; by state_simpl).
  assert (Epr : priority s2 = priority s) by (unfold s2; state_simpl; rewrite F1; by state_simpl).
  rewrite Em. rewrite Epr in R. eexists. split; [reflexivity|].
  unfold peer. state_simpl. rewrite upd_eq. split_and!; [done| | | |exact R].
  - unfold s2. state_simpl. apply upd_eq.
  - unfold s2. state_simpl. rewrite upd_ne by congruence. apply upd_eq.
  - destruct W1 as [Hring Hq]. split; [exact Hring|]. intros x Hx. state_simpl. unfold s2. state_simpl.
    rewrite !upd_ne by done. by apply Hq.
Qed.

(** The task [c] waits to send the message [m] to [t]. *)
Definition waits_to_send s c t m : Prop :=
  state s c = Z.lor READY SEND /\ peer s c = t /\ msg s c = m.

(** A message to a task that does not receive: the sender waits in the queue
    of the receiver, and the scheduler is called. *)
Lemma rt_send_blocks s t m W l1 l2 :
  let c := rt_smp_current s in
  magic s t = RT_TASK_MAGIC -> receiving s t c = false -> state s c = READY ->
  is_hard s c <> 0 -> wait_queue s (MsgQueue t) W -> fits W -> c ∉ W -> q_task s (Queue c) = c ->
  ready_list s (l1 ++ c :: l2) ->
  exists s1, rt_send t m s = (rt_schedule;; send_end c t) s1 /\ waits_to_send s1 c t m /\
    wait_queue s1 (MsgQueue t) (insert_blocked (priority s) 0 c W) /\ ready_list s1 (l1 ++ l2).
Proof.
  intros c Hm Hrc Hst Hh Hw Hf Hcw Htt Hr.
  unfold rt_send, set_peer, add_state. step_m. fold c. rewrite Hm, Z.eqb_refl, Hrc. step_m.
  set (s0 := s <| msg ::= _ |> <| q_task ::= _ |>).
  destruct (enqueue_blocked_eq s0 c (MsgQueue t) 0 W) as (sa & -> & Wa & (QP & QN & Fa & _));
    [|exact Hf|exact Hcw|done|unfold s0; state_simpl; by rewrite upd_ne|].
  { destruct Hw as [H1 H2]. split; [exact H1|]. intros x Hx. unfold s0. state_simpl. rewrite upd_ne by done. by apply H2. }
  step_m. set (sb := sa <| state ::= _ |>).
  assert (Rb : ready_list sb (l1 ++ c :: l2)).
  { unfold sb, ready_list. state_simpl. rewrite Fa. unfold s0. state_simpl. exact Hr. }
  destruct (rem_ready_current_spec sb c l1 l2) as (s1 & -> & (P & N & F1) & R1);
    [done|unfold sb; state_simpl; rewrite Fa; unfold s0; state_simpl; exact Hh|].
  step_m. exists s1. split; [done|]. split; [|split; [rewrite F1; unfold sb; by apply (wait_queue_frame sa)|exact R1]].
  unfold waits_to_send, peer. rewrite F1. state_simpl. unfold sb. state_simpl. rewrite Fa.
  state_simpl. unfold s0. state_simpl. rewrite !upd_eq, Hst. done.
Qed.

(** What a receiver does once it has taken the message [m]. *)
Definition received t m : K (Z * option Z) :=
  task ← receive_peer t;
  proxy_return task t;;
  mret (task, Some m).

(** The first task that waits to send is served. *)
Lemma rt_receive_takes s c t m W l :
  rt_smp_current s = t -> waits_to_send s c t m -> wait_queue s (MsgQueue t) (c :: W) -> c <> t ->
  ready_list s l -> fits l -> c ∉ rt_linux_task :: l -> is_hard s c <> 0 ->
  priority s c < RT_LINUX_PRIORITY -> priority s rt_linux_task = RT_LINUX_PRIORITY -> lock_first (priority s) l ->
  exists s', rt_receive 0 s ≡ (rt_schedule;; received t m) s' /\ rt_receive_if 0 s ≡ (rt_schedule;; received t m) s' /\
    state s' c = READY /\ peer s' c = c /\ peer s' t = c /\ wait_queue s' (MsgQueue t) W /\
    ready_list s' (insert_after (fun y => priority s y <=? priority s c) c l).
Proof.
  intros Ht (Hst & Hp & Hm) Hw Hne Hr Hf Hc Hh Hpr Hlx Hlf.
  destruct (take_message_spec s c t W l) as (s' & E & S1 & S2 & S3 & S4 & S5); [done..|].
  assert (Esend : sender s 0 t = c).
  { unfold sender. destruct Hw as [Hring Hq]. rewrite (ring_next _ _ _ _ Hring). apply Hq. by left. }
  assert (Esending : sending s c t = true) by (unfold sending; by rewrite Hst, Hp, Z.eqb_refl).
  exists s'. rewrite Hm in E. split; [|split; [|by split_and!]].
  - unfold rt_receive. step_m. change (nz 0) with false. step_m. rewrite Ht, Esend, Esending.
    unfold mbind, M_bind. rewrite E. apply bind_out_assoc.
  - unfold rt_receive_if. step_m. change (nz 0) with false. step_m. rewrite Ht, Esend, Esending.
    unfold mbind, M_bind. rewrite E. apply bind_out_assoc.
Qed.

Lemma received_done s c t m :
  ret_task s t = 0 -> peer s t = c -> c = 0 \/ stack_bottom s c = 0 \/ receiver s c <> t ->
  received t m s = Done (c, Some m) (s <| q_task ::= <[MsgQueue t := t]> |>).
Proof.
  intros Hret Hpeer Hsb. unfold received, receive_peer, proxy_return, set_peer. step_m.
  rewrite Hret. change (nz 0) with false. step_m. rewrite Hpeer.
  replace (nz c && nz (stack_bottom s c) && (receiver s c =? t)) with false; [done|]. symmetry.
  destruct Hsb as [->|[->|Hsb]]; [done|by rewrite andb_false_r|by rewrite (proj2 (Z.eqb_neq _ _) Hsb), andb_false_r].
Qed.

(** C25: a message that was sent arrives.  The sender [c] of a message to a task
    that does not receive leaves the ready list and waits, in the message queue
    of that task, at the place of its priority.  When the task receives from
    anybody, waiting or not, while [c] is the first of its queue, it takes
    the message: [c] leaves the queue and is ready at its priority, and the
    scheduler is called.  The sender then returns that its message was received,
    and the receiver returns the message and the name of the sender, which is
    not a proxy of its own (a proxy expects an answer at once). *)
Theorem send_receive_roundtrip s t m W l1 l2 :
  let c := rt_smp_current s in
  c <> t -> magic s t = RT_TASK_MAGIC -> receiving s t c = false -> state s c = READY ->
  is_hard s c <> 0 -> wait_queue s (MsgQueue t) W -> fits W -> c ∉ W -> q_task s (Queue c) = c ->
  ready_list s (l1 ++ c :: l2) ->
  (exists s1, rt_send t m s = (rt_schedule;; send_end c t) s1 /\ waits_to_send s1 c t m /\
     wait_queue s1 (MsgQueue t) (insert_blocked (priority s) 0 c W) /\ ready_list s1 (l1 ++ l2)) /\
  (forall s1 W' l, rt_smp_current s1 = t -> waits_to_send s1 c t m -> wait_queue s1 (MsgQueue t) (c :: W') ->
     ready_list s1 l -> fits l -> c ∉ rt_linux_task :: l -> is_hard s1 c <> 0 ->
     priority s1 c < RT_LINUX_PRIORITY -> priority s1 rt_linux_task = RT_LINUX_PRIORITY ->
     lock_first (priority s1) l ->
     exists s2, rt_receive 0 s1 ≡ (rt_schedule;; received t m) s2 /\
       rt_receive_if 0 s1 ≡ (rt_schedule;; received t m) s2 /\
       state s2 c = READY /\ peer s2 c = c /\ peer s2 t = c /\ wait_queue s2 (MsgQueue t) W' /\
       ready_list s2 (insert_after (fun y => priority s1 y <=? priority s1 c) c l)) /\
  (forall s3, peer s3 c = c -> send_end c t s3 = Done t s3) /\
  (forall s3, ret_task s3 t = 0 -> peer s3 t = c -> stack_bottom s3 c = 0 \/ receiver s3 c <> t ->
     received t m s3 = Done (c, Some m) (s3 <| q_task ::= <[MsgQueue t := t]> |>)).
Proof.
  intros c Hct Hm Hrc Hst Hh Hw Hf Hcw Htt Hr. split; [by apply rt_send_blocks|]. split.
  - intros s1 W' l **. by apply rt_receive_takes.
  - split.
    + intros s3 H3. unfold send_end. step_m. by rewrite H3, Z.eqb_refl.
    + intros s3 H1 H2 H3. apply received_done; auto.
Qed.
End MsgProperties.

(** * Witnesses *)

(** The task 32 waits for a message, the task 48 runs. *)
Definition demo_receiver : RTAI :=
  run (enq_ready_task 48) (new_task 48 3 (new_task 32 1 idle)) <| rt_smp_current := 48 |>
  <| state ::= <[32 := Z.lor READY RECEIVE]> |> <| q_task ::= <[MsgQueue 32 := 0]> |>
  <| q_task ::= <[RetQueue 32 := SOMETHING]> |>.

Lemma rt_send_if_delivers_witness :
  let c := rt_smp_current demo_receiver in
  (magic demo_receiver 32 <> RT_TASK_MAGIC -> rt_send_if 32 9 demo_receiver = Done MSG_ERR demo_receiver) /\
  (magic demo_receiver 32 = RT_TASK_MAGIC -> receiving demo_receiver 32 c = false ->
     rt_send_if 32 9 demo_receiver = Done 0 demo_receiver) /\
  (magic demo_receiver 32 = RT_TASK_MAGIC -> state demo_receiver 32 = Z.lor READY RECEIVE ->
   peer demo_receiver 32 = 0 \/ peer demo_receiver 32 = c ->
   ready_list demo_receiver [48] -> fits [48] -> 32 ∉ rt_linux_task :: [48] -> is_hard demo_receiver 32 <> 0 ->
   priority demo_receiver 32 < RT_LINUX_PRIORITY ->
   priority demo_receiver rt_linux_task = RT_LINUX_PRIORITY -> lock_first (priority demo_receiver) [48] ->
   exists s', rt_send_if 32 9 demo_receiver = bind_out (rt_schedule s') (fun _ => send_end c 32) /\
     msg s' 32 = 9 /\ peer s' 32 = c /\ ret_task s' 32 = NOTHING /\ state s' 32 = READY /\
     ready_list s' (insert_after (fun y => priority demo_receiver y <=? priority demo_receiver 32) 32 [48])).
Proof. apply rt_send_if_delivers. Defined.

(** The task 32 called the running task 48, which received at once, and the
    task 64 waits for the semaphore 7, where 32 once waited alone. *)
Definition demo_return : RTAI :=
  run (rt_typed_sem_init (Sem 7) 0 CNT_SEM;;
       enqueue_blocked 32 (SemQueue (Sem 7)) 0;; dequeue_blocked 32;;
       enqueue_blocked 64 (SemQueue (Sem 7)) 0;;
       wr state 64 (Z.lor READY SEMAPHORE);; wr sem_count (Sem 7) (-1))
    (new_task 64 2 demo_receiver)
  <| state ::= <[32 := Z.lor READY RETURN]> |> <| q_task ::= <[MsgQueue 32 := 48]> |>.

Lemma rt_return_drops_waiters_witness :
  exists s', schedules (rt_return 32 5 demo_return) s' 32 /\ wait_queue s' (SemQueue (Sem 7)) [] /\
    sem_count s' (Sem 7) = sem_count demo_return (Sem 7) /\
    forall x, x ∈ [64] -> blocked_on s' x = blocked_on demo_return x /\ state s' x = state demo_return x.
Proof.
  apply (rt_return_drops_waiters demo_return 32 5 (Sem 7) [64] [48]);
    [by_eval|by_eval|by_eval|by_eval|by_eval| |not_in|by_eval|by_eval|solve_ring|fits_eval|not_in
    |by_eval|by_eval|by_eval|lock_first_eval].
  split; [solve_ring|]. intros t Ht. apply list_elem_of_singleton in Ht as ->. by_eval.
Defined.

(** The task 48 has sent 9 to the task 32, which runs. *)
Definition demo_sent : RTAI :=
  run (wr msg 48 9;; enqueue_blocked 48 (MsgQueue 32) 0;; set_peer 48 32;; add_state 48 SEND;; rem_ready_current 48)
    demo_run <| rt_smp_current := 32 |>.

Lemma send_receive_roundtrip_witness :
  (exists s1, rt_send 32 9 demo_run = (rt_schedule;; send_end 48 32) s1 /\ waits_to_send s1 48 32 9 /\
     wait_queue s1 (MsgQueue 32) [48] /\ ready_list s1 [32]) /\
  (exists s2, rt_receive 0 demo_sent ≡ (rt_schedule;; received 32 9) s2 /\
     rt_receive_if 0 demo_sent ≡ (rt_schedule;; received 32 9) s2 /\
     state s2 48 = READY /\ peer s2 48 = 48 /\ peer s2 32 = 48 /\ wait_queue s2 (MsgQueue 32) [] /\
     ready_list s2 [32; 48]) /\
  exists s4, received 32 9 (demo_sent <| q_task ::= <[MsgQueue 32 := 48]> |>) = Done (48, Some 9) s4.
Proof.
  destruct (send_receive_roundtrip demo_run 32 9 [] [32] []) as (H1 & H2 & _ & H4);
    [by_eval|by_eval|by_eval|by_eval|by_eval| |fits_eval|not_in|by_eval|solve_ring|].
  { split; [solve_ring|]. intros x Hx. by apply not_elem_of_nil in Hx. }
  split; [exact H1|]. split; [|eexists; apply H4; [by_eval|by_eval|left; by_eval]].
  apply (H2 demo_sent [] [32]); [by_eval|split_and!; by_eval| |solve_ring|fits_eval|not_in|by_eval|by_eval|by_eval|lock_first_eval].
  split; [solve_ring|]. intros x Hx. apply list_elem_of_singleton in Hx as ->. by_eval.
Defined.
