(* ===== verification/SchedMsgx.v ===== *)
(** SchedMsgx: extended messages.

    The section EXTENDED MESSAGES of [newlxrt/scheduler/rtai_sched.c]: the
    message that [SchedMsg]'s services exchange is the address of a control
    block, [struct mcb_t], that names the buffer with the bytes to send and
    the buffer for the reply.  The control block of a call is on the stack of
    the caller; that of a message is in the task it is sent to. *)

From S2P Require Import Prelude Memory Resume DList SchedState SchedQueues Schedule SchedTask SchedSem SchedMsg.

(** [struct mcb_t], by address; the bytes of memory; the scheduler. *)
Record MSGX : Type := mkMSGX {
  mcb_sbuf : Z -> Z;
  mcb_sbytes : Z -> Z;
  mcb_rbuf : Z -> Z;
  mcb_rbytes : Z -> Z;
  mem : Z -> Z;
  sched : RTAI
}.

#[export] Instance MSGX_eta : Eta MSGX := fun s =>
  mkMSGX (mcb_sbuf s) (mcb_sbytes s) (mcb_rbuf s) (mcb_rbytes s) (mem s) (sched s).

#[export] Instance set_mcb_sbuf : Setter mcb_sbuf := ltac:(mk_setter).
#[export] Instance set_mcb_sbytes : Setter mcb_sbytes := ltac:(mk_setter).
#[export] Instance set_mcb_rbuf : Setter mcb_rbuf := ltac:(mk_setter).
#[export] Instance set_mcb_rbytes : Setter mcb_rbytes := ltac:(mk_setter).
#[export] Instance set_mem : Setter mem := ltac:(mk_setter).
#[export] Instance set_sched : Setter sched := ltac:(mk_setter).

Abbreviation X A := (M MSGX A).

(** [memcpy(dst, src, n)]: a negative size is not one of an object, and
    nothing can be said. *)
Definition memcpy (dst src n : Z) : X unit :=
  if n <? 0 then stuck else modify (fun s => s <| mem ::= fun m => copied m dst src n |>).

Definition set_mcb (mcb sbuf sbytes rbuf rbytes : Z) : X unit :=
  wr mcb_sbuf mcb sbuf;; wr mcb_sbytes mcb sbytes;; wr mcb_rbuf mcb rbuf;; wr mcb_rbytes mcb rbytes.

(** * Calls

    [mcb]: the address of the variable on the stack of the caller; the result
    of the call is stored in its field [rbytes]. *)

Definition rpcx_with (call : K (Z * option Z)) (mcb : Z) : X Z :=
  '(r, result) ← lift sched call;
  match result with Some v => wr mcb_rbytes mcb v | None => mret tt end;;
  mret r.

Definition rt_rpcx (mcb task smsg rmsg ssize rsize : Z) : X Z :=
  if nz task then set_mcb mcb smsg ssize rmsg rsize;; rpcx_with (rt_rpc task mcb) mcb else mret 0.

Definition rt_rpcx_if (mcb task smsg rmsg ssize rsize : Z) : X Z :=
  if nz task then set_mcb mcb smsg ssize rmsg rsize;; rpcx_with (rt_rpc_if task mcb) mcb else mret 0.

Definition rt_rpcx_until (mcb task smsg rmsg ssize rsize time : Z) : X Z :=
  if nz task then set_mcb mcb smsg ssize rmsg rsize;; rpcx_with (rt_rpc_until task mcb time) mcb
  else mret 0.

Definition rt_rpcx_timed (mcb task smsg rmsg ssize rsize delay : Z) : X Z :=
  if nz task then set_mcb mcb smsg ssize rmsg rsize;; rpcx_with (rt_rpc_timed task mcb delay) mcb
  else mret 0.

Definition rt_returnx (task msg_ size : Z) : X Z :=
  if nz task then
    s ← get;
    let mcb := msg (sched s) task in
    let size := if mcb_rbytes s mcb <? size then mcb_rbytes s mcb else size in
    when (nz size) (memcpy (mcb_rbuf s mcb) msg_ size);;
    lift sched (rt_return task 0)
  else mret 0.

(** * Messages *)

Section Sendx.
(** The place of the field [mcb] in a task. *)
Context (offsetof_mcb : Z).

Definition task_mcb (task : Z) : Z := task + offsetof_mcb.

Definition set_send_mcb (task msg_ size : Z) : X unit := set_mcb (task_mcb task) msg_ size 0 0.

Definition rt_sendx (task msg_ size : Z) : X Z :=
  if nz task then set_send_mcb task msg_ size;; lift sched (rt_send task (task_mcb task)) else mret 0.

Definition rt_sendx_if (task msg_ size : Z) : X Z :=
  if nz task then set_send_mcb task msg_ size;; lift sched (rt_send_if task (task_mcb task)) else mret 0.

Definition rt_sendx_until (task msg_ size time : Z) : X Z :=
  if nz task then set_send_mcb task msg_ size;; lift sched (rt_send_until task (task_mcb task) time)
  else mret 0.

Definition rt_sendx_timed (task msg_ size delay : Z) : X Z :=
  if nz task then set_send_mcb task msg_ size;; lift sched (rt_send_timed task (task_mcb task) delay)
  else mret 0.
End Sendx.

(** * Receiving

    The result is the task, and what is stored in [*len]. *)

Definition do_rcv_msg (mcb msg_ size : Z) : X Z :=
  s ← get;
  let len := if size <=? mcb_sbytes s mcb then size else mcb_sbytes s mcb in
  when (nz len) (memcpy msg_ (mcb_sbuf s mcb) len);;
  mret len.

(** [if ((task = receive(task, &mcb))) { DO_RCV_MSG(); return task; } return 0;]:
    if [receive] does not store it, [mcb] is an uninitialised pointer. *)
Definition receivex_with (receive : K (Z * option Z)) (msg_ size : Z) : X (Z * option Z) :=
  '(task, mcb) ← lift sched receive;
  if nz task then
    mcb ← of_option mcb;
    len ← do_rcv_msg mcb msg_ size;
    mret (task, Some len)
  else mret (0, None).

Definition rt_evdrpx (task msg_ size : Z) : X (Z * option Z) :=
  receivex_with (s ← get; mret (rt_evdrp s task)) msg_ size.

Definition rt_receivex (task msg_ size : Z) : X (Z * option Z) :=
  receivex_with (rt_receive task) msg_ size.

Definition rt_receivex_if (task msg_ size : Z) : X (Z * option Z) :=
  receivex_with (rt_receive_if task) msg_ size.

Definition rt_receivex_until (task msg_ size time : Z) : X (Z * option Z) :=
  receivex_with (rt_receive_until task time) msg_ size.

Definition rt_receivex_timed (task msg_ size delay : Z) : X (Z * option Z) :=
  receivex_with (rt_receive_timed task delay) msg_ size.

(** * Properties *)

Section MsgxLemmas.
Implicit Types (s : MSGX) (t c a n size : Z).

Lemma memcpy_spec dst src n s :
  0 <= n -> memcpy dst src n s = Done tt (s <| mem := copied (mem s) dst src n |>).
Proof. intros Hn. unfold memcpy. rewrite (proj2 (Z.ltb_ge _ _)) by done. run_m. by destruct s. Qed.

(** At most [size] bytes are taken, and at most what was sent. *)
Lemma do_rcv_msg_spec mcb buf size s :
  0 <= size -> 0 <= mcb_sbytes s mcb ->
  exists m', do_rcv_msg mcb buf size s = Done (Z.min size (mcb_sbytes s mcb)) (s <| mem := m' |>) /\
    forall a, m' a = copied (mem s) buf (mcb_sbuf s mcb) (Z.min size (mcb_sbytes s mcb)) a.
Proof.
  intros H1 H2. unfold do_rcv_msg. run_m.
  replace (if size <=? mcb_sbytes s mcb then size else mcb_sbytes s mcb) with (Z.min size (mcb_sbytes s mcb))
    by (destruct (Z.leb_spec size (mcb_sbytes s mcb)); lia).
  set (n := Z.min _ _). assert (0 <= n) by lia. destruct (Z.eqb_spec n 0) as [->|Hn].
  - change (nz 0) with false. run_m. exists (mem s). split; [by destruct s|]. intros a. by rewrite copied_0.
  - rewrite (proj2 (nz_true n)) by done. run_m. rewrite memcpy_spec by done. cbn [bind_out]. by eexists.
Qed.
End MsgxLemmas.

Section MsgxProperties.
Implicit Types (s : MSGX) (t c a n size : Z).

(** What [rt_evdrpx] finds: the first sender that waits, and its message. *)
Lemma rt_evdrpx_spec s c t buf size mcb :
  rt_smp_current (sched s) = t -> sender (sched s) 0 t = c -> sending (sched s) c t = true -> c <> 0 ->
  msg (sched s) c = mcb -> 0 <= size -> 0 <= mcb_sbytes s mcb ->
  exists m', rt_evdrpx 0 buf size s = Done (c, Some (Z.min size (mcb_sbytes s mcb))) (s <| mem := m' |>) /\
    forall a, m' a = copied (mem s) buf (mcb_sbuf s mcb) (Z.min size (mcb_sbytes s mcb)) a.
Proof.
  intros Hcur Hs Hsend Hc Hm H1 H2. unfold rt_evdrpx, receivex_with, lift. run_m. unfold rt_evdrp.
  change (nz 0) with false. cbn [andb]. rewrite Hcur, Hs, Hsend. cbn [lift_out bind_out].
  rewrite (proj2 (nz_true c)), Hm by done. run_m.
  replace (s <| sched := sched s |>) with s by (by destruct s).
  destruct (do_rcv_msg_spec mcb buf size s) as (m' & -> & Hm'); [done|done|]. cbn [bind_out]. by exists m'.
Qed.

(** C36: a reply is cut to the room the caller has for it: exactly the bytes
    of the reply that fit are written to the caller's buffer, and nothing
    else is. *)
Theorem rt_returnx_bounded s t buf size :
  t <> 0 -> let mcb := msg (sched s) t in let n := Z.min size (mcb_rbytes s mcb) in
  0 <= size -> 0 <= mcb_rbytes s mcb ->
  exists m', rt_returnx t buf size s = lift sched (rt_return t 0) (s <| mem := m' |>) /\
    (forall i, 0 <= i < n -> m' (mcb_rbuf s mcb + i) = mem s (buf + i)) /\
    (forall a, ~ (mcb_rbuf s mcb <= a < mcb_rbuf s mcb + n) -> m' a = mem s a).
Proof.
  intros Ht mcb n H1 H2. unfold rt_returnx. rewrite (proj2 (nz_true t)) by done. run_m. fold mcb.
  replace (if mcb_rbytes s mcb <? size then mcb_rbytes s mcb else size) with n
    by (unfold n; destruct (Z.ltb_spec (mcb_rbytes s mcb) size); lia).
  assert (0 <= n) by (unfold n; lia).
  destruct (Z.eqb_spec n 0) as [E|Hn].
  - exists (mem s). rewrite E. change (nz 0) with false. run_m. split_and!; [by destruct s|lia|done].
  - exists (copied (mem s) (mcb_rbuf s mcb) buf n). rewrite (proj2 (nz_true n)) by done. run_m.
    rewrite memcpy_spec by done. split_and!; [done|intros i Hi; by apply copied_inside|].
    intros a Ha. by apply copied_outside.
Qed.

(** The bytes sent arrive: a task that sends to a task that does not
    receive waits, and the receiver then finds its name and, in its own
    buffer, as many of the bytes as there is room for. *)
Theorem sendx_evdrpx_roundtrip off s t buf buf' size n l1 l2 :
  let c := rt_smp_current (sched s) in
  c <> t -> c <> 0 -> t <> 0 -> 0 <= n -> 0 <= size ->
  magic (sched s) t = RT_TASK_MAGIC -> receiving (sched s) t c = false -> state (sched s) c = READY ->
  is_hard (sched s) c <> 0 -> wait_queue (sched s) (MsgQueue t) [] -> q_task (sched s) (Queue c) = c ->
  ready_list (sched s) (l1 ++ c :: l2) ->
  exists s1, rt_sendx off t buf size s =
      lift_out sched s1 (bind_out (rt_schedule (sched s1)) (fun _ => send_end c t)) /\
    mem s1 = mem s /\ wait_queue (sched s1) (MsgQueue t) [c] /\
    let s2 := s1 <| sched ::= (fun σ => σ <| rt_smp_current := t |>) |> in
    exists m', rt_evdrpx 0 buf' n s2 = Done (c, Some (Z.min n size)) (s2 <| mem := m' |>) /\
      forall a, m' a = copied (mem s) buf' buf (Z.min n size) a.
Proof.
  intros c Hct Hc0 Ht0 Hn Hsize Hm Hrc Hst Hh Hw Htt Hr.
  destruct (rt_send_blocks (sched s) t (task_mcb off t) [] l1 l2)
    as (σ & E & (Est & Epeer & Emsg) & W & _);
    [done|done|done|done|exact Hw|by vm_compute; lia|by apply not_elem_of_nil|done|done|].
  fold c in E, W, Est, Emsg, Epeer. change (insert_blocked _ 0 c []) with [c] in W.
  unfold rt_sendx. rewrite (proj2 (nz_true t)) by done. unfold set_send_mcb, set_mcb. run_m.
  set (s0 := s <| mcb_sbuf ::= _ |> <| mcb_sbytes ::= _ |> <| mcb_rbuf ::= _ |> <| mcb_rbytes ::= _ |>).
  exists (s0 <| sched := σ |>). split; [|split; [done|split; [done|]]].
  - unfold lift. change (sched s0) with (sched s). rewrite E. state_simpl.
    unfold mbind, M_bind. generalize (bind_out (rt_schedule σ) (fun _ => send_end c t)). intros o. destruct o; by destruct s0.
  - set (s2 := s0 <| sched := σ |> <| sched ::= _ |>).
    assert (Ebuf : mcb_sbuf s2 (task_mcb off t) = buf) by apply upd_eq.
    assert (Elen : mcb_sbytes s2 (task_mcb off t) = size) by apply upd_eq.
    destruct (rt_evdrpx_spec s2 c t buf' n (task_mcb off t)) as (m' & E' & Hm').
    + done.
    + unfold sender. change (nz 0) with false. destruct W as [Hring Hq].
      transitivity (q_task σ (q_next σ (MsgQueue t))); [done|]. rewrite (ring_next _ _ _ _ Hring). apply Hq. by left.
    + unfold sending. transitivity (has (state σ c) (Z.lor SEND RPC) && (peer σ c =? t)); [done|].
      by rewrite Est, Epeer, Z.eqb_refl.
    + done.
    + transitivity (msg σ c); [done|]. exact Emsg.
    + done.
    + by rewrite Elen.
    + rewrite Ebuf, Elen in *. exists m'. split; [done|]. exact Hm'.
Qed.

(** [rt_sendx_if] to a task that does not receive sends nothing and says
    so, but replaces what other tasks sent to that task before: a task that
    waits with its message is still found, and its bytes are those of the
    message that was refused. *)
Theorem rt_sendx_if_clobbers off s t x buf size buf' n :
  t <> 0 -> x <> 0 -> 0 <= n -> 0 <= size ->
  magic (sched s) t = RT_TASK_MAGIC -> receiving (sched s) t (rt_smp_current (sched s)) = false ->
  sender (sched s) 0 t = x -> sending (sched s) x t = true -> msg (sched s) x = task_mcb off t ->
  exists s1, rt_sendx_if off t buf size s = Done 0 s1 /\ mem s1 = mem s /\ sched s1 = sched s /\
    let s2 := s1 <| sched ::= (fun σ => σ <| rt_smp_current := t |>) |> in
    exists m', rt_evdrpx 0 buf' n s2 = Done (x, Some (Z.min n size)) (s2 <| mem := m' |>) /\
      forall a, m' a = copied (mem s) buf' buf (Z.min n size) a.
Proof.
  intros Ht0 Hx0 Hn Hsize Hm Hrc Hsnd Hsending Hmsg.
  unfold rt_sendx_if. rewrite (proj2 (nz_true t)) by done. unfold set_send_mcb, set_mcb. run_m.
  set (s0 := s <| mcb_sbuf ::= _ |> <| mcb_sbytes ::= _ |> <| mcb_rbuf ::= _ |> <| mcb_rbytes ::= _ |>).
  exists s0. split; [|split; [done|split; [done|]]].
  - unfold lift, rt_send_if. change (sched s0) with (sched s). run_m. by rewrite Hm, Z.eqb_refl, Hrc.
  - set (s2 := s0 <| sched ::= _ |>).
    assert (Ebuf : mcb_sbuf s2 (task_mcb off t) = buf) by apply upd_eq.
    assert (Elen : mcb_sbytes s2 (task_mcb off t) = size) by apply upd_eq.
    destruct (rt_evdrpx_spec s2 x t buf' n (task_mcb off t)) as (m' & E' & Hm');
      [done|exact Hsnd|exact Hsending|done|exact Hmsg|done|by rewrite Elen|].
    rewrite Ebuf, Elen in *. exists m'. split; [done|]. exact Hm'.
Qed.

(** [rt_receive] reports an argument that is not a task, and stores no
    message; [rt_receivex] does not test for it, and uses a control block
    that was never set. *)
Theorem rt_receivex_bad_task s t buf size time :
  t <> 0 -> magic (sched s) t <> RT_TASK_MAGIC ->
  rt_receive t (sched s) = Done (MSG_ERR, None) (sched s) /\
  rt_receivex t buf size s = Stuck /\ rt_receivex_if t buf size s = Stuck /\
  rt_receivex_until t buf size time s = Stuck /\ rt_evdrpx t buf size s = Stuck.
Proof.
  intros Ht Hm. apply nz_true in Ht. apply Z.eqb_neq in Hm.
  assert (E : rt_receive t (sched s) = Done (MSG_ERR, None) (sched s))
    by (unfold rt_receive; step_m; by rewrite Ht, Hm).
  unfold rt_receivex, rt_receivex_if, rt_receivex_until, rt_evdrpx, receivex_with, lift. run_m.
  split_and!; [done|by rewrite E| | |].
  - unfold rt_receive_if. step_m. by rewrite Ht, Hm.
  - unfold rt_receive_until. step_m. by rewrite Ht, Hm.
  - unfold rt_evdrp. by rewrite Ht, Hm.
Qed.
End MsgxProperties.

(** * Witnesses *)

(** The bytes at 9000 are 1, 2, 3, ...; control blocks are at offset 400 of a
    task. *)
Definition demo_msgx (σ : RTAI) : MSGX :=
  mkMSGX (fun _ => 0) (fun _ => 0) (fun _ => 9500) (fun _ => 2) (fun a => a - 8999) σ.

Lemma rt_returnx_bounded_witness :
  let s := demo_msgx demo_return in
  32 <> 0 /\ exists m', rt_returnx 32 9000 3 s = lift sched (rt_return 32 0) (s <| mem := m' |>) /\
    (forall i, 0 <= i < Z.min 3 (mcb_rbytes s (msg (sched s) 32)) ->
       m' (mcb_rbuf s (msg (sched s) 32) + i) = mem s (9000 + i)) /\
    (forall a, ~ (mcb_rbuf s (msg (sched s) 32) <= a <
                  mcb_rbuf s (msg (sched s) 32) + Z.min 3 (mcb_rbytes s (msg (sched s) 32))) ->
       m' a = mem s a).
Proof. split; [done|]. apply (rt_returnx_bounded (demo_msgx demo_return) 32 9000 3); by_eval. Defined.

Lemma sendx_evdrpx_roundtrip_witness :
  let s := demo_msgx demo_run in
  let c := rt_smp_current (sched s) in
  exists s1, rt_sendx 400 32 9000 3 s =
      lift_out sched s1 (bind_out (rt_schedule (sched s1)) (fun _ => send_end c 32)) /\
    mem s1 = mem s /\ wait_queue (sched s1) (MsgQueue 32) [c] /\
    let s2 := s1 <| sched ::= (fun σ => σ <| rt_smp_current := 32 |>) |> in
    exists m', rt_evdrpx 0 9100 8 s2 = Done (c, Some (Z.min 8 3)) (s2 <| mem := m' |>) /\
      forall a, m' a = copied (mem s) 9100 9000 (Z.min 8 3) a.
Proof.
  apply (sendx_evdrpx_roundtrip 400 (demo_msgx demo_run) 32 9000 9100 3 8 [32] []);
    [by_eval|by_eval|by_eval|by_eval|by_eval|by_eval|by_eval|by_eval|by_eval| |by_eval|solve_ring].
  split; [solve_ring|]. intros x Hx. by apply not_elem_of_nil in Hx.
Defined.

(** The task 48 waits for the task 32, which another one sends to. *)
Definition demo_sendx : RTAI :=
  run (enqueue_blocked 48 (MsgQueue 32) 0;; wr state 48 (Z.lor READY SEND);; set_peer 48 32;; wr msg 48 432)
    demo_run <| rt_smp_current := 64 |>.

Lemma rt_sendx_if_clobbers_witness :
  let s := demo_msgx demo_sendx in
  exists s1, rt_sendx_if 400 32 9000 3 s = Done 0 s1 /\ mem s1 = mem s /\ sched s1 = sched s /\
    let s2 := s1 <| sched ::= (fun σ => σ <| rt_smp_current := 32 |>) |> in
    exists m', rt_evdrpx 0 9100 8 s2 = Done (48, Some (Z.min 8 3)) (s2 <| mem := m' |>) /\
      forall a, m' a = copied (mem s) 9100 9000 (Z.min 8 3) a.
Proof.
  apply (rt_sendx_if_clobbers 400 (demo_msgx demo_sendx) 32 48 9000 3 9100 8); by_eval.
Defined.

Lemma rt_receivex_bad_task_witness :
  let s := demo_msgx demo_run in
  rt_receive 7 (sched s) = Done (MSG_ERR, None) (sched s) /\
  rt_receivex 7 9000 3 s = Stuck /\ rt_receivex_if 7 9000 3 s = Stuck /\
  rt_receivex_until 7 9000 3 5 s = Stuck /\ rt_evdrpx 7 9000 3 s = Stuck.
Proof. apply (rt_receivex_bad_task (demo_msgx demo_run) 7 9000 3 5); by_eval. Defined.
