(* ===== verification/CircBuf.v ===== *)
(** CircBuf: the circular byte buffer of a mailbox.

    [mbxput], [mbxget], [mbxevdrp] and [mbxovrwrput] of
    [newlxrt/scheduler/rtai_sched.c], on the buffer fields of a mailbox.  A
    [memcpy] outside the buffer is an error ([None]), and so is a loop that
    does not end; the theorems show that neither happens, and that a buffer
    is a bounded queue of bytes.  The fifos have the same buffer. *)

From S2P Require Import Prelude.

Record mbuf : Type := mkMbuf {
  size : Z;          (* of the buffer *)
  fbyte : Z;         (* index of the first byte *)
  lbyte : Z;         (* index after the last byte *)
  avbs : Z;          (* bytes available to read *)
  frbs : Z;          (* bytes free to write *)
  bufadr : list Z
}.

(** * Memory *)

(** [memcpy(adr + off, src, n)] and [memcpy(dst, adr + off, n)] *)
Definition mem_write (adr : list Z) (off : Z) (src : list Z) (n : Z) : option (list Z) :=
  if (0 <=? off) && (0 <=? n) && (off + n <=? Z.of_nat (length adr)) &&
     (n <=? Z.of_nat (length src))
  then Some (take (Z.to_nat off) adr ++ take (Z.to_nat n) src ++ drop (Z.to_nat (off + n)) adr)
  else None.

Definition mem_read (adr : list Z) (off n : Z) : option (list Z) :=
  if (0 <=? off) && (0 <=? n) && (off + n <=? Z.of_nat (length adr))
  then Some (take (Z.to_nat n) (drop (Z.to_nat off) adr))
  else None.

(** * Operations *)

Definition MOD_SIZE (mbx : mbuf) (indx : Z) : Z :=
  if indx <? size mbx then indx else indx - size mbx.

(** [if ((tocpy = room) > msg_size) tocpy = msg_size; if (tocpy > bytes)
    tocpy = bytes;] *)
Definition chunk (room msg_size bytes : Z) : Z :=
  let tocpy := if room >? msg_size then msg_size else room in
  if tocpy >? bytes then bytes else tocpy.

(** One turn of the loop of [mbxput]: the bytes copied, and the buffer. *)
Definition put_chunk (mbx : mbuf) (msg : list Z) (msg_size : Z) : option (Z * mbuf) :=
  let tocpy := chunk (size mbx - lbyte mbx) msg_size (frbs mbx) in
  adr ← mem_write (bufadr mbx) (lbyte mbx) msg tocpy;
  Some (tocpy, mkMbuf (size mbx) (fbyte mbx) (MOD_SIZE mbx (lbyte mbx + tocpy))
                 (avbs mbx + tocpy) (frbs mbx - tocpy) adr).

(** The result is the bytes that did not fit and their number. *)
Fixpoint mbxput_loop (fuel : nat) (mbx : mbuf) (msg : list Z) (msg_size : Z)
    : option (mbuf * list Z * Z) :=
  if (msg_size >? 0) && nz (frbs mbx) then
    match fuel with
    | O => None
    | S fuel' =>
        '(tocpy, mbx) ← put_chunk mbx msg msg_size;
        mbxput_loop fuel' mbx (drop (Z.to_nat tocpy) msg) (msg_size - tocpy)
    end
  else Some (mbx, msg, msg_size).

Definition mbxput (mbx : mbuf) (msg : list Z) (msg_size : Z) : option (mbuf * list Z * Z) :=
  mbxput_loop (Z.to_nat msg_size) mbx msg msg_size.

(** The first [tocpy] bytes are removed. *)
Definition get_chunk (mbx : mbuf) (tocpy : Z) : mbuf :=
  mkMbuf (size mbx) (MOD_SIZE mbx (fbyte mbx + tocpy)) (lbyte mbx)
    (avbs mbx - tocpy) (frbs mbx + tocpy) (bufadr mbx).

(** [mbxget] stores what it reads after [out]. *)
Fixpoint mbxget_loop (fuel : nat) (mbx : mbuf) (out : list Z) (msg_size : Z)
    : option (mbuf * list Z * Z) :=
  if (msg_size >? 0) && nz (avbs mbx) then
    match fuel with
    | O => None
    | S fuel' =>
        let tocpy := chunk (size mbx - fbyte mbx) msg_size (avbs mbx) in
        bytes ← mem_read (bufadr mbx) (fbyte mbx) tocpy;
        mbxget_loop fuel' (get_chunk mbx tocpy) (out ++ bytes) (msg_size - tocpy)
    end
  else Some (mbx, out, msg_size).

Definition mbxget (mbx : mbuf) (msg_size : Z) : option (mbuf * list Z * Z) :=
  mbxget_loop (Z.to_nat msg_size) mbx [] msg_size.

(** Reading without removing, on local copies of [fbyte] and [avbs]. *)
Fixpoint mbxevdrp_loop (fuel : nat) (mbx : mbuf) (fbyte avbs : Z) (out : list Z) (msg_size : Z)
    : option (list Z * Z) :=
  if (msg_size >? 0) && nz avbs then
    match fuel with
    | O => None
    | S fuel' =>
        let tocpy := chunk (size mbx - fbyte) msg_size avbs in
        bytes ← mem_read (bufadr mbx) fbyte tocpy;
        mbxevdrp_loop fuel' mbx (MOD_SIZE mbx (fbyte + tocpy)) (avbs - tocpy)
          (out ++ bytes) (msg_size - tocpy)
    end
  else Some (out, msg_size).

Definition mbxevdrp (mbx : mbuf) (msg_size : Z) : option (list Z * Z) :=
  mbxevdrp_loop (Z.to_nat msg_size) mbx (fbyte mbx) (avbs mbx) [] msg_size.

(** The inner loop of [mbxovrwrput]: the oldest bytes are dropped until the
    message fits. *)
Fixpoint ovrwr_drop (fuel : nat) (mbx : mbuf) (msg_size : Z) : option mbuf :=
  let n := msg_size - frbs mbx in
  if n >? 0 then
    match fuel with
    | O => None
    | S fuel' =>
        let tocpy := chunk (size mbx - fbyte mbx) n (avbs mbx) in
        ovrwr_drop fuel' (get_chunk mbx tocpy) msg_size
    end
  else Some mbx.

Definition ovrwr_put (mbx : mbuf) (msg : list Z) (msg_size : Z) : option (mbuf * list Z * Z) :=
  if nz (frbs mbx) then
    '(tocpy, mbx) ← put_chunk mbx msg msg_size;
    Some (mbx, drop (Z.to_nat tocpy) msg, msg_size - tocpy)
  else Some (mbx, msg, msg_size).

Definition ovrwr_room (mbx : mbuf) (msg_size : Z) : option mbuf :=
  if nz msg_size then ovrwr_drop (Z.to_nat msg_size) mbx msg_size else Some mbx.

Fixpoint ovrwr_loop (fuel : nat) (mbx : mbuf) (msg : list Z) (msg_size : Z) : option mbuf :=
  if msg_size >? 0 then
    match fuel with
    | O => None
    | S fuel' =>
        '(mbx, msg, msg_size) ← ovrwr_put mbx msg msg_size;
        mbx ← ovrwr_room mbx msg_size;
        ovrwr_loop fuel' mbx msg msg_size
    end
  else Some mbx.

(** A message longer than the buffer loses its beginning. *)
Definition mbxovrwrput (mbx : mbuf) (msg : list Z) (msg_size : Z) : option mbuf :=
  let n := msg_size - size mbx in
  let '(msg, msg_size) :=
    if n >? 0 then (drop (Z.to_nat n) msg, msg_size - n) else (msg, msg_size) in
  ovrwr_loop (S (Z.to_nat msg_size)) mbx msg msg_size.

(** * What a buffer holds

    [holds mbx c]: the bytes of [c] lie in the buffer from [fbyte] on, either
    in one piece, before free bytes [F], or in two, [c1] at the end of the
    buffer and [c2] at its start. *)

Definition in_one_piece (mbx : mbuf) (c A F : list Z) : Prop :=
  bufadr mbx = A ++ c ++ F /\ F <> [] /\
  fbyte mbx = Z.of_nat (length A) /\ lbyte mbx = Z.of_nat (length (A ++ c)).

Definition in_two_pieces (mbx : mbuf) (c c1 c2 F : list Z) : Prop :=
  c = c1 ++ c2 /\ bufadr mbx = c2 ++ F ++ c1 /\ c1 <> [] /\
  fbyte mbx = Z.of_nat (length (c2 ++ F)) /\ lbyte mbx = Z.of_nat (length c2).

Definition counters (mbx : mbuf) (c : list Z) : Prop :=
  size mbx = Z.of_nat (length (bufadr mbx)) /\ avbs mbx = Z.of_nat (length c) /\
  frbs mbx = size mbx - avbs mbx.

Definition holds (mbx : mbuf) (c : list Z) : Prop :=
  counters mbx c /\
  ((exists A F, in_one_piece mbx c A F) \/ (exists c1 c2 F, in_two_pieces mbx c c1 c2 F)).

(** * Copying *)

Section Memory.
Implicit Types (l a m : list Z) (n : Z).

Lemma chunk_min room n bytes : chunk room n bytes = Z.min (Z.min room n) bytes.
Proof. unfold chunk. repeat case_match; bool_prop; lia. Qed.

(** Writing over the middle of a list. *)
Lemma mem_write_app a l1 l2 m n :
  0 <= n -> n = Z.of_nat (length l1) -> n <= Z.of_nat (length m) ->
  mem_write (a ++ l1 ++ l2) (Z.of_nat (length a)) m n =
    Some (a ++ take (Z.to_nat n) m ++ l2).
Proof.
  intros H0 Hn Hm. unfold mem_write. rewrite !length_app.
  rewrite (proj2 (Z.leb_le 0 (Z.of_nat (length a)))), (proj2 (Z.leb_le 0 n)),
    (proj2 (Z.leb_le n _)) by lia.
  rewrite (proj2 (Z.leb_le _ (Z.of_nat _))) by lia. simpl.
  rewrite Nat2Z.id, take_app_length. f_equal. f_equal. f_equal.
  rewrite app_assoc, drop_app_length'; [done|]. rewrite length_app. lia.
Qed.

Lemma mem_read_app a l1 l2 n :
  n = Z.of_nat (length l1) ->
  mem_read (a ++ l1 ++ l2) (Z.of_nat (length a)) n = Some l1.
Proof.
  intros ->. unfold mem_read. rewrite !length_app.
  rewrite !(proj2 (Z.leb_le _ _)) by lia. simpl.
  by rewrite !Nat2Z.id, drop_app_length, take_app_length.
Qed.

(** A list cut after its first [n] elements. *)
Lemma cut l n :
  0 <= n <= Z.of_nat (length l) ->
  exists l1 l2, l = l1 ++ l2 /\ n = Z.of_nat (length l1) /\
    take (Z.to_nat n) l = l1 /\ drop (Z.to_nat n) l = l2.
Proof.
  intros H. exists (take (Z.to_nat n) l), (drop (Z.to_nat n) l).
  rewrite take_drop, length_take. split_and!; [done|lia|done..].
Qed.
End Memory.

(** * One turn of the loops *)

Section Turn.
Implicit Types (mbx : mbuf) (c m : list Z) (n k : Z).

Lemma holds_bounds mbx c :
  holds mbx c ->
  0 < size mbx /\ 0 <= fbyte mbx < size mbx /\ 0 <= lbyte mbx < size mbx /\
  0 <= avbs mbx <= size mbx /\ frbs mbx = size mbx - avbs mbx /\
  avbs mbx = Z.of_nat (length c).
Proof.
  intros [(Hs & Ha & Hf) [(A & F & Hb & HF & Hf' & Hl)|(c1 & c2 & F & -> & Hb & HF & Hf' & Hl)]];
    [destruct F as [|x F]|destruct c1 as [|x c1]]; try done;
    rewrite Hb, ?length_app in Hs; rewrite ?length_app in *; simpl in *; lia.
Qed.

Lemma MOD_SIZE_small mbx i : i < size mbx -> MOD_SIZE mbx i = i.
Proof. intros. unfold MOD_SIZE. by rewrite (proj2 (Z.ltb_lt _ _)). Qed.

Lemma MOD_SIZE_full mbx : MOD_SIZE mbx (size mbx) = 0.
Proof. unfold MOD_SIZE. rewrite Z.ltb_irrefl. lia. Qed.

(** A copy into the free bytes, up to the end of the buffer. *)
Lemma put_holds mbx c m k :
  holds mbx c -> 0 < k -> k <= size mbx - lbyte mbx -> k <= frbs mbx ->
  k <= Z.of_nat (length m) ->
  exists adr, mem_write (bufadr mbx) (lbyte mbx) m k = Some adr /\
    holds (mkMbuf (size mbx) (fbyte mbx) (MOD_SIZE mbx (lbyte mbx + k))
             (avbs mbx + k) (frbs mbx - k) adr) (c ++ take (Z.to_nat k) m).
Proof.
  intros Hh H0 Hr Hk Hm. pose proof (holds_bounds _ _ Hh) as (_ & _ & _ & _ & Hfr & Hav).
  destruct Hh as [(Hs & Ha & Hf) [(A & F & Hb & HF & Hf' & Hl)|(c1 & c2 & F & -> & Hb & HF & Hf' & Hl)]].
  - destruct (cut F k) as (F1 & F2 & -> & HF1 & _ & _).
    { rewrite Hb, !length_app in Hs. rewrite length_app in Hl. lia. }
    rewrite Hb, app_assoc, Hl. rewrite mem_write_app by lia. eexists. split; [done|].
    assert (Hlen : length (take (Z.to_nat k) m) = length F1) by (rewrite length_take; lia).
    rewrite Hb, !length_app in Hs. rewrite length_app in Hl.
    split; [unfold counters; simpl; rewrite !length_app, Hlen; lia|].
    destruct F2 as [|x F2].
    + right. exists (c ++ take (Z.to_nat k) m), [], A. unfold in_two_pieces. simpl.
      rewrite !app_nil_r, <- app_assoc. split_and!; [done|done| |done|].
      * destruct c; [|done]. simpl. intros E. rewrite E in Hlen. simpl in Hlen. lia.
      * rewrite length_app, HF1. simpl in Hs.
        replace (_ + _) with (size mbx) by lia. apply MOD_SIZE_full.
    + left. exists A, (x :: F2). unfold in_one_piece. simpl. rewrite <- !app_assoc.
      split_and!; [done|done|done|]. simpl in Hs.
      rewrite length_app, MOD_SIZE_small; rewrite ?length_app, ?Hlen; lia.
  - destruct (cut F k) as (F1 & F2 & -> & HF1 & _ & _).
    { rewrite Hb, !length_app in Hs. rewrite length_app in Ha. lia. }
    rewrite Hb, Hl, <- app_assoc, mem_write_app by lia. eexists. split; [done|].
    assert (Hlen : length (take (Z.to_nat k) m) = length F1) by (rewrite length_take; lia).
    rewrite Hb, !length_app in Hs. rewrite length_app in Ha.
    split; [unfold counters; simpl; rewrite !length_app, Hlen; lia|].
    right. exists c1, (c2 ++ take (Z.to_nat k) m), F2. unfold in_two_pieces. simpl.
    rewrite !length_app in Hf'. destruct c1 as [|x c1]; [done|]. simpl in Hs.
    rewrite <- !app_assoc, MOD_SIZE_small, !length_app, Hlen by lia.
    split_and!; [done|done|done|lia..].
Qed.

(** The bytes from [fbyte] on, up to the end of the buffer. *)
Lemma get_holds mbx c k :
  holds mbx c -> 0 < k -> k <= size mbx - fbyte mbx -> k <= avbs mbx ->
  mem_read (bufadr mbx) (fbyte mbx) k = Some (take (Z.to_nat k) c) /\
  holds (get_chunk mbx k) (drop (Z.to_nat k) c).
Proof.
  unfold get_chunk. intros Hh H0 Hr Hk. pose proof (holds_bounds _ _ Hh) as (_ & _ & _ & _ & Hfr & Hav).
  destruct Hh as [(Hs & Ha & Hf) [(A & F & Hb & HF & Hf' & Hl)|(c1 & c2 & F & -> & Hb & HF & Hf' & Hl)]].
  - destruct (cut c k) as (x & y & -> & Hx & -> & ->); [lia|].
    rewrite Hb, <- app_assoc, Hf', mem_read_app by done. split; [done|].
    rewrite Hb, !length_app in Hs. rewrite !length_app in *. split.
    + unfold counters. simpl. rewrite !length_app. lia.
    + left. exists (A ++ x), F. unfold in_one_piece. simpl. destruct F as [|z F]; [done|].
      simpl in Hs. rewrite <- !app_assoc, MOD_SIZE_small, !length_app by lia.
      split_and!; [done|done|lia..].
  - rewrite Hb, !length_app in Hs. rewrite !length_app in *.
    destruct (cut c1 k) as (x & y & -> & Hx & Et & Ed); [lia|].
    rewrite take_app_le, drop_app_le, Et, Ed, Hb, app_assoc by (rewrite ?length_app; lia).
    replace (fbyte mbx) with (Z.of_nat (length (c2 ++ F))) by (rewrite length_app; lia).
    rewrite mem_read_app by done. split; [done|]. rewrite !length_app in Hs. split.
    + unfold counters. simpl. rewrite !length_app in *. lia.
    + destruct y as [|z y].
      * left. exists [], (F ++ x). unfold in_one_piece. simpl.
        rewrite app_nil_r, <- !app_assoc. split_and!; [done| | |done].
        -- destruct F, x; done.
        -- simpl in Hs. rewrite length_app, Hx. replace (_ + _) with (size mbx) by lia.
           apply MOD_SIZE_full.
      * right. exists (z :: y), c2, (F ++ x). unfold in_two_pieces. simpl. simpl in Hs.
        rewrite MOD_SIZE_small by (rewrite length_app; lia).
        rewrite <- !app_assoc, !length_app. split_and!; [done|done|done|lia|done].
Qed.
End Turn.

(** * The loops *)

Section Loops.
Implicit Types (mbx : mbuf) (c m : list Z) (n : Z).

Lemma nat_pos n : n > 0 -> exists f, Z.to_nat n = S f.
Proof. intros. exists (Z.to_nat (n - 1)). lia. Qed.

Lemma take_split m i j : 0 <= i -> 0 <= j ->
  take (Z.to_nat i) m ++ take (Z.to_nat j) (drop (Z.to_nat i) m) = take (Z.to_nat (i + j)) m.
Proof. intros. rewrite take_take_drop. f_equal. lia. Qed.

Lemma drop_split m i j : 0 <= i -> 0 <= j ->
  drop (Z.to_nat j) (drop (Z.to_nat i) m) = drop (Z.to_nat (i + j)) m.
Proof. intros. rewrite drop_drop. f_equal. lia. Qed.

Lemma put_chunk_holds mbx c m n :
  holds mbx c -> 0 < n <= Z.of_nat (length m) -> frbs mbx <> 0 ->
  exists k mbx', put_chunk mbx m n = Some (k, mbx') /\ 0 < k <= Z.min n (frbs mbx) /\
    size mbx' = size mbx /\ frbs mbx' = frbs mbx - k /\
    holds mbx' (c ++ take (Z.to_nat k) m).
Proof.
  intros Hh Hn Hf. pose proof (holds_bounds _ _ Hh) as B. unfold put_chunk.
  rewrite chunk_min. set (k := Z.min _ _).
  destruct (put_holds mbx c m k Hh) as (adr & E & Hh'); [unfold k; lia..|].
  rewrite E. simpl. do 2 eexists. split_and!; [done|unfold k; lia|unfold k; lia|done|done|done].
Qed.

Lemma mbxput_loop_spec fuel mbx c m n :
  holds mbx c -> 0 <= n <= Z.of_nat (length m) -> (Z.to_nat n <= fuel)%nat ->
  let k := Z.min n (frbs mbx) in
  exists mbx', mbxput_loop fuel mbx m n = Some (mbx', drop (Z.to_nat k) m, n - k) /\
    size mbx' = size mbx /\ holds mbx' (c ++ take (Z.to_nat k) m).
Proof.
  revert mbx c m n. induction fuel as [|fuel IH]; intros mbx c m n Hh Hn Hf k;
    pose proof (holds_bounds _ _ Hh) as B.
  - assert (n = 0) as -> by lia. unfold k. rewrite Z.min_l by lia. simpl.
    rewrite drop_0, app_nil_r. by exists mbx.
  - cbn [mbxput_loop]. destruct (n >? 0) eqn:E; [destruct (nz (frbs mbx)) eqn:E'|];
      cbn [andb].
    + apply nz_true in E'. rewrite Z.gtb_lt in E.
      destruct (put_chunk_holds mbx c m n) as (j & mbx1 & -> & Hj & Hs & Hfr & Hh1); [done|lia..|].
      simpl. destruct (IH mbx1 (c ++ take (Z.to_nat j) m) (drop (Z.to_nat j) m) (n - j))
        as (mbx' & -> & Hs' & Hh'); [done|rewrite length_drop; lia|lia|].
      exists mbx'. rewrite <- app_assoc, take_split in Hh' by lia. rewrite drop_split by lia.
      unfold k. split_and!; [|by rewrite Hs'|]; [f_equal; f_equal; [f_equal; f_equal|]; lia|].
      by replace (Z.min n (frbs mbx)) with (j + Z.min (n - j) (frbs mbx1)) by lia.
    + apply nz_false in E'. unfold k. rewrite Z.min_r by lia. rewrite E'. simpl.
      rewrite drop_0, app_nil_r, Z.sub_0_r. by exists mbx.
    + rewrite Z.gtb_ltb, Z.ltb_ge in E. unfold k. rewrite Z.min_l by lia.
      assert (n = 0) as -> by lia. simpl. rewrite drop_0, app_nil_r. by exists mbx.
Qed.

Lemma get_chunk_holds mbx c n :
  holds mbx c -> 0 < n -> avbs mbx <> 0 ->
  let k := chunk (size mbx - fbyte mbx) n (avbs mbx) in
  0 < k <= Z.min n (avbs mbx) /\
  mem_read (bufadr mbx) (fbyte mbx) k = Some (take (Z.to_nat k) c) /\
  holds (get_chunk mbx k) (drop (Z.to_nat k) c).
Proof.
  intros Hh Hn Ha k. pose proof (holds_bounds _ _ Hh) as B. unfold k. rewrite chunk_min.
  split; [lia|]. apply get_holds; [done|lia..].
Qed.

Lemma mbxget_loop_spec fuel mbx c out n :
  holds mbx c -> 0 <= n -> (Z.to_nat n <= fuel)%nat ->
  let k := Z.min n (avbs mbx) in
  exists mbx', mbxget_loop fuel mbx out n = Some (mbx', out ++ take (Z.to_nat k) c, n - k) /\
    size mbx' = size mbx /\ holds mbx' (drop (Z.to_nat k) c).
Proof.
  revert mbx c out n. induction fuel as [|fuel IH]; intros mbx c out n Hh Hn Hf k;
    pose proof (holds_bounds _ _ Hh) as B.
  - assert (n = 0) as -> by lia. unfold k. rewrite Z.min_l by lia. simpl.
    rewrite drop_0, app_nil_r. by exists mbx.
  - cbn [mbxget_loop]. destruct (n >? 0) eqn:E; [destruct (nz (avbs mbx)) eqn:E'|];
      cbn [andb].
    + apply nz_true in E'. rewrite Z.gtb_lt in E.
      destruct (get_chunk_holds mbx c n) as (Hj & Hr & Hh1); [done|lia|done|]. cbv zeta.
      set (j := chunk _ _ _) in *. rewrite Hr. simpl.
      destruct (IH (get_chunk mbx j) (drop (Z.to_nat j) c) (out ++ take (Z.to_nat j) c) (n - j))
        as (mbx' & -> & Hs' & Hh'); [exact Hh1|lia|lia|]; simpl in *.
      exists mbx'. rewrite <- app_assoc, take_split by lia. rewrite drop_split in Hh' by lia.
      unfold k. split_and!; [|by rewrite Hs'|]; [f_equal; f_equal; [f_equal; f_equal; f_equal|]; lia|].
      by replace (Z.min n (avbs mbx)) with (j + Z.min (n - j) (avbs mbx - j)) by lia.
    + apply nz_false in E'. unfold k. rewrite Z.min_r by lia. rewrite E'. simpl.
      rewrite drop_0, app_nil_r, Z.sub_0_r. by exists mbx.
    + rewrite Z.gtb_ltb, Z.ltb_ge in E. unfold k. rewrite Z.min_l by lia.
      assert (n = 0) as -> by lia. simpl. rewrite drop_0, app_nil_r. by exists mbx.
Qed.

(** [mbxevdrp] reads what [mbxget] would. *)
Lemma mbxevdrp_loop_get fuel mbx f a l r b out n :
  mbxevdrp_loop fuel mbx f a out n =
    (fun '(_, out, n) => (out, n)) <$>
      mbxget_loop fuel (mkMbuf (size mbx) f l a r b) out n \/ b <> bufadr mbx.
Proof.
  destruct (decide (b = bufadr mbx)) as [->|]; [left|by right].
  revert f a r out n. induction fuel as [|fuel IH]; intros f a r out n; simpl.
  - by destruct (_ && _).
  - destruct (_ && _); [|done]. destruct (mem_read _ _ _); [|done]. simpl. apply IH.
Qed.

Lemma mbxevdrp_get mbx n :
  mbxevdrp mbx n = (fun '(_, out, n) => (out, n)) <$> mbxget mbx n.
Proof.
  unfold mbxevdrp, mbxget.
  destruct (mbxevdrp_loop_get (Z.to_nat n) mbx (fbyte mbx) (avbs mbx) (lbyte mbx) (frbs mbx)
              (bufadr mbx) [] n) as [H|H]; [|done]. rewrite H. by destruct mbx.
Qed.

Lemma ovrwr_drop_spec fuel mbx c n :
  holds mbx c -> 0 <= n <= size mbx -> (Z.to_nat (n - frbs mbx) <= fuel)%nat ->
  let k := Z.max 0 (n - frbs mbx) in
  exists mbx', ovrwr_drop fuel mbx n = Some mbx' /\ size mbx' = size mbx /\
    frbs mbx' = frbs mbx + k /\ holds mbx' (drop (Z.to_nat k) c).
Proof.
  revert mbx c. induction fuel as [|fuel IH]; intros mbx c Hh Hn Hf k;
    pose proof (holds_bounds _ _ Hh) as B.
  - unfold k. rewrite Z.max_l by lia. simpl. rewrite Z.gtb_ltb, (proj2 (Z.ltb_ge _ _)) by lia.
    rewrite drop_0, Z.add_0_r. by exists mbx.
  - cbn [ovrwr_drop]. destruct (n - frbs mbx >? 0) eqn:E.
    + rewrite Z.gtb_lt in E.
      destruct (get_chunk_holds mbx c (n - frbs mbx)) as (Hj & _ & Hh1); [done|lia|lia|]. cbv zeta.
      set (j := chunk _ _ _) in *.
      destruct (IH (get_chunk mbx j) (drop (Z.to_nat j) c)) as (mbx' & -> & Hs' & Hr' & Hh');
        [exact Hh1|done|simpl; lia|]; simpl in *.
      exists mbx'. rewrite drop_split in Hh' by lia. unfold k.
      split_and!; [done|done|lia|].
      by replace (Z.max 0 (n - frbs mbx)) with (j + Z.max 0 (n - (frbs mbx + j))) by lia.
    + rewrite Z.gtb_ltb, Z.ltb_ge in E. unfold k. rewrite Z.max_l by lia.
      rewrite drop_0, Z.add_0_r. by exists mbx.
Qed.

(** The last bytes of a list, at most [n]. *)
Definition last_bytes (n : Z) (l : list Z) : list Z :=
  drop (Z.to_nat (Z.of_nat (length l) - n)) l.

Lemma last_bytes_all n l : Z.of_nat (length l) <= n -> last_bytes n l = l.
Proof. intros. unfold last_bytes. by replace (Z.to_nat _) with 0%nat by lia. Qed.

Lemma last_bytes_app n l l' : Z.of_nat (length l') <= n ->
  last_bytes n (l ++ l') = last_bytes (n - Z.of_nat (length l')) l ++ l'.
Proof.
  intros. unfold last_bytes. rewrite length_app, drop_app_le by lia. f_equal. f_equal. lia.
Qed.

Lemma ovrwr_put_spec mbx c m :
  holds mbx c -> m <> [] ->
  exists k mbx1, ovrwr_put mbx m (Z.of_nat (length m)) =
      Some (mbx1, drop (Z.to_nat k) m, Z.of_nat (length (drop (Z.to_nat k) m))) /\
    0 <= k <= Z.of_nat (length m) /\ k <= frbs mbx /\ (frbs mbx <> 0 -> 0 < k) /\
    size mbx1 = size mbx /\ frbs mbx1 = frbs mbx - k /\
    holds mbx1 (c ++ take (Z.to_nat k) m).
Proof.
  intros Hh Hm. pose proof (holds_bounds _ _ Hh) as B. unfold ovrwr_put.
  destruct (nz (frbs mbx)) eqn:E'.
  - apply nz_true in E'.
    destruct (put_chunk_holds mbx c m (Z.of_nat (length m))) as (k & mbx1 & -> & Hk & Hs & Hr & Hh1);
      [done|destruct m; simpl in *; [done|lia]|done|].
    simpl. exists k, mbx1. rewrite length_drop.
    split_and!; [repeat f_equal; lia|lia..|done].
  - apply nz_false in E'. exists 0, mbx. simpl. rewrite drop_0, app_nil_r.
    split_and!; [done|lia..|done].
Qed.

Lemma ovrwr_room_spec mbx c n :
  holds mbx c -> 0 <= n <= size mbx ->
  exists mbx', ovrwr_room mbx n = Some mbx' /\ size mbx' = size mbx /\
    frbs mbx' = Z.max (frbs mbx) n /\ holds mbx' (drop (Z.to_nat (Z.max 0 (n - frbs mbx))) c).
Proof.
  intros Hh Hn. pose proof (holds_bounds _ _ Hh) as B. unfold ovrwr_room.
  destruct (nz n) eqn:E'.
  - destruct (ovrwr_drop_spec (Z.to_nat n) mbx c n) as (mbx2 & E2 & Hs2 & Hr2 & Hh2); [done|lia..|].
    exists mbx2. split_and!; [exact E2|done|lia|exact Hh2].
  - apply nz_false in E'. exists mbx. rewrite (Z.max_l 0), Z2Nat.inj_0, drop_0 by lia.
    split_and!; [done|done|lia|done].
Qed.

Lemma ovrwr_loop_spec fuel mbx c m :
  holds mbx c -> Z.of_nat (length m) <= size mbx ->
  (length m < fuel)%nat \/ ((length m <= fuel)%nat /\ (frbs mbx <> 0 \/ m = [])) ->
  exists mbx', ovrwr_loop fuel mbx m (Z.of_nat (length m)) = Some mbx' /\
    size mbx' = size mbx /\ holds mbx' (last_bytes (size mbx) (c ++ m)).
Proof.
  revert mbx c m. induction fuel as [|fuel IH]; intros mbx c m Hh Hn Hf;
    pose proof (holds_bounds _ _ Hh) as B.
  - assert (m = []) as -> by (destruct m; simpl in *; [done|lia]). simpl.
    rewrite app_nil_r, last_bytes_all by lia. by exists mbx.
  - cbn [ovrwr_loop]. destruct (Z.of_nat (length m) >? 0) eqn:E.
    2:{ rewrite Z.gtb_ltb, Z.ltb_ge in E. assert (m = []) as -> by (destruct m; simpl in *; [done|lia]).
        rewrite app_nil_r, last_bytes_all by lia. by exists mbx. }
    rewrite Z.gtb_lt in E.
    destruct (ovrwr_put_spec mbx c m) as (k & mbx1 & -> & Hk & Hk' & Hk0 & Hs & Hr & Hh1);
      [done|by intros ->|].
    cbn [mbind option_bind]. set (m' := drop (Z.to_nat k) m).
    assert (Hm' : Z.of_nat (length m') = Z.of_nat (length m) - k)
      by (unfold m'; rewrite length_drop; lia).
    pose proof (holds_bounds _ _ Hh1) as B1.
    destruct (ovrwr_room_spec mbx1 _ (Z.of_nat (length m')) Hh1) as (mbx2 & -> & Hs2 & Hr2 & Hh2);
      [lia|].
    cbn [mbind option_bind].
    pose proof (holds_bounds _ _ Hh2) as B2.
    destruct (IH mbx2 _ m' Hh2) as (mbx' & E3 & Hs3 & Hh3); [lia| |].
    { right. split.
      - destruct Hf as [Hf|(Hf & [Hz| ->])]; [lia|specialize (Hk0 Hz); lia|done].
      - destruct m'; [by right|left; simpl in *; lia]. }
    rewrite Hs2, Hs in Hh3. exists mbx'. split_and!; [done|congruence|].
    rewrite <- (take_drop (Z.to_nat k) m), app_assoc. fold m'.
    rewrite last_bytes_app in Hh3 by lia. rewrite last_bytes_app by lia.
    replace (last_bytes (size mbx - Z.of_nat (length m')) (c ++ take (Z.to_nat k) m))
      with (drop (Z.to_nat (Z.max 0 (Z.of_nat (length m') - frbs mbx1))) (c ++ take (Z.to_nat k) m));
      [|unfold last_bytes; f_equal; lia].
    rewrite last_bytes_all in Hh3; [done|]. lia.
Qed.
End Loops.

(** * A bounded queue of bytes

    What the mailboxes and the fifos rely on: [put] appends the bytes that
    fit, [get] removes the first bytes, and both return the number of bytes
    left to do. *)

Class ByteQueue (B : Type) : Type := {
  bq_holds : B -> list Z -> Prop;
  bq_size : B -> Z;
  bq_room : B -> Z;
  bq_put : B -> list Z -> Z -> option (B * list Z * Z);
  bq_get : B -> Z -> option (B * list Z * Z);
  bq_bounded : forall b c, bq_holds b c ->
    0 <= bq_room b /\ bq_room b = bq_size b - Z.of_nat (length c);
  bq_put_spec : forall b c m n, bq_holds b c -> 0 <= n <= Z.of_nat (length m) ->
    exists b', bq_put b m n =
        Some (b', drop (Z.to_nat (Z.min n (bq_room b))) m, n - Z.min n (bq_room b)) /\
      bq_size b' = bq_size b /\
      bq_holds b' (c ++ take (Z.to_nat (Z.min n (bq_room b))) m);
  bq_get_spec : forall b c n, bq_holds b c -> 0 <= n ->
    exists b', bq_get b n =
        Some (b', take (Z.to_nat n) c, n - Z.min n (Z.of_nat (length c))) /\
      bq_size b' = bq_size b /\ bq_holds b' (drop (Z.to_nat n) c)
}.

Section Queue.
Implicit Types (mbx : mbuf) (c m : list Z) (n : Z).

Lemma mbxput_spec mbx c m n :
  holds mbx c -> 0 <= n <= Z.of_nat (length m) ->
  exists mbx', mbxput mbx m n =
      Some (mbx', drop (Z.to_nat (Z.min n (frbs mbx))) m, n - Z.min n (frbs mbx)) /\
    size mbx' = size mbx /\ holds mbx' (c ++ take (Z.to_nat (Z.min n (frbs mbx))) m).
Proof. intros Hh Hn. by apply mbxput_loop_spec. Qed.

Lemma mbxget_spec mbx c n :
  holds mbx c -> 0 <= n ->
  exists mbx', mbxget mbx n =
      Some (mbx', take (Z.to_nat n) c, n - Z.min n (Z.of_nat (length c))) /\
    size mbx' = size mbx /\ holds mbx' (drop (Z.to_nat n) c).
Proof.
  intros Hh Hn. pose proof (holds_bounds _ _ Hh) as B.
  destruct (mbxget_loop_spec (Z.to_nat n) mbx c [] n) as (mbx' & E & Hs & Hh'); [done..|].
  exists mbx'. unfold mbxget. rewrite E. replace (avbs mbx) with (Z.of_nat (length c)) in * by lia.
  assert (Et : take (Z.to_nat (Z.min n (Z.of_nat (length c)))) c = take (Z.to_nat n) c).
  { destruct (Z.le_gt_cases n (Z.of_nat (length c))); [by rewrite Z.min_l|].
    rewrite Z.min_r, Nat2Z.id by lia. by rewrite !take_ge by lia. }
  assert (Ed : drop (Z.to_nat (Z.min n (Z.of_nat (length c)))) c = drop (Z.to_nat n) c).
  { destruct (Z.le_gt_cases n (Z.of_nat (length c))); [by rewrite Z.min_l|].
    rewrite Z.min_r, Nat2Z.id by lia. by rewrite !drop_ge by lia. }
  simpl. rewrite Et. rewrite Ed in Hh'. by split_and!.
Qed.

Lemma holds_room mbx c :
  holds mbx c -> 0 <= frbs mbx /\ frbs mbx = size mbx - Z.of_nat (length c).
Proof. intros Hh%holds_bounds. lia. Qed.

#[export] Instance mbuf_queue : ByteQueue mbuf := {|
  bq_holds := holds; bq_size := size; bq_room := frbs; bq_put := mbxput; bq_get := mbxget;
  bq_bounded := holds_room; bq_put_spec := mbxput_spec; bq_get_spec := mbxget_spec |}.

(** An empty buffer of [n] bytes. *)
Lemma holds_empty n l :
  n = Z.of_nat (length l) -> l <> [] -> holds (mkMbuf n 0 0 0 n l) [].
Proof.
  intros -> Hl. split; [unfold counters; simpl; lia|]. left. exists [], l.
  by unfold in_one_piece.
Qed.
End Queue.

(** A client of the interface: what is put into an empty queue that has room
    for it comes back, whatever the queue. *)
Lemma queue_roundtrip `{ByteQueue B} (b : B) m :
  bq_holds b [] -> Z.of_nat (length m) <= bq_room b ->
  exists b1 b2, bq_put b m (Z.of_nat (length m)) = Some (b1, [], 0) /\
    bq_get b1 (Z.of_nat (length m)) = Some (b2, m, 0) /\ bq_holds b2 [].
Proof.
  intros Hb Hm. destruct (bq_put_spec b [] m (Z.of_nat (length m))) as (b1 & E & _ & H1); [done|lia|].
  rewrite Z.min_l, Nat2Z.id, drop_all in E by lia.
  rewrite Z.min_l, Nat2Z.id, take_ge in H1 by lia. simpl in H1.
  destruct (bq_get_spec b1 m (Z.of_nat (length m))) as (b2 & E2 & _ & H2); [done|lia|].
  rewrite Z.min_id, Nat2Z.id, take_ge, Z.sub_diag in E2 by lia.
  rewrite Nat2Z.id, drop_all in H2. rewrite Z.sub_diag in E. by exists b1, b2.
Qed.

(** * Refinement of a bounded queue

    The four operations as calls, with what they return, on the buffer and on
    the list of bytes it stands for. *)

Inductive bufop : Type :=
  | Put (m : list Z) | Get (n : Z) | Evdrp (n : Z) | Ovrwr (m : list Z).

(** The bytes read, and the number of bytes left to do. *)
Definition bufres : Type := list Z * Z.

Definition buf_step (mbx : mbuf) (op : bufop) : option (mbuf * bufres) :=
  match op with
  | Put m => '(b, _, n) ← mbxput mbx m (Z.of_nat (length m)); Some (b, ([], n))
  | Get n => '(b, out, r) ← mbxget mbx n; Some (b, (out, r))
  | Evdrp n => '(out, r) ← mbxevdrp mbx n; Some (mbx, (out, r))
  | Ovrwr m => b ← mbxovrwrput mbx m (Z.of_nat (length m)); Some (b, ([], 0))
  end.

(** What a queue of at most [cap] bytes does. *)
Definition queue_step (cap : Z) (c : list Z) (op : bufop) : list Z * bufres :=
  match op with
  | Put m => let k := Z.min (Z.of_nat (length m)) (cap - Z.of_nat (length c)) in
             (c ++ take (Z.to_nat k) m, ([], Z.of_nat (length m) - k))
  | Get n => (drop (Z.to_nat n) c, (take (Z.to_nat n) c, n - Z.min n (Z.of_nat (length c))))
  | Evdrp n => (c, (take (Z.to_nat n) c, n - Z.min n (Z.of_nat (length c))))
  | Ovrwr m => (last_bytes cap (c ++ m), ([], 0))
  end.

Fixpoint buf_run (mbx : mbuf) (ops : list bufop) : option (mbuf * list bufres) :=
  match ops with
  | [] => Some (mbx, [])
  | op :: ops' =>
      '(b, r) ← buf_step mbx op; '(b', rs) ← buf_run b ops'; Some (b', r :: rs)
  end.

Fixpoint queue_run (cap : Z) (c : list Z) (ops : list bufop) : list Z * list bufres :=
  match ops with
  | [] => (c, [])
  | op :: ops' =>
      let '(c1, r) := queue_step cap c op in
      let '(c', rs) := queue_run cap c1 ops' in (c', r :: rs)
  end.

Definition op_ok (op : bufop) : Prop :=
  match op with Get n | Evdrp n => 0 <= n | _ => True end.

Lemma last_bytes_drop n l l' :
  0 <= n <= Z.of_nat (length l') -> last_bytes n (l ++ l') = last_bytes n l'.
Proof.
  intros. unfold last_bytes. rewrite length_app, drop_app_ge by lia. f_equal. lia.
Qed.

Lemma mbxovrwrput_spec mbx c m :
  holds mbx c ->
  exists mbx', mbxovrwrput mbx m (Z.of_nat (length m)) = Some mbx' /\
    size mbx' = size mbx /\ holds mbx' (last_bytes (size mbx) (c ++ m)).
Proof.
  intros Hh. pose proof (holds_bounds _ _ Hh) as B. unfold mbxovrwrput. rewrite Z.gtb_ltb.
  destruct (Z.ltb_spec 0 (Z.of_nat (length m) - size mbx)).
  - set (n := Z.of_nat (length m) - size mbx). set (m' := drop (Z.to_nat n) m).
    assert (Hl : Z.of_nat (length m') = size mbx) by (unfold m', n; rewrite length_drop; lia).
    replace (Z.of_nat (length m) - n) with (Z.of_nat (length m')) by lia.
    destruct (ovrwr_loop_spec (S (Z.to_nat (Z.of_nat (length m')))) mbx c m') as (b & E & Hs & Hh');
      [done|lia|left; lia|].
    exists b. split_and!; [done|done|]. rewrite last_bytes_drop in Hh' by lia.
    rewrite last_bytes_drop by lia. rewrite last_bytes_all in Hh' by lia.
    unfold last_bytes. exact Hh'.
  - apply ovrwr_loop_spec; [done|lia|left; lia].
Qed.

Lemma buf_step_refines mbx c op :
  holds mbx c -> op_ok op ->
  exists mbx', buf_step mbx op = Some (mbx', (queue_step (size mbx) c op).2) /\
    size mbx' = size mbx /\ holds mbx' (queue_step (size mbx) c op).1.
Proof.
  intros Hh Hop. pose proof (holds_room _ _ Hh) as [Hr0 Hr]. destruct op as [m|n|n|m]; simpl in *.
  - destruct (mbxput_spec mbx c m (Z.of_nat (length m)) Hh) as (b & -> & Hs & Hh'); [lia|].
    rewrite Hr in *. by exists b.
  - destruct (mbxget_spec mbx c n Hh Hop) as (b & -> & Hs & Hh'). by exists b.
  - rewrite mbxevdrp_get. destruct (mbxget_spec mbx c n Hh Hop) as (b & -> & _). by exists mbx.
  - destruct (mbxovrwrput_spec mbx c m Hh) as (b & -> & Hs & Hh'). by exists b.
Qed.

(** C4: the circular buffer is a queue of at most [size] bytes: for every
    sequence of writes, reads, reads without removal and overwriting writes,
    of any length, no copy leaves the buffer, every loop ends, and the bytes
    and counts returned are those of the queue. *)
Theorem circular_buffer_refines ops mbx c :
  holds mbx c -> Forall op_ok ops ->
  exists mbx', buf_run mbx ops = Some (mbx', (queue_run (size mbx) c ops).2) /\
    size mbx' = size mbx /\ holds mbx' (queue_run (size mbx) c ops).1.
Proof.
  intros Hh Hops. revert mbx c Hh. induction Hops as [|op ops Hop Hops IH]; intros mbx c Hh;
    cbn [buf_run queue_run]; [by exists mbx|].
  destruct (buf_step_refines mbx c op Hh Hop) as (b & -> & Hs & Hh1).
  destruct (queue_step (size mbx) c op) as [c1 r]. cbn [mbind option_bind fst snd] in *.
  destruct (IH b c1 Hh1) as (b' & E & Hs' & Hh'). rewrite Hs in E, Hh', Hs'.
  destruct (queue_run (size mbx) c1 ops) as [c' rs]. cbn [fst snd] in *.
  rewrite E. by exists b'.
Qed.

Lemma circular_buffer_refines_witness :
  exists mbx', buf_run (mkMbuf 4 0 0 0 4 [0;0;0;0]) [Put [1;2;3]; Get 2; Ovrwr [4;5;6;7]; Evdrp 9] =
      Some (mbx', (queue_run 4 [] [Put [1;2;3]; Get 2; Ovrwr [4;5;6;7]; Evdrp 9]).2) /\
    size mbx' = 4 /\ holds mbx' (queue_run 4 [] [Put [1;2;3]; Get 2; Ovrwr [4;5;6;7]; Evdrp 9]).1.
Proof.
  apply (circular_buffer_refines _ (mkMbuf 4 0 0 0 4 [0;0;0;0])); [by apply holds_empty|].
  repeat constructor; vm_compute; congruence.
Defined.
