(* ===== verification/SchedMbx.v ===== *)
(** SchedMbx: mailboxes.

    The section MAIL BOXES of [newlxrt/scheduler/rtai_sched.c]: a circular
    buffer ([CircBuf]), the semaphores [sndsem] and [rcvsem] that keep a
    single sender and a single receiver at work, and [waiting_task], the one
    of the two that waits for the other.  A message is a list of bytes; a
    service returns the number of bytes it did not send or receive. *)

From S2P Require Import Prelude Resume DList SchedState SchedQueues Schedule SchedTask SchedSem CircBuf.

(** * The buffer of a mailbox *)

Definition mbx_buf (s : RTAI) (mbx : Z) : mbuf :=
  mkMbuf (mbx_size s mbx) (mbx_fbyte s mbx) (mbx_lbyte s mbx) (mbx_avbs s mbx) (mbx_frbs s mbx)
    (mbx_bufadr s mbx).

Definition set_mbx_buf (mbx : Z) (b : mbuf) : K unit :=
  wr mbx_size mbx (size b);; wr mbx_fbyte mbx (fbyte b);; wr mbx_lbyte mbx (lbyte b);;
  wr mbx_avbs mbx (avbs b);; wr mbx_frbs mbx (frbs b);; wr mbx_bufadr mbx (bufadr b).

(** The calls of [mbxput], [mbxget] and [mbxovrwrput]. *)
Definition mbx_put (mbx : Z) (msg : list Z) (msg_size : Z) : K (list Z * Z) :=
  s ← get;
  '(b, msg, msg_size) ← of_option (mbxput (mbx_buf s mbx) msg msg_size);
  set_mbx_buf mbx b;;
  mret (msg, msg_size).

Definition mbx_get (mbx : Z) (msg_size : Z) : K (list Z * Z) :=
  s ← get;
  '(b, out, msg_size) ← of_option (mbxget (mbx_buf s mbx) msg_size);
  set_mbx_buf mbx b;;
  mret (out, msg_size).

Definition mbx_ovrwrput (mbx : Z) (msg : list Z) (msg_size : Z) : K Z :=
  s ← get;
  b ← of_option (mbxovrwrput (mbx_buf s mbx) msg msg_size);
  set_mbx_buf mbx b;;
  mret 0.

(** * Waiting for the other side *)

Definition mbx_signal (mbx : Z) : K unit :=
  s ← get;
  let task := waiting_task s mbx in
  ready ←
    (if nz task then
       rem_timed_task task;;
       wr waiting_task mbx NOTHING;;
       wr prio_passed_to task NOTHING;;
       make_ready task (Z.lor MBXSUSP DELAYED)
     else mret false);
  s ← get;
  if (ready : bool) && (sem_type s (MbxSnd mbx) <=? 0) then rt_schedule
  else
    when (sem_type s (MbxSnd mbx) >? 0)
      (wr mbx_owndby mbx 0;;
       sched ← release_current (rt_smp_current s);
       if nz sched then rt_schedule else when ready rt_schedule).

(** [if (mbx->sndsem.type > 0) (mbx->owndby = rt_current)->owndres++;] *)
Definition mbx_own (mbx rt_current : Z) : K unit :=
  s ← get;
  when (sem_type s (MbxSnd mbx) >? 0)
    (wr mbx_owndby mbx rt_current;;
     wr owndres rt_current (i32 (owndres s rt_current + 1))).

(** [fravbs] is the counter ([frbs] or [avbs]) the task waits for. *)
Definition mbx_wait (mbx : Z) (fravbs : RTAI -> Z -> Z) (rt_current : Z) : K Z :=
  s ← get;
  if negb (nz (fravbs s mbx)) then
    when (sem_type s (MbxSnd mbx) >? 0) (_ ← pass_prio (mbx_owndby s mbx) rt_current; mret tt);;
    s ← get;
    wr state rt_current (Z.lor (state s rt_current) MBXSUSP);;
    rem_ready_current rt_current;;
    wr waiting_task mbx rt_current;;
    rt_schedule;;
    s ← get;
    if (waiting_task s mbx =? rt_current) || negb (mbx_magic s mbx =? RT_MBX_MAGIC) then
      wr prio_passed_to rt_current NOTHING;; mret (-1)
    else mbx_own mbx rt_current;; mret 0
  else mbx_own mbx rt_current;; mret 0.

Definition mbx_wait_until (mbx : Z) (fravbs : RTAI -> Z -> Z) (time rt_current : Z) : K Z :=
  s ← get;
  if negb (nz (fravbs s mbx)) then
    wr waiting_task mbx rt_current;;
    wr resume_time rt_current time;;
    when (time >? rt_time_h s)
      (when (sem_type s (MbxSnd mbx) >? 0)
         (_ ← pass_prio (mbx_owndby s mbx) rt_current; mret tt);;
       s ← get;
       wr state rt_current (Z.lor (state s rt_current) (Z.lor MBXSUSP DELAYED));;
       rem_ready_current rt_current;;
       enq_timed_task rt_current;;
       rt_schedule);;
    s ← get;
    if negb (mbx_magic s mbx =? RT_MBX_MAGIC) then
      wr prio_passed_to rt_current NOTHING;; mret (-1)
    else if waiting_task s mbx =? rt_current then
      wr waiting_task mbx NOTHING;; wr prio_passed_to rt_current NOTHING;; mret (-1)
    else mbx_own mbx rt_current;; mret 0
  else mbx_own mbx rt_current;; mret 0.

(** * Creation and deletion *)

(** [buf] is the memory from [sched_malloc], if any. *)
Definition rt_typed_mbx_init (buf : option (list Z)) (mbx size_ type : Z) : K Z :=
  match buf with
  | None => mret (- ENOMEM)
  | Some adr =>
      wr mbx_bufadr mbx adr;;
      let type := if nz (Z.land type 3) then type else Z.lor BIN_SEM type in
      rt_typed_sem_init (MbxSnd mbx) 1 type;;
      rt_typed_sem_init (MbxRcv mbx) 1 type;;
      wr mbx_magic mbx RT_MBX_MAGIC;;
      wr mbx_size mbx size_;; wr mbx_frbs mbx size_;;
      wr waiting_task mbx 0;; wr mbx_owndby mbx 0;;
      wr mbx_fbyte mbx 0;; wr mbx_lbyte mbx 0;; wr mbx_avbs mbx 0;;
      mret 0
  end.

Definition rt_mbx_init (buf : option (list Z)) (mbx size_ : Z) : K Z :=
  rt_typed_mbx_init buf mbx size_ PRIO_Q.

(** [while (mbx->waiting_task) mbx_signal(mbx);] *)
Fixpoint signal_waiting (fuel : nat) (mbx : Z) : K unit :=
  s ← get;
  if nz (waiting_task s mbx) then
    match fuel with
    | O => stuck
    | S fuel' => mbx_signal mbx;; signal_waiting fuel' mbx
    end
  else mret tt.

Definition CHK_MBX_MAGIC (mbx : Z) {A} (bad : A) (m : K A) : K A :=
  s ← get;
  if negb (mbx_magic s mbx =? RT_MBX_MAGIC) then mret bad else m.

Definition rt_mbx_delete (mbx : Z) : K Z :=
  CHK_MBX_MAGIC mbx (- EINVAL)
    (wr mbx_magic mbx 0;;
     r ← rt_sem_delete (MbxSnd mbx);
     r ← (if nz r then mret r else rt_sem_delete (MbxRcv mbx));
     if nz r then mret (- EFAULT)
     else
       signal_waiting SCHED_FUEL mbx;;
       emit (FreeMem mbx);;
       mret 0).

Definition rt_mbx_evdrp (s : RTAI) (mbx msg_size : Z) : option (list Z * Z) :=
  mbxevdrp (mbx_buf s mbx) msg_size.

(** * Sending *)

(** [while (msg_size) { if (wait) {...} ... }] with the wait of the variant. *)
Fixpoint send_loop (fuel : nat) (wait : Z -> K Z) (mbx rt_current : Z) (msg : list Z)
    (msg_size : Z) : K Z :=
  if nz msg_size then
    match fuel with
    | O => stuck
    | S fuel' =>
        failed ← wait rt_current;
        if nz failed then rt_sem_signal (MbxSnd mbx);; mret msg_size
        else
          '(msg, msg_size) ← mbx_put mbx msg msg_size;
          mbx_signal mbx;;
          send_loop fuel' wait mbx rt_current msg msg_size
    end
  else rt_sem_signal (MbxSnd mbx);; mret 0.

Definition send_fuel (msg_size : Z) : nat := S (Z.to_nat msg_size).

Definition rt_mbx_send (mbx : Z) (msg : list Z) (msg_size : Z) : K Z :=
  CHK_MBX_MAGIC mbx (- EINVAL)
    (r ← rt_sem_wait (MbxSnd mbx);
     if r >? 1 then mret msg_size
     else
       s ← get;
       send_loop (send_fuel msg_size) (mbx_wait mbx mbx_frbs) mbx (rt_smp_current s) msg msg_size).

Definition rt_mbx_send_until (mbx : Z) (msg : list Z) (msg_size time : Z) : K Z :=
  CHK_MBX_MAGIC mbx (- EINVAL)
    (r ← rt_sem_wait_until (MbxSnd mbx) time;
     if r >? 1 then mret msg_size
     else
       s ← get;
       send_loop (send_fuel msg_size) (mbx_wait_until mbx mbx_frbs time) mbx (rt_smp_current s)
         msg msg_size).

Definition rt_mbx_send_timed (mbx : Z) (msg : list Z) (msg_size delay : Z) : K Z :=
  s ← get;
  rt_mbx_send_until mbx msg msg_size
    (i64 ((if nz (oneshot_timer s) then tsc s else tick_time s) + delay)).

(** [sem.count = 0; if (type > 0) (sem.owndby = mbx->owndby = RT_CURRENT)->owndres += 2;] *)
Definition mbx_take (sem : semp) (mbx : Z) : K unit :=
  s ← get;
  wr sem_count sem 0;;
  when (sem_type s sem >? 0)
    (wr mbx_owndby mbx (RT_CURRENT s);;
     wr sem_owndby sem (RT_CURRENT s);;
     wr owndres (RT_CURRENT s) (i32 (owndres s (RT_CURRENT s) + 2))).

Definition rt_mbx_send_wp (mbx : Z) (msg : list Z) (msg_size : Z) : K Z :=
  CHK_MBX_MAGIC mbx (- EINVAL)
    (s ← get;
     if nz (sem_count s (MbxSnd mbx)) && nz (mbx_frbs s mbx) then
       mbx_take (MbxSnd mbx) mbx;;
       '(_, msg_size) ← mbx_put mbx msg msg_size;
       mbx_signal mbx;;
       rt_sem_signal (MbxSnd mbx);;
       mret msg_size
     else mret msg_size).

Definition rt_mbx_send_if (mbx : Z) (msg : list Z) (msg_size : Z) : K Z :=
  CHK_MBX_MAGIC mbx (- EINVAL)
    (s ← get;
     if nz (sem_count s (MbxSnd mbx)) && (msg_size <=? mbx_frbs s mbx) then
       mbx_take (MbxSnd mbx) mbx;;
       _ ← mbx_put mbx msg msg_size;
       mbx_signal mbx;;
       rt_sem_signal (MbxSnd mbx);;
       mret 0
     else mret msg_size).

Definition rt_mbx_ovrwr_send (mbx : Z) (msg : list Z) (msg_size : Z) : K Z :=
  CHK_MBX_MAGIC mbx (- EINVAL)
    (s ← get;
     if nz (sem_count s (MbxSnd mbx)) then
       mbx_take (MbxSnd mbx) mbx;;
       msg_size ← mbx_ovrwrput mbx msg msg_size;
       mbx_signal mbx;;
       rt_sem_signal (MbxSnd mbx);;
       mret msg_size
     else mret msg_size).

(** * Receiving

    The result is the number of bytes not received, and the bytes received. *)

Fixpoint receive_loop (fuel : nat) (wait : Z -> K Z) (mbx rt_current : Z) (out : list Z)
    (msg_size : Z) : K (Z * list Z) :=
  if nz msg_size then
    match fuel with
    | O => stuck
    | S fuel' =>
        failed ← wait rt_current;
        if nz failed then rt_sem_signal (MbxRcv mbx);; mret (msg_size, out)
        else
          '(bytes, msg_size) ← mbx_get mbx msg_size;
          mbx_signal mbx;;
          receive_loop fuel' wait mbx rt_current (out ++ bytes) msg_size
    end
  else rt_sem_signal (MbxRcv mbx);; mret (0, out).

Definition rt_mbx_receive (mbx msg_size : Z) : K (Z * list Z) :=
  CHK_MBX_MAGIC mbx (- EINVAL, [])
    (r ← rt_sem_wait (MbxRcv mbx);
     if r >? 1 then mret (msg_size, [])
     else
       s ← get;
       receive_loop (send_fuel msg_size) (mbx_wait mbx mbx_avbs) mbx (rt_smp_current s) [] msg_size).

Definition rt_mbx_receive_until (mbx msg_size time : Z) : K (Z * list Z) :=
  CHK_MBX_MAGIC mbx (- EINVAL, [])
    (r ← rt_sem_wait_until (MbxRcv mbx) time;
     if r >? 1 then mret (msg_size, [])
     else
       s ← get;
       receive_loop (send_fuel msg_size) (mbx_wait_until mbx mbx_avbs time) mbx
         (rt_smp_current s) [] msg_size).

Definition rt_mbx_receive_timed (mbx msg_size delay : Z) : K (Z * list Z) :=
  s ← get;
  rt_mbx_receive_until mbx msg_size
    (i64 ((if nz (oneshot_timer s) then tsc s else tick_time s) + delay)).

Definition rt_mbx_receive_wp (mbx msg_size : Z) : K (Z * list Z) :=
  CHK_MBX_MAGIC mbx (- EINVAL, [])
    (s ← get;
     if nz (sem_count s (MbxRcv mbx)) && nz (mbx_avbs s mbx) then
       mbx_take (MbxRcv mbx) mbx;;
       '(out, msg_size) ← mbx_get mbx msg_size;
       mbx_signal mbx;;
       rt_sem_signal (MbxRcv mbx);;
       mret (msg_size, out)
     else mret (msg_size, [])).

Definition rt_mbx_receive_if (mbx msg_size : Z) : K (Z * list Z) :=
  CHK_MBX_MAGIC mbx (- EINVAL, [])
    (s ← get;
     if nz (sem_count s (MbxRcv mbx)) && (msg_size <=? mbx_avbs s mbx) then
       mbx_take (MbxRcv mbx) mbx;;
       '(out, _) ← mbx_get mbx msg_size;
       mbx_signal mbx;;
       rt_sem_signal (MbxRcv mbx);;
       mret (0, out)
     else mret (msg_size, [])).

(** * Properties *)

Section MbxProperties.
Implicit Types (s : RTAI) (mbx t n : Z) (m c W l : list Z).

(** [s'] is [s] but for the buffer of [mbx], which is [b]. *)
Definition with_buf s mbx (b : mbuf) s' : Prop :=
  mbx_buf s' mbx = b /\
  exists f1 f2 f3 f4 f5 f6, s' = s <| mbx_size ::= f1 |> <| mbx_fbyte ::= f2 |> <| mbx_lbyte ::= f3 |>
    <| mbx_avbs ::= f4 |> <| mbx_frbs ::= f5 |> <| mbx_bufadr ::= f6 |>.

Lemma set_mbx_buf_eq s mbx b : exists s', set_mbx_buf mbx b s = Done tt s' /\ with_buf s mbx b s'.
Proof.
  unfold set_mbx_buf. step_m. eexists. split; [reflexivity|]. split.
  - unfold mbx_buf. state_simpl. rewrite !upd_eq. by destruct b.
  - do 6 eexists. reflexivity.
Qed.

Lemma mbx_put_eq s mbx c m :
  holds (mbx_buf s mbx) c -> Z.of_nat (length m) <= mbx_frbs s mbx ->
  exists b s', mbx_put mbx m (Z.of_nat (length m)) s = Done ([], 0) s' /\ with_buf s mbx b s' /\
    size b = mbx_size s mbx /\ holds b (c ++ m).
Proof.
  intros Hh Hm. destruct (mbxput_spec _ c m (Z.of_nat (length m)) Hh) as (b & E & Hs & Hh'); [lia|].
  change (frbs (mbx_buf s mbx)) with (mbx_frbs s mbx) in *.
  rewrite Z.min_l, Nat2Z.id in E, Hh' by done. rewrite take_ge in Hh' by lia.
  rewrite drop_all, Z.sub_diag in E.
  destruct (set_mbx_buf_eq s mbx b) as (s' & E' & Hb).
  exists b, s'. split_and!; [|done|done|done]. unfold mbx_put. step_m. rewrite E. step_m. by rewrite E'.
Qed.

Lemma mbx_get_eq s mbx c n :
  holds (mbx_buf s mbx) c -> 0 <= n <= mbx_avbs s mbx ->
  exists b s', mbx_get mbx n s = Done (take (Z.to_nat n) c, 0) s' /\ with_buf s mbx b s' /\
    size b = mbx_size s mbx /\ holds b (drop (Z.to_nat n) c).
Proof.
  intros Hh Hn. pose proof (holds_bounds _ _ Hh) as B. change (avbs (mbx_buf s mbx)) with (mbx_avbs s mbx) in B.
  destruct (mbxget_spec _ c n Hh) as (b & E & Hs & Hh'); [lia|].
  rewrite Z.min_l, Z.sub_diag in E by lia.
  destruct (set_mbx_buf_eq s mbx b) as (s' & E' & Hb).
  exists b, s'. split_and!; [|done|done|done]. unfold mbx_get. step_m. rewrite E. step_m. by rewrite E'.
Qed.

(** Nobody waits for the other side, and the mailbox is not a resource. *)
Lemma mbx_signal_idle s mbx :
  waiting_task s mbx = 0 -> sem_type s (MbxSnd mbx) <= 0 -> mbx_signal mbx s = Done tt s.
Proof.
  intros Hw Ht. unfold mbx_signal. step_m. rewrite Hw. change (nz 0) with false. step_m.
  by rewrite Z.gtb_ltb, (proj2 (Z.ltb_ge _ _) Ht).
Qed.

Lemma mbx_take_eq s sem mbx :
  sem_type s sem <= 0 -> mbx_take sem mbx s = Done tt (s <| sem_count ::= <[sem := 0]> |>).
Proof. intros Ht. unfold mbx_take. step_m. by rewrite Z.gtb_ltb, (proj2 (Z.ltb_ge _ _) Ht). Qed.

(** A mailbox at rest: nobody sends, receives or waits; it holds [c]. *)
Definition mbx_rest s mbx c : Prop :=
  mbx_magic s mbx = RT_MBX_MAGIC /\ waiting_task s mbx = 0 /\ holds (mbx_buf s mbx) c /\
  forall sem, sem = MbxSnd mbx \/ sem = MbxRcv mbx ->
    sem_magic s sem = RT_SEM_MAGIC /\ sem_type s sem <= 0 /\ sem_count s sem = 1 /\
    wait_queue s (SemQueue sem) [] /\ q_task s (SemQueue sem) = 0.

(** Taking and releasing one of the semaphores of a mailbox at rest, with a
    change of the buffer between. *)
Lemma mbx_rest_release s mbx sem b c s1 :
  (sem = MbxSnd mbx \/ sem = MbxRcv mbx) -> (exists c0, mbx_rest s mbx c0) -> holds b c ->
  with_buf (s <| sem_count ::= <[sem := 0]> |>) mbx b s1 ->
  exists s2, mbx_signal mbx s1 = Done tt s1 /\ rt_sem_signal sem s1 = Done 0 s2 /\ mbx_rest s2 mbx c.
Proof.
  intros Hsem (c0 & Hm & Hw & _ & Hsems) Hh [Hb (f1 & f2 & f3 & f4 & f5 & f6 & F)].
  destruct (Hsems sem Hsem) as (A1 & A2 & A3 & A4 & A5).
  destruct (rt_sem_signal_free s1 sem) as (f & E & Ef).
  { rewrite F. state_simpl. exact A1. }
  { rewrite F. state_simpl. rewrite upd_eq. split; vm_compute; congruence. }
  { rewrite F. state_simpl. exact A2. }
  { apply (wait_queue_frame s); [exact A4|rewrite F; state_simpl; reflexivity..]. }
  { rewrite F. state_simpl. exact A5. }
  eexists. split_and!; [|exact E|].
  - apply mbx_signal_idle; rewrite F; state_simpl; [exact Hw|]. apply Hsems. by left.
  - unfold mbx_rest. split_and!.
    + rewrite F. state_simpl. exact Hm.
    + rewrite F. state_simpl. exact Hw.
    + assert (Eb : mbx_buf (s1 <| sem_count := f |>) mbx = b) by (rewrite <- Hb; by unfold mbx_buf; state_simpl).
      by rewrite Eb.
    + intros sem' Hsem'. destruct (Hsems sem' Hsem') as (B1 & B2 & B3 & B4 & B5).
      split_and!; [rewrite F; state_simpl; exact B1|rewrite F; state_simpl; exact B2| | |rewrite F; state_simpl; exact B5].
      * state_simpl. rewrite Ef, F. unfold posted. state_simpl. rewrite !upd_dec.
        repeat case_decide; subst; try done. by destruct (nz _).
      * apply (wait_queue_frame s); [exact B4|rewrite F; state_simpl; reflexivity..].
Qed.

(** [rt_mbx_send_if] and [rt_mbx_receive_if] are all or nothing and never
    wait: a message that fits is put behind what the mailbox holds, and one
    that does not fit changes nothing; the oldest bytes are received if there
    are as many as asked for, else nothing is; the mailbox is at rest again. *)
Theorem mbx_if_atomic s mbx m n c :
  mbx_rest s mbx c -> 0 <= n ->
  (if Z.of_nat (length m) <=? mbx_frbs s mbx then
     exists s', rt_mbx_send_if mbx m (Z.of_nat (length m)) s = Done 0 s' /\ mbx_rest s' mbx (c ++ m)
   else rt_mbx_send_if mbx m (Z.of_nat (length m)) s = Done (Z.of_nat (length m)) s) /\
  (if n <=? Z.of_nat (length c) then
     exists s', rt_mbx_receive_if mbx n s = Done (0, take (Z.to_nat n) c) s' /\
       mbx_rest s' mbx (drop (Z.to_nat n) c)
   else rt_mbx_receive_if mbx n s = Done (n, []) s).
Proof.
  intros Hrest Hn. pose proof Hrest as (Hm & Hw & Hh & Hsems).
  destruct (Hsems _ (or_introl eq_refl)) as (_ & A2 & A3 & _).
  destruct (Hsems _ (or_intror eq_refl)) as (_ & B2 & B3 & _).
  pose proof (holds_bounds _ _ Hh) as B. change (avbs (mbx_buf s mbx)) with (mbx_avbs s mbx) in B.
  split.
  - unfold rt_mbx_send_if, CHK_MBX_MAGIC. step_m. rewrite Hm, Z.eqb_refl. step_m. rewrite A3.
    destruct (Z.leb_spec (Z.of_nat (length m)) (mbx_frbs s mbx)) as [Hle|Hgt]; [|done].
    change (nz 1) with true. step_m. rewrite mbx_take_eq by done. step_m.
    destruct (mbx_put_eq (s <| sem_count ::= <[MbxSnd mbx := 0]> |>) mbx c m) as (b & s1 & E & Hb & Hs & Hh1);
      [done|done|].
    rewrite E. step_m.
    destruct (mbx_rest_release s mbx (MbxSnd mbx) b (c ++ m) s1) as (s2 & E1 & E2 & R);
      [by left|by exists c|done|done|].
    rewrite E1. step_m. rewrite E2. step_m. by exists s2.
  - unfold rt_mbx_receive_if, CHK_MBX_MAGIC. step_m. rewrite Hm, Z.eqb_refl. step_m. rewrite B3.
    change (nz 1) with true. replace (mbx_avbs s mbx) with (Z.of_nat (length c)) by lia.
    destruct (Z.leb_spec n (Z.of_nat (length c))) as [Hle|Hgt]; [|done].
    step_m. rewrite mbx_take_eq by done. step_m.
    destruct (mbx_get_eq (s <| sem_count ::= <[MbxRcv mbx := 0]> |>) mbx c n) as (b & s1 & E & Hb & Hs & Hh1);
      [done|state_simpl; lia|].
    rewrite E. step_m.
    destruct (mbx_rest_release s mbx (MbxRcv mbx) b (drop (Z.to_nat n) c) s1) as (s2 & E1 & E2 & R);
      [by right|by exists c|done|done|].
    rewrite E1. step_m. rewrite E2. step_m. by exists s2.
Qed.

(** The services that do not wait test that the count of [sndsem] is not
    zero, and it is negative while tasks wait to send: a message is then sent
    although another sender is at work, in the middle of its message, and the
    first waiting sender is let in too, with the semaphore free. *)
Theorem mbx_send_if_intrudes s mbx m t W c l :
  mbx_magic s mbx = RT_MBX_MAGIC -> waiting_task s mbx = 0 -> holds (mbx_buf s mbx) c ->
  Z.of_nat (length m) <= mbx_frbs s mbx ->
  sem_magic s (MbxSnd mbx) = RT_SEM_MAGIC -> sem_type s (MbxSnd mbx) < 0 ->
  sem_count s (MbxSnd mbx) < 0 ->
  wait_queue s (SemQueue (MbxSnd mbx)) (t :: W) -> q_task s (SemQueue (MbxSnd mbx)) = 0 ->
  t <> 0 -> state s t = Z.lor READY SEMAPHORE ->
  ready_list s l -> fits l -> t ∉ rt_linux_task :: l -> is_hard s t <> 0 ->
  priority s t < RT_LINUX_PRIORITY -> priority s rt_linux_task = RT_LINUX_PRIORITY ->
  lock_first (priority s) l ->
  exists s', rt_mbx_send_if mbx m (Z.of_nat (length m)) s ≡ bind_out (rt_schedule s') (fun _ => Done 0) /\
    holds (mbx_buf s' mbx) (c ++ m) /\ state s' t = READY /\ blocked_on s' t = QNull /\
    sem_count s' (MbxSnd mbx) = 1.
Proof.
  intros Hm Hw Hh Hfit Hsm Hty Hcnt Hq Hq0 Ht0 Hst Hr Hf Ht Hhard Hp Hlx Hlf.
  unfold rt_mbx_send_if, CHK_MBX_MAGIC. step_m. rewrite Hm, Z.eqb_refl. step_m.
  rewrite (proj2 (nz_true _)) by lia. rewrite (proj2 (Z.leb_le _ _) Hfit). step_m.
  rewrite mbx_take_eq by lia. step_m.
  set (s0 := s <| sem_count ::= <[MbxSnd mbx := 0]> |>).
  destruct (mbx_put_eq s0 mbx c m) as (b & s1 & E & [Hb (f1 & f2 & f3 & f4 & f5 & f6 & F)] & Hs & Hh1);
    [done|done|].
  rewrite E. step_m.
  assert (X : waiting_task s1 mbx = 0 /\ sem_magic s1 (MbxSnd mbx) = RT_SEM_MAGIC /\
    sem_type s1 (MbxSnd mbx) = sem_type s (MbxSnd mbx) /\ sem_count s1 (MbxSnd mbx) = 0 /\
    state s1 = state s /\ is_hard s1 = is_hard s /\ priority s1 = priority s /\
    q_task s1 = q_task s /\ rnext s1 = rnext s /\ rprev s1 = rprev s).
  { rewrite F. unfold s0. state_simpl. rewrite upd_eq. by split_and!. }
  destruct X as (X1 & X2 & X3 & X4 & X5 & X6 & X7 & X8 & X9 & X10).
  rewrite mbx_signal_idle by (by rewrite ?X3; try lia). step_m.
  destruct (rt_sem_signal_wakes s1 t (MbxSnd mbx) W l)
    as (s2 & E2 & (f & P & N & QP & QN & F2 & Ef) & W2 & R2);
    [done|rewrite X4; split; vm_compute; congruence|rewrite X3; lia
    |apply (wait_queue_frame s); [exact Hq|rewrite F; unfold s0; state_simpl; reflexivity..]
    |by rewrite X8|done|by rewrite X5|unfold ready_list in *; by rewrite X9, X10|done|done
    |by rewrite X6|by rewrite X7|by rewrite X7|by rewrite X7|].
  unfold schedules in E2. exists s2. rewrite E2. split_and!.
  - apply bind_out_assoc.
  - assert (Eb : mbx_buf s2 mbx = b) by (rewrite <- Hb, F2; unfold mbx_buf; by state_simpl).
    by rewrite Eb.
  - rewrite F2. state_simpl. apply upd_eq.
  - rewrite F2. state_simpl. apply upd_eq.
  - rewrite F2. state_simpl. rewrite Ef, upd_eq. unfold posted. rewrite X3, X4.
    by rewrite (proj2 (nz_true _)) by lia.
Qed.
End MbxProperties.

(** * Witnesses *)

(** The running task uses a mailbox of 4 bytes that holds 2. *)
Definition demo_mbx : RTAI :=
  run (_ ← rt_mbx_init (Some [0; 0; 0; 0]) 5 4; _ ← rt_mbx_send_if 5 [8; 9] 2; mret tt) demo_run.

Lemma demo_mbx_holds : holds (mbx_buf demo_mbx 5) [8; 9].
Proof.
  split; [by vm_compute|]. left. exists [], [0; 0]. split_and!; [by vm_compute|done|by vm_compute|by vm_compute].
Qed.

Lemma mbx_if_atomic_witness :
  (if Z.of_nat (length [7; 6]) <=? mbx_frbs demo_mbx 5 then
     exists s', rt_mbx_send_if 5 [7; 6] (Z.of_nat (length [7; 6])) demo_mbx = Done 0 s' /\
       mbx_rest s' 5 ([8; 9] ++ [7; 6])
   else rt_mbx_send_if 5 [7; 6] (Z.of_nat (length [7; 6])) demo_mbx =
          Done (Z.of_nat (length [7; 6])) demo_mbx) /\
  (if 1 <=? Z.of_nat (length [8; 9]) then
     exists s', rt_mbx_receive_if 5 1 demo_mbx = Done (0, take (Z.to_nat 1) [8; 9]) s' /\
       mbx_rest s' 5 (drop (Z.to_nat 1) [8; 9])
   else rt_mbx_receive_if 5 1 demo_mbx = Done (1, []) demo_mbx).
Proof.
  apply mbx_if_atomic; [|by_eval]. split_and!; [by_eval|by_eval|exact demo_mbx_holds|].
  intros sem [-> | ->]; (split_and!; [by_eval|by_eval|by_eval| |by_eval]);
    (split; [solve_ring|]; intros x Hx; by apply not_elem_of_nil in Hx).
Defined.

(** The task 64 waits to send, while another one is sending. *)
Definition demo_mbx_busy : RTAI :=
  run (enqueue_blocked 64 (SemQueue (MbxSnd 5)) 0;; wr sem_count (MbxSnd 5) (-1);;
       wr state 64 (Z.lor READY SEMAPHORE)) demo_mbx.

Lemma mbx_send_if_intrudes_witness :
  exists s', rt_mbx_send_if 5 [7] (Z.of_nat (length [7])) demo_mbx_busy
      ≡ bind_out (rt_schedule s') (fun _ => Done 0) /\
    holds (mbx_buf s' 5) ([8; 9] ++ [7]) /\ state s' 64 = READY /\ blocked_on s' 64 = QNull /\
    sem_count s' (MbxSnd 5) = 1.
Proof.
  apply (mbx_send_if_intrudes demo_mbx_busy 5 [7] 64 [] [8; 9] [32; 48]);
    [by_eval|by_eval| |by_eval|by_eval|by_eval|by_eval| |by_eval|by_eval|by_eval|solve_ring|fits_eval
    |not_in|by_eval|by_eval|by_eval|lock_first_eval].
  - split; [by vm_compute|]. left. exists [], [0; 0].
    split_and!; [by vm_compute|done|by vm_compute|by vm_compute].
  - split; [solve_ring|]. intros t Ht. apply list_elem_of_singleton in Ht as ->. by_eval.
Defined.
