(* ===== verification/Fifos.v ===== *)
(** Fifos: the real time fifos.

    [fifos/rtai_fifos.c]: a fifo is a circular buffer ([CircBuf]) with a
    semaphore for its senders and one for its receivers, on which Linux
    processes wait, and an interface for real time tasks, which never wait.
    A [LX_TASK] is a struct on the stack of the waiting process: the services
    that wait take its address ([frame]).  A process that calls [schedule]
    loses the processor: what it does next is the continuation of a [Switch]. *)

From Stdlib Require Import String.
From S2P Require Import Prelude Resume DList CircBuf.

(** * The state *)

(** A [F_SEM *]: [sndsem], [rcvsem] or [sem] of the fifo of this minor. *)
Inductive fsem : Type := FSnd (m : Z) | FRcv (m : Z) | FSem (m : Z).

(** A [F_QUEUE *]: the [queue] of a semaphore, or of a [LX_TASK]. *)
Inductive fptr : Type := FNull | FQueue (sem : fsem) | FTask (t : Z).

#[export] Instance fsem_eq_dec : EqDecision fsem.
Proof. solve_decision. Defined.
#[export] Instance fptr_eq_dec : EqDecision fptr.
Proof. solve_decision. Defined.

(** Requests to Linux and to the user's handlers. *)
Inductive fevent : Type :=
  | PendSrq | WakeUp (t : Z) | WakePoll (m : Z) | KillFasync (m sig : Z)
  | Schedule | ScheduleTimeout (delay : Z) | Handler (h m rw : Z) | KFree (m kind : Z).

Record FIFOS : Type := mkFIFOS {
  (* F_QUEUE: the queue of a semaphore and the queue element of a waiting task *)
  fq_prev : fptr -> fptr;
  fq_next : fptr -> fptr;
  fq_task : fptr -> Z;
  (* F_SEM *)
  sem_free : fsem -> Z;
  sem_qtype : fsem -> Z;
  (* LX_TASK, by address *)
  lx_blocked : Z -> Z;
  lx_priority : Z -> Z;
  lx_task : Z -> Z;
  (* F_MBX of the fifo: its buffer, and the task that waits *)
  mbx : Z -> mbuf;
  waiting_task : Z -> Z;
  (* FIFO, by minor; [pollq] and [asynq] tell that a process polls, or asked for signals *)
  opncnt : Z -> Z;
  malloc_type : Z -> Z;
  pol_asyn_pended : Z -> Z;
  pollq : Z -> Z;
  asynq : Z -> Z;
  handler : Z -> Z;
  name : Z -> string;
  (* taskq and pol_asyn_q *)
  tq_in : Z;
  tq_out : Z;
  tq_task : Z -> Z;
  pq_in : Z;
  pq_out : Z;
  pq_fifo : Z -> Z;
  async_sig : Z;
  (* struct task_struct, by address *)
  tstate : Z -> Z;
  rt_priority : Z -> Z;
  sigpending : Z -> Z;
  (* the running process, and what was asked of Linux, latest first *)
  current : Z;
  flog : list fevent
}.

#[export] Instance FIFOS_eta : Eta FIFOS := fun s =>
  mkFIFOS
    (fq_prev s) (fq_next s) (fq_task s) (sem_free s) (sem_qtype s) (lx_blocked s) (lx_priority
    s) (lx_task s) (mbx s) (waiting_task s) (opncnt s) (malloc_type s) (pol_asyn_pended s)
    (pollq s) (asynq s) (handler s) (name s) (tq_in s) (tq_out s) (tq_task s) (pq_in s) (pq_out
    s) (pq_fifo s) (async_sig s) (tstate s) (rt_priority s) (sigpending s) (current s) (flog s).

#[export] Instance set_fq_prev : Setter fq_prev := ltac:(mk_setter).
#[export] Instance set_fq_next : Setter fq_next := ltac:(mk_setter).
#[export] Instance set_fq_task : Setter fq_task := ltac:(mk_setter).
#[export] Instance set_sem_free : Setter sem_free := ltac:(mk_setter).
#[export] Instance set_sem_qtype : Setter sem_qtype := ltac:(mk_setter).
#[export] Instance set_lx_blocked : Setter lx_blocked := ltac:(mk_setter).
#[export] Instance set_lx_priority : Setter lx_priority := ltac:(mk_setter).
#[export] Instance set_lx_task : Setter lx_task := ltac:(mk_setter).
#[export] Instance set_mbx : Setter mbx := ltac:(mk_setter).
#[export] Instance set_waiting_task : Setter waiting_task := ltac:(mk_setter).
#[export] Instance set_opncnt : Setter opncnt := ltac:(mk_setter).
#[export] Instance set_malloc_type : Setter malloc_type := ltac:(mk_setter).
#[export] Instance set_pol_asyn_pended : Setter pol_asyn_pended := ltac:(mk_setter).
#[export] Instance set_pollq : Setter pollq := ltac:(mk_setter).
#[export] Instance set_asynq : Setter asynq := ltac:(mk_setter).
#[export] Instance set_handler : Setter handler := ltac:(mk_setter).
#[export] Instance set_name : Setter name := ltac:(mk_setter).
#[export] Instance set_tq_in : Setter tq_in := ltac:(mk_setter).
#[export] Instance set_tq_out : Setter tq_out := ltac:(mk_setter).
#[export] Instance set_tq_task : Setter tq_task := ltac:(mk_setter).
#[export] Instance set_pq_in : Setter pq_in := ltac:(mk_setter).
#[export] Instance set_pq_out : Setter pq_out := ltac:(mk_setter).
#[export] Instance set_pq_fifo : Setter pq_fifo := ltac:(mk_setter).
#[export] Instance set_async_sig : Setter async_sig := ltac:(mk_setter).
#[export] Instance set_tstate : Setter tstate := ltac:(mk_setter).
#[export] Instance set_rt_priority : Setter rt_priority := ltac:(mk_setter).
#[export] Instance set_sigpending : Setter sigpending := ltac:(mk_setter).
#[export] Instance set_current : Setter current := ltac:(mk_setter).
#[export] Instance set_flog : Setter flog := ltac:(mk_setter).

(** The state of a zeroed data segment. *)
Definition fifos_zero : FIFOS :=
  mkFIFOS
    (fun _ => FNull) (fun _ => FNull) (fun _ => 0) (fun _ => 0) (fun _ => 0) (fun _ => 0) (fun _
    => 0) (fun _ => 0) (fun _ => mkMbuf 0 0 0 0 0 []) (fun _ => 0) (fun _ => 0) (fun _ => 0)
    (fun _ => 0) (fun _ => 0) (fun _ => 0) (fun _ => 0) (fun _ => EmptyString) 0 0 (fun _ => 0)
    0 0 (fun _ => 0) 0 (fun _ => 0) (fun _ => 0) (fun _ => 0) 0 [].

Abbreviation F A := (M FIFOS A).

Definition log_event (e : fevent) : F unit := modify (fun s => s <| flog ::= cons e |>).

Definition MAX_FIFOS : Z := 64.
Definition MAXREQS : Z := 64.
Definition RTF_NAMELEN : nat := 15.
Definition DEFAULT_SIZE : Z := 1000.
Definition PAGE_SIZE : Z := 4096.
Definition TASK_INTERRUPTIBLE : Z := 1.
Definition ENODEV : Z := 19.
Definition EINVAL : Z := 22.
Definition ENOMEM : Z := 12.
Definition EAGAIN : Z := 11.
Definition EFAULT : Z := 14.
Definition EBUSY : Z := 16.
Definition ENOTTY : Z := 25.
Definition ERESTARTSYS : Z := 512.

(** A signal that is not blocked is pending for the running process. *)
Definition check_current_blocked (s : FIFOS) : bool := nz (sigpending s (current s)).

(** * Semaphores *)

Definition fq_link (x q : fptr) : F unit :=
  s ← get;
  wr fq_prev x (fq_prev s q);;
  s ← get;
  wr fq_next (fq_prev s x) x;;
  wr fq_prev q x;;
  wr fq_next x q.

Definition enqueue_blocked (task : Z) (queue : fptr) (qtype priority : Z) : F unit :=
  wr lx_blocked task 1;;
  s ← get;
  q ← (if nz qtype then mret queue
       else walkM (fun q => negb (bool_decide (q = queue)) &&
                            (lx_priority s (fq_task s q) >=? priority))
              (fq_next s) (fq_next s queue));
  fq_link (FTask task) q.

Definition dequeue_blocked (task : Z) : F unit :=
  wr lx_blocked task 0;;
  s ← get;
  wr fq_next (fq_prev s (FTask task)) (fq_next s (FTask task));;
  s ← get;
  wr fq_prev (fq_next s (FTask task)) (fq_prev s (FTask task)).

(** [taskq.task[taskq.in] = t; ...; rtf_pend_srq(fifo_srq);] *)
Definition taskq_put (t : Z) : F unit :=
  s ← get;
  wr tq_task (tq_in s) t;;
  wg tq_in (Z.land (tq_in s + 1) (MAXREQS - 1));;
  log_event PendSrq.

(** [fifop] is the minor of the fifo, if it is not null. *)
Definition mbx_sem_signal (sem : fsem) (fifop : option Z) : F unit :=
  s ← get;
  let task := fq_task s (fq_next s (FQueue sem)) in
  if nz task then
    dequeue_blocked task;;
    s ← get;
    taskq_put (lx_task s task)
  else
    wr sem_free sem 1;;
    match fifop with
    | Some m =>
        when (negb (nz (pol_asyn_pended s m)) &&
              (nz (avbs (mbx s m)) || nz (frbs (mbx s m))) &&
              (nz (pollq s m) || nz (asynq s m)))
          (wr pol_asyn_pended m 1;;
           wr pq_fifo (pq_in s) m;;
           wg pq_in (Z.land (pq_in s + 1) (MAXREQS - 1));;
           log_event PendSrq)
    | None => mret tt
    end.

Definition mbx_signal (m : Z) : F unit :=
  s ← get;
  when (nz (waiting_task s m))
    (wr waiting_task m 0;; taskq_put (waiting_task s m)).

Definition mbx_sem_wait_if (sem : fsem) : F Z :=
  s ← get;
  if nz (sem_free s sem) then wr sem_free sem 0;; mret 1 else mret 0.

(** [schedule()] in state [TASK_INTERRUPTIBLE]. *)
Definition sleep (e : fevent) : F unit :=
  s ← get;
  wr tstate (current s) TASK_INTERRUPTIBLE;;
  switch (fun s => s <| flog ::= cons e |>).

(** The stack variable [task] of the running process queued on [sem]. *)
Definition queue_current (frame : Z) (sem : fsem) : F unit :=
  s ← get;
  wr fq_task (FTask frame) frame;;
  wr lx_priority frame (rt_priority s (current s));;
  enqueue_blocked frame (FQueue sem) (sem_qtype s sem) (rt_priority s (current s));;
  wr lx_task frame (current s).

(** A process that is still queued when it wakes up leaves the queue. *)
Definition leave_queue (frame : Z) (sem : fsem) : F unit :=
  dequeue_blocked frame;;
  s ← get;
  when (negb (nz (fq_task s (fq_next s (FQueue sem))))) (wr sem_free sem 1).

Definition mbx_sem_wait (frame : Z) (sem : fsem) : F Z :=
  s ← get;
  if negb (nz (sem_free s sem)) then
    queue_current frame sem;;
    sleep Schedule;;
    s ← get;
    let ret := if check_current_blocked s then - ERESTARTSYS else 0 in
    if nz (lx_blocked s frame) then
      leave_queue frame sem;; mret (if negb (nz ret) then -1 else ret)
    else mret ret
  else wr sem_free sem 0;; mret 0.

Definition mbx_sem_wait_timed (frame : Z) (sem : fsem) (delay : Z) : F Z :=
  s ← get;
  if negb (nz (sem_free s sem)) then
    queue_current frame sem;;
    sleep (ScheduleTimeout delay);;
    s ← get;
    if check_current_blocked s then mret (- ERESTARTSYS)
    else if nz (lx_blocked s frame) then leave_queue frame sem;; mret (-1)
    else mret 0
  else wr sem_free sem 0;; mret 0.

(** [fravbs] is the counter ([frbs] or [avbs]) the process waits for. *)
Definition mbx_wait_on (e : fevent) (m : Z) (fravbs : mbuf -> Z) : F Z :=
  s ← get;
  if negb (nz (fravbs (mbx s m))) then
    wr waiting_task m (current s);;
    sleep e;;
    s ← get;
    if check_current_blocked s then mret (- ERESTARTSYS)
    else if waiting_task s m =? current s then wr waiting_task m 0;; mret (-1)
    else mret 0
  else mret 0.

Definition mbx_wait (m : Z) (fravbs : mbuf -> Z) : F Z := mbx_wait_on Schedule m fravbs.
Definition mbx_wait_timed (m : Z) (fravbs : mbuf -> Z) (delay : Z) : F Z :=
  mbx_wait_on (ScheduleTimeout delay) m fravbs.

(** * The buffer

    [mbx_put], [mbx_get], [mbx_evdrp] and [mbx_ovrwr_put] are the loops of
    [CircBuf] but for [copy_from_user] and [copy_to_user], which take and give
    the same bytes as [memcpy]. *)

Definition mbx_put (m : Z) (msg : list Z) (msg_size : Z) : F (list Z * Z) :=
  s ← get;
  '(b, msg, msg_size) ← of_option (mbxput (mbx s m) msg msg_size);
  wr mbx m b;;
  mret (msg, msg_size).

Definition mbx_ovrwr_put (m : Z) (msg : list Z) (msg_size : Z) : F Z :=
  s ← get;
  b ← of_option (mbxovrwrput (mbx s m) msg msg_size);
  wr mbx m b;;
  mret 0.

Definition mbx_get (m msg_size : Z) : F (list Z * Z) :=
  s ← get;
  '(b, out, msg_size) ← of_option (mbxget (mbx s m) msg_size);
  wr mbx m b;;
  mret (out, msg_size).

Definition mbx_evdrp (m msg_size : Z) : F (list Z * Z) :=
  s ← get;
  of_option (mbxevdrp (mbx s m) msg_size).

Definition mbx_sem_init (sem : fsem) (value : Z) : F unit :=
  wr sem_free sem value;;
  wr sem_qtype sem 0;;
  wr fq_prev (FQueue sem) (FQueue sem);;
  wr fq_next (FQueue sem) (FQueue sem);;
  wr fq_task (FQueue sem) 0.

(** The loop of [mbx_sem_delete] pops the waiting processes. *)
Fixpoint sem_delete_loop (fuel : nat) (sem : fsem) : F unit :=
  s ← get;
  let task := fq_task s (fq_next s (FQueue sem)) in
  if nz task then
    match fuel with
    | O => stuck
    | S fuel' =>
        wr fq_next (FQueue sem) (fq_next s (FTask task));;
        wr fq_prev (fq_next s (FTask task)) (FQueue sem);;
        taskq_put (lx_task s task);;
        sem_delete_loop fuel' sem
    end
  else mret tt.

Definition mbx_sem_delete (sem : fsem) : F Z := sem_delete_loop LIST_FUEL sem;; mret 0.

Definition mbx_init (m size_ : Z) (bufadr_ : list Z) : F unit :=
  mbx_sem_init (FSnd m) 1;;
  mbx_sem_init (FRcv m) 1;;
  wr waiting_task m 0;;
  wr mbx m (mkMbuf size_ 0 0 0 size_ bufadr_).

Definition mbx_delete (m : Z) : F Z :=
  mbx_signal m;;
  r ← mbx_sem_delete (FSnd m);
  if nz r then mret (- EFAULT)
  else
    r ← mbx_sem_delete (FRcv m);
    mret (if nz r then - EFAULT else 0).

(** * Sending and receiving *)

(** [while (msg_size) {...}] with the wait of the variant. *)
Fixpoint send_loop (fuel : nat) (wait : F Z) (m : Z) (msg : list Z) (msg_size : Z) : F Z :=
  if nz msg_size then
    match fuel with
    | O => stuck
    | S fuel' =>
        failed ← wait;
        if nz failed then mbx_sem_signal (FSnd m) (Some m);; mret msg_size
        else
          '(msg, msg_size) ← mbx_put m msg msg_size;
          mbx_signal m;;
          send_loop fuel' wait m msg msg_size
    end
  else mbx_sem_signal (FSnd m) (Some m);; mret 0.

Definition msg_fuel (msg_size : Z) : nat := S (Z.to_nat msg_size).

Definition mbx_send (frame m : Z) (msg : list Z) (msg_size : Z) : F Z :=
  r ← mbx_sem_wait frame (FSnd m);
  if nz r then mret msg_size
  else send_loop (msg_fuel msg_size) (mbx_wait m frbs) m msg msg_size.

Definition mbx_send_timed (frame m : Z) (msg : list Z) (msg_size delay : Z) : F Z :=
  r ← mbx_sem_wait_timed frame (FSnd m) delay;
  if nz r then mret msg_size
  else send_loop (msg_fuel msg_size) (mbx_wait_timed m frbs delay) m msg msg_size.

Definition mbx_send_wp (m : Z) (msg : list Z) (msg_size : Z) : F Z :=
  s ← get;
  if nz (sem_free s (FSnd m)) && nz (frbs (mbx s m)) then
    wr sem_free (FSnd m) 0;;
    '(_, msg_size) ← mbx_put m msg msg_size;
    mbx_signal m;;
    mbx_sem_signal (FSnd m) (Some m);;
    mret msg_size
  else mret msg_size.

Definition mbx_send_if (m : Z) (msg : list Z) (msg_size : Z) : F Z :=
  s ← get;
  if nz (sem_free s (FSnd m)) && (frbs (mbx s m) >=? msg_size) then
    wr sem_free (FSnd m) 0;;
    '(_, msg_size) ← mbx_put m msg msg_size;
    mbx_signal m;;
    mbx_sem_signal (FSnd m) (Some m);;
    mret msg_size
  else mret msg_size.

Definition mbx_ovrwr_send (m : Z) (msg : list Z) (msg_size : Z) : F Z :=
  s ← get;
  if nz (sem_free s (FSnd m)) then
    wr sem_free (FSnd m) 0;;
    msg_size ← mbx_ovrwr_put m msg msg_size;
    mbx_signal m;;
    mbx_sem_signal (FSnd m) (Some m);;
    mret msg_size
  else mret msg_size.

Fixpoint receive_loop (fuel : nat) (wait : F Z) (m : Z) (out : list Z) (msg_size : Z)
    : F (Z * list Z) :=
  if nz msg_size then
    match fuel with
    | O => stuck
    | S fuel' =>
        failed ← wait;
        if nz failed then mbx_sem_signal (FRcv m) (Some m);; mret (msg_size, out)
        else
          '(bytes, msg_size) ← mbx_get m msg_size;
          mbx_signal m;;
          receive_loop fuel' wait m (out ++ bytes) msg_size
    end
  else mbx_sem_signal (FRcv m) (Some m);; mret (0, out).

Definition mbx_receive (frame m msg_size : Z) : F (Z * list Z) :=
  r ← mbx_sem_wait frame (FRcv m);
  if nz r then mret (msg_size, [])
  else receive_loop (msg_fuel msg_size) (mbx_wait m avbs) m [] msg_size.

Definition mbx_receive_timed (frame m msg_size delay : Z) : F (Z * list Z) :=
  r ← mbx_sem_wait_timed frame (FRcv m) delay;
  if nz r then mret (msg_size, [])
  else receive_loop (msg_fuel msg_size) (mbx_wait_timed m avbs delay) m [] msg_size.

Definition mbx_receive_wjo (frame m msg_size : Z) : F (Z * list Z) :=
  r ← mbx_sem_wait frame (FRcv m);
  if nz r then mret (msg_size, [])
  else if nz msg_size then
    failed ← mbx_wait m avbs;
    if nz failed then mbx_sem_signal (FRcv m) (Some m);; mret (msg_size, [])
    else
      '(out, msg_size) ← mbx_get m msg_size;
      mbx_signal m;;
      mbx_sem_signal (FRcv m) (Some m);;
      mret (msg_size, out)
  else mbx_sem_signal (FRcv m) (Some m);; mret (msg_size, []).

Definition mbx_receive_wp (m msg_size : Z) : F (Z * list Z) :=
  s ← get;
  if nz (sem_free s (FRcv m)) && nz (avbs (mbx s m)) then
    wr sem_free (FRcv m) 0;;
    '(out, msg_size) ← mbx_get m msg_size;
    mbx_signal m;;
    mbx_sem_signal (FRcv m) (Some m);;
    mret (msg_size, out)
  else mret (msg_size, []).

Definition mbx_receive_if (m msg_size : Z) : F (Z * list Z) :=
  s ← get;
  if nz (sem_free s (FRcv m)) && (frbs (mbx s m) >=? msg_size) then
    wr sem_free (FRcv m) 0;;
    '(out, msg_size) ← mbx_get m msg_size;
    mbx_signal m;;
    mbx_sem_signal (FRcv m) (Some m);;
    mret (msg_size, out)
  else mret (msg_size, []).

(** * The Linux side of the requests *)

Fixpoint wake_tasks (fuel : nat) : F unit :=
  s ← get;
  if tq_out s =? tq_in s then mret tt
  else match fuel with
       | O => stuck
       | S fuel' =>
           let t := tq_task s (tq_out s) in
           when (tstate s t =? TASK_INTERRUPTIBLE) (log_event (WakeUp t));;
           wg tq_out (Z.land (tq_out s + 1) (MAXREQS - 1));;
           wake_tasks fuel'
       end.

Fixpoint wake_polls (fuel : nat) : F unit :=
  s ← get;
  if pq_out s =? pq_in s then mret tt
  else match fuel with
       | O => stuck
       | S fuel' =>
           let m := pq_fifo s (pq_out s) in
           wr pol_asyn_pended m 0;;
           when (nz (pollq s m)) (log_event (WakePoll m));;
           when (nz (asynq s m)) (log_event (KillFasync m (async_sig s)));;
           wg pq_out (Z.land (pq_out s + 1) (MAXREQS - 1));;
           wake_polls fuel'
       end.

Definition rtf_sysrq_handler : F unit :=
  wake_tasks (Z.to_nat MAXREQS);; wake_polls (Z.to_nat MAXREQS).

(** * The interface of the real time tasks *)

(** [VALID_FIFO], with what the service does after it. *)
Definition VALID_FIFO (minor : Z) {A} (bad : Z -> A) (m : F A) : F A :=
  s ← get;
  if u32 minor >=? MAX_FIFOS then mret (bad (- ENODEV))
  else if negb (nz (opncnt s minor)) then mret (bad (- EINVAL))
  else m.

Definition rtf_reset (minor : Z) : F Z :=
  VALID_FIFO minor id
    (r ← mbx_delete minor;
     if nz r then mret (- EFAULT)
     else
       s ← get;
       mbx_init minor (size (mbx s minor)) (bufadr (mbx s minor));;
       mret 0).

(** [kmalloc] up to 32 pages, [vmalloc] beyond. *)
Definition malloc_kind (size_ : Z) : Z := if size_ <=? PAGE_SIZE * 32 then 107 else 118.

(** [buf] is the new memory, if any. *)
Definition rtf_resize (buf : option (list Z)) (minor size_ : Z) : F Z :=
  VALID_FIFO minor id
    (match buf with
     | None => mret (- ENOMEM)
     | Some adr =>
         s ← get;
         let kind := malloc_type s minor in
         wr malloc_type minor (malloc_kind size_);;
         '(out, rest) ← mbx_get minor 1000000000;
         adr ← of_option (mem_write adr 0 out (Z.of_nat (Datatypes.length out)));
         log_event (KFree minor kind);;
         s ← get;
         let b := mbx s minor in
         let size' := if size_ >? size b then size_ else size b in
         let avbs' := 1000000000 - rest in
         wr mbx minor (mkMbuf size' 0 (lbyte b) avbs' (size' - avbs') adr);;
         mret size_
     end).

Definition rtf_create (buf : option (list Z)) (minor size_ : Z) : F Z :=
  if u32 minor >=? MAX_FIFOS then mret (- ENODEV)
  else
    s ← get;
    if negb (nz (opncnt s minor)) then
      match buf with
      | None => mret (- ENOMEM)
      | Some adr =>
          wr malloc_type minor (malloc_kind size_);;
          wr handler minor 0;;
          mbx_init minor size_ adr;;
          mbx_sem_init (FSem minor) 0;;
          wr pol_asyn_pended minor 0;;
          wr asynq minor 0;;
          wr name minor EmptyString;;
          wr opncnt minor (i32 (opncnt s minor + 1));;
          mret 0
      end
    else
      when (size_ >? size (mbx s minor)) (_ ← rtf_resize buf minor size_; mret tt);;
      s ← get;
      wr opncnt minor (i32 (opncnt s minor + 1));;
      mret 0.

Definition rtf_destroy (minor : Z) : F Z :=
  VALID_FIFO minor id
    (s ← get;
     wr opncnt minor (i32 (opncnt s minor - 1));;
     s ← get;
     when (negb (nz (opncnt s minor)))
       (log_event (KFree minor (malloc_type s minor));;
        wr handler minor 0;;
        _ ← mbx_delete minor;
        wr pol_asyn_pended minor 0;;
        wr asynq minor 0;;
        wr name minor EmptyString);;
     s ← get;
     mret (opncnt s minor)).

Definition rtf_create_handler (minor handler_ : Z) : F Z :=
  if (u32 minor >=? MAX_FIFOS) || negb (nz handler_) then mret (- EINVAL)
  else wr handler minor handler_;; mret 0.

Definition rtf_put (minor : Z) (buf : list Z) (count : Z) : F Z :=
  VALID_FIFO minor id (rest ← mbx_send_wp minor buf count; mret (count - rest)).

Definition rtf_ovrwr_put (minor : Z) (buf : list Z) (count : Z) : F Z :=
  VALID_FIFO minor id (mbx_ovrwr_send minor buf count).

Definition rtf_put_if (minor : Z) (buf : list Z) (count : Z) : F Z :=
  VALID_FIFO minor id (rest ← mbx_send_if minor buf count; mret (count - rest)).

Definition rtf_get (minor count : Z) : F (Z * list Z) :=
  VALID_FIFO minor (fun e => (e, []))
    ('(rest, out) ← mbx_receive_wp minor count; mret (count - rest, out)).

Definition rtf_evdrp (minor msg_size : Z) : F (Z * list Z) :=
  VALID_FIFO minor (fun e => (e, []))
    ('(out, rest) ← mbx_evdrp minor msg_size; mret (msg_size - rest, out)).

(** [rtf_get_if] calls [mbx_send_if], on the caller's buffer. *)
Definition rtf_get_if (minor : Z) (buf : list Z) (count : Z) : F Z :=
  VALID_FIFO minor id (rest ← mbx_send_if minor buf count; mret (count - rest)).

Definition rtf_sem_init (minor value : Z) : F Z :=
  VALID_FIFO minor id (mbx_sem_init (FSem minor) value;; mret 0).

Definition rtf_sem_post (minor : Z) : F Z :=
  VALID_FIFO minor id (mbx_sem_signal (FSem minor) None;; mret 0).

Definition rtf_sem_trywait (minor : Z) : F Z :=
  VALID_FIFO minor id (mbx_sem_wait_if (FSem minor)).

Definition rtf_sem_delete (minor : Z) : F Z :=
  VALID_FIFO minor id (mbx_sem_delete (FSem minor)).

(** * Named fifos *)

(** [!strncmp(a, b, RTF_NAMELEN)] *)
Definition same_name (a b : string) : bool :=
  String.eqb (substring 0 RTF_NAMELEN a) (substring 0 RTF_NAMELEN b).

Fixpoint create_named_loop (n : nat) (buf : option (list Z)) (name_ : string) (minor : Z) : F Z :=
  match n with
  | O => mret (- EBUSY)
  | S n' =>
      s ← get;
      if same_name name_ (name s minor) then mret (- EBUSY)
      else if negb (nz (opncnt s minor)) && String.eqb (name s minor) EmptyString then
        err ← rtf_create buf minor DEFAULT_SIZE;
        if err <? 0 then mret err else wr name minor name_;; mret minor
      else create_named_loop n' buf name_ (minor + 1)
  end.

Definition rtf_create_named (buf : option (list Z)) (name_ : string) : F Z :=
  if Nat.ltb RTF_NAMELEN (String.length name_) then mret (- EINVAL)
  else create_named_loop (Z.to_nat MAX_FIFOS) buf name_ 0.

Fixpoint getfifobyname_loop (n : nat) (s : FIFOS) (name_ : string) (minor : Z) : Z :=
  match n with
  | O => - ENODEV
  | S n' =>
      if nz (opncnt s minor) && same_name name_ (name s minor) then minor
      else getfifobyname_loop n' s name_ (minor + 1)
  end.

Definition rtf_getfifobyname (s : FIFOS) (name_ : string) : Z :=
  if Nat.ltb RTF_NAMELEN (String.length name_) then - EINVAL
  else getfifobyname_loop (Z.to_nat MAX_FIFOS) s name_ 0.

(** * The character device *)

Definition O_NONBLOCK : Z := 2048.
Definition HZ : Z := 100.
Definition DELAY (x : Z) : Z := Z.quot (i32 (x * HZ + 500)) 1000.
Definition ORD_r : Z := 114.
Definition ORD_w : Z := 119.
Definition POLLIN : Z := 1.
Definition POLLOUT : Z := 4.
Definition POLLRDNORM : Z := 64.
Definition POLLWRNORM : Z := 256.

(** The requests of [rtf_ioctl], with the arguments it copies from user
    space. *)
Inductive ioctl_cmd : Type :=
  | RESET | RESIZE (size : Z) | SUSPEND_TIMED (delay : Z) | OPEN_SIZED (size : Z)
  | READ_ALL_AT_ONCE (count : Z) | EAVESDROP (count : Z) | READ_TIMED (count delay : Z)
  | READ_IF (count : Z) | WRITE_TIMED (buf : list Z) (count delay : Z)
  | WRITE_IF (buf : list Z) (count : Z) | OVRWRITE (buf : list Z) (count : Z)
  | RTF_SEM_INIT (value : Z) | RTF_SEM_WAIT | RTF_SEM_TRYWAIT | RTF_SEM_TIMED_WAIT (delay : Z)
  | RTF_SEM_POST | RTF_SEM_DESTROY | SET_ASYNC_SIG (sig : Z) | FIONREAD
  | RTF_GET_N_FIFOS | RTF_GET_FIFO_INFO (fifo n : Z)
  | RTF_CREATE_NAMED (name : string) | RTF_NAME_LOOKUP (name : string)
  | TCGETS | OTHER_CMD.

(** What a request stores in user space. *)
Inductive ioctl_out : Type :=
  | NoOut | Bytes (l : list Z) | Number (n : Z) | Infos (l : list (Z * Z * Z * string)).

Section Device.
(** The result of the user's handler: its address, the minor, and ['r'] or
    ['w']. *)
Context (run_handler : Z -> Z -> Z -> Z).

Definition call_handler (minor rw : Z) : F Z :=
  s ← get;
  log_event (Handler (handler s minor) minor rw);;
  mret (run_handler (handler s minor) minor rw).

(** The end of the requests that read [count] bytes. *)
Definition read_done (minor count : Z) (out : list Z) : F (Z * list Z) :=
  if nz count then
    handler_ret ← call_handler minor ORD_r;
    mret (if handler_ret <? 0 then handler_ret else count, out)
  else mret (0, out).

Definition write_done (minor count : Z) : F Z :=
  handler_ret ← call_handler minor ORD_w;
  mret (if handler_ret <? 0 then handler_ret else count).

Definition rtf_open (buf : option (list Z)) (minor : Z) : F Z :=
  rtf_create buf minor DEFAULT_SIZE.

Definition rtf_release (minor : Z) : F Z :=
  s ← get;
  when (nz (pollq s minor)) (log_event (WakePoll minor));;
  wr asynq minor 0;;
  rtf_destroy minor.

Definition rtf_read (frame f_flags minor count : Z) : F (Z * list Z) :=
  if nz (Z.land f_flags O_NONBLOCK) then
    '(rest, out) ← mbx_receive_wp minor count;
    if negb (nz (count - rest)) then mret (- EAGAIN, out)
    else read_done minor (count - rest) out
  else
    '(rest, out) ← mbx_receive_wjo frame minor count;
    read_done minor (count - rest) out.

Definition rtf_write (frame f_flags minor : Z) (buf : list Z) (count : Z) : F Z :=
  if nz (Z.land f_flags O_NONBLOCK) then
    rest ← mbx_send_wp minor buf count;
    if negb (nz (count - rest)) then mret (- EAGAIN) else write_done minor (count - rest)
  else
    rest ← mbx_send frame minor buf count;
    write_done minor (count - rest).

(** [RTF_GET_FIFO_INFO]: number, size, open count and name. *)
Fixpoint fifo_infos (n : nat) (s : FIFOS) (i : Z) : list (Z * Z * Z * string) :=
  match n with
  | O => []
  | S n' =>
      if i <? MAX_FIFOS then (i, size (mbx s i), opncnt s i, name s i) :: fifo_infos n' s (i + 1)
      else []
  end.

Definition with_out (m : F (Z * list Z)) : F (Z * ioctl_out) :=
  '(r, out) ← m; mret (r, Bytes out).
Definition no_out (m : F Z) : F (Z * ioctl_out) := r ← m; mret (r, NoOut).

Definition ioctl_read_timed (frame minor count delay : Z) : F (Z * list Z) :=
  if negb (nz delay) then
    '(rest, out) ← mbx_receive_wp minor count;
    if negb (nz (count - rest)) then mret (- EAGAIN, out)
    else read_done minor (count - rest) out
  else
    '(rest, out) ← mbx_receive_timed frame minor count (DELAY delay);
    read_done minor (count - rest) out.

Definition ioctl_write_timed (frame minor : Z) (buf : list Z) (count delay : Z) : F Z :=
  if negb (nz delay) then
    rest ← mbx_send_wp minor buf count;
    if negb (nz (count - rest)) then mret (- EAGAIN) else write_done minor (count - rest)
  else
    rest ← mbx_send_timed frame minor buf count (DELAY delay);
    write_done minor (count - rest).

Definition ioctl_write_if (minor : Z) (buf : list Z) (count : Z) : F Z :=
  if nz count then
    rest ← mbx_send_wp minor buf count;
    if negb (nz (count - rest)) then mret (- EAGAIN) else write_done minor (count - rest)
  else write_done minor count.

Definition rtf_ioctl (mem : option (list Z)) (frame minor : Z) (cmd : ioctl_cmd)
    : F (Z * ioctl_out) :=
  match cmd with
  | RESET => no_out (rtf_reset minor)
  | RESIZE size => no_out (rtf_resize mem minor size)
  | SUSPEND_TIMED delay =>
      no_out (sleep (ScheduleTimeout (DELAY delay));;
              s ← get;
              mret (if check_current_blocked s then - ERESTARTSYS else 0))
  | OPEN_SIZED size => no_out (rtf_create mem minor size)
  | READ_ALL_AT_ONCE count =>
      with_out ('(rest, out) ← mbx_receive frame minor count; read_done minor (count - rest) out)
  | EAVESDROP count => with_out ('(out, rest) ← mbx_evdrp minor count; mret (count - rest, out))
  | READ_TIMED count delay => with_out (ioctl_read_timed frame minor count delay)
  | READ_IF count =>
      with_out ('(rest, out) ← mbx_receive_if minor count; read_done minor (count - rest) out)
  | WRITE_TIMED buf count delay => no_out (ioctl_write_timed frame minor buf count delay)
  | WRITE_IF buf count => no_out (ioctl_write_if minor buf count)
  | OVRWRITE buf count => no_out (mbx_ovrwr_send minor buf count)
  | RTF_SEM_INIT value => no_out (mbx_sem_init (FSem minor) value;; mret 0)
  | RTF_SEM_WAIT => no_out (mbx_sem_wait frame (FSem minor))
  | RTF_SEM_TRYWAIT => no_out (mbx_sem_wait_if (FSem minor))
  | RTF_SEM_TIMED_WAIT delay => no_out (mbx_sem_wait_timed frame (FSem minor) (DELAY delay))
  | RTF_SEM_POST => no_out (mbx_sem_signal (FSem minor) None;; mret 0)
  | RTF_SEM_DESTROY => no_out (_ ← mbx_sem_delete (FSem minor); mret 0)
  | SET_ASYNC_SIG sig => no_out (wg async_sig sig;; mret 0)
  | FIONREAD => s ← get; mret (0, Number (avbs (mbx s minor)))
  | RTF_GET_N_FIFOS => mret (MAX_FIFOS, NoOut)
  | RTF_GET_FIFO_INFO fifo n =>
      s ← get;
      let infos := fifo_infos (Z.to_nat n) s fifo in
      mret (Z.of_nat (List.length infos), Infos infos)
  | RTF_CREATE_NAMED name => no_out (rtf_create_named mem name)
  | RTF_NAME_LOOKUP name => s ← get; mret (rtf_getfifobyname s name, NoOut)
  | TCGETS => mret (- ENOTTY, NoOut)
  | OTHER_CMD => mret (- EINVAL, NoOut)
  end.
End Device.

Definition rtf_poll (s : FIFOS) (minor : Z) : Z :=
  Z.lor (if nz (avbs (mbx s minor)) then Z.lor POLLIN POLLRDNORM else 0)
        (if nz (frbs (mbx s minor)) then Z.lor POLLOUT POLLWRNORM else 0).

Definition rtf_llseek (minor : Z) : F Z := rtf_reset minor.

(** [init_module]: the fifos are closed, with their semaphores initialised. *)
Fixpoint init_fifos (n : nat) (minor : Z) : F unit :=
  match n with
  | O => mret tt
  | S n' =>
      wr opncnt minor 0;; wr pol_asyn_pended minor 0;; wr asynq minor 0;;
      mbx_sem_init (FSem minor) 0;;
      init_fifos n' (minor + 1)
  end.

Definition SIGIO : Z := 29.

Definition init_module : F unit :=
  wg tq_in 0;; wg tq_out 0;; wg pq_in 0;; wg pq_out 0;;
  wg async_sig SIGIO;;
  init_fifos (Z.to_nat MAX_FIFOS) 0.

(** * Properties *)

Ltac step_f := cbv delta [log_event]; run_m.

Section FifoProperties.
Implicit Types (s : FIFOS) (m n : Z) (c buf : list Z).
Local Notation len l := (Z.of_nat (Datatypes.length l)).

(** An open fifo that holds [c], which nobody is writing or reading, and for
    which no process waits on a semaphore. *)
Definition fifo_rest s m c : Prop :=
  0 <= m < MAX_FIFOS /\ opncnt s m <> 0 /\ holds (mbx s m) c /\
  forall sem, sem = FSnd m \/ sem = FRcv m ->
    sem_free s sem = 1 /\ fq_task s (fq_next s (FQueue sem)) = 0.

Lemma mbxget_lbyte b n b' out r : mbxget b n = Some (b', out, r) -> lbyte b' = lbyte b.
Proof.
  unfold mbxget. generalize (Z.to_nat n) as fuel. generalize (@nil Z) as acc.
  intros acc fuel. revert b acc n. induction fuel as [|fuel IH]; intros b acc n; simpl.
  - destruct (_ && _); [done|]. by intros [= <- _ _].
  - destruct (_ && _); [|by intros [= <- _ _]]. destruct (mem_read _ _ _); simpl; [|done].
    by intros H%IH.
Qed.

(** What the end of a transfer may change besides. *)
Definition fifo_frame s s' : Prop :=
  opncnt s' = opncnt s /\ mbx s' = mbx s /\ fq_task s' = fq_task s /\ fq_next s' = fq_next s.

Lemma taskq_put_frame t s : exists s', taskq_put t s = Done tt s' /\ fifo_frame s s' /\ sem_free s' = sem_free s.
Proof.
  unfold taskq_put, log_event. step_f. eexists. split; [reflexivity|].
  unfold fifo_frame. state_simpl. by split_and!.
Qed.

(** The waiting process, if any, is woken. *)
Lemma mbx_signal_frame m s :
  exists s', mbx_signal m s = Done tt s' /\ fifo_frame s s' /\ sem_free s' = sem_free s /\
    waiting_task s' m = 0 /\ (waiting_task s m <> 0 -> tq_task s' (tq_in s) = waiting_task s m).
Proof.
  unfold mbx_signal, taskq_put, log_event. step_f. destruct (nz (waiting_task s m)) eqn:E; step_f.
  - eexists. split; [reflexivity|]. unfold fifo_frame. state_simpl. rewrite !upd_eq. by split_and!.
  - apply nz_false in E. exists s. unfold fifo_frame. by split_and!.
Qed.

(** The semaphore is free again; a process that polls may be told. *)
Lemma mbx_sem_signal_free sem m s :
  fq_task s (fq_next s (FQueue sem)) = 0 ->
  exists s', mbx_sem_signal sem (Some m) s = Done tt s' /\ fifo_frame s s' /\
    sem_free s' = <[sem := 1]> (sem_free s).
Proof.
  intros H0. unfold mbx_sem_signal, log_event. step_f. rewrite H0. change (nz 0) with false. step_f.
  destruct (_ && _ && _); step_f; eexists; (split; [reflexivity|]); unfold fifo_frame; state_simpl;
    by split_and!.
Qed.

Lemma fifo_put_eq m s c buf :
  holds (mbx s m) c ->
  let k := Z.min (len buf) (frbs (mbx s m)) in
  exists b, mbx_put m buf (len buf) s = Done (drop (Z.to_nat k) buf, len buf - k) (s <| mbx ::= <[m := b]> |>) /\
    size b = size (mbx s m) /\ holds b (c ++ take (Z.to_nat k) buf).
Proof.
  intros Hh k. destruct (mbxput_spec _ c buf (len buf) Hh) as (b & E & Hs & Hh'); [lia|].
  exists b. split_and!; [|done|done]. unfold mbx_put. step_f. by rewrite E.
Qed.

Lemma fifo_get_eq m s c n :
  holds (mbx s m) c -> 0 <= n ->
  exists b, mbx_get m n s = Done (take (Z.to_nat n) c, n - Z.min n (len c)) (s <| mbx ::= <[m := b]> |>) /\
    size b = size (mbx s m) /\ lbyte b = lbyte (mbx s m) /\ holds b (drop (Z.to_nat n) c).
Proof.
  intros Hh Hn. destruct (mbxget_spec _ c n Hh Hn) as (b & E & Hs & Hh').
  exists b. split_and!; [|done|by apply mbxget_lbyte in E|done]. unfold mbx_get. step_f. by rewrite E.
Qed.

(** The end of every transfer that does not wait: the process that waits for
    the fifo is woken, and the semaphore freed. *)
Definition transfer_end (sem : fsem) m : F unit := mbx_signal m;; mbx_sem_signal sem (Some m).

Lemma transfer_end_spec sem m s :
  fq_task s (fq_next s (FQueue sem)) = 0 ->
  exists s', transfer_end sem m s = Done tt s' /\ fifo_frame s s' /\
    sem_free s' = <[sem := 1]> (sem_free s).
Proof.
  intros H0. unfold transfer_end.
  destruct (mbx_signal_frame m s) as (s1 & E1 & (Ho & Hm & Ht & Hn) & Hf & _).
  destruct (mbx_sem_signal_free sem m s1) as (s2 & E2 & (Ho2 & Hm2 & Ht2 & Hn2) & Hf2); [congruence|].
  exists s2. step_f. rewrite E1. cbn [bind_out]. rewrite E2, Hf2, Hf. unfold fifo_frame.
  split_and!; congruence.
Qed.

Lemma transfer_rest sem m s s' b c :
  fifo_rest s m c -> sem = FSnd m \/ sem = FRcv m ->
  opncnt s' = opncnt s -> mbx s' = <[m := b]> (mbx s) -> fq_task s' = fq_task s ->
  fq_next s' = fq_next s -> sem_free s' = <[sem := 1]> (<[sem := 0]> (sem_free s)) ->
  forall c', holds b c' -> fifo_rest s' m c'.
Proof.
  intros (Hm & Ho & _ & Hs) Hsem Eo Em Et En Ef c' Hb. unfold fifo_rest.
  rewrite Eo, Em, Et, En, Ef, upd_eq. split_and!; [lia..|done|done|]. intros x Hx.
  destruct (Hs x Hx). split; [|done]. destruct (decide (sem = x)) as [->|]; [by rewrite upd_eq|].
  by rewrite !upd_ne.
Qed.

Lemma VALID_FIFO_open {A} minor s (bad : Z -> A) (f : F A) :
  0 <= minor < MAX_FIFOS -> opncnt s minor <> 0 -> VALID_FIFO minor bad f s = f s.
Proof.
  intros Hm Ho. unfold VALID_FIFO. step_f. unfold u32. unfold MAX_FIFOS in *. rewrite Z.mod_small by lia.
  rewrite Z.geb_leb, (proj2 (Z.leb_gt _ _)) by lia. by rewrite (proj2 (nz_true _)) by done.
Qed.

Lemma rtf_put_spec s m c buf :
  fifo_rest s m c ->
  let k := Z.min (len buf) (frbs (mbx s m)) in
  exists s', rtf_put m buf (len buf) s = Done k s' /\
    fifo_rest s' m (c ++ take (Z.to_nat k) buf).
Proof.
  intros Hr k. pose proof Hr as (Hm & Ho & Hh & Hs). destruct (Hs (FSnd m)) as [Hf Hq]; [by left|].
  unfold rtf_put. rewrite VALID_FIFO_open by done. unfold mbx_send_wp. step_f. rewrite Hf.
  change (nz 1) with true. pose proof (holds_room _ _ Hh) as Hroom.
  destruct (nz (frbs (mbx s m))) eqn:E; step_f.
  - set (s1 := s <| sem_free ::= <[FSnd m := 0]> |>).
    assert (Hh1 : holds (mbx s1 m) c) by (unfold s1; by state_simpl).
    destruct (fifo_put_eq m s1 c buf Hh1) as (b & -> & Hsz & Hb). step_f.
    destruct (transfer_end_spec (FSnd m) m (s1 <| mbx ::= <[m := b]> |>)) as (s2 & E2 & (Eo & Em & Et & En) & Ef);
      [unfold s1; by state_simpl|].
    change (frbs (mbx s1 m)) with (frbs (mbx s m)) in Hb. fold k in Hb. revert E2.
    unfold transfer_end. step_f. destruct (mbx_signal _ _); [|done..]. step_f. intros ->. step_f.
    exists s2. split.
    + f_equal. unfold s1, k. state_simpl. lia.
    + eapply transfer_rest; [exact Hr|by left|..|exact Hb].
      all: rewrite ?Eo, ?Em, ?Et, ?En, ?Ef; unfold s1; by state_simpl.
  - apply nz_false in E. exists s. unfold k. rewrite E, Z.min_r by lia. split; [f_equal; lia|].
    by rewrite take_0, app_nil_r.
Qed.

Lemma rtf_get_spec s m c n :
  fifo_rest s m c -> 0 <= n ->
  exists s', rtf_get m n s = Done (Z.min n (len c), take (Z.to_nat n) c) s' /\
    fifo_rest s' m (drop (Z.to_nat n) c).
Proof.
  intros Hr H0. pose proof Hr as (Hm & Ho & Hh & Hs). destruct (Hs (FRcv m)) as [Hf Hq]; [by right|].
  unfold rtf_get. rewrite VALID_FIFO_open by done. unfold mbx_receive_wp. step_f. rewrite Hf.
  change (nz 1) with true. pose proof (holds_bounds _ _ Hh) as B.
  destruct (nz (avbs (mbx s m))) eqn:E; step_f.
  - set (s1 := s <| sem_free ::= <[FRcv m := 0]> |>).
    assert (Hh1 : holds (mbx s1 m) c) by (unfold s1; by state_simpl).
    destruct (fifo_get_eq m s1 c n Hh1 H0) as (b & -> & Hsz & _ & Hb). step_f.
    destruct (transfer_end_spec (FRcv m) m (s1 <| mbx ::= <[m := b]> |>)) as (s2 & E2 & (Eo & Em & Et & En) & Ef);
      [unfold s1; by state_simpl|].
    revert E2. unfold transfer_end. step_f. destruct (mbx_signal _ _); [|done..]. step_f. intros ->. step_f.
    exists s2. split; [f_equal; f_equal; lia|].
    eapply transfer_rest; [exact Hr|by right|..|exact Hb].
    all: rewrite ?Eo, ?Em, ?Et, ?En, ?Ef; unfold s1; by state_simpl.
  - apply nz_false in E. assert (c = []) as -> by (destruct c; simpl in *; [done|lia]).
    exists s. rewrite take_nil, drop_nil. split; [|done]. f_equal. f_equal. simpl. lia.
Qed.

(** ** Named fifos *)

Lemma same_name_empty nm : nm <> EmptyString -> same_name nm EmptyString = false.
Proof. by destruct nm. Qed.

Lemma same_name_refl nm : same_name nm nm = true.
Proof. apply String.eqb_refl. Qed.

(** The fields by which fifos other than [m] are found are kept. *)
Definition name_frame m s s' : Prop :=
  forall k, k <> m -> name s' k = name s k /\ opncnt s' k = opncnt s k.

Lemma rtf_create_spec adr m n s :
  0 <= m < MAX_FIFOS -> opncnt s m = 0 ->
  exists s', rtf_create (Some adr) m n s = Done 0 s' /\ opncnt s' m = 1 /\
    name s' m = EmptyString /\ mbx s' m = mkMbuf n 0 0 0 n adr /\ name_frame m s s'.
Proof.
  intros Hm Ho. unfold rtf_create, mbx_init, mbx_sem_init. unfold MAX_FIFOS in *. step_f.
  unfold u32. rewrite Z.mod_small, Z.geb_leb, (proj2 (Z.leb_gt _ _)) by lia. step_f.
  rewrite Ho. change (nz 0) with false. step_f. eexists. split; [reflexivity|]. unfold name_frame. state_simpl.
  rewrite !upd_eq. split_and!; [done..|]. intros k Hk. by rewrite !upd_ne by congruence.
Qed.
End FifoProperties.

(** * Theorems *)

(** C26: writing to and reading from an open fifo at rest.  [rtf_put]
    accepts the bytes that fit and tells how many; [rtf_get] then returns the
    first bytes of what the fifo held before and what was accepted, in order,
    and removes them; the fifo is at rest again after each. *)
Theorem rtf_put_get s m c buf n :
  fifo_rest s m c -> 0 <= n ->
  let k := Z.min (Z.of_nat (Datatypes.length buf)) (frbs (mbx s m)) in
  let c' := c ++ take (Z.to_nat k) buf in
  exists s1 s2,
    rtf_put m buf (Z.of_nat (Datatypes.length buf)) s = Done k s1 /\ fifo_rest s1 m c' /\
    rtf_get m n s1 = Done (Z.min n (Z.of_nat (Datatypes.length c')), take (Z.to_nat n) c') s2 /\
    fifo_rest s2 m (drop (Z.to_nat n) c').
Proof.
  intros Hr H0 k c'. destruct (rtf_put_spec s m c buf Hr) as (s1 & E1 & H1).
  destruct (rtf_get_spec s1 m c' n H1 H0) as (s2 & E2 & H2). by exists s1, s2.
Qed.

(** [rtf_resize] copies the bytes to the start of a larger buffer and
    resets [fbyte], but not [lbyte]: the fifo holds the same bytes as before
    exactly if [lbyte] happens to be their number already.  Otherwise the
    next write goes to the wrong place. *)
Theorem rtf_resize_keeps_iff s m c adr n :
  fifo_rest s m c -> n = Z.of_nat (Datatypes.length adr) -> size (mbx s m) < n <= 1000000000 ->
  exists s', rtf_resize (Some adr) m n s = Done n s' /\
    avbs (mbx s' m) = Z.of_nat (Datatypes.length c) /\ fbyte (mbx s' m) = 0 /\
    (holds (mbx s' m) c <-> lbyte (mbx s m) = Z.of_nat (Datatypes.length c)).
Proof.
  intros (Hm & Ho & Hh & _) Hn Hs. pose proof (holds_bounds _ _ Hh) as B.
  unfold rtf_resize. rewrite VALID_FIFO_open by done. step_f.
  set (s1 := s <| malloc_type ::= _ |>).
  assert (Hh1 : holds (mbx s1 m) c) by (unfold s1; by state_simpl).
  destruct (fifo_get_eq m s1 c 1000000000 Hh1) as (b & -> & Hsz & Hl & _); [lia|]. step_f.
  change (mbx s1 m) with (mbx s m) in *.
  rewrite take_ge by lia.
  destruct (cut adr (Z.of_nat (Datatypes.length c))) as (l1 & l2 & -> & Hl1 & _ & _); [lia|].
  pose proof (mem_write_app [] l1 l2 c (Z.of_nat (Datatypes.length c))) as Hw.
  rewrite Nat2Z.id, take_ge in Hw by lia. rewrite app_nil_l in Hw. change (Z.of_nat (Datatypes.length [])) with 0 in Hw.
  rewrite Hw by lia. step_f. rewrite upd_eq.
  eexists. split; [reflexivity|]. state_simpl. rewrite upd_eq. cbn [avbs fbyte].
  rewrite Z.min_r, Hl, Hsz, Z.gtb_ltb, (proj2 (Z.ltb_lt _ _)) by lia.
  rewrite length_app in Hn. split_and!; [lia|done|]. split.
  - intros [_ [(A & F & Ha & HF & Hf & Hlb)|(c1 & c2 & F & -> & Ha & HF & Hf & Hlb)]]; cbn in *.
    + destruct A; [|done]. done.
    + rewrite length_app in *. destruct c2; [|simpl in Hf; lia]. destruct F; [|simpl in Hf; lia].
      simpl in Ha. apply (f_equal Datatypes.length) in Ha. rewrite !length_app in Ha. simpl in *. lia.
  - intros E. split.
    + unfold counters. cbn. rewrite length_app. lia.
    + left. exists [], l2. unfold in_one_piece. cbn. split_and!; [done|by intros ->; simpl in *; lia|done|done].
Qed.

(** [rtf_create_named] takes the first closed fifo before it has seen
    the names of all the others: a name that is in use is given to a second
    fifo, and a lookup no longer finds the first. *)
Theorem rtf_create_named_duplicate s k nm adr :
  opncnt s 0 = 0 -> name s 0 = EmptyString ->
  0 < k < MAX_FIFOS -> opncnt s k <> 0 -> name s k = nm ->
  nm <> EmptyString -> (String.length nm <= RTF_NAMELEN)%nat ->
  exists s', rtf_create_named (Some adr) nm s = Done 0 s' /\
    name s' 0 = nm /\ name s' k = nm /\ opncnt s' 0 = 1 /\ opncnt s' k <> 0 /\
    rtf_getfifobyname s' nm = 0.
Proof.
  intros Ho Hn Hk Hok Hnk Hnm Hl. unfold rtf_create_named, rtf_getfifobyname.
  rewrite (proj2 (Nat.ltb_ge _ _)) by done. change (Z.to_nat MAX_FIFOS) with 64%nat.
  cbn [create_named_loop getfifobyname_loop]. step_f.
  rewrite Hn, Ho, same_name_empty by done. change (nz 0) with false. step_f.
  change (String.eqb "" "") with true. step_f.
  destruct (rtf_create_spec adr 0 DEFAULT_SIZE s) as (s1 & -> & Ho1 & _ & _ & Hfr); [done|done|].
  step_f. change (0 <? 0) with false. step_f. eexists. split; [reflexivity|].
  destruct (Hfr k) as [Hn1 Ho1']; [lia|]. state_simpl. rewrite !upd_eq, upd_ne, Ho1, Hn1, Ho1' by lia.
  rewrite same_name_refl. by split_and!.
Qed.

(** ** Witnesses *)

Definition adr4 : list Z := [0; 0; 0; 0].

(** Fifo 3 is created, and holds the end and the start of its buffer. *)
Definition fifos_ex : FIFOS :=
  fifos_zero <| opncnt ::= <[3 := 1]> |> <| sem_free := fun _ => 1 |>
    <| mbx ::= <[3 := mkMbuf 4 3 1 2 2 [8; 0; 0; 7]]> |> <| name ::= <[3 := "pipe"%string]> |>.

Lemma fifos_ex_rest : fifo_rest fifos_ex 3 [7; 8].
Proof.
  split; [done|]. split; [done|]. split; [|by intros sem _].
  split; [done|]. right. by exists [7], [8], [0; 0].
Qed.

Lemma rtf_put_get_witness :
  exists s1 s2,
    rtf_put 3 [9; 10; 11] 3 fifos_ex = Done 2 s1 /\ fifo_rest s1 3 [7; 8; 9; 10] /\
    rtf_get 3 3 s1 = Done (3, [7; 8; 9]) s2 /\ fifo_rest s2 3 [10].
Proof. apply (rtf_put_get fifos_ex 3 [7; 8] [9; 10; 11] 3); [apply fifos_ex_rest|lia]. Defined.

Lemma rtf_resize_keeps_iff_witness :
  exists s', rtf_resize (Some [0; 0; 0; 0; 0; 0]) 3 6 fifos_ex = Done 6 s' /\
    avbs (mbx s' 3) = 2 /\ fbyte (mbx s' 3) = 0 /\ (holds (mbx s' 3) [7; 8] <-> 1 = 2).
Proof.
  apply (rtf_resize_keeps_iff fifos_ex 3 [7; 8] [0; 0; 0; 0; 0; 0] 6); [apply fifos_ex_rest|done|done].
Defined.

Lemma rtf_create_named_duplicate_witness :
  exists s', rtf_create_named (Some adr4) "pipe" fifos_ex = Done 0 s' /\
    name s' 0 = "pipe"%string /\ name s' 3 = "pipe"%string /\ opncnt s' 0 = 1 /\ opncnt s' 3 <> 0 /\
    rtf_getfifobyname s' "pipe" = 0.
Proof. apply (rtf_create_named_duplicate fifos_ex 3 "pipe" adr4); vm_compute; try done; lia. Defined.
