(* ===== verification/Registry.v ===== *)
(** Registry: names of real time objects.

    [newlxrt/registry.c], the table that gives tasks and user processes the
    address of an object by its name, and [include/rtai_nam2num.h], the
    encoding of names of up to six characters in an [unsigned long]. *)

From S2P Require Import Prelude.

(** * The table *)

(** [struct rt_registry_entry_struct] *)
Record entry : Type := mkEntry {
  name : Z;
  adr : Z;
  tsk : Z;
  pid : Z;
  type : Z
}.

(** [lxrt_list], slot 0 first; the seed of [get_name]; the field [pid] of the
    Linux task structs. *)
Record REGISTRY : Type := mkREGISTRY {
  lxrt_list : list entry;
  nameseed : Z;
  task_pid : Z -> Z
}.

#[export] Instance REGISTRY_eta : Eta REGISTRY := fun s =>
  mkREGISTRY (lxrt_list s) (nameseed s) (task_pid s).
#[export] Instance set_lxrt_list : Setter lxrt_list := ltac:(mk_setter).
#[export] Instance set_nameseed : Setter nameseed := ltac:(mk_setter).
#[export] Instance set_task_pid : Setter task_pid := ltac:(mk_setter).

Definition MAX_SLOTS : Z := 100.
Definition EINVAL : Z := 22.
Definition null_entry : entry := mkEntry 0 0 0 0 0.

Definition registry_init (task_pid : Z -> Z) : REGISTRY :=
  mkREGISTRY (replicate (S (Z.to_nat MAX_SLOTS)) null_entry) 16435934 task_pid.

(** [for (slot = 1; slot <= MAX_SLOTS; slot++) if (p(lxrt_list[slot])) ...]:
    the slot found, 0 if there is none. *)
Fixpoint scan_from (p : entry -> bool) (l : list entry) (slot : Z) : Z :=
  match l with
  | [] => 0
  | e :: l' => if p e then slot else scan_from p l' (slot + 1)
  end.

Definition scan (p : entry -> bool) (s : REGISTRY) : Z := scan_from p (tail (lxrt_list s)) 1.

(** [lxrt_list[slot]]; slot 0 is the null slot. *)
Definition slot_entry (s : REGISTRY) (slot : Z) : entry :=
  default null_entry (lxrt_list s !! Z.to_nat slot).

Definition registr (name_ adr_ type_ tsk_ : Z) (s : REGISTRY) : Z * REGISTRY :=
  let slot := scan (fun e => negb (nz (name e))) s in
  if nz slot then
    (slot, s <| lxrt_list ::= <[Z.to_nat slot :=
                 mkEntry name_ adr_ tsk_ (if nz tsk_ then task_pid s tsk_ else 0) type_]> |>)
  else (0, s).

Definition clear_slot (slot : Z) (s : REGISTRY) : Z * REGISTRY :=
  if nz slot then (slot, s <| lxrt_list ::= <[Z.to_nat slot := slot_entry s 0]> |>) else (0, s).

Definition drg_on_name (name_ : Z) (s : REGISTRY) : Z * REGISTRY :=
  clear_slot (scan (fun e => name e =? name_) s) s.

Definition drg_on_adr (adr_ : Z) (s : REGISTRY) : Z * REGISTRY :=
  clear_slot (scan (fun e => adr e =? adr_) s) s.

Definition get_name (adr_ : Z) (s : REGISTRY) : Z * REGISTRY :=
  if negb (nz adr_) then (nameseed s, s <| nameseed ::= fun n => u32 (n + 1) |>)
  else
    let slot := scan (fun e => adr e =? adr_) s in
    (if nz slot then name (slot_entry s slot) else 0, s).

Definition get_adr (name_ : Z) (s : REGISTRY) : Z :=
  let slot := scan (fun e => name e =? name_) s in
  if nz slot then adr (slot_entry s slot) else 0.

Definition get_type (name_ : Z) (s : REGISTRY) : Z :=
  let slot := scan (fun e => name e =? name_) s in
  if nz slot then type (slot_entry s slot) else - EINVAL.

Definition is_process_registered (tsk_ : Z) (s : REGISTRY) : Z :=
  let slot := scan (fun e => (tsk e =? tsk_) &&
                             (pid e =? (if nz tsk_ then task_pid s tsk_ else 0))) s in
  if nz slot then name (slot_entry s slot) else 0.

Definition rt_register (name_ adr_ type_ t : Z) (s : REGISTRY) : Z * REGISTRY :=
  if nz (get_adr name_ s) then (0, s) else registr name_ adr_ type_ t s.

(** The entry copied, if the slot is in use. *)
Definition rt_get_registry_slot (slot : Z) (s : REGISTRY) : Z * option entry :=
  if (slot >? 0) && (slot <=? MAX_SLOTS) && nz (name (slot_entry s slot))
  then (slot, Some (slot_entry s slot)) else (0, None).

(** * Names *)

(** Names are lists of characters ([char] values), without the final 0. *)
Definition ch_0 : Z := 48.
Definition ch_9 : Z := 57.
Definition ch_A : Z := 65.
Definition ch_Z : Z := 90.
Definition ch_a : Z := 97.
Definition ch_z : Z := 122.
Definition ch__ : Z := 95.
Definition ch_dollar : Z := 36.

Definition char2digit (c : Z) : Z :=
  if (c >=? ch_a) && (c <=? ch_z) then c + (11 - ch_a)
  else if (c >=? ch_A) && (c <=? ch_Z) then c + (11 - ch_A)
  else if (c >=? ch_0) && (c <=? ch_9) then c - (ch_0 - 1)
  else if c =? ch__ then 37 else 38.

Fixpoint nam2num_loop (n : nat) (name_ : list Z) (retval : Z) : Z :=
  match n, name_ with
  | S n', c :: name' => nam2num_loop n' name' (u32 (retval * 39 + char2digit c))
  | _, _ => retval
  end.

Definition nam2num (name_ : list Z) : Z :=
  match name_ with
  | [] => 4294967295
  | _ => nam2num_loop 6 name_ 0
  end.

Definition digit2char (c : Z) : Z :=
  if c <? 37 then (if c >? 10 then c + ch_A - 11 else c + ch_0 - 1)
  else if c =? 37 then ch__ else ch_dollar.

(** [while (num && i >= 0)]: [n] is [i + 1]; the characters are stored from
    the end, and then moved to the start of [name]. *)
Fixpoint num2nam_loop (n : nat) (num : Z) (name_ : list Z) : list Z :=
  match n with
  | S n' =>
      if nz num then
        let q := num / 39 in
        let c := num - q * 39 in
        num2nam_loop n' q (digit2char c :: name_)
      else name_
  | O => name_
  end.

Definition num2nam (num : Z) : list Z :=
  if num =? 4294967295 then [] else num2nam_loop 6 num [].

(** * Lemmas on names *)

Section Names.
Implicit Types (c v : Z) (l ds : list Z) (n : nat).

(** The value of a sequence of digits in base 39. *)
Definition digits_value v ds : Z := foldl (fun v d => v * 39 + d) v ds.

(** The character a name is read back with. *)
Definition canon_char c : Z :=
  if (ch_a <=? c) && (c <=? ch_z) then c - (ch_a - ch_A)
  else if (ch_A <=? c) && (c <=? ch_Z) || (ch_0 <=? c) && (c <=? ch_9) || (c =? ch__) then c
  else ch_dollar.

Ltac no_if x := lazymatch x with context [if _ then _ else _] => fail | _ => idtac end.

Ltac char_cases :=
  unfold canon_char, char2digit, digit2char, ch_a, ch_z, ch_A, ch_Z, ch_0, ch_9, ch__, ch_dollar in *;
  rewrite ?Z.geb_leb, ?Z.gtb_ltb in *;
  repeat (match goal with
          | |- context [?a <=? ?b] => no_if a; no_if b; destruct (Z.leb_spec a b)
          | |- context [?a <? ?b] => no_if a; destruct (Z.ltb_spec a b)
          | |- context [?a =? ?b] => no_if a; destruct (Z.eqb_spec a b)
          end; cbn [andb orb]; try lia).


Lemma char2digit_bounds c : 1 <= char2digit c <= 38.
Proof. char_cases. Qed.

Lemma digit2char_canon c : digit2char (char2digit c) = canon_char c.
Proof. char_cases. Qed.

Lemma char2digit_canon c : char2digit (canon_char c) = char2digit c.
Proof. char_cases. Qed.

Lemma nam2num_loop_value n l v :
  0 <= v -> (v + 1) * 39 ^ Z.of_nat n <= 39 ^ 6 ->
  nam2num_loop n l v = digits_value v (char2digit <$> take n l).
Proof.
  revert l v. induction n as [|n IH]; intros [|c l] v H0 Hv; simpl; try done.
  pose proof (char2digit_bounds c).
  rewrite Nat2Z.inj_succ, Z.pow_succ_r in Hv by lia.
  assert (0 < 39 ^ Z.of_nat n) by (apply Z.pow_pos_nonneg; lia).
  unfold u32. rewrite Z.mod_small by (change (39 ^ 6) with 3518743761 in Hv; nia).
  apply IH; nia.
Qed.

Lemma digits_value_app v ds d : digits_value v (ds ++ [d]) = digits_value v ds * 39 + d.
Proof. unfold digits_value. by rewrite foldl_app. Qed.

Lemma digits_value_bounds ds :
  Forall (fun d => 1 <= d <= 38) ds -> 0 <= digits_value 0 ds < 39 ^ Z.of_nat (length ds).
Proof.
  induction ds as [|d ds IH] using rev_ind; [done|]. intros [H Hd]%Forall_app.
  inversion_clear Hd. specialize (IH H). rewrite digits_value_app, length_app.
  rewrite Nat2Z.inj_add. rewrite Z.pow_add_r by lia. simpl (Z.of_nat (length [d])). lia.
Qed.

Lemma num2nam_loop_value n ds l :
  Forall (fun d => 1 <= d <= 38) ds -> (length ds <= n)%nat ->
  num2nam_loop n (digits_value 0 ds) l = (digit2char <$> ds) ++ l.
Proof.
  revert n l. induction ds as [|d ds IH] using rev_ind; intros n l Hd Hn; [by destruct n|].
  apply Forall_app in Hd as [Hds Hd]. inversion_clear Hd. rewrite length_app in Hn. simpl in Hn.
  destruct n as [|n]; [lia|]. rewrite digits_value_app. simpl.
  pose proof (digits_value_bounds ds Hds).
  rewrite (proj2 (nz_true _)) by lia.
  replace ((digits_value 0 ds * 39 + d) / 39) with (digits_value 0 ds)
    by (apply Z.div_unique with d; lia).
  rewrite IH by (done || lia). rewrite fmap_app, <- app_assoc. simpl. do 3 f_equal. lia.
Qed.
End Names.

(** C38: a name survives its encoding up to the case of its letters, the
    characters other than letters, digits and ["_"], which become ["$"], and
    what follows the sixth character; two names have the same number exactly
    if they agree so far. *)
Theorem nam2num_roundtrip a b :
  num2nam (nam2num a) = canon_char <$> take 6 a /\
  (nam2num a = nam2num b <-> canon_char <$> take 6 a = canon_char <$> take 6 b).
Proof.
  assert (Hv : forall l, l <> [] -> nam2num l = digits_value 0 (char2digit <$> take 6 l)).
  { intros [|c l] Hl; [done|]. by apply nam2num_loop_value. }
  assert (Hd : forall l, Forall (fun d => 1 <= d <= 38) (char2digit <$> take 6 l)).
  { intros l. apply Forall_fmap, Forall_true. intros c. apply char2digit_bounds. }
  assert (Hr : forall l, num2nam (nam2num l) = canon_char <$> take 6 l).
  { intros l. destruct (decide (l = [])) as [->|Hl]; [done|]. rewrite Hv by done.
    pose proof (digits_value_bounds _ (Hd l)) as B.
    assert (Hlen : (length (char2digit <$> take 6 l) <= 6)%nat) by (rewrite length_fmap, length_take; lia).
    pose proof (Z.pow_le_mono_r 39 (Z.of_nat (length (char2digit <$> take 6 l))) 6).
    change (39 ^ 6) with 3518743761 in *.
    unfold num2nam. rewrite (proj2 (Z.eqb_neq _ _)) by lia.
    rewrite num2nam_loop_value, app_nil_r by done. rewrite <- list_fmap_compose.
    apply list_fmap_ext. intros _ c _. apply digit2char_canon. }
  split; [done|]. split; [intros E; by rewrite <- !Hr, E|]. intros E.
  assert (Hc : forall l, char2digit <$> take 6 l = char2digit <$> (canon_char <$> take 6 l)).
  { intros l. rewrite <- list_fmap_compose. apply list_fmap_ext. intros _ c _.
    symmetry. apply char2digit_canon. }
  destruct a as [|x a], b as [|y b]; [done|discriminate E|discriminate E|].
  by rewrite !Hv, (Hc (x :: a)), E, <- (Hc (y :: b)) by done.
Qed.

(** * The table as a finite map *)

Section Table.
Implicit Types (s : REGISTRY) (l : list entry) (e : entry) (n a : Z).

Definition is_occupied e : Prop := name e <> 0.
#[export] Instance is_occupied_dec e : Decision (is_occupied e).
Proof. unfold is_occupied. apply _. Defined.

Definition occupied l : list entry := filter is_occupied l.

Definition entry_map l : gmap Z entry := list_to_map ((fun e => (name e, e)) <$> occupied l).

(** The objects registered, by name. *)
Definition objects s : gmap Z entry := entry_map (tail (lxrt_list s)).

Definition entries_ok l : Prop :=
  NoDup (name <$> occupied l) /\ Forall (fun e => adr e <> 0) (occupied l).

(** The null slot is empty, names are distinct and objects have addresses. *)
Definition registry_ok s : Prop :=
  exists l, lxrt_list s = null_entry :: l /\ Z.of_nat (length l) = MAX_SLOTS /\ entries_ok l.

Lemma scan_from_spec p l slot :
  (Forall (fun e => p e = false) l /\ scan_from p l slot = 0) \/
  exists l1 e l2, l = l1 ++ e :: l2 /\ Forall (fun e => p e = false) l1 /\ p e = true /\
    scan_from p l slot = slot + Z.of_nat (length l1).
Proof.
  revert slot. induction l as [|e l IH]; intros slot; simpl; [by left|].
  destruct (p e) eqn:E.
  - right. exists [], e, l. simpl. split_and!; [done|done|done|lia].
  - destruct (IH (slot + 1)) as [[H Hs]|(l1 & e' & l2 & -> & H & He & Hs)].
    + left. by repeat constructor.
    + right. exists (e :: l1), e', l2. simpl. split_and!; [done|by constructor|done|lia].
Qed.

Lemma scan_spec p s l :
  lxrt_list s = null_entry :: l ->
  (Forall (fun e => p e = false) l /\ scan p s = 0) \/
  exists l1 e l2, l = l1 ++ e :: l2 /\ Forall (fun e => p e = false) l1 /\ p e = true /\
    nz (scan p s) = true /\ slot_entry s (scan p s) = e /\
    forall e', <[Z.to_nat (scan p s) := e']> (lxrt_list s) = null_entry :: l1 ++ e' :: l2.
Proof.
  intros Hl. unfold scan, slot_entry. rewrite Hl. cbn [tail].
  destruct (scan_from_spec p l 1) as [?|(l1 & e & l2 & -> & H & He & ->)]; [by left|]. right.
  exists l1, e, l2. replace (Z.to_nat _) with (S (length l1)) by lia. simpl.
  split_and!; [done|done|done|by apply nz_true; lia| |].
  - by rewrite list_lookup_middle.
  - intros e'. f_equal. by rewrite <- (Nat.add_0_r (length l1)), insert_app_r.
Qed.

Lemma occupied_app l1 l2 : occupied (l1 ++ l2) = occupied l1 ++ occupied l2.
Proof. apply filter_app. Qed.

Lemma occupied_cons_True e l : is_occupied e -> occupied (e :: l) = e :: occupied l.
Proof. apply filter_cons_True. Qed.

Lemma occupied_cons_False e l : name e = 0 -> occupied (e :: l) = occupied l.
Proof. intros H. apply filter_cons_False. by intros []. Qed.

(** An object in the table, and one that is not. *)
Lemma entry_map_middle l1 e l2 :
  NoDup (name <$> occupied (l1 ++ e :: l2)) -> is_occupied e ->
  entry_map (l1 ++ e :: l2) = <[name e := e]> (entry_map (l1 ++ l2)) /\
  entry_map (l1 ++ l2) !! name e = None.
Proof.
  unfold entry_map. rewrite !occupied_app. intros Hnd He. rewrite occupied_cons_True in * by done.
  rewrite !fmap_app, !fmap_cons in *.
  assert (Hn : name e ∉ (name <$> occupied l1) ++ (name <$> occupied l2)).
  { rewrite <- Permutation_middle in Hnd. by apply NoDup_cons in Hnd as [? _]. }
  split.
  - rewrite <- list_to_map_cons. apply list_to_map_proper; [|by rewrite <- Permutation_middle].
    rewrite fmap_app, fmap_cons, <- !list_fmap_compose. exact Hnd.
  - apply not_elem_of_list_to_map_1. rewrite fmap_app, <- !list_fmap_compose. exact Hn.
Qed.

Lemma entry_map_absent l n :
  n <> 0 -> Forall (fun e => (name e =? n) = false) l -> entry_map l !! n = None.
Proof.
  intros Hn H. apply not_elem_of_list_to_map_1. rewrite <- list_fmap_compose.
  intros (e & -> & He)%list_elem_of_fmap. apply list_elem_of_filter in He as [_ He].
  rewrite Forall_forall in H. specialize (H e He). simpl in H. by rewrite Z.eqb_refl in H.
Qed.

(** Finding an object by its name. *)
Lemma find_name s n :
  registry_ok s -> n <> 0 ->
  (nz (scan (fun e => name e =? n) s) = false /\ objects s !! n = None) \/
  exists l1 e l2, lxrt_list s = null_entry :: l1 ++ e :: l2 /\ name e = n /\ adr e <> 0 /\
    nz (scan (fun e => name e =? n) s) = true /\
    slot_entry s (scan (fun e => name e =? n) s) = e /\
    objects s !! n = Some e /\
    forall e', <[Z.to_nat (scan (fun e => name e =? n) s) := e']> (lxrt_list s) =
               null_entry :: l1 ++ e' :: l2.
Proof.
  intros (l & Hl & Hlen & Hnd & Hadr) Hn. unfold objects. rewrite Hl. cbn [tail].
  destruct (scan_spec (fun e => name e =? n) s l Hl)
    as [[H ->]|(l1 & e & l2 & -> & H & He & Hz & Hs & Hu)].
  - left. split; [done|]. by apply entry_map_absent.
  - right. exists l1, e, l2. apply Z.eqb_eq in He. subst n.
    assert (Ho : is_occupied e) by done.
    rewrite Hl in Hu. destruct (entry_map_middle l1 e l2) as [-> _]; [done..|].
    rewrite occupied_app, occupied_cons_True, Forall_app, Forall_cons in Hadr by done.
    destruct Hadr as (_ & ? & _).
    split_and!; [done..|by rewrite lookup_insert_eq|done].
Qed.

(** Putting an object into a free slot, and removing one. *)
Lemma entries_ok_put l1 e0 e l2 :
  entries_ok (l1 ++ e0 :: l2) -> name e0 = 0 -> name e <> 0 -> adr e <> 0 ->
  entry_map (l1 ++ e0 :: l2) !! name e = None ->
  entries_ok (l1 ++ e :: l2) /\ entry_map (l1 ++ e :: l2) = <[name e := e]> (entry_map (l1 ++ e0 :: l2)).
Proof.
  intros [Hnd Ha] H0 Hn Hae Habs.
  assert (E0 : occupied (l1 ++ e0 :: l2) = occupied (l1 ++ l2))
    by (by rewrite !occupied_app, occupied_cons_False).
  assert (E : occupied (l1 ++ e :: l2) ≡ₚ e :: occupied (l1 ++ l2))
    by (rewrite !occupied_app, occupied_cons_True, Permutation_middle by done; done).
  assert (Hok : entries_ok (l1 ++ e :: l2)).
  { unfold entries_ok. rewrite E0 in Hnd, Ha. rewrite E. rewrite fmap_cons. split.
    - apply NoDup_cons. split; [|done]. intros Hin.
      apply not_elem_of_list_to_map_2 in Habs. apply Habs.
      by rewrite <- list_fmap_compose, E0.
    - by constructor. }
  split; [done|]. destruct Hok as [Hnd' _]. destruct (entry_map_middle l1 e l2) as [-> _]; [done..|].
  unfold entry_map. by rewrite E0.
Qed.

Lemma entries_ok_clear l1 e l2 :
  entries_ok (l1 ++ e :: l2) -> name e <> 0 ->
  entries_ok (l1 ++ null_entry :: l2) /\
  entry_map (l1 ++ null_entry :: l2) = delete (name e) (entry_map (l1 ++ e :: l2)).
Proof.
  intros [Hnd Ha] Hn.
  assert (E0 : occupied (l1 ++ null_entry :: l2) = occupied (l1 ++ l2))
    by (by rewrite !occupied_app, occupied_cons_False).
  assert (E : occupied (l1 ++ e :: l2) ≡ₚ e :: occupied (l1 ++ l2))
    by (rewrite !occupied_app, occupied_cons_True, Permutation_middle by done; done).
  destruct (entry_map_middle l1 e l2) as [-> Habs]; [done..|].
  unfold entries_ok. rewrite E in Hnd, Ha. rewrite E0. rewrite fmap_cons in Hnd.
  apply NoDup_cons in Hnd as [_ Hnd]. inversion_clear Ha.
  split; [done|]. rewrite delete_insert_id by done. unfold entry_map. by rewrite E0.
Qed.

(** The table is full exactly if it holds [MAX_SLOTS] objects. *)
Lemma entry_map_size l : entries_ok l -> size (entry_map l) = length (occupied l).
Proof.
  intros [Hnd _]. unfold entry_map. rewrite map_size_list_to_map, length_fmap; [done|].
  by rewrite <- list_fmap_compose.
Qed.
End Table.

(** * The services on the finite map *)

Inductive reg_op : Type :=
  | Register (name_ adr_ type_ t : Z) | DrgName (name_ : Z) | GetAdr (name_ : Z) | GetType (name_ : Z).

(** Names and addresses of objects are not 0. *)
Definition reg_op_ok (op : reg_op) : Prop :=
  match op with
  | Register n a _ _ => n <> 0 /\ a <> 0
  | DrgName n | GetAdr n | GetType n => n <> 0
  end.

Definition reg_step (op : reg_op) (s : REGISTRY) : Z * REGISTRY :=
  match op with
  | Register n a ty t => rt_register n a ty t s
  | DrgName n => drg_on_name n s
  | GetAdr n => (get_adr n s, s)
  | GetType n => (get_type n s, s)
  end.

(** What a caller may rely on: a slot number only tells success. *)
Definition observe (op : reg_op) (r : Z) : Z :=
  match op with Register _ _ _ _ | DrgName _ => b2z (nz r) | _ => r end.

Definition obj_step (pid_of : Z -> Z) (op : reg_op) (m : gmap Z entry) : Z * gmap Z entry :=
  match op with
  | Register n a ty t =>
      match m !! n with
      | Some _ => (0, m)
      | None =>
          if Z.of_nat (base.size m) <? MAX_SLOTS
          then (1, <[n := mkEntry n a t (if nz t then pid_of t else 0) ty]> m) else (0, m)
      end
  | DrgName n => (match m !! n with Some _ => 1 | None => 0 end, delete n m)
  | GetAdr n => (match m !! n with Some e => adr e | None => 0 end, m)
  | GetType n => (match m !! n with Some e => type e | None => - EINVAL end, m)
  end.

Fixpoint reg_run (ops : list reg_op) (s : REGISTRY) : list Z * REGISTRY :=
  match ops with
  | [] => ([], s)
  | op :: ops' =>
      let '(r, s1) := reg_step op s in
      let '(rs, s') := reg_run ops' s1 in (observe op r :: rs, s')
  end.

Fixpoint obj_run (pid_of : Z -> Z) (ops : list reg_op) (m : gmap Z entry) : list Z * gmap Z entry :=
  match ops with
  | [] => ([], m)
  | op :: ops' =>
      let '(r, m1) := obj_step pid_of op m in
      let '(rs, m') := obj_run pid_of ops' m1 in (r :: rs, m')
  end.

Section Services.
Implicit Types (s : REGISTRY) (op : reg_op).

Lemma register_objects s n a ty t :
  registry_ok s -> n <> 0 -> a <> 0 -> objects s !! n = None ->
  let '(r, s') := registr n a ty t s in
  let '(r', m') := obj_step (task_pid s) (Register n a ty t) (objects s) in
  registry_ok s' /\ task_pid s' = task_pid s /\ b2z (nz r) = r' /\ objects s' = m'.
Proof.
  intros Hok Hn Ha Habs. unfold registr, obj_step. rewrite Habs.
  pose proof Hok as (l & Hl & Hlen & Hent). unfold objects in *. rewrite Hl in *. cbn [tail] in *.
  rewrite entry_map_size by done.
  destruct (scan_spec (fun e => negb (nz (name e))) s l Hl)
    as [[H ->]|(l1 & e & l2 & -> & H & He & Hz & _ & Hu)].
  - change (nz 0) with false. cbv iota beta.
    assert (E : occupied l = l).
    { unfold occupied. clear - H. induction H as [|e l He H IH]; [done|].
      rewrite filter_cons_True; [by f_equal|]. apply negb_false_iff in He. by apply nz_true in He. }
    rewrite E, Hlen, Z.ltb_irrefl. rewrite Hl. by split_and!.
  - rewrite Hz. apply negb_true_iff, nz_false in He. cbv iota beta.
    assert (Hlt : (length (occupied (l1 ++ e :: l2)) < length (l1 ++ e :: l2))%nat).
    { rewrite occupied_app, occupied_cons_False, !length_app by done. simpl.
      pose proof (length_filter is_occupied l1). pose proof (length_filter is_occupied l2).
      unfold occupied. lia. }
    rewrite (proj2 (Z.ltb_lt _ _)) by lia.
    set (e' := mkEntry _ _ _ _ _).
    destruct (entries_ok_put l1 e e' l2) as [Hok' Hm]; [done..|].
    unfold registry_ok. state_simpl. rewrite Hu, Hz. cbn [tail]. split_and!; [|done..].
    exists (l1 ++ e' :: l2). rewrite !length_app in *. by split_and!.
Qed.

Lemma reg_step_refines s op :
  registry_ok s -> reg_op_ok op ->
  let '(r, s') := reg_step op s in
  registry_ok s' /\ task_pid s' = task_pid s /\
  obj_step (task_pid s) op (objects s) = (observe op r, objects s').
Proof.
  intros Hok Hop.
  pose proof (fun n => find_name s n Hok) as H.
  destruct op as [n a ty t|n|n|n]; cbn [reg_step observe reg_op_ok] in *.
  - destruct Hop as [Hn Ha]. unfold rt_register, get_adr.
    destruct (H n Hn) as [[-> Hf]|(l1 & e & l2 & Hl & <- & Hadr & -> & -> & Hf & Hu)].
    + change (nz 0) with false. cbv iota.
      pose proof (register_objects s n a ty t Hok Hn Ha Hf) as Hr.
      destruct (registr n a ty t s) as [r s'].
      destruct (obj_step _ _ _) as [r' m']. destruct Hr as (? & ? & -> & ->). by split_and!.
    + apply nz_true in Hadr as ->. cbn [obj_step]. rewrite Hf. by split_and!.
  - unfold drg_on_name, clear_slot. cbn [obj_step].
    destruct (H n Hop) as [[Hz Hf]|(l1 & e & l2 & Hl & <- & Hadr & Hz & Hs & Hf & Hu)]; rewrite Hz, Hf.
    + rewrite delete_id by done. by split_and!.
    + destruct Hok as (l & Hl' & Hlen & Hent). rewrite Hl in Hl'. injection Hl' as <-.
      destruct (entries_ok_clear l1 e l2) as [Hent' Hm]; [done..|].
      assert (E0 : slot_entry s 0 = null_entry) by (unfold slot_entry; by rewrite Hl).
      unfold registry_ok, objects. state_simpl. rewrite E0, Hu, Hz, Hl. cbn [tail]. rewrite <- Hm.
      split_and!; [|done..]. exists (l1 ++ null_entry :: l2). rewrite !length_app in *. by split_and!.
  - unfold get_adr. cbn [obj_step].
    destruct (H n Hop) as [[-> ->]|(l1 & e & l2 & Hl & <- & Hadr & -> & -> & -> & Hu)]; by split_and!.
  - unfold get_type. cbn [obj_step].
    destruct (H n Hop) as [[-> ->]|(l1 & e & l2 & Hl & <- & Hadr & -> & -> & -> & Hu)]; by split_and!.
Qed.

Lemma registry_init_ok task_pid_ : registry_ok (registry_init task_pid_).
Proof.
  exists (replicate 100 null_entry). repeat split; constructor.
Qed.
End Services.

(** C15: the registry is a finite map from names to objects: for every
    sequence of registrations, removals and lookups the results are those of
    the map.  A registration succeeds exactly if the name is new and there
    are fewer than [MAX_SLOTS] objects; a removal makes room again. *)
Theorem registry_refines s ops :
  registry_ok s -> Forall reg_op_ok ops ->
  let '(rs, s') := reg_run ops s in
  registry_ok s' /\ obj_run (task_pid s) ops (objects s) = (rs, objects s').
Proof.
  intros Hok Hops. revert s Hok. induction Hops as [|op ops Hop Hops IH]; intros s Hok;
    cbn [reg_run obj_run]; [done|].
  pose proof (reg_step_refines s op Hok Hop) as H. destruct (reg_step op s) as [r s1].
  destruct H as (Hok1 & Hp & ->). specialize (IH s1 Hok1). rewrite Hp in IH.
  destruct (reg_run ops s1) as [rs s']. destruct IH as [Hok' ->]. done.
Qed.

Definition registry_ops_ex : list reg_op :=
  [Register 5 100 1 0; Register 5 101 2 7; GetAdr 5; GetType 6; DrgName 5; Register 5 101 2 7; GetType 5].

Lemma registry_refines_witness :
  let s := registry_init (fun t => t + 1) in
  Forall reg_op_ok registry_ops_ex /\ registry_ok s /\
  (reg_run registry_ops_ex s).1 = [1; 0; 100; -22; 1; 1; 2] /\
  obj_run (task_pid s) registry_ops_ex (objects s) =
    ((reg_run registry_ops_ex s).1, objects (reg_run registry_ops_ex s).2).
Proof.
  assert (Hops : Forall reg_op_ok registry_ops_ex) by (repeat constructor; done).
  pose proof (registry_init_ok (fun t => t + 1)) as Hok.
  pose proof (registry_refines _ _ Hok Hops) as H.
  split_and!; [done|done|vm_compute; reflexivity|].
  destruct (reg_run _ _) as [rs s']. apply H.
Defined.
