(* ===== verification/MemMgr.v ===== *)
(** MemMgr: the real time memory manager.

    [rt_mem_mgr/rt_mem_mgr.c]: memory is taken from Linux in chunks of
    [granularity] bytes; a chunk has a list of free blocks sorted by address,
    from which [rt_malloc] takes the first that is large enough, and into
    which [rt_free] puts a block back, merged with its neighbours.  Chunks
    are added and released by two requests to Linux.  Headers are arrays of
    fields by address (32-bit pointers and [unsigned int]s, headers of 16
    bytes); the memory Linux gives is an argument. *)

From S2P Require Import Prelude Resume.

(** Requests to Linux. *)
Inductive mevent : Type := PendAlloc | PendFree | FreeChunk (adr : Z).

Record MEM : Type := mkMEM {
  (* struct chkhdr, by address *)
  chk_addr : Z -> Z;
  next_chk : Z -> Z;
  chk_limit : Z -> Z;
  free_list : Z -> Z;
  (* struct blkhdr, by address *)
  blk_chk_addr : Z -> Z;
  next_free : Z -> Z;
  free_size : Z -> Z;
  (* package global data *)
  granularity : Z;
  low_chk_ref : Z;
  low_data_mark : Z;
  extra_chks : Z;
  max_allocated : Z;
  total_available : Z;
  sys_malloc_calls : Z;
  sys_free_calls : Z;
  memory_leak : Z;
  memory_overhead : Z;
  rt_mem_mgr_init : Z;
  chk_list : Z;
  alloc_no_chk : Z;
  free_no_chk : Z;
  mlog : list mevent
}.

#[export] Instance MEM_eta : Eta MEM := fun s =>
  mkMEM (chk_addr s) (next_chk s) (chk_limit s) (free_list s) (blk_chk_addr s) (next_free s)
    (free_size s) (granularity s) (low_chk_ref s) (low_data_mark s) (extra_chks s)
    (max_allocated s) (total_available s) (sys_malloc_calls s) (sys_free_calls s)
    (memory_leak s) (memory_overhead s) (rt_mem_mgr_init s) (chk_list s) (alloc_no_chk s)
    (free_no_chk s) (mlog s).

#[export] Instance set_chk_addr : Setter chk_addr := ltac:(mk_setter).
#[export] Instance set_next_chk : Setter next_chk := ltac:(mk_setter).
#[export] Instance set_chk_limit : Setter chk_limit := ltac:(mk_setter).
#[export] Instance set_free_list : Setter free_list := ltac:(mk_setter).
#[export] Instance set_blk_chk_addr : Setter blk_chk_addr := ltac:(mk_setter).
#[export] Instance set_next_free : Setter next_free := ltac:(mk_setter).
#[export] Instance set_free_size : Setter free_size := ltac:(mk_setter).
#[export] Instance set_granularity : Setter granularity := ltac:(mk_setter).
#[export] Instance set_low_chk_ref : Setter low_chk_ref := ltac:(mk_setter).
#[export] Instance set_low_data_mark : Setter low_data_mark := ltac:(mk_setter).
#[export] Instance set_extra_chks : Setter extra_chks := ltac:(mk_setter).
#[export] Instance set_max_allocated : Setter max_allocated := ltac:(mk_setter).
#[export] Instance set_total_available : Setter total_available := ltac:(mk_setter).
#[export] Instance set_sys_malloc_calls : Setter sys_malloc_calls := ltac:(mk_setter).
#[export] Instance set_sys_free_calls : Setter sys_free_calls := ltac:(mk_setter).
#[export] Instance set_memory_leak : Setter memory_leak := ltac:(mk_setter).
#[export] Instance set_memory_overhead : Setter memory_overhead := ltac:(mk_setter).
#[export] Instance set_rt_mem_mgr_init : Setter rt_mem_mgr_init := ltac:(mk_setter).
#[export] Instance set_chk_list : Setter chk_list := ltac:(mk_setter).
#[export] Instance set_alloc_no_chk : Setter alloc_no_chk := ltac:(mk_setter).
#[export] Instance set_free_no_chk : Setter free_no_chk := ltac:(mk_setter).
#[export] Instance set_mlog : Setter mlog := ltac:(mk_setter).

Abbreviation MM A := (M MEM A).

Definition sizeof_chkhdr : Z := 16.
Definition sizeof_blkhdr : Z := 16.
Definition OVERHEAD : Z := sizeof_chkhdr + sizeof_blkhdr.
Definition MINSIZE : Z := 16.
Definition ENOMEM : Z := 12.

(** The data segment, for a granularity of the module's parameters. *)
Definition mem_zero (granularity_ low_chk_ref_ low_data_mark_ : Z) : MEM :=
  mkMEM (fun _ => 0) (fun _ => 0) (fun _ => 0) (fun _ => 0) (fun _ => 0) (fun _ => 0) (fun _ => 0)
    granularity_ low_chk_ref_ low_data_mark_ 0 0 0 0 0 0 0 0 0 0 0 [].

Definition log_mem (e : mevent) : MM unit := modify (fun s => s <| mlog ::= cons e |>).

(** [blk->data] *)
Definition data (blk : Z) : Z := blk + sizeof_blkhdr.

(** Bounds of the loops: a chunk has at most [granularity / 16] blocks, and
    there are [total_available / granularity] chunks. *)
Definition blocks_fuel (s : MEM) : nat := Z.to_nat (granularity s / MINSIZE).
Definition chunks_fuel (s : MEM) : nat := Z.to_nat (total_available s / granularity s).

(** * Allocation *)

(** The block header [next] of what is left of [cur], or the next free
    block. *)
Definition split_block (size chk cur : Z) : MM Z :=
  s ← get;
  if u32 (free_size s cur - size) >=? sizeof_blkhdr + MINSIZE then
    let next := data cur + size in
    wr blk_chk_addr next (chk_addr s chk);;
    wr next_free next (next_free s cur);;
    wr free_size next (u32 (free_size s cur - (size + sizeof_blkhdr)));;
    wg memory_overhead (u32 (memory_overhead s + sizeof_blkhdr));;
    mret next
  else mret (next_free s cur).

Definition alloc_block (size chk prev cur : Z) : MM Z :=
  next ← split_block size chk cur;
  (if negb (nz prev) then wr free_list chk next else wr next_free prev next);;
  wr next_free cur cur;;
  wr free_size cur size;;
  s ← get;
  wg memory_leak (u32 (memory_leak s + size));;
  s ← get;
  when (memory_leak s >? max_allocated s) (wg max_allocated (memory_leak s));;
  mret (data cur).

Fixpoint alloc_loop (fuel : nat) (size chk prev cur : Z) : MM Z :=
  s ← get;
  if negb (nz cur) then mret 0
  else match fuel with
       | O => stuck
       | S fuel' =>
           if free_size s cur >=? size then alloc_block size chk prev cur
           else alloc_loop fuel' size chk cur (next_free s cur)
       end.

Definition alloc_in_chk (size chk : Z) : MM Z :=
  s ← get;
  alloc_loop (blocks_fuel s) size chk 0 (free_list s chk).

Fixpoint malloc_chunks (fuel : nat) (size chk_list_ptr : Z) : MM Z :=
  s ← get;
  if negb (nz chk_list_ptr) then mret 0
  else match fuel with
       | O => stuck
       | S fuel' =>
           if nz (free_list s chk_list_ptr) then
             mem_ptr ← alloc_in_chk size chk_list_ptr;
             if nz mem_ptr then mret mem_ptr else malloc_chunks fuel' size (next_chk s chk_list_ptr)
           else malloc_chunks fuel' size (next_chk s chk_list_ptr)
       end.

Definition round_size (size : Z) : Z := Z.land (u32 (size + (MINSIZE - 1))) (Z.lnot (MINSIZE - 1)).

(** A chunk is requested when little memory is left. *)
Definition request_chunk : MM unit :=
  s ← get;
  when ((u32 (total_available s - u32 (memory_leak s + memory_overhead s)) <=? low_data_mark s) &&
        (alloc_no_chk s =? 0))
    (wg alloc_no_chk (alloc_no_chk s + 1);; log_mem PendAlloc).

Definition rt_malloc (size : Z) : MM Z :=
  s ← get;
  if round_size size >? u32 (granularity s - OVERHEAD) then mret 0
  else
    mem_ptr ← malloc_chunks (chunks_fuel s) (round_size size) (chk_list s);
    request_chunk;;
    mret mem_ptr.

(** * Release *)

(** The last free block before [addr], and the first after. *)
Fixpoint free_walk (fuel : nat) (s : MEM) (addr prev cur : Z) : option (Z * Z) :=
  if nz cur && (data cur <? addr) then
    match fuel with
    | O => None
    | S fuel' => free_walk fuel' s addr cur (next_free s cur)
    end
  else Some (prev, cur).

(** The block is merged with the one before it, or linked after it; the
    result is the free block it is in. *)
Definition link_free (chk prev blk : Z) : MM Z :=
  s ← get;
  if nz prev && (data prev + free_size s prev =? blk) then
    wr free_size prev (u32 (free_size s prev + u32 (free_size s blk + sizeof_blkhdr)));;
    wg memory_overhead (u32 (memory_overhead s - sizeof_blkhdr));;
    mret prev
  else if nz prev then
    wr next_free blk (next_free s prev);;
    wr next_free prev blk;;
    mret blk
  else
    wr next_free blk (free_list s chk);;
    wr free_list chk blk;;
    mret blk.

Definition merge_next (blk : Z) : MM unit :=
  s ← get;
  when (data blk + free_size s blk =? next_free s blk)
    (wg memory_overhead (u32 (memory_overhead s - sizeof_blkhdr));;
     wr free_size blk (u32 (free_size s blk + u32 (free_size s (next_free s blk) + sizeof_blkhdr)));;
     wr next_free blk (next_free s (next_free s blk))).

(** A chunk is given back when enough memory is left without it. *)
Definition release_chunk : MM unit :=
  s ← get;
  when ((u32 (total_available s - u32 (u32 (granularity s + memory_leak s) + memory_overhead s))
           >=? low_data_mark s) && (free_no_chk s =? 0))
    (wg free_no_chk 1;; log_mem PendFree).

Definition valid_block (s : MEM) (blk : Z) : bool :=
  (blk_chk_addr s blk =? chk_addr s (blk_chk_addr s blk)) && (next_free s blk =? blk) &&
  negb (free_size s blk =? 0) && negb (free_size s blk >? u32 (granularity s - OVERHEAD)) &&
  (free_size s blk mod MINSIZE =? 0).

Definition rt_free (addr : Z) : MM unit :=
  s ← get;
  let blk := addr - sizeof_blkhdr in
  let chk := blk_chk_addr s blk in
  if valid_block s blk then
    '(prev, _) ← of_option (free_walk (blocks_fuel s) s addr 0 (free_list s chk));
    wg memory_leak (u32 (memory_leak s - free_size s blk));;
    blk ← link_free chk prev blk;
    merge_next blk;;
    release_chunk
  else mret tt.

(** * Chunks *)

(** The headers of a new chunk at [chk], which is one free block. *)
Definition init_chunk (chk : Z) : MM unit :=
  s ← get;
  let blk := chk + sizeof_chkhdr in
  wr chk_addr chk chk;;
  wr chk_limit chk (granularity s);;
  wr next_chk chk 0;;
  wr free_list chk blk;;
  wr next_free blk 0;;
  wr blk_chk_addr blk chk;;
  wr free_size blk (u32 (granularity s - OVERHEAD)).

Definition count_chunk : MM unit :=
  s ← get;
  wg sys_malloc_calls (u32 (sys_malloc_calls s + 1));;
  wg total_available (u32 (total_available s + granularity s));;
  wg memory_overhead (u32 (memory_overhead s + OVERHEAD)).

Fixpoint last_chunk (fuel : nat) (s : MEM) (chk : Z) : option Z :=
  if nz (next_chk s chk) then
    match fuel with
    | O => None
    | S fuel' => last_chunk fuel' s (next_chk s chk)
    end
  else Some chk.

(** At the end of the list of chunks. *)
Definition append_chunk (chk : Z) : MM unit :=
  s ← get;
  if negb (nz (chk_list s)) then wg chk_list chk
  else
    l ← of_option (last_chunk (chunks_fuel s) s (chk_list s));
    wr next_chk l chk.

(** [chk] is the result of [alloc_chunk]. *)
Definition rt_alloc_sysrq_handler (chk : Z) : MM unit :=
  when (nz chk)
    (init_chunk chk;;
     count_chunk;;
     append_chunk chk;;
     wg alloc_no_chk 0;;
     s ← get;
     wg extra_chks (extra_chks s + 1)).

(** The first chunk that is one free block, and the chunk before it. *)
Fixpoint find_free_chunk (fuel : nat) (s : MEM) (prev chk : Z) : option (option (Z * Z)) :=
  if nz chk then
    match fuel with
    | O => None
    | S fuel' =>
        if nz (free_list s chk) && (free_size s (free_list s chk) =? u32 (chk_limit s chk - OVERHEAD))
        then Some (Some (prev, chk))
        else find_free_chunk fuel' s chk (next_chk s chk)
    end
  else Some None.

Definition uncount_chunk (chk : Z) : MM unit :=
  s ← get;
  wg sys_free_calls (u32 (sys_free_calls s + 1));;
  wg total_available (u32 (total_available s - granularity s));;
  wg memory_overhead (u32 (memory_overhead s - OVERHEAD));;
  log_mem (FreeChunk chk).

Definition rt_free_sysrq_handler : MM unit :=
  s ← get;
  if extra_chks s >? 0 then
    r ← of_option (find_free_chunk (chunks_fuel s) s 0 (chk_list s));
    match r with
    | Some (prev, chk) =>
        (if negb (nz prev) then wg chk_list (next_chk s chk) else wr next_chk prev (next_chk s chk));;
        wg extra_chks (extra_chks s - 1);;
        wg free_no_chk 0;;
        uncount_chunk chk
    | None => wg free_no_chk 0
    end
  else wg free_no_chk 0.

(** [chks]: the results of [alloc_chunk], one per turn of the loop. *)
Fixpoint init_chunks (n : nat) (chks : list Z) : MM Z :=
  match n, chks with
  | O, _ => mret 0
  | S _, [] => stuck
  | S n', chk :: chks' =>
      if negb (nz chk) then mret (- ENOMEM)
      else
        count_chunk;;
        init_chunk chk;;
        append_chunk chk;;
        init_chunks n' chks'
  end.

(** [srq1] and [srq2]: the results of [rt_request_srq]. *)
Definition __rt_mem_init (srq1 srq2 : Z) (chks : list Z) : MM Z :=
  s ← get;
  if nz (rt_mem_mgr_init s) then mret 0
  else if srq1 <? 0 then mret srq1
  else
    wg alloc_no_chk 0;;
    wg free_no_chk 0;;
    wg extra_chks 0;;
    if srq2 <? 0 then mret srq2
    else
      r ← init_chunks (Z.to_nat (low_chk_ref s)) chks;
      if nz r then mret r else wg rt_mem_mgr_init 1;; mret 0.

Fixpoint end_chunks (fuel : nat) (chk : Z) : MM unit :=
  s ← get;
  if nz chk then
    match fuel with
    | O => stuck
    | S fuel' =>
        uncount_chunk (chk_addr s chk);;
        end_chunks fuel' (next_chk s chk)
    end
  else mret tt.

Definition __rt_mem_end : MM unit :=
  s ← get;
  end_chunks (chunks_fuel s) (chk_list s).

(** * Chains of free blocks *)

Section Chain.
Implicit Types (nf : Z -> Z) (p a : Z) (l : list Z).

(** The last block before a place in the list, 0 at its start. *)
Definition lastz l : Z := default 0 (last l).

(** The rest of a chain is reached from its first part; what is linked there
    instead makes another chain. *)
Lemma chain_relink nf nf' p p' q l l2 l2' :
  chain nf p (l ++ l2) -> NoDup l ->
  (l = [] -> p' = q) -> (l <> [] -> p' = p /\ nf' (lastz l) = q) ->
  (forall a, a ∈ l -> a <> lastz l -> nf' a = nf a) ->
  chain nf' q l2' -> chain nf' p' (l ++ l2').
Proof.
  revert p p'. induction l as [|a l IH]; intros p p' Hc Hnd H0 H1 Hext Hq.
  - by rewrite H0.
  - destruct Hc as (-> & Ha & Hc). destruct (H1 ltac:(done)) as [-> Hl]. apply NoDup_cons in Hnd as [Hn Hnd].
    simpl. split_and!; [done..|]. destruct l as [|b l].
    + change (lastz [a]) with a in Hl. simpl. by rewrite Hl.
    + assert (El : lastz (a :: b :: l) = lastz (b :: l)) by done.
      assert (Hal : a <> lastz (b :: l)).
      { intros E. apply Hn. rewrite E. unfold lastz. destruct (last (b :: l)) eqn:E'.
        - apply last_Some_elem_of in E'. done.
        - apply last_None in E'. done. }
      apply (IH (nf a)); [done|done|done|..].
      * intros _. rewrite Hext by (set_solver || congruence). split; [done|]. by rewrite <- El.
      * intros x Hx Hx'. apply Hext; [set_solver|by rewrite El].
      * done.
Qed.

Lemma chain_app_rest nf p l l2 :
  chain nf p (l ++ l2) -> chain nf (match l with [] => p | _ => nf (lastz l) end) l2.
Proof.
  revert p. induction l as [|a l IH]; intros p; [done|]. intros (-> & Ha & Hc).
  specialize (IH _ Hc). destruct l as [|b l]; done.
Qed.

Lemma chain_nonzero nf p l : chain nf p l -> Forall (fun a => a <> 0) l.
Proof. revert p. induction l; simpl; [done|]. intros p (_ & ? & ?). constructor; eauto. Qed.
(** Linking [a] between two parts of a chain. *)
Lemma chain_insert nf p a (l1 l2 : list Z) :
  chain nf p (l1 ++ l2) -> NoDup l1 -> a ∉ l1 ++ l2 -> a <> 0 -> (forall x, x ∈ l1 -> x ∉ l2) ->
  (l1 = [] -> chain (<[a := p]> nf) a (a :: l2)) /\
  (l1 <> [] -> lastz l1 <> 0 /\
     chain (<[lastz l1 := a]> (<[a := nf (lastz l1)]> nf)) p (l1 ++ a :: l2)).
Proof.
  intros Hc Hnd Ha Ha0 Hd. rewrite elem_of_app in Ha. split.
  - intros ->. split_and!; [done..|]. rewrite upd_eq. apply (chain_ext nf); [|done].
    intros x Hx. rewrite upd_ne; [done|]. intros ->. tauto.
  - intros Hne.
    assert (Hl : lastz l1 ∈ l1).
    { unfold lastz. destruct (last l1) eqn:E; [by apply last_Some_elem_of|by apply last_None in E]. }
    assert (Hla : lastz l1 <> a) by (intros E; rewrite E in Hl; tauto).
    split.
    { apply chain_nonzero in Hc. rewrite Forall_forall in Hc. apply Hc. set_solver. }
    apply (chain_relink nf _ p _ a _ l2); [done|done|done|..].
    + intros _. by rewrite upd_eq.
    + intros x Hx Hx'. rewrite !upd_ne; [done| |]; [intros ->; tauto|congruence].
    + assert (Hr : chain nf (nf (lastz l1)) l2).
      { apply chain_app_rest in Hc. by destruct l1. }
      simpl. rewrite upd_ne by done. rewrite upd_eq. split_and!; [done..|].
      apply (chain_ext nf); [|done]. intros x Hx. rewrite !upd_ne; [done| |]; [intros ->; tauto|].
      intros E. apply (Hd (lastz l1)); [done|by rewrite E].
Qed.

(** Taking [x], which follows [b], out of a chain. *)
Lemma chain_skip nf p x b (l1 l2 : list Z) :
  chain nf p (l1 ++ b :: x :: l2) -> b ∉ l1 ++ l2 ->
  chain (<[b := nf x]> nf) p (l1 ++ b :: l2).
Proof.
  rewrite elem_of_app. revert p. induction l1 as [|a l1 IH]; intros p; cbn [app chain].
  - intros (-> & Hb & _ & _ & Hc) Hn. rewrite upd_eq. split_and!; [done..|].
    apply (chain_ext nf); [|done]. intros y Hy. rewrite upd_ne; [done|]. intros ->. tauto.
  - intros (-> & Ha & Hc) Hn. rewrite elem_of_cons in Hn. split_and!; [done..|].
    rewrite upd_ne by (intros ->; tauto). apply IH; [done|tauto].
Qed.

Lemma chain_head nf p l : chain nf p l -> p = hd 0 l.
Proof. destruct l; [done|]. by intros [-> _]. Qed.

End Chain.

(** * The invariant of a chunk

    A block is its address and the size of its data; [fl] are the free blocks
    in the order of the list, [us] the blocks in use. *)

Definition blk_end (b : Z * Z) : Z := data b.1 + b.2.

Definition apart (b b' : Z * Z) : Prop := blk_end b <= b'.1 \/ blk_end b' <= b.1.

(** Free blocks are sorted by address, and no two of them are adjacent. *)
Definition free_sorted (fl : list (Z * Z)) : Prop :=
  StronglySorted (fun b b' => blk_end b < b'.1) fl.

(** What the header of a block says. *)
Definition blk_ok (s : MEM) (c : Z) (b : Z * Z) : Prop :=
  free_size s b.1 = b.2 /\ blk_chk_addr s b.1 = c /\
  c + sizeof_chkhdr <= b.1 /\ blk_end b <= c + granularity s /\ 0 <= b.2 /\ b.2 mod MINSIZE = 0.

(** All blocks are apart: free ones by their order, [us] pairwise, and free
    ones from [us]. *)
Definition all_apart (fl us : list (Z * Z)) : Prop :=
  free_sorted fl /\ ForallOrdPairs apart us /\ Forall (fun b => Forall (apart b) us) fl.

(** What the headers of a chunk say. *)
Record chunk_hdrs (s : MEM) (c : Z) (fl us : list (Z * Z)) : Prop := {
  ck_addr : chk_addr s c = c;
  ck_limit : chk_limit s c = granularity s;
  ck_chain : chain (next_free s) (free_list s c) fl.*1;
  ck_blocks : Forall (blk_ok s c) (fl ++ us);
  ck_free : Forall (fun b => 0 < b.2) fl;
  ck_used : Forall (fun b => next_free s b.1 = b.1) us
}.

Record chunk_ok (s : MEM) (c : Z) (fl us : list (Z * Z)) : Prop := {
  ck_hdrs :> chunk_hdrs s c fl us;
  ck_apart : all_apart fl us
}.

(** The granularity is a multiple of 16 and an [unsigned int], and there is
    room for the headers; addresses are positive. *)
Definition params_ok (s : MEM) : Prop :=
  OVERHEAD < granularity s < 2147483648 /\ granularity s mod MINSIZE = 0.

(** A step inside the chunk [c]. *)
Record chunk_frame (c : Z) (s s' : MEM) : Prop := {
  cf_addr : chk_addr s' = chk_addr s;
  cf_limit : chk_limit s' = chk_limit s;
  cf_next : next_chk s' = next_chk s;
  cf_gran : granularity s' = granularity s;
  cf_list : chk_list s' = chk_list s;
  cf_total : total_available s' = total_available s;
  cf_extra : extra_chks s' = extra_chks s;
  cf_out : forall x, ~ (c <= x < c + granularity s) ->
    free_list s' x = free_list s x /\ blk_chk_addr s' x = blk_chk_addr s x /\
    next_free s' x = next_free s x /\ free_size s' x = free_size s x
}.

Section ChunkLemmas.
Implicit Types (s : MEM) (c n a m : Z) (b : Z * Z) (fl us : list (Z * Z)).

(** A chunk depends on the headers inside it only. *)
Lemma chunk_ok_local c s s' fl us :
  granularity s' = granularity s -> OVERHEAD < granularity s ->
  (forall x, c <= x < c + granularity s ->
     chk_addr s' x = chk_addr s x /\ chk_limit s' x = chk_limit s x /\ free_list s' x = free_list s x /\
     blk_chk_addr s' x = blk_chk_addr s x /\ next_free s' x = next_free s x /\ free_size s' x = free_size s x) ->
  chunk_ok s c fl us -> chunk_ok s' c fl us.
Proof.
  intros Eg Hg Ho [[H1 H2 H3 H4 H5 H6] H7].
  assert (Hin : forall b, b ∈ fl ++ us -> c <= b.1 < c + granularity s).
  { intros b Hb. rewrite Forall_forall in H4. destruct (H4 b Hb) as (_ & _ & Hlo & Hhi & Hb0 & _).
    unfold blk_end, data, sizeof_chkhdr, sizeof_blkhdr in *. lia. }
  assert (Hc : c <= c < c + granularity s) by (unfold OVERHEAD, sizeof_chkhdr, sizeof_blkhdr in Hg; lia).
  destruct (Ho c Hc) as (Ea & El & Ef & _). split; [split|done].
  - by rewrite Ea.
  - by rewrite El, Eg.
  - rewrite Ef. apply chain_ext with (2 := H3).
    intros a (b & -> & Hb)%list_elem_of_fmap. symmetry. apply Ho, Hin. set_solver.
  - rewrite Forall_forall in *. intros b Hb. unfold blk_ok.
    destruct (Ho b.1 (Hin b Hb)) as (_ & _ & _ & -> & _ & ->). rewrite Eg. by apply H4.
  - done.
  - rewrite Forall_forall in *. intros b Hb.
    destruct (Ho b.1) as (_ & _ & _ & _ & -> & _); [apply Hin; set_solver|]. by apply H6.
Qed.

Lemma chunk_ok_frame c c' s s' fl us :
  chunk_frame c s s' -> OVERHEAD < granularity s ->
  c' + granularity s <= c \/ c + granularity s <= c' ->
  chunk_ok s c' fl us -> chunk_ok s' c' fl us.
Proof.
  intros [E1 E2 E3 E4 E5 E6 E7 Ho] Hg Hd. apply chunk_ok_local; [done|done|].
  intros x Hx. rewrite E1, E2. destruct (Ho x) as (-> & -> & -> & ->); [|done].
  unfold OVERHEAD, sizeof_chkhdr, sizeof_blkhdr in Hg. lia.
Qed.

Lemma chunk_frame_trans c s1 s2 s3 : chunk_frame c s1 s2 -> chunk_frame c s2 s3 -> chunk_frame c s1 s3.
Proof.
  intros [? ? ? Hg ? ? ? Ho] [? ? ? ? ? ? ? Ho']. split; try congruence.
  intros x Hx. destruct (Ho x Hx) as (<- & <- & <- & <-). apply Ho'. by rewrite Hg.
Qed.

(** A chunk of [g] bytes has at most [g / 16] free blocks. *)
Lemma free_sorted_length fl lo hi :
  free_sorted fl -> Forall (fun b => lo <= b.1 /\ blk_end b <= hi /\ 0 <= b.2) fl -> lo <= hi ->
  MINSIZE * Z.of_nat (length fl) <= hi - lo.
Proof.
  unfold free_sorted. intros S. revert lo. induction S as [|b fl S IH Hb]; intros lo Hf Hlo; [simpl; unfold MINSIZE; lia|].
  apply Forall_cons in Hf as [(H1 & H2 & H3) Hf].
  assert (MINSIZE * Z.of_nat (length fl) <= hi - blk_end b).
  { apply IH; [|done]. rewrite Forall_forall in *. intros b' Hb'. specialize (Hb b' Hb').
    destruct (Hf b' Hb') as (? & ? & ?). lia. }
  unfold blk_end, data, sizeof_blkhdr, MINSIZE in *. simpl length. lia.
Qed.

Lemma blocks_fuel_enough s c fl us :
  params_ok s -> chunk_ok s c fl us -> (length fl <= blocks_fuel s)%nat.
Proof.
  intros [Hg Hm] [[_ _ _ Hb _ _] [Hs _]]. unfold blocks_fuel.
  apply Forall_app in Hb as [Hb _].
  pose proof (free_sorted_length fl c (c + granularity s) Hs) as H.
  assert (MINSIZE * Z.of_nat (length fl) <= granularity s).
  { replace (granularity s) with (c + granularity s - c) by lia. apply H; [|unfold OVERHEAD, sizeof_chkhdr, sizeof_blkhdr in *; lia].
    apply (Forall_impl _ _ _ Hb). intros b. unfold blk_ok, sizeof_chkhdr. lia. }
  pose proof (Z.div_le_lower_bound (granularity s) MINSIZE (Z.of_nat (length fl))). unfold MINSIZE in *. lia.
Qed.

(** The addresses of the free blocks are distinct. *)
Lemma free_sorted_NoDup fl : free_sorted fl -> Forall (fun b => 0 <= b.2) fl -> NoDup fl.*1.
Proof.
  unfold free_sorted. induction 1 as [|b fl S IH Hb]; intros Hf; [constructor|].
  apply Forall_cons in Hf as [? Hf]. simpl. apply NoDup_cons. split; [|by apply IH].
  intros (b' & E & Hb')%list_elem_of_fmap. rewrite Forall_forall in Hb. specialize (Hb b' Hb').
  unfold blk_end, data, sizeof_blkhdr in *. lia.
Qed.
End ChunkLemmas.

(** * Allocation in a chunk *)

Section Alloc.
Implicit Types (s : MEM) (c n a m : Z) (b : Z * Z) (fl us : list (Z * Z)).

(** The first block that is large enough is taken. *)
Lemma alloc_loop_spec fuel n c prev p s fl :
  chain (next_free s) p fl.*1 -> Forall (fun b => free_size s b.1 = b.2) fl ->
  (length fl <= fuel)%nat ->
  (Forall (fun b => b.2 < n) fl /\ alloc_loop fuel n c prev p s = Done 0 s) \/
  exists fl1 b fl2, fl = fl1 ++ b :: fl2 /\ Forall (fun b => b.2 < n) fl1 /\ n <= b.2 /\
    alloc_loop fuel n c prev p s = alloc_block n c (default prev (last fl1.*1)) b.1 s.
Proof.
  revert prev p fl. induction fuel as [|fuel IH]; intros prev p [|b fl] Hc Hs Hlen; try (simpl in Hlen; lia).
  - left. simpl in Hc. by subst p.
  - left. simpl in Hc. by subst p.
  - destruct Hc as (-> & Ha & Hc). apply Forall_cons in Hs as [Hb Hs].
    cbn [alloc_loop]. run_m. apply nz_true in Ha as ->. run_m. rewrite Hb.
    rewrite Z.geb_leb. destruct (Z.leb_spec n b.2).
    + right. by exists [], b, fl.
    + destruct (IH b.1 (next_free s b.1) fl) as [[Hall E]|(fl1 & b' & fl2 & -> & Hall & Hn & E)];
        [done|done|simpl in Hlen; lia|left|right].
      * split; [by constructor|done].
      * exists (b :: fl1), b', fl2. split_and!; [done|by constructor|done|].
        rewrite E, fmap_cons, last_cons. by destruct (last _).
Qed.

(** What is left of a block of [m] bytes at [a] after [n] bytes are taken:
    a remainder that has no room for a header and [MINSIZE] bytes is lost. *)
Definition rest a m n : list (Z * Z) :=
  if m - n >=? sizeof_blkhdr + MINSIZE then [(data a + n, m - n - sizeof_blkhdr)] else [].

(** The fields after [n] bytes are taken from the block [a], which comes
    after [prev]. *)
Record allocated n c prev a s s' : Prop := {
  al_same : chk_addr s' = chk_addr s /\ chk_limit s' = chk_limit s /\ next_chk s' = next_chk s /\
    granularity s' = granularity s /\ chk_list s' = chk_list s /\
    total_available s' = total_available s /\ extra_chks s' = extra_chks s;
  al_leak : memory_leak s' = u32 (memory_leak s + n);
  al_over : memory_overhead s' =
    u32 (memory_overhead s + sizeof_blkhdr * Z.of_nat (length (rest a (free_size s a) n)));
  al_next : let big := free_size s a - n >=? sizeof_blkhdr + MINSIZE in
    let next := if big then data a + n else next_free s a in
    let nf := if big then <[next := next_free s a]> (next_free s) else next_free s in
    next_free s' = <[a := a]> (if nz prev then <[prev := next]> nf else nf) /\
    free_list s' = (if nz prev then free_list s else <[c := next]> (free_list s)) /\
    free_size s' = <[a := n]> (if big then <[next := free_size s a - n - sizeof_blkhdr]> (free_size s)
                               else free_size s) /\
    blk_chk_addr s' = (if big then <[next := chk_addr s c]> (blk_chk_addr s) else blk_chk_addr s)
}.

Lemma alloc_block_eq n c prev a s :
  0 <= n <= free_size s a -> free_size s a < 4294967296 -> memory_overhead s = u32 (memory_overhead s) ->
  exists s', alloc_block n c prev a s = Done (data a) s' /\ allocated n c prev a s s'.
Proof.
  intros Hn Hm Ho. unfold alloc_block, split_block. run_m.
  assert (E : u32 (free_size s a - n) = free_size s a - n) by (unfold u32; rewrite Z.mod_small; lia).
  rewrite E. destruct (free_size s a - n >=? sizeof_blkhdr + MINSIZE) eqn:B; run_m;
    [replace (u32 (free_size s a - (n + sizeof_blkhdr))) with (free_size s a - n - sizeof_blkhdr)
       by (unfold sizeof_blkhdr, MINSIZE, u32 in *; rewrite Z.mod_small; lia)|];
    destruct (nz prev) eqn:P; run_m.
  all: destruct (_ >? max_allocated s); run_m; eexists; (split; [reflexivity|]).
  all: split; cbv zeta; unfold rest; rewrite ?B, ?P; state_simpl; try done; try by split_and!.
  all: simpl length; try (rewrite Ho at 1); f_equal; lia.
Qed.
End Alloc.

(** * The blocks of a chunk *)

Ltac blk_lia :=
  unfold apart, blk_end, data, OVERHEAD, sizeof_blkhdr, sizeof_chkhdr, MINSIZE in *;
  cbn [fst snd] in *; lia.

Section Blocks.
Implicit Types (s : MEM) (c n a m : Z) (b : Z * Z) (fl us : list (Z * Z)).

Lemma free_sorted_middle fl1 b fl2 :
  Forall (fun b => 0 <= b.2) (b :: fl2) ->
  free_sorted (fl1 ++ b :: fl2) <->
  free_sorted (fl1 ++ fl2) /\ Forall (fun x => blk_end x < b.1) fl1 /\ Forall (fun x => blk_end b < x.1) fl2.
Proof.
  unfold free_sorted. intros Hp. induction fl1 as [|x fl1 IH]; cbn [app].
  - split.
    + intros S. inversion_clear S. by split_and!.
    + intros (S & _ & H). by constructor.
  - split.
    + intros S. inversion_clear S as [|? ? S' Hx]. apply IH in S' as (S' & H1 & H2).
      apply Forall_app in Hx as [Hx1 Hx2]. apply Forall_cons in Hx2 as [Hxb Hx2].
      split_and!; [|by constructor|done]. constructor; [done|]. by apply Forall_app.
    + intros (S & H1 & H2). inversion_clear S as [|? ? S' Hx]. apply Forall_cons in H1 as [Hxb H1].
      constructor; [by apply IH|]. rewrite Forall_app, Forall_cons in *. destruct Hx. by split_and!.
Qed.

Lemma apart_sym b b' : apart b b' -> apart b' b.
Proof. unfold apart. tauto. Qed.

(** A part of a block is apart from what the block is apart from. *)
Lemma apart_sub b b' b1 : b.1 <= b1.1 -> blk_end b1 <= blk_end b -> apart b b' -> apart b1 b'.
Proof. unfold apart. lia. Qed.

Lemma Forall_pairs_cons (P : Z * Z -> Z * Z -> Prop) fl u us :
  Forall (fun b => Forall (P b) (u :: us)) fl <->
  Forall (fun b => P b u) fl /\ Forall (fun b => Forall (P b) us) fl.
Proof.
  rewrite <- Forall_and. apply Forall_iff. intros b. by rewrite Forall_cons.
Qed.

Lemma rest_in a m n b : b ∈ rest a m n -> sizeof_blkhdr + MINSIZE <= m - n /\ b = (data a + n, m - n - sizeof_blkhdr).
Proof.
  unfold rest. destruct (_ >=? _) eqn:E; [|by intros ?%not_elem_of_nil].
  intros ->%list_elem_of_singleton. split; [lia|done].
Qed.

(** Cutting a free block in two keeps all blocks apart. *)
Lemma all_apart_alloc fl1 a m fl2 us n :
  all_apart (fl1 ++ (a, m) :: fl2) us -> 0 <= n <= m -> Forall (fun b => 0 <= b.2) fl2 ->
  all_apart (fl1 ++ rest a m n ++ fl2) ((a, n) :: us).
Proof.
  intros (S & Hu & Hx) Hn Hp. apply free_sorted_middle in S as (S & H1 & H2);
    [|constructor; [simpl; lia|done]].
  rewrite Forall_app, Forall_cons in Hx. destruct Hx as (Hx1 & Hxa & Hx2).
  assert (Hr : forall b, b ∈ rest a m n -> a < b.1 /\ blk_end b = blk_end (a, m) /\ 0 <= b.2 /\ apart b (a, n)).
  { intros b [Hm ->]%rest_in. split_and!; [..|right]; blk_lia. }
  split_and!.
  - unfold rest in *. destruct (_ >=? _); [|done]. cbn [app].
    destruct (Hr (data a + n, m - n - sizeof_blkhdr)) as (Ha & He & H0 & _); [set_solver|].
    apply free_sorted_middle; [by constructor|]. rewrite He. split_and!; [done| |done].
    apply (Forall_impl _ _ _ H1). intros b. cbn [fst] in *. lia.
  - constructor; [|done]. apply (Forall_impl _ _ _ Hxa). intros u. apply apart_sub; blk_lia.
  - apply Forall_pairs_cons. rewrite !Forall_app. split_and!; [| | |done| |done].
    + apply (Forall_impl _ _ _ H1). intros b. blk_lia.
    + apply Forall_forall. apply Hr.
    + apply (Forall_impl _ _ _ H2). intros b. blk_lia.
    + apply Forall_forall. intros b Hb. destruct (Hr b Hb) as (Ha & He & _).
      apply (Forall_impl _ _ _ Hxa). intros u. apply apart_sub; [simpl; lia|by rewrite He].
Qed.
End Blocks.

Section AllocOk.
Implicit Types (s : MEM) (c n a m : Z) (b : Z * Z) (fl us : list (Z * Z)).

Lemma last_in fl a : last fl.*1 = Some a -> exists b, b ∈ fl /\ b.1 = a.
Proof. intros (b & -> & Hb)%last_Some_elem_of%list_elem_of_fmap. by exists b. Qed.

Lemma lastz_in fl : lastz fl.*1 <> 0 -> exists b, b ∈ fl /\ b.1 = lastz fl.*1.
Proof. unfold lastz. destruct (last fl.*1) eqn:E; [|done]. intros _. by apply last_in. Qed.

(** Where the blocks of a chunk lie around one of them. *)
Lemma chunk_around s c fl1 a m fl2 us :
  chunk_ok s c (fl1 ++ (a, m) :: fl2) us ->
  blk_ok s c (a, m) /\
  (forall b, b ∈ fl1 -> blk_ok s c b /\ blk_end b < a) /\
  (forall b, b ∈ fl2 -> blk_ok s c b /\ blk_end (a, m) < b.1) /\
  (forall b, b ∈ us -> blk_ok s c b /\ apart (a, m) b /\ next_free s b.1 = b.1).
Proof.
  intros [[_ _ _ Hb Hf Hu] (S & _ & Hx)]. apply free_sorted_middle in S as (_ & H1 & H2).
  2:{ apply Forall_app in Hf as [_ Hf]. apply (Forall_impl _ _ _ Hf). lia. }
  rewrite !Forall_app, Forall_cons in Hb. destruct Hb as ((Hb1 & Hba & Hb2) & Hbu).
  rewrite Forall_app, Forall_cons in Hx. destruct Hx as (_ & Hxa & _).
  rewrite Forall_forall in *. split_and!; [done|..]; intros b Hb; auto.
Qed.

Lemma allocated_frame n c a m fl1 fl2 us s s' :
  chunk_ok s c (fl1 ++ (a, m) :: fl2) us -> 0 <= n <= m -> OVERHEAD < granularity s ->
  allocated n c (lastz fl1.*1) a s s' -> chunk_frame c s s'.
Proof.
  intros Hok Hn Hg [(E1 & E2 & E3 & E4 & E5 & E6 & E7) _ _ Hal].
  destruct (chunk_around _ _ _ _ _ _ _ Hok) as ((Hsz & _ & Hlo & Hhi & _) & H1 & _).
  cbn [fst snd] in *. rewrite Hsz in Hal. split; try done. intros x Hx.
  assert (Hp : lastz fl1.*1 = 0 \/ c <= lastz fl1.*1 < a).
  { destruct (decide (lastz fl1.*1 = 0)) as [|Hz]; [by left|right].
    destruct (lastz_in fl1 Hz) as (b & Hb & <-). destruct (H1 b Hb) as ((_ & _ & ? & _ & ? & _) & ?). blk_lia. }
  destruct Hal as (-> & -> & -> & ->).
  assert (Hxa : a <> x) by blk_lia. assert (Hxc : c <> x) by blk_lia.
  assert (Hxb : m - n >=? sizeof_blkhdr + MINSIZE = true -> data a + n <> x) by blk_lia.
  assert (Hxp : nz (lastz fl1.*1) = true -> lastz fl1.*1 <> x) by (rewrite nz_true; blk_lia).
  destruct (m - n >=? _), (nz _); rewrite ?upd_ne by auto; by split_and!.
Qed.
End AllocOk.

Section AllocChunk.
Implicit Types (s : MEM) (c n a m : Z) (b : Z * Z) (fl us : list (Z * Z)).

Lemma blk_ok_fields s s' c b :
  blk_ok s c b -> granularity s' = granularity s -> free_size s' b.1 = free_size s b.1 ->
  blk_chk_addr s' b.1 = blk_chk_addr s b.1 -> blk_ok s' c b.
Proof. unfold blk_ok. intros ? -> -> ->. done. Qed.

(** Blocks keep their headers, the block taken gets a new size, and the
    remainder a header of its own. *)
Lemma allocated_blocks n c a m fl1 fl2 us s s' :
  chunk_ok s c (fl1 ++ (a, m) :: fl2) us -> 0 <= n <= m -> n mod MINSIZE = 0 ->
  allocated n c (lastz fl1.*1) a s s' ->
  Forall (blk_ok s' c) ((fl1 ++ rest a m n ++ fl2) ++ (a, n) :: us).
Proof.
  intros Hok Hn Hmod [(E1 & _ & _ & E4 & _) _ _ Hal].
  destruct (chunk_around _ _ _ _ _ _ _ Hok) as (Hba & H1 & H2 & Hu).
  pose proof Hba as (Hsz & Hc & Hlo & Hhi & Hm0 & Hmm). cbn [fst snd] in *. rewrite Hsz in Hal.
  destruct Hal as (_ & _ & Efs & Ebc).
  assert (Hother : forall b, blk_ok s c b -> a <> b.1 -> (m - n >=? sizeof_blkhdr + MINSIZE = true -> data a + n <> b.1) ->
                             blk_ok s' c b).
  { intros b Hb Ha Hd. apply (blk_ok_fields s); [done|done| |].
    - rewrite Efs, upd_ne by done. destruct (_ >=? _); [|done]. by rewrite upd_ne by auto.
    - rewrite Ebc. destruct (_ >=? _); [|done]. by rewrite upd_ne by auto. }
  rewrite !Forall_app, Forall_cons, !Forall_forall. split_and!.
  - intros b Hb. destruct (H1 b Hb) as [Hbo Hbe]. pose proof Hbo as (_ & _ & _ & _ & ? & _).
    apply Hother; [done|blk_lia..].
  - intros b [Hr ->]%rest_in.
    unfold blk_ok. cbn [fst snd]. rewrite Efs, Ebc, E4, upd_ne by blk_lia.
    rewrite Z.geb_leb, (proj2 (Z.leb_le _ _)) by lia. rewrite !upd_eq.
    split_and!; [done|by apply (ck_addr _ _ _ _ Hok)|blk_lia|blk_lia|blk_lia|].
    unfold MINSIZE, sizeof_blkhdr in *. Z.div_mod_to_equations. lia.
  - intros b Hb. destruct (H2 b Hb) as [Hbo Hbe]. apply Hother; [done|blk_lia..].
  - unfold blk_ok. cbn [fst snd]. rewrite Efs, Ebc, E4, upd_eq. split_and!; [done| |blk_lia..|done].
    destruct (_ >=? _) eqn:E; [|done]. rewrite upd_ne; [done|blk_lia].
  - intros b Hb. destruct (Hu b Hb) as (Hbo & Hbe & _). pose proof Hbo as (_ & _ & _ & _ & ? & _).
    apply Hother; [done|blk_lia..].
Qed.

Lemma allocated_chain n c a m fl1 fl2 us s s' :
  chunk_ok s c (fl1 ++ (a, m) :: fl2) us -> 0 <= n <= m -> 0 <= c ->
  allocated n c (lastz fl1.*1) a s s' ->
  chain (next_free s') (free_list s' c) (fl1 ++ rest a m n ++ fl2).*1.
Proof.
  intros Hok Hn Hc0 [_ _ _ Hal].
  destruct (chunk_around _ _ _ _ _ _ _ Hok) as (Hba & H1 & H2 & Hu).
  pose proof Hba as (Hsz & _ & Hlo & _ & Hm0 & _). cbn [fst snd] in *. rewrite Hsz in Hal.
  destruct Hal as (Enf & Efl & _). pose proof (ck_chain _ _ _ _ Hok) as Hch.
  assert (Hnd : NoDup fl1.*1).
  { pose proof (ck_apart _ _ _ _ Hok) as (S & _). apply free_sorted_NoDup in S.
    - rewrite fmap_app in S. by apply NoDup_app in S as (? & _).
    - pose proof (ck_free _ _ _ _ Hok) as Hf. apply (Forall_impl _ _ _ Hf). lia. }
  rewrite fmap_app, fmap_cons in Hch. cbn [fst] in Hch. rewrite !fmap_app.
  pose proof (chain_app_rest _ _ _ _ Hch) as Hr. destruct Hr as (_ & Ha0 & Hr).
  set (next := if m - n >=? sizeof_blkhdr + MINSIZE then data a + n else next_free s a) in *.
  assert (Hfl1 : fl1 <> [] <-> nz (lastz fl1.*1) = true).
  { rewrite nz_true. unfold lastz. split.
    - intros Hne. destruct (last fl1.*1) eqn:E.
      + destruct (last_in _ _ E) as (b & Hb & <-). destruct (H1 b Hb) as ((_ & _ & ? & _) & _). simpl. blk_lia.
      + apply last_None in E. by apply fmap_nil_inv in E.
    - by intros Hz ->. }
  assert (Hlast : lastz fl1.*1 = 0 \/ c + 16 <= lastz fl1.*1 < a).
  { destruct (decide (lastz fl1.*1 = 0)) as [|Hz]; [by left|right].
    destruct (lastz_in fl1 Hz) as (b & Hb & <-). destruct (H1 b Hb) as ((_ & _ & ? & _ & ? & _) & ?). blk_lia. }
  apply (chain_relink _ _ _ _ next _ _ _ Hch Hnd).
  - intros E. apply fmap_nil_inv in E as ->. rewrite Efl. change (nz (lastz _)) with false.
    cbv iota. by rewrite upd_eq.
  - intros Hne. assert (Hz : nz (lastz fl1.*1) = true) by (apply Hfl1; by intros ->).
    rewrite Efl, Enf, Hz. split; [done|]. by rewrite upd_ne, upd_eq by lia.
  - intros x (b & -> & Hb)%list_elem_of_fmap Hx. destruct (H1 b Hb) as ((_ & _ & _ & _ & ? & _) & ?).
    rewrite Enf, upd_ne by blk_lia.
    destruct (nz _), (m - n >=? _); rewrite ?upd_ne; try done; unfold next; blk_lia.
  - assert (Hext : forall x, x ∈ fl2.*1 -> next_free s x = next_free s' x).
    { intros x (b & -> & Hb)%list_elem_of_fmap. destruct (H2 b Hb) as (_ & ?).
      rewrite Enf, upd_ne by blk_lia. destruct (nz (lastz fl1.*1)) eqn:Ez;
        unfold next; destruct (m - n >=? _) eqn:E; rewrite ?upd_ne; try done; blk_lia. }
    unfold rest, next in *. destruct (m - n >=? _) eqn:E.
    + assert (Enx : next_free s' (data a + n) = next_free s a).
      { rewrite Enf, upd_ne by blk_lia.
        destruct (nz (lastz _)); [rewrite upd_ne by blk_lia|]; by rewrite upd_eq. }
      rewrite fmap_cons, fmap_nil. cbn [app chain fst]. rewrite Enx.
      split_and!; [done|blk_lia|]. by apply (chain_ext (next_free s)).
    + by apply (chain_ext (next_free s)).
Qed.

Lemma allocated_ok n c a m fl1 fl2 us s s' :
  chunk_ok s c (fl1 ++ (a, m) :: fl2) us -> 0 <= n <= m -> n mod MINSIZE = 0 -> 0 <= c ->
  allocated n c (lastz fl1.*1) a s s' ->
  chunk_ok s' c (fl1 ++ rest a m n ++ fl2) ((a, n) :: us).
Proof.
  intros Hok Hn Hmod Hc0 Hal. destruct (chunk_around _ _ _ _ _ _ _ Hok) as (Hba & H1 & H2 & Hu).
  pose proof Hok as [[A1 A2 _ _ A5 A6] A7]. pose proof Hal as [(E1 & E2 & _ & E4 & _) _ _ H].
  pose proof Hba as (Hsz & _ & Hlo & Hhi & _). cbn [fst snd] in *. rewrite Hsz in H.
  destruct H as (Enf & _). rewrite !Forall_app, Forall_cons in A5. destruct A5 as (F1 & Fa & F2). split; [split|].
  - by rewrite E1.
  - by rewrite E2, E4.
  - by apply (allocated_chain n c a m fl1 fl2 us s).
  - by apply (allocated_blocks n c a m fl1 fl2 us s).
  - rewrite !Forall_app. split_and!; [done| |done]. apply Forall_forall.
    intros b [? ->]%rest_in. blk_lia.
  - constructor; cbn [fst]; [by rewrite Enf, upd_eq|]. apply Forall_forall. intros b Hb.
    destruct (Hu b Hb) as ((_ & _ & Hb1 & _ & ? & _) & Hap & Hnf). rewrite Enf, upd_ne by blk_lia.
    assert (Hp : nz (lastz fl1.*1) = true -> lastz fl1.*1 <> b.1).
    { intros (b' & Hb' & <-)%nz_true%lastz_in. destruct (H1 b' Hb') as ((_ & _ & _ & _ & ? & _) & _).
      destruct A7 as (_ & _ & Hx). rewrite Forall_app, !Forall_forall in Hx. destruct Hx as [Hx _].
      specialize (Hx b' Hb'). rewrite Forall_forall in Hx. specialize (Hx b Hb). blk_lia. }
    destruct (nz (lastz fl1.*1)), (m - n >=? _) eqn:E; rewrite ?upd_ne by (auto || blk_lia); done.
  - apply all_apart_alloc; [done|done|]. apply (Forall_impl _ _ _ F2). lia.
Qed.
End AllocChunk.

(** * Release in a chunk *)

(** The block joined with the free block before it, and with the one after. *)
Definition join_prev (fl1 : list (Z * Z)) (b : Z * Z) : list (Z * Z) * (Z * Z) :=
  match last fl1 with
  | Some x => if blk_end x =? b.1 then (removelast fl1, (x.1, x.2 + (b.2 + sizeof_blkhdr))) else (fl1, b)
  | None => (fl1, b)
  end.

Definition join_next (b : Z * Z) (fl2 : list (Z * Z)) : list (Z * Z) :=
  match fl2 with
  | x :: fl2' => if blk_end b =? x.1 then (b.1, b.2 + (x.2 + sizeof_blkhdr)) :: fl2' else b :: fl2
  | [] => [b]
  end.

Section Join.
Implicit Types (a n : Z) (b x : Z * Z) (fl us : list (Z * Z)).

Lemma join_prev_cases fl1 b :
  join_prev fl1 b = (fl1, b) /\ (forall x, last fl1 = Some x -> blk_end x <> b.1) \/
  exists fl1' x, fl1 = fl1' ++ [x] /\ blk_end x = b.1 /\
    join_prev fl1 b = (fl1', (x.1, x.2 + (b.2 + sizeof_blkhdr))).
Proof.
  unfold join_prev. destruct fl1 as [|x fl1 _] using rev_ind; [by left|].
  rewrite last_snoc. destruct (Z.eqb_spec (blk_end x) b.1).
  - right. exists fl1, x. by rewrite removelast_last.
  - left. split; [done|]. by intros ? [= <-].
Qed.

(** The block is in its place among the free blocks, and apart from the
    blocks in use; it may touch the next free block. *)
Definition placed fl1 b fl2 us : Prop :=
  free_sorted (fl1 ++ fl2) /\ Forall (fun x => blk_end x < b.1) fl1 /\
  Forall (fun x => blk_end b <= x.1) fl2 /\
  ForallOrdPairs apart us /\ Forall (fun x => Forall (apart x) us) (fl1 ++ b :: fl2).

Lemma free_sorted_app_l fl1 fl2 : free_sorted (fl1 ++ fl2) -> free_sorted fl1.
Proof.
  unfold free_sorted. induction fl1 as [|x fl1 IH]; cbn [app]; [constructor|]. intros S.
  inversion_clear S as [|? ? S' Hx]. apply Forall_app in Hx as [? _]. constructor; auto.
Qed.

Lemma last_free_sorted fl x b :
  free_sorted (fl ++ [x]) -> blk_end x <= b.1 -> Forall (fun y => 0 <= y.2) (fl ++ [x]) ->
  Forall (fun y => blk_end y < b.1) fl.
Proof.
  intros S Hx Hp. apply Forall_app in Hp as [_ Hp].
  apply free_sorted_middle in S as (_ & H & _); [|done]. inversion_clear Hp.
  apply (Forall_impl _ _ _ H). intros y. blk_lia.
Qed.

Lemma join_prev_placed fl1 fl2 a n us1 us2 :
  all_apart (fl1 ++ fl2) (us1 ++ (a, n) :: us2) -> Forall (fun x => 0 <= x.2) (fl1 ++ fl2) -> 0 <= n ->
  Forall (fun x => 0 <= x.2) (us1 ++ us2) ->
  Forall (fun x => x.1 < a) fl1 -> Forall (fun x => a < x.1) fl2 ->
  let '(fl1', b') := join_prev fl1 (a, n) in placed fl1' b' fl2 (us1 ++ us2).
Proof.
  intros (S & Hu & Hx) Hp Hn Hpu H1 H2.
  assert (Hux : Forall (apart (a, n)) (us1 ++ us2) /\ ForallOrdPairs apart (us1 ++ us2)).
  { clear - Hu. induction us1 as [|u us1 IH]; cbn [app] in *; inversion_clear Hu as [|? ? Ha Hu'].
    - done.
    - apply IH in Hu' as [? ?]. rewrite Forall_app, Forall_cons in Ha. destruct Ha as (? & ? & ?).
      split; constructor; [by apply apart_sym|done| |done]. by apply Forall_app. }
  destruct Hux as [Hau Hu'].
  assert (Hx' : Forall (fun x => Forall (apart x) (us1 ++ us2) /\ apart x (a, n)) (fl1 ++ fl2)).
  { apply (Forall_impl _ _ _ Hx). intros x. rewrite !Forall_app, Forall_cons. tauto. }
  rewrite Forall_app in Hx', Hp. destruct Hx' as [Hx1 Hx2], Hp as [Hp1 Hp2].
  assert (H2' : Forall (fun x => blk_end (a, n) <= x.1) fl2).
  { rewrite Forall_forall in *. intros x Hin. specialize (H2 x Hin). destruct (Hx2 x Hin) as [_ Ha].
    specialize (Hp2 x Hin). blk_lia. }
  assert (H1' : Forall (fun x => blk_end x <= a) fl1).
  { rewrite Forall_forall in *. intros x Hin. specialize (H1 x Hin). destruct (Hx1 x Hin) as [_ Ha].
    specialize (Hp1 x Hin). blk_lia. }
  assert (Hfst : forall fl, Forall (fun x => Forall (apart x) (us1 ++ us2) /\ apart x (a, n)) fl ->
                            Forall (fun x => Forall (apart x) (us1 ++ us2)) fl)
    by (intros fl Hfl; apply (Forall_impl _ _ _ Hfl); by intros x [? _]).
  destruct (join_prev_cases fl1 (a, n)) as [[-> Hl]|(fl & x & -> & He & ->)]; cbn [fst snd] in *.
  - split_and!; [done| |done|done|]; [|rewrite Forall_app, Forall_cons; by split_and!; auto].
    destruct fl1 as [|x fl1 _] using rev_ind; [done|]. rewrite last_snoc in Hl. specialize (Hl x eq_refl).
    pose proof H1' as H1''. rewrite Forall_app, Forall_singleton in H1' |- *. split; [|blk_lia].
    apply (last_free_sorted _ x (a, n)); [by apply free_sorted_app_l in S|simpl; lia|done].
  - rewrite <- app_assoc in S. cbn [app] in S.
    rewrite Forall_app, Forall_singleton in Hx1, Hp1. destruct Hx1 as [Hx1 [Hxx _]], Hp1 as [Hp1 Hpx].
    apply free_sorted_middle in S as (S & Hb1 & Hb2); [|by constructor].
    split_and!; [done|done| |done|].
    + apply (Forall_impl _ _ _ H2'). intros y. blk_lia.
    + rewrite Forall_app, Forall_cons. split_and!; [by apply Hfst| |by apply Hfst].
      rewrite Forall_forall in *. intros u Hu1. specialize (Hau u Hu1). specialize (Hxx u Hu1).
      specialize (Hpu u Hu1). blk_lia.
Qed.

Lemma join_next_apart fl1 b fl2 us :
  placed fl1 b fl2 us -> Forall (fun x => 0 <= x.2) (b :: fl2) ->
  Forall (fun x => 0 <= x.2) us -> all_apart (fl1 ++ join_next b fl2) us.
Proof.
  intros (S & H1 & H2 & Hu & Hx) Hp Hpu. rewrite Forall_app, Forall_cons in Hx.
  destruct Hx as (Hx1 & Hxb & Hx2). inversion_clear Hp as [|? ? Hb Hp2].
  destruct fl2 as [|x fl2]; cbn [join_next].
  - split_and!; [|done|rewrite Forall_app, Forall_singleton; by split_and!].
    apply free_sorted_middle; [by constructor|]. by split_and!.
  - apply Forall_cons in H2 as [H2x H2], Hx2 as [Hxx Hx2], Hp2 as [Hpx Hp2].
    apply free_sorted_middle in S as (S & H1x & Hx2'); [|by constructor].
    destruct (Z.eqb_spec (blk_end b) x.1) as [He|He].
    + split_and!; [|done|].
      * apply free_sorted_middle; [constructor; [blk_lia|done]|]. split_and!; [done|done|].
        apply (Forall_impl _ _ _ Hx2'). intros y. blk_lia.
      * rewrite Forall_app, Forall_cons. split_and!; [done| |done].
        rewrite Forall_forall in *. intros u Hin. specialize (Hxb u Hin). specialize (Hxx u Hin).
        specialize (Hpu u Hin). blk_lia.
    + split_and!; [|done|rewrite Forall_app, !Forall_cons; by split_and!].
      apply free_sorted_middle; [by repeat constructor|]. split_and!; [|done|].
      * apply free_sorted_middle; [by constructor|]. by split_and!.
      * constructor; [blk_lia|]. apply (Forall_impl _ _ _ Hx2'). intros y. blk_lia.
Qed.
End Join.

Section Release.
Implicit Types (s : MEM) (c n a : Z) (b x : Z * Z) (fl us : list (Z * Z)).

Lemma free_walk_spec fuel s a prev p fl1 fl2 :
  chain (next_free s) p (fl1 ++ fl2).*1 -> (length fl1 <= fuel)%nat ->
  Forall (fun x => x.1 < a) fl1 -> Forall (fun x => a < x.1) fl2 ->
  free_walk fuel s (data a) prev p = Some (default prev (last fl1.*1), hd 0 fl2.*1).
Proof.
  revert prev p fl1. induction fuel as [|fuel IH]; intros prev p [|x fl1] Hc Hf H1 H2;
    try (simpl in Hf; lia).
  1,2: apply chain_head in Hc; cbn [app] in Hc; rewrite Hc; destruct fl2 as [|y fl2]; [done|];
    inversion_clear H2; simpl; rewrite (proj2 (Z.ltb_ge _ _)) by blk_lia; by rewrite andb_false_r.
  destruct Hc as (-> & Ha & Hc). inversion_clear H1. cbn [free_walk].
  apply nz_true in Ha as ->. rewrite (proj2 (Z.ltb_lt _ _)) by blk_lia. cbn [andb].
  rewrite (IH x.1 (next_free s x.1) fl1) by (done || (simpl in Hf; lia)).
  rewrite fmap_cons, last_cons. by destruct (last fl1.*1).
Qed.

(** A block in use, and the free blocks around it. *)
Record in_use s c fl1 fl2 us1 a n us2 : Prop := {
  iu_ok : chunk_ok s c (fl1 ++ fl2) (us1 ++ (a, n) :: us2);
  iu_before : Forall (fun x => x.1 < a) fl1;
  iu_after : Forall (fun x => a < x.1) fl2;
  iu_size : 0 < n;
  iu_chunk : 0 <= c;
  iu_gran : granularity s < 2147483648;
  iu_over : memory_overhead s = u32 (memory_overhead s)
}.

Lemma in_use_around s c fl1 fl2 us1 a n us2 :
  in_use s c fl1 fl2 us1 a n us2 ->
  blk_ok s c (a, n) /\
  (forall x, x ∈ fl1 -> blk_ok s c x /\ blk_end x <= a) /\
  (forall x, x ∈ fl2 -> blk_ok s c x /\ blk_end (a, n) <= x.1) /\
  (forall x, x ∈ us1 ++ us2 -> blk_ok s c x /\ a <> x.1 /\ next_free s x.1 = x.1 /\
                               forall b, b ∈ fl1 -> b.1 <> x.1).
Proof.
  intros [[[_ _ _ Hb _ Hu] (_ & Hup & Hx)] H1 H2 Hn _ _ _].
  assert (Hin : forall x, x ∈ us1 ++ us2 -> x ∈ us1 ++ (a, n) :: us2) by set_solver.
  rewrite Forall_forall in Hb, Hu, Hx, H1, H2.
  assert (Hx' : forall x y, x ∈ fl1 ++ fl2 -> y ∈ us1 ++ (a, n) :: us2 -> apart x y).
  { intros x y Hin1 Hin2. specialize (Hx x Hin1). rewrite Forall_forall in Hx. auto. }
  assert (Hpos : forall x, x ∈ (fl1 ++ fl2) ++ us1 ++ (a, n) :: us2 -> 0 <= x.2)
    by (intros x Hin1; destruct (Hb x Hin1) as (_ & _ & _ & _ & ? & _); done).
  split_and!.
  - apply Hb. set_solver.
  - intros x Hx1. split; [apply Hb; set_solver|]. specialize (H1 x Hx1).
    pose proof (Hpos x ltac:(set_solver)). destruct (Hx' x (a, n)); [set_solver..|blk_lia|blk_lia].
  - intros x Hx2. split; [apply Hb; set_solver|]. specialize (H2 x Hx2).
    pose proof (Hpos x ltac:(set_solver)). destruct (Hx' x (a, n)); [set_solver..|blk_lia|blk_lia].
  - intros x Hxu. split; [apply Hb; set_solver|]. pose proof (Hpos x ltac:(set_solver)).
    split_and!; [|by apply Hu, Hin|].
    + assert (Ha : apart (a, n) x).
      { clear - Hup Hxu. induction us1 as [|u us1 IH]; cbn [app] in *; inversion_clear Hup as [|? ? Hf Hup'].
        - rewrite Forall_forall in Hf. auto.
        - apply elem_of_cons in Hxu as [->|Hxu]; [|by apply IH].
          rewrite Forall_app, Forall_cons in Hf. apply apart_sym. tauto. }
      destruct Ha; blk_lia.
    + intros b Hb1. pose proof (Hpos b ltac:(set_solver)).
      destruct (Hx' b x); [set_solver|by apply Hin|blk_lia|blk_lia].
Qed.

(** The fields after the block [a] is linked into the free list. *)
Record linked c fl1 fl2 us s s' (r : list (Z * Z) * (Z * Z)) : Prop := {
  li_hdrs : chunk_hdrs s' c (r.1 ++ r.2 :: fl2) us;
  li_frame : chunk_frame c s s';
  li_leak : memory_leak s' = memory_leak s;
  li_over : memory_overhead s' =
    u32 (memory_overhead s - sizeof_blkhdr * Z.of_nat (length fl1 - length r.1))
}.

(** Distinct free blocks have distinct addresses. *)
Lemma chunk_free_ne s c fl1 x fl2 us b :
  chunk_ok s c (fl1 ++ x :: fl2) us -> b ∈ fl1 ++ fl2 -> b.1 <> x.1.
Proof.
  destruct x as [a n]. intros Hok. destruct (chunk_around _ _ _ _ _ _ _ Hok) as (Ha & H1 & H2 & _).
  pose proof Ha as (_ & _ & _ & _ & ? & _). rewrite elem_of_app. intros [Hb|Hb].
  - destruct (H1 b Hb) as [(_ & _ & _ & _ & ? & _) ?]. blk_lia.
  - destruct (H2 b Hb) as [_ ?]. blk_lia.
Qed.

Lemma join_size n m : 0 <= n -> 0 <= m -> n + m + 16 < 4294967296 ->
  u32 (n + u32 (m + sizeof_blkhdr)) = n + (m + sizeof_blkhdr).
Proof.
  intros. unfold u32, sizeof_blkhdr. rewrite (Z.mod_small (m + _)) by lia. apply Z.mod_small. lia.
Qed.

(** Blocks whose headers are not written keep them. *)
Lemma blocks_kept s s' c l :
  Forall (blk_ok s c) l -> granularity s' = granularity s ->
  (forall b, b ∈ l -> free_size s' b.1 = free_size s b.1 /\ blk_chk_addr s' b.1 = blk_chk_addr s b.1) ->
  Forall (blk_ok s' c) l.
Proof.
  rewrite !Forall_forall. intros H Hg Hf b Hb. destruct (Hf b Hb). by apply (blk_ok_fields s); auto.
Qed.

Lemma link_free_join c fl1 x fl2 us1 a n us2 s :
  in_use s c (fl1 ++ [x]) fl2 us1 a n us2 -> blk_end x = a ->
  exists s', link_free c x.1 a s = Done x.1 s' /\
    linked c (fl1 ++ [x]) fl2 (us1 ++ us2) s s' (fl1, (x.1, x.2 + (n + sizeof_blkhdr))).
Proof.
  intros Hiu He. destruct (in_use_around _ _ _ _ _ _ _ _ Hiu) as (Ha & H1 & H2 & Hu).
  destruct Hiu as [Hok _ _ Hn Hc0 Hg Hov]. pose proof Hok as [[A1 A2 A3 A4 A5 A6] _].
  destruct (H1 x) as [Hx Hxe]; [set_solver|].
  pose proof Ha as (Hsz & _ & Hlo & Hhi & _ & Hmod). pose proof Hx as (Hszx & Hcx & Hlox & _ & Hx0 & Hmodx).
  cbn [fst snd] in *. unfold link_free. run_m.
  rewrite Hszx, Hsz, (proj2 (nz_true x.1)) by blk_lia. cbn [andb].
  rewrite (proj2 (Z.eqb_eq (data x.1 + x.2) a)) by done. run_m.
  rewrite join_size by blk_lia. eexists. split; [reflexivity|].
  assert (Hinj : forall b, b ∈ fl1 ++ fl2 ++ us1 ++ us2 -> b.1 <> x.1).
  { intros b. rewrite !elem_of_app. intros [Hb|[Hb|Hb]].
    - rewrite <- app_assoc in Hok. apply (chunk_free_ne _ _ _ _ _ _ b Hok). set_solver.
    - rewrite <- app_assoc in Hok. apply (chunk_free_ne _ _ _ _ _ _ b Hok). set_solver.
    - apply elem_of_app in Hb. destruct (Hu b Hb) as (_ & _ & _ & Hd). intros E. symmetry in E.
      revert E. apply Hd. set_solver. }
  split; cbn [fst snd].
  2:{ split; state_simpl; try done. intros y Hy. rewrite upd_ne by blk_lia. done. }
  2:{ by state_simpl. }
  2:{ state_simpl. rewrite length_app, Nat.add_sub_swap, Nat.sub_diag by done. done. }
  split; state_simpl; [done|done| | | |].
  - rewrite <- app_assoc in A3. cbn [app] in A3. rewrite fmap_app, fmap_cons in *. exact A3.
  - assert (Hperm : (fl1 ++ (x.1, x.2 + (n + sizeof_blkhdr)) :: fl2) ++ us1 ++ us2 ≡ₚ
                    (x.1, x.2 + (n + sizeof_blkhdr)) :: (fl1 ++ fl2 ++ us1 ++ us2))
      by (rewrite <- app_assoc; symmetry; apply Permutation_middle).
    rewrite Hperm. constructor.
    + unfold blk_ok. cbn [fst snd]. state_simpl. rewrite upd_eq.
      split_and!; [done|done|done|blk_lia|blk_lia|].
      unfold MINSIZE, sizeof_blkhdr in *. Z.div_mod_to_equations. lia.
    + apply (blocks_kept s); [|by state_simpl|].
      * rewrite !Forall_app, !Forall_cons in A4. rewrite !Forall_app. tauto.
      * intros b Hb. state_simpl. rewrite upd_ne; [done|]. apply not_eq_sym. auto.
  - rewrite !Forall_app, Forall_singleton in A5. rewrite Forall_app, Forall_cons. cbn [snd].
    destruct A5 as ((? & ?) & ?). split_and!; [done|blk_lia|done].
  - rewrite !Forall_app, Forall_cons in A6. rewrite Forall_app. tauto.
Qed.

Lemma chunk_free_NoDup s c fl1 fl2 us :
  chunk_ok s c (fl1 ++ fl2) us -> NoDup fl1.*1 /\ forall y, y ∈ fl1.*1 -> y ∉ fl2.*1.
Proof.
  intros [[_ _ _ _ A5 _] (S & _)]. apply free_sorted_NoDup in S.
  - rewrite fmap_app in S. by apply NoDup_app in S as (? & ? & _).
  - apply (Forall_impl _ _ _ A5). lia.
Qed.

Lemma link_free_insert c fl1 fl2 us1 a n us2 s :
  in_use s c fl1 fl2 us1 a n us2 -> (forall x, last fl1 = Some x -> blk_end x <> a) ->
  exists s', link_free c (lastz fl1.*1) a s = Done a s' /\
    linked c fl1 fl2 (us1 ++ us2) s s' (fl1, (a, n)).
Proof.
  intros Hiu Hna. destruct (in_use_around _ _ _ _ _ _ _ _ Hiu) as (Ha & H1 & H2 & Hu).
  destruct Hiu as [Hok _ _ Hn Hc0 Hg Hov]. pose proof Hok as [[A1 A2 A3 A4 A5 A6] _].
  pose proof Ha as (Hsz & Hca & Hlo & Hhi & _ & Hmod). cbn [fst snd] in *.
  assert (Hp : nz (lastz fl1.*1) = true -> exists x, last fl1 = Some x /\ lastz fl1.*1 = x.1 /\ x ∈ fl1).
  { unfold lastz. rewrite fmap_last. destruct (last fl1) as [x|] eqn:E; [|done]. intros _. exists x.
    split_and!; [done|done|]. by apply last_Some_elem_of. }
  assert (Hadj : nz (lastz fl1.*1) && (data (lastz fl1.*1) + free_size s (lastz fl1.*1) =? a) = false).
  { destruct (nz (lastz fl1.*1)) eqn:E; [|done]. destruct (Hp eq_refl) as (x & Hl & -> & Hx).
    destruct (H1 x Hx) as [(-> & _) _]. cbn [andb]. apply Z.eqb_neq. by apply Hna. }
  destruct (chunk_free_NoDup _ _ _ _ _ Hok) as [Hnd Hdis].
  assert (Hfree : forall x, x ∈ fl1 ++ fl2 -> x.1 <> a).
  { intros x. rewrite elem_of_app. intros [Hx|Hx].
    - destruct (H1 x Hx) as [(_ & _ & _ & _ & ? & _) ?]. blk_lia.
    - destruct (H2 x Hx) as [_ ?]. blk_lia. }
  destruct (chain_insert (next_free s) (free_list s c) a fl1.*1 fl2.*1) as [C0 C1].
  { by rewrite <- fmap_app. }
  { done. }
  { rewrite <- fmap_app. intros (x & E & Hx)%list_elem_of_fmap. by apply (Hfree x Hx). }
  { blk_lia. }
  { done. }
  assert (Hb : Forall (blk_ok s c) ((fl1 ++ (a, n) :: fl2) ++ us1 ++ us2)).
  { rewrite !Forall_app, !Forall_cons in *. tauto. }
  assert (Hf : Forall (fun b => 0 < b.2) (fl1 ++ (a, n) :: fl2)).
  { rewrite !Forall_app, !Forall_cons in *. tauto. }
  unfold link_free. run_m. rewrite Hadj.
  destruct (nz (lastz fl1.*1)) eqn:Ez; eexists; (split; [reflexivity|]); split; cbn [fst snd]; state_simpl;
    try done; try (rewrite Hov at 1; f_equal; unfold sizeof_blkhdr; lia).
  - destruct (Hp eq_refl) as (x & Hl & Ex & Hx). destruct (H1 x Hx) as [(_ & _ & Hlx & _ & Hx0 & _) Hxe].
    split; state_simpl; try done.
    + rewrite fmap_app. apply C1. intros E. apply fmap_nil_inv in E. by subst fl1.
    + apply Forall_forall. intros b Hbu. destruct (Hu b Hbu) as (_ & Hd & Hnf & Hfl).
      rewrite Ex, !upd_ne; [done|done|by apply Hfl].
  - destruct (Hp eq_refl) as (x & Hl & Ex & Hx). destruct (H1 x Hx) as [(_ & _ & Hlx & _ & Hx0 & _) Hxe].
    split; state_simpl; try done. intros y Hy. rewrite !upd_ne; [done|blk_lia|rewrite Ex; blk_lia].
  - assert (E1 : fl1 = []).
    { destruct fl1 as [|x fl1]; [done|]. destruct C1 as [C1 _]; [done|]. apply nz_false in Ez. congruence. }
    split; state_simpl; try done.
    + rewrite E1, upd_eq. by apply C0; rewrite E1.
    + apply Forall_forall. intros b Hbu. destruct (Hu b Hbu) as (_ & Hd & Hnf & Hfl).
      by rewrite upd_ne.
  - split; state_simpl; try done. intros y Hy. rewrite !upd_ne; [done|blk_lia|blk_lia].
Qed.
End Release.

Section Merge.
Implicit Types (s : MEM) (c n a : Z) (b x : Z * Z) (fl us : list (Z * Z)).

(** The fields after the block [b] is merged with the next free block. *)
Record merged c fl1 b fl2 us s s' : Prop := {
  me_ok : chunk_ok s' c (fl1 ++ join_next b fl2) us;
  me_frame : chunk_frame c s s';
  me_leak : memory_leak s' = memory_leak s;
  me_over : memory_overhead s' =
    u32 (memory_overhead s - sizeof_blkhdr * Z.of_nat (S (length fl2) - length (join_next b fl2)))
}.

Lemma placed_ne s c fl1 b fl2 us x :
  chunk_hdrs s c (fl1 ++ b :: fl2) us -> placed fl1 b fl2 us ->
  x ∈ fl1 ++ fl2 ++ us -> x.1 <> b.1.
Proof.
  intros [_ _ _ Hb _ _] (_ & H1 & H2 & _ & Hx).
  rewrite !Forall_app, !Forall_cons, !Forall_forall in *.
  destruct Hb as ((Hb1 & (_ & _ & _ & _ & Hb0 & _) & Hb2) & Hbu), Hx as (_ & Hxb & _).
  rewrite !elem_of_app. intros [Hin|[Hin|Hin]].
  - destruct (Hb1 x Hin) as (_ & _ & _ & _ & ? & _). specialize (H1 x Hin). blk_lia.
  - specialize (H2 x Hin). blk_lia.
  - destruct (Hbu x Hin) as (_ & _ & _ & _ & ? & _). specialize (Hxb x Hin). blk_lia.
Qed.

Lemma chunk_hdrs_sizes s c fl us :
  chunk_hdrs s c fl us -> Forall (fun x => 0 <= x.2) fl /\ Forall (fun x => 0 <= x.2) us.
Proof.
  intros [_ _ _ Hb _ _]. apply Forall_app. apply (Forall_impl _ _ _ Hb). by intros x (_ & _ & _ & _ & ? & _).
Qed.

Lemma merge_next_joins c fl1 b x fl2 us s :
  chunk_hdrs s c (fl1 ++ b :: x :: fl2) us -> placed fl1 b (x :: fl2) us -> blk_end b = x.1 ->
  0 <= c -> granularity s < 2147483648 ->
  exists s', merge_next b.1 s = Done tt s' /\ merged c fl1 b (x :: fl2) us s s'.
Proof.
  intros Hh Hpl He Hc0 Hg. destruct (chunk_hdrs_sizes _ _ _ _ Hh) as [Hp Hpu].
  pose proof (placed_ne s c fl1 b (x :: fl2) us) as Hne.
  pose proof Hh as [A1 A2 A3 A4 A5 A6].
  rewrite !Forall_app, !Forall_cons in A4. destruct A4 as ((B1 & Bb & Bx & B2) & Bu).
  pose proof Bb as (Hsz & Hcb & Hlo & _ & Hb0 & Hmod). pose proof Bx as (Hszx & _ & _ & Hhi & Hx0 & Hmodx).
  rewrite !fmap_app, !fmap_cons in A3. pose proof (chain_app_rest _ _ _ _ A3) as (_ & _ & Hnx & Hxz & Hc2).
  unfold merge_next. run_m. rewrite Hnx, Hsz, Hszx.
  rewrite (proj2 (Z.eqb_eq (data b.1 + b.2) x.1)) by done. run_m.
  rewrite join_size by blk_lia. eexists. split; [reflexivity|].
  assert (Ej : join_next b (x :: fl2) = (b.1, b.2 + (x.2 + sizeof_blkhdr)) :: fl2)
    by (cbn [join_next]; by rewrite (proj2 (Z.eqb_eq (blk_end b) x.1)) by done).
  assert (Hne' : forall y, y ∈ fl1 ++ fl2 ++ us -> b.1 <> y.1)
    by (intros y Hy; apply not_eq_sym, Hne; [done|done|set_solver]).
  split; [|split| |]; state_simpl; try done.
  3:{ rewrite Ej. cbn [length]. do 2 f_equal. unfold sizeof_blkhdr. lia. }
  2:{ intros y Hy. rewrite !upd_ne by blk_lia. done. }
  split; [|apply join_next_apart; [done| |done]].
  2:{ rewrite !Forall_app in Hp. tauto. }
  rewrite Ej. split; state_simpl; [done|done| | | |].
  - rewrite fmap_app, fmap_cons. cbn [fst].
    apply (chain_skip (next_free s) _ x.1); [done|].
    rewrite <- fmap_app. intros E%list_elem_of_fmap. destruct E as (y & E & Hy).
    apply (Hne' y); [|done]. apply elem_of_app in Hy. rewrite !elem_of_app. tauto.
  - assert (Hperm : (fl1 ++ (b.1, b.2 + (x.2 + sizeof_blkhdr)) :: fl2) ++ us ≡ₚ
                    (b.1, b.2 + (x.2 + sizeof_blkhdr)) :: (fl1 ++ fl2 ++ us))
      by (rewrite <- app_assoc; symmetry; apply Permutation_middle).
    rewrite Hperm. constructor.
    + unfold blk_ok. cbn [fst snd]. state_simpl. rewrite upd_eq.
      split_and!; [done|done|done|blk_lia|blk_lia|].
      unfold MINSIZE, sizeof_blkhdr in *. Z.div_mod_to_equations. lia.
    + apply (blocks_kept s); [|by state_simpl|].
      * rewrite !Forall_app. tauto.
      * intros y Hy. state_simpl. rewrite upd_ne; [done|]. by apply Hne'.
  - rewrite !Forall_app, !Forall_cons in *. cbn [snd]. split_and!; [tauto|blk_lia|tauto].
  - apply Forall_forall. intros y Hy. rewrite upd_ne by (apply Hne'; set_solver).
    rewrite Forall_forall in A6. by apply A6.
Qed.

Lemma merge_next_spec c fl1 b fl2 us s :
  chunk_hdrs s c (fl1 ++ b :: fl2) us -> placed fl1 b fl2 us ->
  0 <= c -> granularity s < 2147483648 -> memory_overhead s = u32 (memory_overhead s) ->
  exists s', merge_next b.1 s = Done tt s' /\ merged c fl1 b fl2 us s s'.
Proof.
  intros Hh Hpl Hc0 Hg Hov. destruct (chunk_hdrs_sizes _ _ _ _ Hh) as [Hp Hpu].
  rewrite Forall_app in Hp. destruct Hp as [_ Hp].
  pose proof (ck_chain _ _ _ _ Hh) as A3. pose proof (ck_blocks _ _ _ _ Hh) as A4.
  rewrite !Forall_app, !Forall_cons in A4. destruct A4 as ((_ & (Hsz & _ & Hlo & _ & Hb0 & _) & _) & _).
  rewrite fmap_app, fmap_cons in A3. apply chain_app_rest in A3 as (_ & _ & Hn).
  assert (Hstay : (data b.1 + b.2 =? next_free s b.1) = false -> join_next b fl2 = b :: fl2 ->
                  exists s', merge_next b.1 s = Done tt s' /\ merged c fl1 b fl2 us s s').
  { intros E Ej. exists s. unfold merge_next. run_m. rewrite Hsz, E. split; [done|].
    split; [split|done|done|]; rewrite ?Ej; [done| |].
    - rewrite <- Ej. by apply join_next_apart.
    - rewrite Hov at 1. f_equal. cbn [length]. lia. }
  destruct fl2 as [|x fl2].
  - apply Hstay; [|done]. cbn in Hn. rewrite Hn. apply Z.eqb_neq. blk_lia.
  - destruct (Z.eqb_spec (blk_end b) x.1) as [He|He]; [by apply merge_next_joins|].
    rewrite fmap_cons in Hn. destruct Hn as (Hn & _ & _). apply Hstay.
    + rewrite Hn. by apply Z.eqb_neq.
    + cbn [join_next]. by rewrite (proj2 (Z.eqb_neq _ _)).
Qed.
End Merge.

(** * Release of a block *)

(** The free blocks of a chunk after [b] is released. *)
Definition release (fl : list (Z * Z)) (b : Z * Z) : list (Z * Z) :=
  let '(fl1, b') := join_prev (take_while (fun x => x.1 <? b.1) fl) b in
  fl1 ++ join_next b' (drop_while (fun x => x.1 <? b.1) fl).

Section ReleaseChunk.
Implicit Types (s : MEM) (c n a : Z) (b x : Z * Z) (fl us : list (Z * Z)).

(** The body of [rt_free], without the request at its end. *)
Definition free_block c a : MM unit :=
  s ← get;
  '(prev, _) ← of_option (free_walk (blocks_fuel s) s (data a) 0 (free_list s c));
  wg memory_leak (u32 (memory_leak s - free_size s a));;
  blk ← link_free c prev a;
  merge_next blk.

Record released c fl us a n s s' : Prop := {
  re_ok : chunk_ok s' c (release fl (a, n)) us;
  re_frame : chunk_frame c s s';
  re_leak : memory_leak s' = u32 (memory_leak s - n);
  re_over : memory_overhead s' =
    u32 (memory_overhead s - sizeof_blkhdr * Z.of_nat (S (length fl) - length (release fl (a, n))))
}.

Lemma in_use_split s c fl us1 a n us2 :
  params_ok s -> chunk_ok s c fl (us1 ++ (a, n) :: us2) -> 0 < n -> 0 <= c ->
  memory_overhead s = u32 (memory_overhead s) ->
  in_use s c (take_while (fun x => x.1 <? a) fl) (drop_while (fun x => x.1 <? a) fl) us1 a n us2.
Proof.
  intros [Hg _] Hok Hn Hc Ho. split; try done; [by rewrite take_drop_while| | |lia].
  - apply Forall_forall. intros x Hx%take_while_all. by apply Z.ltb_lt.
  - (* what follows the first block not before [a] comes later *)
    pose proof Hok as [[_ _ _ Hb _ _] (S & _ & Hx)]. rewrite <- (take_drop_while (fun x => x.1 <? a) fl) in Hb, S, Hx.
    destruct (drop_while _ fl) as [|y l] eqn:E; [done|]. pose proof (drop_while_head _ _ _ _ E) as Hy.
    cbn beta in Hy. apply Z.ltb_ge in Hy.
    rewrite !Forall_app, !Forall_cons in Hb. destruct Hb as ((_ & (_ & _ & _ & _ & Hy0 & _) & Hl) & _ & (_ & _ & _ & _ & Ha0 & _) & _).
    rewrite Forall_app, Forall_cons, Forall_app, Forall_cons in Hx. destruct Hx as (_ & (_ & Hya & _) & _).
    assert (Hya' : a < y.1) by blk_lia.
    apply free_sorted_middle in S as (_ & _ & H2).
    + constructor; [done|]. apply (Forall_impl _ _ _ H2). intros z. blk_lia.
    + constructor; [done|]. apply (Forall_impl _ _ _ Hl). by intros z (_ & _ & _ & _ & ? & _).
Qed.
End ReleaseChunk.

Section ReleaseSpec.
Implicit Types (s : MEM) (c n a : Z) (b x : Z * Z) (fl us : list (Z * Z)).

Lemma chunk_ok_ext s s' c fl us :
  chk_addr s' = chk_addr s -> chk_limit s' = chk_limit s -> granularity s' = granularity s ->
  next_free s' = next_free s -> free_list s' = free_list s -> free_size s' = free_size s ->
  blk_chk_addr s' = blk_chk_addr s -> chunk_ok s c fl us -> chunk_ok s' c fl us.
Proof.
  intros E1 E2 E3 E4 E5 E6 E7 [[A1 A2 A3 A4 A5 A6] A7]. split; [split|done];
    rewrite ?E1, ?E2, ?E3, ?E4, ?E5; try done.
  apply (blocks_kept s); [done|done|]. intros b _. by rewrite E6, E7.
Qed.

Lemma join_prev_length fl b :
  (length (join_prev fl b).1 <= length fl)%nat.
Proof.
  destruct (join_prev_cases fl b) as [[-> _]|(fl' & x & -> & _ & ->)]; simpl; [done|].
  rewrite length_app. lia.
Qed.

Lemma join_next_length b fl : (length (join_next b fl) <= S (length fl))%nat.
Proof. destruct fl as [|x fl]; simpl; [done|]. destruct (_ =? _); simpl; lia. Qed.

Lemma u32_sub_sub (x y z : Z) : u32 (u32 (x - y) - z) = u32 (x - (y + z)).
Proof. unfold u32. rewrite Zminus_mod_idemp_l. f_equal. lia. Qed.

Lemma u32_idem (x : Z) : u32 (u32 x) = u32 x.
Proof. apply Z.mod_mod. lia. Qed.

(** The block goes back to its place in the free list, joined with the free
    blocks it touches. *)
Lemma free_block_spec s c fl us1 a n us2 :
  params_ok s -> chunk_ok s c fl (us1 ++ (a, n) :: us2) -> 0 < n -> 0 <= c ->
  memory_overhead s = u32 (memory_overhead s) ->
  exists s', free_block c a s = Done tt s' /\ released c fl (us1 ++ us2) a n s s'.
Proof.
  intros Hpar Hok Hn Hc Ho. pose proof (in_use_split _ _ _ _ _ _ _ Hpar Hok Hn Hc Ho) as Hiu.
  pose proof (blocks_fuel_enough _ _ _ _ Hpar Hok) as Hfuel.
  pose proof (in_use_around _ _ _ _ _ _ _ _ Hiu) as ((Hsz & _) & _).
  rewrite <- (take_drop_while (fun x => x.1 <? a) fl) in Hok, Hfuel.
  set (fl1 := take_while _ fl) in *. set (fl2 := drop_while _ fl) in *.
  assert (Hlen : length fl = (length fl1 + length fl2)%nat)
    by (by rewrite <- length_app, <- (take_drop_while (fun x => x.1 <? a) fl)).
  unfold free_block. run_m. rewrite length_app in Hfuel. cbn [fst snd] in Hsz.
  rewrite (free_walk_spec _ s a 0 _ fl1 fl2); [|by destruct Hok as [[]]|lia|by destruct Hiu|by destruct Hiu].
  run_m. change (default 0 (last fl1.*1)) with (lastz fl1.*1). rewrite Hsz.
  set (s0 := s <| memory_leak := _ |>).
  assert (Hiu0 : in_use s0 c fl1 fl2 us1 a n us2).
  { destruct Hiu as [Hk ? ? ? ? ? ?]. split; try done; unfold s0; state_simpl; try done.
    by apply (chunk_ok_ext s). }
  assert (Hl : exists s1, link_free c (lastz fl1.*1) a s0 = Done (join_prev fl1 (a, n)).2.1 s1 /\
                 linked c fl1 fl2 (us1 ++ us2) s0 s1 (join_prev fl1 (a, n))).
  { destruct (join_prev_cases fl1 (a, n)) as [[-> Hna]|(fl1' & x & E & He & ->)].
    - by apply (link_free_insert _ _ _ _ _ n us2).
    - rewrite E in *. replace (lastz (fl1' ++ [x]).*1) with x.1
        by (unfold lastz; by rewrite fmap_last, last_snoc).
      cbn [fst snd] in *. by apply (link_free_join _ _ _ _ us1 a n us2). }
  destruct Hl as (s1 & -> & [Hh1 Hf1 Hk1 Ho1]). cbn [bind_out].
  assert (Hpl : let '(fl1', b') := join_prev fl1 (a, n) in placed fl1' b' fl2 (us1 ++ us2)).
  { destruct (chunk_hdrs_sizes _ _ _ _ Hok) as [Hp1 Hp2]. destruct Hok as [_ Hap], Hiu.
    rewrite Forall_app, Forall_cons in Hp2.
    apply join_prev_placed; [done|done|lia|rewrite Forall_app; tauto|done|done]. }
  pose proof (join_prev_length fl1 (a, n)) as Hj1.
  assert (Er : release fl (a, n) = (join_prev fl1 (a, n)).1 ++ join_next (join_prev fl1 (a, n)).2 fl2)
    by (unfold release; fold fl1 fl2; by destruct (join_prev _ _)).
  destruct (join_prev fl1 (a, n)) as [fl1' b']. cbn [fst snd] in *.
  pose proof (cf_gran _ _ _ Hf1) as Hg1. unfold s0 in Hg1, Hk1, Ho1. state_simpl_in Hg1.
  state_simpl_in Hk1. state_simpl_in Ho1. destruct Hpar as [Hg _].
  destruct (merge_next_spec c fl1' b' fl2 (us1 ++ us2) s1) as (s2 & -> & [Hok2 Hf2 Hk2 Ho2]);
    [done|done|done|lia|by rewrite Ho1, u32_idem|].
  exists s2. split; [done|]. split; rewrite ?Er; [done| |congruence|].
  - apply (chunk_frame_trans _ _ s1); [|done].
    destruct Hf1 as [? ? ? ? ? ? ? Hout]. by split.
  - pose proof (join_next_length b' fl2). rewrite Ho2, Ho1, u32_sub_sub, length_app, Hlen. f_equal.
    unfold sizeof_blkhdr. lia.
Qed.
End ReleaseSpec.

(** * The memory manager *)

(** A chunk with its free blocks and its blocks in use. *)
Record chunkv : Type := Chunk { cv_adr : Z; cv_free : list (Z * Z); cv_used : list (Z * Z) }.

Definition sum_sizes (us : list (Z * Z)) : Z := foldr (fun b n => b.2 + n) 0 us.

Definition used_bytes (cs : list chunkv) : Z := foldr (fun v n => sum_sizes (cv_used v) + n) 0 cs.

(** A chunk has its own header and one for each block. *)
Definition headers (cs : list chunkv) : Z :=
  foldr (fun v n => 1 + Z.of_nat (length (cv_free v) + length (cv_used v)) + n) 0 cs.

(** The state of the memory manager: the chunks [cs] do not overlap, and
    [memory_leak] and [memory_overhead] count the bytes in use and those of
    the headers. *)
Record heap_ok (s : MEM) (cs : list chunkv) : Prop := {
  ho_params : params_ok s;
  ho_chain : chain (next_chk s) (chk_list s) (cv_adr <$> cs);
  ho_chunks : Forall (fun v => 0 < cv_adr v /\ chunk_ok s (cv_adr v) (cv_free v) (cv_used v)) cs;
  ho_apart : ForallOrdPairs (fun v v' => cv_adr v + granularity s <= cv_adr v' \/
                                         cv_adr v' + granularity s <= cv_adr v) cs;
  ho_total : total_available s = granularity s * Z.of_nat (length cs);
  ho_range : total_available s < 4294967296;
  ho_leak : memory_leak s = u32 (used_bytes cs);
  ho_over : memory_overhead s = u32 (sizeof_blkhdr * headers cs)
}.

Section Heap.
Implicit Types (s : MEM) (c n a m : Z) (b : Z * Z) (fl us : list (Z * Z)) (v : chunkv) (cs : list chunkv).

Lemma used_bytes_app cs1 cs2 : used_bytes (cs1 ++ cs2) = used_bytes cs1 + used_bytes cs2.
Proof. unfold used_bytes. induction cs1 as [|v cs1 IH]; simpl; lia. Qed.

Lemma headers_app cs1 cs2 : headers (cs1 ++ cs2) = headers cs1 + headers cs2.
Proof. unfold headers. induction cs1 as [|v cs1 IH]; cbn [app foldr]; lia. Qed.

Lemma u32_add_mod x y : u32 (u32 x + y) = u32 (x + y).
Proof. unfold u32. apply Zplus_mod_idemp_l. Qed.

(** Chunks in a list are apart from one of them. *)
Lemma chunks_around s cs1 v cs2 x :
  ForallOrdPairs (fun v v' => cv_adr v + granularity s <= cv_adr v' \/
                              cv_adr v' + granularity s <= cv_adr v) (cs1 ++ v :: cs2) ->
  x ∈ cs1 ++ cs2 -> cv_adr x + granularity s <= cv_adr v \/ cv_adr v + granularity s <= cv_adr x.
Proof.
  induction cs1 as [|y cs1 IH]; cbn [app]; intros H Hx; inversion_clear H as [|? ? Hf H'].
  - rewrite Forall_forall in Hf. destruct (Hf x Hx); lia.
  - apply elem_of_cons in Hx as [->|Hx]; [|by apply IH].
    rewrite Forall_app, Forall_cons in Hf. tauto.
Qed.

Lemma pairs_replace {A} (R R' : A -> A -> Prop) l1 x x' l2 :
  (forall y z, R y z -> R' y z) -> (forall y, R x y -> R' x' y) -> (forall y, R y x -> R' y x') ->
  ForallOrdPairs R (l1 ++ x :: l2) -> ForallOrdPairs R' (l1 ++ x' :: l2).
Proof.
  intros H H1 H2. induction l1 as [|y l1 IH]; cbn [app]; intros S; inversion_clear S as [|? ? Hf S'].
  - constructor; [by apply (Forall_impl _ _ _ Hf)|]. clear - H S'.
    induction S' as [|? ? Hf S' IH]; constructor; [|done]. apply (Forall_impl _ _ _ Hf). auto.
  - constructor; [|by apply IH]. rewrite Forall_app, Forall_cons in *. destruct Hf as (Hf1 & Hx & Hf2).
    split_and!; [apply (Forall_impl _ _ _ Hf1); auto|auto|apply (Forall_impl _ _ _ Hf2); auto].
Qed.

(** A step inside one chunk. *)
Lemma heap_step s s' cs1 v cs2 fl us :
  heap_ok s (cs1 ++ v :: cs2) -> chunk_frame (cv_adr v) s s' -> chunk_ok s' (cv_adr v) fl us ->
  memory_leak s' = u32 (memory_leak s + (sum_sizes us - sum_sizes (cv_used v))) ->
  memory_overhead s' = u32 (memory_overhead s +
    sizeof_blkhdr * (Z.of_nat (length fl + length us) - Z.of_nat (length (cv_free v) + length (cv_used v)))) ->
  heap_ok s' (cs1 ++ Chunk (cv_adr v) fl us :: cs2).
Proof.
  intros [Hp Hc Hch Hap Ht Hrg Hl Ho] Hf Hok El Eo. pose proof Hf as [E1 E2 E3 E4 E5 E6 E7 _].
  destruct Hp as [Hg Hm].
  rewrite Forall_app, Forall_cons in Hch. destruct Hch as (C1 & (Hv & Cv) & C2).
  assert (Hoth : forall x, x ∈ cs1 ++ cs2 -> chunk_ok s (cv_adr x) (cv_free x) (cv_used x) ->
                           chunk_ok s' (cv_adr x) (cv_free x) (cv_used x)).
  { intros x Hx. apply (chunk_ok_frame (cv_adr v)); [done|lia|]. by apply (chunks_around _ cs1 v cs2). }
  split.
  - unfold params_ok. by rewrite E4.
  - rewrite E3, E5. rewrite fmap_app, fmap_cons in *. exact Hc.
  - rewrite Forall_app, Forall_cons. rewrite !Forall_forall in *. split_and!.
    + intros x Hx. destruct (C1 x Hx). split; [done|]. apply Hoth; [set_solver|done].
    + done.
    + done.
    + intros x Hx. destruct (C2 x Hx). split; [done|]. apply Hoth; [set_solver|done].
  - rewrite E4. eapply pairs_replace; [..|exact Hap]; [by intros y z H|by intros y H|by intros y H].
  - rewrite E4, E6, Ht, !length_app. done.
  - by rewrite E6.
  - rewrite El, Hl, u32_add_mod, !used_bytes_app. f_equal. unfold used_bytes. simpl. lia.
  - rewrite Eo, Ho, u32_add_mod, !headers_app. f_equal. unfold headers. cbn [foldr cv_free cv_used]. lia.
Qed.

(** Requests change neither the chunks nor the counts. *)
Lemma heap_ok_ext s s' cs :
  chk_addr s' = chk_addr s -> chk_limit s' = chk_limit s -> granularity s' = granularity s ->
  next_free s' = next_free s -> free_list s' = free_list s -> free_size s' = free_size s ->
  blk_chk_addr s' = blk_chk_addr s -> next_chk s' = next_chk s -> chk_list s' = chk_list s ->
  total_available s' = total_available s -> memory_leak s' = memory_leak s ->
  memory_overhead s' = memory_overhead s -> heap_ok s cs -> heap_ok s' cs.
Proof.
  intros E1 E2 E3 E4 E5 E6 E7 E8 E9 E10 E11 E12 [Hp Hc Hch Hap Ht Hrg Hl Ho].
  split; unfold params_ok; rewrite ?E3, ?E8, ?E9, ?E10, ?E11, ?E12; try done.
  apply (Forall_impl _ _ _ Hch). intros v [? ?]. split; [done|]. by apply (chunk_ok_ext s).
Qed.

Lemma chunks_fuel_enough s cs : heap_ok s cs -> chunks_fuel s = length cs.
Proof.
  intros [[Hg _] _ _ _ Ht _ _ _]. unfold chunks_fuel. rewrite Ht, Z.mul_comm.
  rewrite Z.div_mul by (unfold OVERHEAD, sizeof_chkhdr, sizeof_blkhdr in Hg; lia). lia.
Qed.
End Heap.

(** * Allocation and release, by chunks

    First fit: the first block that is large enough, in the first chunk that
    has one. *)
Fixpoint fit (n : Z) (fl : list (Z * Z)) : option (Z * list (Z * Z)) :=
  match fl with
  | [] => None
  | b :: fl' =>
      if n <=? b.2 then Some (b.1, rest b.1 b.2 n ++ fl')
      else '(a, fl'') ← fit n fl'; Some (a, b :: fl'')
  end.

Fixpoint first_fit (n : Z) (cs : list chunkv) : Z * list chunkv :=
  match cs with
  | [] => (0, [])
  | v :: cs' =>
      match fit n (cv_free v) with
      | Some (a, fl) => (data a, Chunk (cv_adr v) fl ((a, n) :: cv_used v) :: cs')
      | None => let '(r, cs'') := first_fit n cs' in (r, v :: cs'')
      end
  end.

Section Malloc.
Implicit Types (s : MEM) (c n a m : Z) (b : Z * Z) (fl us : list (Z * Z)) (v : chunkv) (cs : list chunkv).

Lemma fit_none n fl : Forall (fun b => b.2 < n) fl -> fit n fl = None.
Proof. induction 1 as [|b fl Hb _ IH]; simpl; [done|]. by rewrite (proj2 (Z.leb_gt _ _)), IH by done. Qed.

Lemma fit_some n fl1 b fl2 :
  Forall (fun b => b.2 < n) fl1 -> n <= b.2 ->
  fit n (fl1 ++ b :: fl2) = Some (b.1, fl1 ++ rest b.1 b.2 n ++ fl2).
Proof.
  intros H Hn. induction H as [|x fl1 Hx _ IH]; simpl; [by rewrite (proj2 (Z.leb_le _ _))|].
  by rewrite (proj2 (Z.leb_gt _ _)), IH by done.
Qed.

Lemma alloc_in_chk_spec n s v :
  params_ok s -> 0 < cv_adr v -> chunk_ok s (cv_adr v) (cv_free v) (cv_used v) -> 0 <= n ->
  memory_overhead s = u32 (memory_overhead s) ->
  (fit n (cv_free v) = None /\ alloc_in_chk n (cv_adr v) s = Done 0 s) \/
  exists fl1 a m fl2 s', cv_free v = fl1 ++ (a, m) :: fl2 /\ n <= m /\
    fit n (cv_free v) = Some (a, fl1 ++ rest a m n ++ fl2) /\
    alloc_in_chk n (cv_adr v) s = Done (data a) s' /\
    allocated n (cv_adr v) (lastz fl1.*1) a s s'.
Proof.
  intros Hp Hv Hok Hn Ho. pose proof (blocks_fuel_enough _ _ _ _ Hp Hok) as Hf.
  pose proof Hok as [[_ _ A3 A4 _ _] _]. apply Forall_app in A4 as [A4 _].
  destruct (alloc_loop_spec (blocks_fuel s) n (cv_adr v) 0 (free_list s (cv_adr v)) s (cv_free v) A3)
    as [[Hall E]|(fl1 & [a m] & fl2 & Efl & Hall & Hm & E)]; [by apply (Forall_impl _ _ _ A4); intros b []|done|left|right].
  - split; [by apply fit_none|]. unfold alloc_in_chk. run_m. exact E.
  - cbn [fst snd] in *. rewrite Efl in A4. rewrite Forall_app, Forall_cons in A4.
    destruct A4 as (_ & (Hsz & _ & Hlo & Hhi & _) & _). cbn [fst snd] in *. destruct Hp as [Hg _].
    destruct (alloc_block_eq n (cv_adr v) (lastz fl1.*1) a s) as (s' & E' & Hal);
      [lia|rewrite Hsz; blk_lia|done|].
    exists fl1, a, m, fl2, s'. split_and!; [done|done| | |done].
    + rewrite Efl. by apply fit_some.
    + unfold alloc_in_chk. run_m. rewrite E. exact E'.
Qed.

(** The walk over the chunks; it does not change those it passes. *)
Lemma malloc_chunks_spec n cs1 cs s :
  heap_ok s (cs1 ++ cs) -> 0 <= n -> n mod MINSIZE = 0 -> forall p fuel,
  chain (next_chk s) p (cv_adr <$> cs) -> (length cs <= fuel)%nat ->
  exists s', malloc_chunks fuel n p s = Done (first_fit n cs).1 s' /\
    heap_ok s' (cs1 ++ (first_fit n cs).2).
Proof.
  revert cs1. induction cs as [|v cs IH]; intros cs1 Hh Hn Hmod p fuel Hc Hf.
  - simpl in Hc. subst p. exists s. split; [|done]. by destruct fuel.
  - destruct fuel as [|fuel]; [simpl in Hf; lia|]. rewrite fmap_cons in Hc. destruct Hc as (-> & Hv0 & Hc).
    pose proof (ho_params _ _ Hh) as Hp. pose proof (ho_chunks _ _ Hh) as Hch.
    rewrite Forall_app, Forall_cons in Hch. destruct Hch as (_ & (Hv & Cv) & _).
    assert (Ho : memory_overhead s = u32 (memory_overhead s)) by (rewrite (ho_over _ _ Hh); by rewrite u32_idem).
    assert (Hrec : exists s', malloc_chunks fuel n (next_chk s (cv_adr v)) s = Done (first_fit n cs).1 s' /\
                     heap_ok s' ((cs1 ++ [v]) ++ (first_fit n cs).2)).
    { apply IH; [by rewrite <- app_assoc|done..|simpl in Hf; lia]. }
    rewrite <- app_assoc in Hrec. cbn [app] in Hrec.
    cbn [malloc_chunks]. run_m. rewrite (proj2 (nz_true (cv_adr v))) by done. run_m.
    destruct (alloc_in_chk_spec n s v Hp Hv Cv Hn Ho)
      as [[En Ea]|(fl1 & a & m & fl2 & s' & Efl & Hm & Es & Ea & Hal)].
    + cbn [first_fit]. rewrite En. destruct (first_fit n cs) as [r cs'].
      destruct (nz (free_list s (cv_adr v))); run_m; [|done]. rewrite Ea. run_m. done.
    + cbn [first_fit]. rewrite Es. cbn [fst snd]. rewrite Efl in Cv.
      destruct (chunk_around _ _ _ _ _ _ _ Cv) as ((Hsz & _ & Hlo & _) & _). cbn [fst snd] in *.
      assert (Hnz : nz (free_list s (cv_adr v)) = true).
      { apply nz_true. pose proof (ck_chain _ _ _ _ Cv) as A3. destruct (fl1); simpl in A3; destruct A3 as (-> & ? & _); done. }
      rewrite Hnz, Ea. cbn [bind_out]. rewrite (proj2 (nz_true (data a))) by blk_lia.
      exists s'. split; [done|]. destruct Hp as [Hg _].
      apply (heap_step s s' cs1 v cs); [done| | | |].
      * apply (allocated_frame n _ a m fl1 fl2 (cv_used v)); [done|lia|lia|done].
      * apply (allocated_ok n _ a m fl1 fl2 _ s); [done|lia|done|lia|done].
      * rewrite (al_leak _ _ _ _ _ _ Hal). f_equal. simpl. lia.
      * rewrite (al_over _ _ _ _ _ _ Hal), Hsz, Efl, !length_app. f_equal. simpl. lia.
Qed.

Lemma round_size_spec n : 0 <= n -> n + 15 < 4294967296 ->
  n <= round_size n < n + 16 /\ round_size n mod MINSIZE = 0.
Proof.
  intros H0 H1. unfold round_size, u32, MINSIZE. rewrite Z.mod_small by lia.
  change (Z.lnot (16 - 1)) with (Z.lnot (Z.ones 4)). rewrite <- Z.ldiff_land, Z.ldiff_ones_r by lia.
  rewrite Z.shiftr_div_pow2, Z.shiftl_mul_pow2 by lia. change (2 ^ 4) with 16. Z.div_mod_to_equations. lia.
Qed.
End Malloc.


Lemma rt_malloc_fits (s : MEM) (cs : list chunkv) (n : Z) :
  heap_ok s cs -> 0 <= n -> n + 15 < 4294967296 ->
  let '(r, cs') := if round_size n >? granularity s - OVERHEAD then (0, cs)
                   else first_fit (round_size n) cs in
  exists s', rt_malloc n s = Done r s' /\ heap_ok s' cs'.
Proof.
  intros Hh Hn0 Hn. destruct (round_size_spec n Hn0 Hn) as [Hr Hmod].
  pose proof (ho_params _ _ Hh) as [Hg _].
  assert (Eg : u32 (granularity s - OVERHEAD) = granularity s - OVERHEAD) by (unfold u32; rewrite Z.mod_small; blk_lia).
  unfold rt_malloc. run_m. rewrite Eg. destruct (round_size n >? granularity s - OVERHEAD); [by exists s|].
  destruct (malloc_chunks_spec (round_size n) [] cs s Hh) with (p := chk_list s) (fuel := chunks_fuel s)
    as (s1 & E & Hh1); [lia|done|by apply ho_chain|by rewrite (chunks_fuel_enough _ _ Hh)|].
  cbn [app] in *. destruct (first_fit (round_size n) cs) as [r cs']. cbn [fst snd] in *. rewrite E. cbn [bind_out].
  unfold request_chunk, log_mem. run_m. destruct (_ && _); run_m; eexists; (split; [reflexivity|]); [|done].
  apply (heap_ok_ext s1); by state_simpl.
Qed.

Section Free.
Implicit Types (s : MEM) (c n a m : Z) (b : Z * Z) (fl us : list (Z * Z)) (v : chunkv) (cs : list chunkv).

Lemma blk_ok_valid s c fl us a n :
  params_ok s -> chunk_ok s c fl us -> (a, n) ∈ us -> valid_block s a = negb (n =? 0).
Proof.
  intros [Hg _] [[A1 _ _ A4 _ A6] _] Hin. rewrite Forall_forall in A4, A6.
  destruct (A4 (a, n)) as (Hsz & Hc & Hlo & Hhi & Hn & Hm); [set_solver|].
  specialize (A6 (a, n) Hin). cbn [fst snd] in *. unfold valid_block. rewrite Hc, A1, A6, Hsz, Hm, !Z.eqb_refl.
  cbn [andb]. rewrite Z.gtb_ltb, (proj2 (Z.ltb_ge _ _)); [by destruct (n =? 0)|].
  unfold u32. rewrite Z.mod_small; blk_lia.
Qed.

(** A valid call is [free_block] and the request at the end. *)
Lemma rt_free_eq s c a s1 :
  valid_block s a = true -> blk_chk_addr s a = c -> free_block c a s = Done tt s1 ->
  rt_free (data a) s = release_chunk s1.
Proof.
  intros Hv Hc. unfold rt_free, free_block, data. run_m.
  replace (a + sizeof_blkhdr - sizeof_blkhdr) with a by lia. rewrite Hv, Hc.
  destruct (free_walk _ _ _ _ _) as [[prev cur]|]; run_m; [|done].
  destruct (link_free c prev a _) as [blk s2|s2 k|]; cbn [bind_out]; [|done|done]. by intros ->.
Qed.

Lemma rt_free_releases s cs1 c fl us1 a n us2 cs2 :
  heap_ok s (cs1 ++ Chunk c fl (us1 ++ (a, n) :: us2) :: cs2) -> 0 < n ->
  exists s', rt_free (data a) s = Done tt s' /\
    heap_ok s' (cs1 ++ Chunk c (release fl (a, n)) (us1 ++ us2) :: cs2).
Proof.
  intros Hh Hn. pose proof (ho_params _ _ Hh) as Hp. pose proof (ho_chunks _ _ Hh) as Hch.
  rewrite Forall_app, Forall_cons in Hch. destruct Hch as (_ & (Hc & Cv) & _). cbn [cv_adr cv_free cv_used] in *.
  assert (Ho : memory_overhead s = u32 (memory_overhead s)) by (rewrite (ho_over _ _ Hh); by rewrite u32_idem).
  destruct (free_block_spec s c fl us1 a n us2 Hp Cv Hn) as (s1 & E & [Hok1 Hf1 Hl1 Ho1]); [lia|done|].
  rewrite (rt_free_eq s c a s1); [| | |done].
  2:{ rewrite (blk_ok_valid s c _ _ a n Hp Cv) by set_solver. rewrite (proj2 (Z.eqb_neq n 0)) by lia. done. }
  2:{ pose proof (ck_blocks _ _ _ _ Cv) as A4. rewrite Forall_forall in A4.
      destruct (A4 (a, n)) as (_ & ? & _); [set_solver|done]. }
  assert (Hh1 : heap_ok s1 (cs1 ++ Chunk c (release fl (a, n)) (us1 ++ us2) :: cs2)).
  { apply (heap_step s s1 cs1 (Chunk c fl (us1 ++ (a, n) :: us2)) cs2); [done..| |]; cbn [cv_free cv_used].
    - rewrite Hl1. f_equal.
      assert (Happ : forall l1 l2, sum_sizes (l1 ++ l2) = sum_sizes l1 + sum_sizes l2)
        by (intros l1 l2; unfold sum_sizes; induction l1; simpl; lia).
      rewrite !Happ. simpl. lia.
    - rewrite Ho1. f_equal. rewrite !length_app. cbn [length].
      assert (length (release fl (a, n)) <= S (length fl))%nat; [|unfold sizeof_blkhdr; lia].
      unfold release. destruct (join_prev _ _) as [fl1 b'] eqn:Ej.
      rewrite <- (take_drop_while (fun x => x.1 <? (a, n).1) fl) at 2. rewrite !length_app.
      pose proof (join_prev_length (take_while (fun x => x.1 <? (a, n).1) fl) (a, n)) as Hj. rewrite Ej in Hj.
      pose proof (join_next_length b' (drop_while (fun x => x.1 <? (a, n).1) fl)). cbn [fst] in *. lia. }
  unfold release_chunk, log_mem. run_m. destruct (_ && _); run_m; eexists; (split; [reflexivity|]); [|done].
  apply (heap_ok_ext s1); by state_simpl.
Qed.

(** What is released right after it was allocated. *)
Lemma release_rest fl1 a m fl2 n :
  free_sorted (fl1 ++ (a, m) :: fl2) -> Forall (fun b => 0 <= b.2) (fl1 ++ fl2) -> 0 <= n <= m ->
  m mod MINSIZE = 0 -> n mod MINSIZE = 0 ->
  release (fl1 ++ rest a m n ++ fl2) (a, n) =
    fl1 ++ (a, if m - n =? MINSIZE then n else m) :: fl2.
Proof.
  intros S Hp Hn Hm Hnm. rewrite Forall_app in Hp. destruct Hp as [Hp1 Hp2].
  apply free_sorted_middle in S as (_ & H1 & H2); [|constructor; [simpl; lia|done]].
  assert (Htw : take_while (fun x => x.1 <? a) (fl1 ++ rest a m n ++ fl2) = fl1 /\
                drop_while (fun x => x.1 <? a) (fl1 ++ rest a m n ++ fl2) = rest a m n ++ fl2).
  { clear - H1 H2 Hp1 Hn. induction fl1 as [|x fl1 IH]; cbn [app take_while drop_while].
    - assert (Hd : forall x l, rest a m n ++ fl2 = x :: l -> (x.1 <? a) = false).
      { intros x l E. apply Z.ltb_ge. unfold rest in E. destruct (_ >=? _).
        - injection E as <- _. blk_lia.
        - cbn [app] in E. subst fl2. inversion_clear H2. blk_lia. }
      destruct (rest a m n ++ fl2) as [|x l]; [done|]. cbn [take_while drop_while]. by rewrite (Hd x l).
    - inversion_clear H1 as [|? ? Hx H1']. inversion_clear Hp1. rewrite (proj2 (Z.ltb_lt _ _)) by blk_lia.
      destruct IH as [-> ->]; [done|done|]. done. }
  unfold release. cbn [fst]. destruct Htw as [-> ->].
  destruct (join_prev_cases fl1 (a, n)) as [[-> _]|(fl & x & -> & He & _)].
  2:{ rewrite Forall_app, Forall_singleton in H1. cbn [fst] in *. lia. }
  f_equal. unfold rest. destruct (_ >=? _) eqn:E.
  - cbn [app join_next fst]. rewrite (proj2 (Z.eqb_eq _ _)) by blk_lia.
    rewrite (proj2 (Z.eqb_neq _ _)) by blk_lia. cbn [snd]. do 2 f_equal. lia.
  - assert (Hmn : m - n = 0 \/ m - n = MINSIZE) by (unfold MINSIZE, sizeof_blkhdr in *; Z.div_mod_to_equations; lia).
    assert (Hsz : n = if m - n =? MINSIZE then n else m).
    { destruct (Z.eqb_spec (m - n) MINSIZE); lia. }
    rewrite <- Hsz. cbn [app]. destruct fl2 as [|x fl2]; [done|]. inversion_clear H2. cbn [join_next].
    by rewrite (proj2 (Z.eqb_neq _ _)) by blk_lia.
Qed.
End Free.

(** * Chunks *)

Ltac blk_nia := unfold OVERHEAD, sizeof_blkhdr, sizeof_chkhdr in *; nia.

Section Chunks.
Implicit Types (s : MEM) (c n a m : Z) (b : Z * Z) (fl us : list (Z * Z)) (v : chunkv) (cs : list chunkv).

(** A new chunk of [g] bytes is one free block. *)
Definition new_chunk g c : chunkv := Chunk c [(c + sizeof_chkhdr, g - OVERHEAD)] [].

Definition clear_of g c cs : Prop :=
  Forall (fun v => cv_adr v + g <= c \/ c + g <= cv_adr v) cs.

Lemma last_chunk_spec fuel s p cs v :
  chain (next_chk s) p (cv_adr <$> cs ++ [v]) -> (length cs <= fuel)%nat ->
  last_chunk fuel s p = Some (cv_adr v).
Proof.
  revert p fuel. induction cs as [|x cs IH]; intros p fuel Hc Hf.
  - destruct Hc as (-> & _ & Hn). cbn in Hn. destruct fuel; simpl; by rewrite Hn.
  - destruct fuel as [|fuel]; [simpl in Hf; lia|]. destruct Hc as (-> & _ & Hc).
    cbn [last_chunk]. rewrite (proj2 (nz_true _)).
    + apply IH; [done|simpl in Hf; lia].
    + destruct cs; destruct Hc as (-> & ? & _); done.
Qed.

(** The headers of a new chunk, and the chunks it is clear of. *)
Record chunk_added c s s' : Prop := {
  ca_new : 0 < c -> params_ok s -> chunk_ok s' c [(c + sizeof_chkhdr, granularity s - OVERHEAD)] [];
  ca_old : forall v, cv_adr v + granularity s <= c \/ c + granularity s <= cv_adr v ->
    OVERHEAD < granularity s -> chunk_ok s (cv_adr v) (cv_free v) (cv_used v) ->
    chunk_ok s' (cv_adr v) (cv_free v) (cv_used v);
  ca_next : next_chk s' = <[c := 0]> (next_chk s);
  ca_same : granularity s' = granularity s /\ chk_list s' = chk_list s /\
    total_available s' = total_available s /\ memory_leak s' = memory_leak s /\
    memory_overhead s' = memory_overhead s /\ extra_chks s' = extra_chks s
}.

Lemma init_chunk_spec c s : exists s', init_chunk c s = Done tt s' /\ chunk_added c s s'.
Proof.
  unfold init_chunk. run_m. eexists. split; [reflexivity|]. split; state_simpl; try done.
  - intros Hc [Hg Hm]. assert (E : u32 (granularity s - OVERHEAD) = granularity s - OVERHEAD)
      by (unfold u32; rewrite Z.mod_small; blk_lia).
    split; [split|]; state_simpl; rewrite ?upd_eq; try done.
    + split_and!; [done|blk_lia|]. cbn [fmap list_fmap chain]. by rewrite upd_eq.
    + constructor; [|done]. unfold blk_ok. state_simpl. cbn [fst snd]. rewrite !upd_eq, E.
      split_and!; [done|done|lia|blk_lia|blk_lia|].
      unfold OVERHEAD, sizeof_chkhdr, sizeof_blkhdr, MINSIZE in *. Z.div_mod_to_equations. lia.
    + constructor; [blk_lia|done].
    + split_and!; [repeat constructor|constructor|repeat constructor].
  - intros v Hv Hg. apply chunk_ok_local; [by state_simpl|done|]. intros x Hx. state_simpl.
    rewrite !upd_ne by blk_lia. by split_and!.
Qed.

Lemma chain_snoc nf nf' p a (l : list Z) :
  chain nf p l -> NoDup l -> a <> 0 -> a ∉ l -> nf' a = 0 -> (l <> [] -> nf' (lastz l) = a) ->
  (forall x, x ∈ l -> x <> lastz l -> nf' x = nf x) ->
  chain nf' (match l with [] => a | _ => p end) (l ++ [a]).
Proof.
  intros Hc Hnd Ha0 Ha H0 Hl Hext. apply (chain_relink nf _ p _ a _ []); [by rewrite app_nil_r|done|..].
  - by intros ->.
  - intros Hne. split; [by destruct l|by apply Hl].
  - done.
  - by split_and!.
Qed.

Lemma heap_NoDup s cs : heap_ok s cs -> NoDup (cv_adr <$> cs).
Proof.
  intros [[Hg _] _ _ Hap _ _ _ _]. induction Hap as [|v cs Hv Hap IH]; [constructor|].
  rewrite fmap_cons. apply NoDup_cons. split; [|done]. intros (x & E & Hx)%list_elem_of_fmap.
  rewrite Forall_forall in Hv. specialize (Hv x Hx). blk_lia.
Qed.

(** The list of chunks after [c] is appended to it. *)
Lemma append_chunk_spec c s cs :
  chain (next_chk s) (chk_list s) (cv_adr <$> cs) -> NoDup (cv_adr <$> cs) ->
  c <> 0 -> c ∉ cv_adr <$> cs -> next_chk s c = 0 -> (length cs <= chunks_fuel s)%nat ->
  exists s', append_chunk c s = Done tt s' /\
    chain (next_chk s') (chk_list s') ((cv_adr <$> cs) ++ [c]) /\
    s' = s <| next_chk := next_chk s' |> <| chk_list := chk_list s' |>.
Proof.
  intros Hc Hnd Hc0 Hn H0 Hf. unfold append_chunk. run_m. rewrite (chain_head _ _ _ Hc).
  destruct cs as [|v cs _] using rev_ind.
  - run_m. cbn [fmap list_fmap hd negb]. change (nz 0) with false. run_m. eexists. split; [reflexivity|].
    state_simpl. split; [by split_and!|by destruct s].
  - rewrite length_app in Hf. simpl in Hf.
    assert (Hh : hd 0 (cv_adr <$> cs ++ [v]) <> 0).
    { pose proof (chain_nonzero _ _ _ Hc) as Hz. destruct cs; by inversion_clear Hz. }
    rewrite (proj2 (nz_true _)) by done. run_m. rewrite <- (chain_head _ _ _ Hc).
    rewrite (last_chunk_spec _ s (chk_list s) cs v Hc) by lia. run_m. eexists. split; [reflexivity|].
    state_simpl. split; [|by destruct s].
    assert (El : lastz (cv_adr <$> cs ++ [v]) = cv_adr v) by (unfold lastz; by rewrite fmap_last, last_snoc).
    assert (Hcv : c <> cv_adr v) by (intros ->; apply Hn; rewrite fmap_app; set_solver).
    pose proof (chain_snoc (next_chk s) (<[cv_adr v := c]> (next_chk s)) (chk_list s) c _ Hc Hnd Hc0 Hn) as H.
    rewrite El in H. replace (match cv_adr <$> cs ++ [v] with [] => c | _ => chk_list s end) with (chk_list s) in H
      by (by destruct cs). apply H.
    + by rewrite upd_ne.
    + intros _. by rewrite upd_eq.
    + intros x _ Hx. by rewrite upd_ne.
Qed.

Lemma used_bytes_new cs g c : used_bytes (cs ++ [new_chunk g c]) = used_bytes cs.
Proof. rewrite used_bytes_app. simpl. lia. Qed.

Lemma headers_new cs g c : headers (cs ++ [new_chunk g c]) = headers cs + 2.
Proof. rewrite headers_app. unfold headers. simpl. lia. Qed.

(** Linux gives a chunk. *)
Lemma add_chunk_spec c s cs :
  heap_ok s cs -> 0 < c -> clear_of (granularity s) c cs ->
  total_available s + granularity s < 4294967296 ->
  exists s', (init_chunk c;; count_chunk;; append_chunk c) s = Done tt s' /\
    heap_ok s' (cs ++ [new_chunk (granularity s) c]) /\ extra_chks s' = extra_chks s /\
    granularity s' = granularity s.
Proof.
  intros Hh Hc Hcl Hrg. pose proof (heap_NoDup _ _ Hh) as Hnd.
  pose proof Hh as [Hp Hch Hcs Hap Ht _ Hl Ho]. pose proof Hp as [Hg Hm].
  destruct (init_chunk_spec c s) as (s1 & E1 & [Hnew Hold Hnx (Eg & El & Et & Ek & Eo & Ex)]).
  rewrite (bind_done _ _ _ _ _ E1). unfold count_chunk. run_m.
  match goal with |- context [append_chunk c ?x] => set (s2 := x) end.
  assert (F : granularity s2 = granularity s /\ chk_list s2 = chk_list s /\ next_chk s2 = <[c := 0]> (next_chk s) /\
    total_available s2 = total_available s + granularity s /\ memory_leak s2 = memory_leak s /\
    memory_overhead s2 = u32 (memory_overhead s + OVERHEAD) /\ extra_chks s2 = extra_chks s).
  { unfold s2. state_simpl. rewrite Eg, Et, Eo, Ek, El, Hnx. split_and!; try done.
    unfold u32. apply Z.mod_small. assert (0 <= total_available s) by (rewrite Ht; blk_nia). blk_lia. }
  destruct F as (F1 & F2 & F3 & F4 & F5 & F6 & F7).
  assert (Hcn : c ∉ cv_adr <$> cs).
  { intros (v & -> & Hv)%list_elem_of_fmap. unfold clear_of in Hcl. rewrite Forall_forall in Hcl.
    specialize (Hcl v Hv). blk_lia. }
  destruct (append_chunk_spec c s2 cs) as (s3 & E3 & Hch3 & Es3).
  { rewrite F2, F3. apply (chain_ext (next_chk s)); [|done]. intros a Ha. rewrite upd_ne; [done|]. by intros ->. }
  { done. }
  { lia. }
  { done. }
  { by rewrite F3, upd_eq. }
  { unfold chunks_fuel. rewrite F1, F4, Ht.
    replace (granularity s * Z.of_nat (length cs) + granularity s) with
      ((Z.of_nat (length cs) + 1) * granularity s) by lia. rewrite Z.div_mul by blk_lia. lia. }
  exists s3. rewrite E3. split; [done|]. rewrite Es3. state_simpl. split_and!; [|done|done].
  assert (Hloc : forall v, chunk_ok s1 (cv_adr v) (cv_free v) (cv_used v) ->
                           chunk_ok s3 (cv_adr v) (cv_free v) (cv_used v)).
  { intros v. apply chunk_ok_ext; rewrite Es3; unfold s2; by state_simpl. }
  rewrite <- Es3. split.
  - unfold params_ok. rewrite Es3. state_simpl. rewrite F1. done.
  - rewrite fmap_app. exact Hch3.
  - rewrite Forall_app, Forall_singleton. split.
    + unfold clear_of in Hcl. rewrite Forall_forall in *. intros v Hv. destruct (Hcs v Hv). split; [done|]. apply Hloc, Hold; [|lia|done].
      by apply Hcl.
    + split; [done|]. apply Hloc. by apply Hnew.
  - rewrite Es3. state_simpl. rewrite F1. clear - Hap Hcl.
    induction Hap as [|v cs Hv Hap IH]; cbn [app]; [by repeat constructor|].
    inversion_clear Hcl. constructor; [|by apply IH]. rewrite Forall_app, Forall_singleton. split; [done|].
    simpl. tauto.
  - rewrite Es3. state_simpl. rewrite F1, F4, Ht, length_app. simpl. lia.
  - rewrite Es3. state_simpl. lia.
  - rewrite Es3. state_simpl. by rewrite F5, Hl, used_bytes_new.
  - rewrite Es3. state_simpl. rewrite F6, Ho, u32_add_mod, headers_new. f_equal. blk_lia.
Qed.

Lemma rt_alloc_sysrq_handler_adds c s cs :
  heap_ok s cs -> 0 < c -> clear_of (granularity s) c cs ->
  total_available s + granularity s < 4294967296 ->
  exists s', rt_alloc_sysrq_handler c s = Done tt s' /\
    heap_ok s' (cs ++ [new_chunk (granularity s) c]) /\ alloc_no_chk s' = 0.
Proof.
  intros Hh Hc Hcl Hrg. destruct (add_chunk_spec c s cs Hh Hc Hcl Hrg) as (s1 & E & Hh1 & _).
  unfold rt_alloc_sysrq_handler. rewrite (proj2 (nz_true c)) by lia. revert E. run_m.
  destruct (init_chunk c s) as [[] s2|s2 k|]; [|done|done]. cbn [bind_out].
  destruct (count_chunk s2) as [[] s3|s3 k|]; [|done|done]. cbn [bind_out].
  intros ->. run_m. eexists. split; [reflexivity|]. state_simpl. split; [|done].
  apply (heap_ok_ext s1); by state_simpl.
Qed.
End Chunks.

Section FreeChunk.
Implicit Types (s : MEM) (c n a m : Z) (b : Z * Z) (fl us : list (Z * Z)) (v : chunkv) (cs : list chunkv).

(** The first free block has the size of a whole chunk. *)
Definition whole g v : bool :=
  match cv_free v with b :: _ => b.2 =? g - OVERHEAD | [] => false end.

(** A chunk with such a block has no block in use, and no other free block. *)
Lemma whole_unused s v :
  chunk_ok s (cv_adr v) (cv_free v) (cv_used v) -> whole (granularity s) v = true ->
  v = new_chunk (granularity s) (cv_adr v).
Proof.
  destruct v as [c fl us]. unfold whole. cbn [cv_adr cv_free cv_used]. intros Hok.
  destruct fl as [|[a m] fl]; [done|]. cbn [snd]. intros ->%Z.eqb_eq.
  destruct (chunk_around s c [] a (granularity s - OVERHEAD) fl us Hok) as ((_ & _ & Hlo & Hhi & Hm & _) & _ & H2 & Hu).
  cbn [fst snd] in *. unfold new_chunk.
  assert (a = c + sizeof_chkhdr) as -> by blk_lia. f_equal.
  - destruct fl as [|x fl]; [done|]. destruct (H2 x) as ((_ & _ & _ & ? & ? & _) & ?); [set_solver|blk_lia].
  - destruct us as [|x us]; [done|]. destruct (Hu x) as ((_ & _ & ? & ? & ? & _) & ? & _); [set_solver|blk_lia].
Qed.

Lemma find_free_chunk_spec s g cs fuel prev p :
  Forall (fun v => 0 < cv_adr v /\ chunk_ok s (cv_adr v) (cv_free v) (cv_used v)) cs ->
  params_ok s -> g = granularity s -> chain (next_chk s) p (cv_adr <$> cs) -> (length cs <= fuel)%nat ->
  (Forall (fun v => whole g v = false) cs /\ find_free_chunk fuel s prev p = Some None) \/
  exists cs1 v cs2, cs = cs1 ++ v :: cs2 /\ Forall (fun v => whole g v = false) cs1 /\ whole g v = true /\
    find_free_chunk fuel s prev p = Some (Some (default prev (last (cv_adr <$> cs1)), cv_adr v)).
Proof.
  intros Hch [Hg _] ->. revert prev p fuel. induction Hch as [|v cs [Hv Cv] Hch IH]; intros prev p fuel Hc Hf.
  - left. simpl in Hc. subst p. split; [constructor|]. by destruct fuel.
  - destruct fuel as [|fuel]; [simpl in Hf; lia|]. destruct Hc as (-> & _ & Hc).
    cbn [find_free_chunk]. rewrite (proj2 (nz_true (cv_adr v))) by lia.
    assert (Hw : nz (free_list s (cv_adr v)) &&
                 (free_size s (free_list s (cv_adr v)) =? u32 (chk_limit s (cv_adr v) - OVERHEAD)) =
                 whole (granularity s) v).
    { destruct Cv as [[_ Hl Hc' Hb _ _] _]. rewrite Hl. unfold whole.
      replace (u32 (granularity s - OVERHEAD)) with (granularity s - OVERHEAD)
        by (unfold u32; rewrite Z.mod_small; blk_lia).
      destruct (cv_free v) as [|b fl]; [cbn in Hc'; by rewrite Hc'|]. destruct Hc' as (-> & Hb0 & _).
      rewrite (proj2 (nz_true b.1)) by done. cbn [app] in Hb. apply Forall_cons in Hb as ((-> & _) & _). done. }
    rewrite Hw. destruct (whole (granularity s) v) eqn:E.
    + right. by exists [], v, cs.
    + destruct (IH (cv_adr v) (next_chk s (cv_adr v)) fuel Hc) as [[H ->]|(cs1 & v' & cs2 & -> & H & Hw' & ->)];
        [simpl in Hf; lia|left|right].
      * split; [by constructor|done].
      * exists (v :: cs1), v', cs2. split_and!; [done|by constructor|done|].
        rewrite fmap_cons, last_cons. by destruct (last _).
Qed.

(** Taking a chunk out of the list. *)
Lemma chain_remove nf p x (l1 l2 : list Z) :
  chain nf p (l1 ++ x :: l2) -> NoDup (l1 ++ x :: l2) ->
  (l1 = [] -> chain nf (nf x) l2) /\
  (l1 <> [] -> lastz l1 <> 0 /\ chain (<[lastz l1 := nf x]> nf) p (l1 ++ l2)).
Proof.
  intros Hc Hnd. pose proof (chain_app_rest _ _ _ _ Hc) as (_ & Hx0 & Hr). split; [done|]. intros Hne.
  assert (Hl : lastz l1 ∈ l1).
  { unfold lastz. destruct (last l1) eqn:E; [by apply last_Some_elem_of|by apply last_None in E]. }
  apply NoDup_app in Hnd as (Hnd & Hd & _). split.
  { apply chain_nonzero in Hc. rewrite Forall_forall in Hc. apply Hc. set_solver. }
  apply (chain_relink nf _ p _ (nf x) _ (x :: l2)); [done|done|done|..].
  - intros _. by rewrite upd_eq.
  - intros y _ Hy. by rewrite upd_ne.
  - apply (chain_ext nf); [|done]. intros y Hy. rewrite upd_ne; [done|]. intros <-.
    apply (Hd (lastz l1) Hl). set_solver.
Qed.

Lemma heap_remove s s' cs1 v cs2 :
  heap_ok s (cs1 ++ v :: cs2) -> whole (granularity s) v = true ->
  chk_addr s' = chk_addr s -> chk_limit s' = chk_limit s -> granularity s' = granularity s ->
  next_free s' = next_free s -> free_list s' = free_list s -> free_size s' = free_size s ->
  blk_chk_addr s' = blk_chk_addr s -> chain (next_chk s') (chk_list s') (cv_adr <$> cs1 ++ cs2) ->
  total_available s' = u32 (total_available s - granularity s) ->
  memory_leak s' = memory_leak s -> memory_overhead s' = u32 (memory_overhead s - OVERHEAD) ->
  heap_ok s' (cs1 ++ cs2).
Proof.
  intros [Hp Hc Hch Hap Ht Hrg Hl Ho] Hw E1 E2 E3 E4 E5 E6 E7 Hc' Et El Eo.
  pose proof Hch as Hch'. rewrite Forall_app, Forall_cons in Hch. destruct Hch as (C1 & (_ & Cv) & C2).
  pose proof (whole_unused _ _ Cv Hw) as Ev. pose proof Hp as [Hg _].
  assert (Et' : total_available s' = granularity s * Z.of_nat (length (cs1 ++ cs2))).
  { rewrite Et, Ht, !length_app in *. cbn [length] in *. unfold u32. rewrite Z.mod_small; blk_nia. }
  split.
  - unfold params_ok. by rewrite E3.
  - done.
  - rewrite Forall_app. split; [apply (Forall_impl _ _ _ C1)|apply (Forall_impl _ _ _ C2)];
      intros x [? ?]; (split; [done|]); by apply (chunk_ok_ext s).
  - rewrite E3. clear - Hap. induction cs1 as [|y cs1 IH]; cbn [app] in *; inversion_clear Hap as [|? ? Hf H'].
    + done.
    + constructor; [|by apply IH]. rewrite Forall_app, Forall_cons in *. tauto.
  - by rewrite E3.
  - rewrite Et', Ht, !length_app in *. cbn [length] in *. blk_nia.
  - rewrite El, Hl, !used_bytes_app. f_equal. rewrite Ev. unfold used_bytes. simpl. lia.
  - rewrite Eo, Ho. unfold u32. rewrite Zminus_mod_idemp_l. f_equal. rewrite !headers_app, Ev.
    unfold headers. cbn [foldr new_chunk cv_free cv_used length]. blk_lia.
Qed.

(** C21: the chunk that [rt_free_sysrq_handler] gives back to Linux is the
    first one whose only block is free: no memory in use is given back, and
    what is left is a sound list of chunks.  Nothing is given back if there is
    no such chunk. *)
Theorem rt_free_sysrq_handler_safe s cs :
  heap_ok s cs -> 0 < extra_chks s ->
  (exists s', rt_free_sysrq_handler s = Done tt s' /\ heap_ok s' cs /\ mlog s' = mlog s /\
     Forall (fun v => whole (granularity s) v = false) cs) \/
  (exists cs1 v cs2 s', cs = cs1 ++ v :: cs2 /\ cv_used v = [] /\
     Forall (fun v => whole (granularity s) v = false) cs1 /\
     rt_free_sysrq_handler s = Done tt s' /\ heap_ok s' (cs1 ++ cs2) /\
     mlog s' = FreeChunk (cv_adr v) :: mlog s).
Proof.
  intros Hh Hx. unfold rt_free_sysrq_handler. run_m. rewrite Z.gtb_ltb, (proj2 (Z.ltb_lt _ _)) by done. run_m.
  pose proof (ho_chunks _ _ Hh) as Hch. pose proof (ho_params _ _ Hh) as Hp. pose proof (ho_chain _ _ Hh) as Hc.
  destruct (find_free_chunk_spec s (granularity s) cs (chunks_fuel s) 0 (chk_list s))
    as [[Hall ->]|(cs1 & v & cs2 & -> & Hall & Hw & ->)];
    [done|done|done|done|by rewrite (chunks_fuel_enough _ _ Hh)|left|right]; run_m.
  - eexists. split; [reflexivity|]. state_simpl. split_and!; [|done|done].
    apply (heap_ok_ext s); by state_simpl.
  - pose proof (heap_NoDup _ _ Hh) as Hnd. rewrite Forall_app, Forall_cons in Hch. destruct Hch as (_ & (_ & Cv) & _).
    pose proof (whole_unused _ _ Cv Hw) as Ev. rewrite fmap_app, fmap_cons in Hc, Hnd.
    destruct (chain_remove _ _ _ _ _ Hc Hnd) as [R0 R1]. rewrite <- fmap_app in R1.
    change (default 0 (last (cv_adr <$> cs1))) with (lastz (cv_adr <$> cs1)).
    exists cs1, v, cs2. destruct cs1 as [|y cs1].
    + change (nz (lastz (cv_adr <$> []))) with false. run_m. unfold uncount_chunk, log_mem. run_m.
      eexists. split_and!; [done|by rewrite Ev|done|reflexivity| |by state_simpl].
      apply (heap_remove s _ [] v); try done; state_simpl; try done. by apply R0.
    + destruct R1 as [Hz R1]; [done|]. rewrite (proj2 (nz_true _)) by done. run_m. unfold uncount_chunk, log_mem. run_m.
      eexists. split_and!; [done|by rewrite Ev|done|reflexivity| |by state_simpl].
      apply (heap_remove s _ (y :: cs1) v); try done; by state_simpl.
Qed.
End FreeChunk.

(** * The blocks of all chunks *)

Definition blocks_in_use (cs : list chunkv) : list (Z * Z) := concat (cv_used <$> cs).
Definition all_blocks (cs : list chunkv) : list (Z * Z) := concat ((fun v => cv_free v ++ cv_used v) <$> cs).

Section Blocks.
Implicit Types (s : MEM) (b : Z * Z) (v : chunkv) (cs : list chunkv).

(** A block that is allocated is the one block more in use. *)
Lemma first_fit_in_use n cs r cs' :
  first_fit n cs = (r, cs') -> r <> 0 -> blocks_in_use cs' ≡ₚ (r - sizeof_blkhdr, n) :: blocks_in_use cs.
Proof.
  unfold blocks_in_use. revert r cs'. induction cs as [|v cs IH]; intros r cs' E Hr; cbn [first_fit] in E.
  - by injection E as <- <-.
  - destruct (fit n (cv_free v)) as [[a fl]|].
    + injection E as <- <-. cbn. unfold data. by replace (a + sizeof_blkhdr - sizeof_blkhdr) with a by lia.
    + destruct (first_fit n cs) as [r' cs''] eqn:E'. injection E as <- <-. cbn. rewrite (IH r' cs'') by done.
      by rewrite Permutation_middle.
Qed.

Lemma chunk_block_in s v b :
  chunk_ok s (cv_adr v) (cv_free v) (cv_used v) -> b ∈ cv_free v ++ cv_used v -> blk_ok s (cv_adr v) b.
Proof. intros [H _] Hb. pose proof (ck_blocks _ _ _ _ H) as F. rewrite Forall_forall in F. by apply F. Qed.

Lemma chunk_blocks_apart s v b b' :
  chunk_ok s (cv_adr v) (cv_free v) (cv_used v) -> b ∈ cv_free v ++ cv_used v -> b' ∈ cv_free v ++ cv_used v ->
  b = b' \/ apart b b'.
Proof.
  intros [_ (Hf & Hu & Hfu)] Hb Hb'. apply elem_of_app in Hb, Hb'.
  assert (Hx : forall x y, x ∈ cv_free v -> y ∈ cv_used v -> apart x y).
  { intros x y Hx Hy. rewrite Forall_forall in Hfu. specialize (Hfu x Hx). rewrite Forall_forall in Hfu. by apply Hfu. }
  destruct Hb as [Hb|Hb], Hb' as [Hb'|Hb']; [|right; by apply Hx|right; by apply apart_sym, Hx|].
  - destruct (StronglySorted_elem_pairs _ _ _ _ Hf Hb Hb') as [E|[E|E]]; [by left|right; left; lia|right; right; lia].
  - destruct (ForallOrdPairs_elems _ _ _ _ Hu Hb Hb') as [E|[E|E]]; [by left|by right|right; by apply apart_sym].
Qed.

Lemma elem_of_all_blocks cs b : b ∈ all_blocks cs <-> exists v, v ∈ cs /\ b ∈ cv_free v ++ cv_used v.
Proof.
  unfold all_blocks. rewrite list_elem_of_In, in_concat. split.
  - intros (l & Hl & Hb). apply list_elem_of_In, list_elem_of_fmap in Hl as (v & -> & Hv). apply list_elem_of_In in Hb. by exists v.
  - intros (v & Hv & Hb). exists (cv_free v ++ cv_used v). rewrite <- !list_elem_of_In. split; [|exact Hb].
    by apply (list_elem_of_fmap_2 (fun v => cv_free v ++ cv_used v)).
Qed.

Lemma in_use_block cs b : b ∈ blocks_in_use cs -> b ∈ all_blocks cs.
Proof.
  unfold blocks_in_use. rewrite elem_of_all_blocks, list_elem_of_In, in_concat. intros (l & Hl & Hb).
  apply list_elem_of_In, list_elem_of_fmap in Hl as (v & -> & Hv). apply list_elem_of_In in Hb.
  exists v. split; [done|]. apply elem_of_app. by right.
Qed.

(** No two blocks overlap, of whatever chunks. *)
Lemma blocks_apart s cs b b' :
  heap_ok s cs -> b ∈ all_blocks cs -> b' ∈ all_blocks cs -> b = b' \/ apart b b'.
Proof.
  intros Hh Hb Hb'. apply elem_of_all_blocks in Hb as (v & Hv & Hb), Hb' as (v' & Hv' & Hb').
  pose proof (ho_chunks _ _ Hh) as Hch. rewrite Forall_forall in Hch.
  destruct (Hch v Hv) as [_ C], (Hch v' Hv') as [_ C'].
  destruct (chunk_block_in s v b C Hb) as (_ & _ & A1 & A2 & _), (chunk_block_in s v' b' C' Hb') as (_ & _ & B1 & B2 & _).
  assert (Hp : 0 <= sizeof_chkhdr) by done.
  destruct (ForallOrdPairs_elems _ _ _ _ (ho_apart _ _ Hh) Hv Hv') as [->|[E|E]]; [by apply (chunk_blocks_apart s v')|right..];
    unfold apart; lia.
Qed.
End Blocks.

(** * Theorems *)

(** C3: [rt_malloc] takes the first block that is large enough, in the first
    chunk that has one, and returns 0 if there is none or if the request is
    larger than a chunk.  The sizes and places of all blocks stay right: no
    two blocks overlap, the free blocks of a chunk are in order and not
    adjacent, and the counters agree with the blocks. *)
Theorem rt_malloc_first_fit (s : MEM) (cs : list chunkv) (n : Z) :
  heap_ok s cs -> 0 <= n -> n + 15 < 4294967296 ->
  let '(r, cs') := if round_size n >? granularity s - OVERHEAD then (0, cs)
                   else first_fit (round_size n) cs in
  exists s', rt_malloc n s = Done r s' /\ heap_ok s' cs'.
Proof. apply rt_malloc_fits. Qed.

(** C20: [rt_free] puts a block in use back into the free list of its chunk,
    joined with the free blocks on both sides, and leaves everything else as
    it is.  An address that is that of a free block, or of a block of no bytes
    (what [rt_malloc(0)] returns), is refused without a change. *)
Theorem rt_free_coalesces (s : MEM) cs1 c fl us cs2 a n :
  heap_ok s (cs1 ++ Chunk c fl us :: cs2) ->
  (forall us1 us2, us = us1 ++ (a, n) :: us2 -> 0 < n ->
     exists s', rt_free (data a) s = Done tt s' /\
       heap_ok s' (cs1 ++ Chunk c (release fl (a, n)) (us1 ++ us2) :: cs2)) /\
  ((a, n) ∈ us /\ n = 0 \/ (a, n) ∈ fl -> rt_free (data a) s = Done tt s).
Proof.
  intros Hh. split; [intros us1 us2 -> Hn; by apply rt_free_releases|]. intros Ha.
  pose proof (ho_params _ _ Hh) as Hp. pose proof (ho_chunks _ _ Hh) as Hch.
  rewrite Forall_app, Forall_cons in Hch. destruct Hch as (_ & (Hc & Cv) & _).
  assert (Hv : valid_block s a = false).
  { destruct Ha as [[Ha ->]|Ha]; [by rewrite (blk_ok_valid s c fl us a 0)|].
    cbn [cv_adr cv_free cv_used] in *. apply list_elem_of_split in Ha as (fl1 & fl2 & ->).
    destruct (chunk_around _ _ _ _ _ _ _ Cv) as ((_ & _ & Hlo & _ & Hm & _) & _ & H2 & _).
    pose proof (ck_chain _ _ _ _ Cv) as A3. rewrite fmap_app, fmap_cons in A3.
    apply chain_app_rest in A3 as (_ & _ & A3). cbn [fst snd] in *.
    assert (Hn : next_free s a <> a).
    { destruct fl2 as [|x fl2]; [cbn in A3; blk_lia|]. destruct A3 as (-> & _).
      destruct (H2 x) as [_ ?]; [set_solver|blk_lia]. }
    unfold valid_block. rewrite (proj2 (Z.eqb_neq _ _) Hn), andb_false_r. done. }
  unfold rt_free, data. run_m. replace (a + sizeof_blkhdr - sizeof_blkhdr) with a by lia. by rewrite Hv.
Qed.

(** Allocating and releasing a block gives the block back to the free
    list, except that 16 bytes that are left over by the allocation (no room
    for a header and a block) stay lost after the release, so that the chunk
    never becomes one free block again. *)
Theorem malloc_free_roundtrip (s : MEM) cs1 v cs2 fl1 a m fl2 n :
  heap_ok s (cs1 ++ v :: cs2) -> cv_free v = fl1 ++ (a, m) :: fl2 ->
  0 < n -> n + 15 < 4294967296 -> round_size n <= m ->
  Forall (fun x => Forall (fun b => b.2 < round_size n) (cv_free x)) cs1 ->
  Forall (fun b => b.2 < round_size n) fl1 ->
  exists s1 s2, rt_malloc n s = Done (data a) s1 /\ rt_free (data a) s1 = Done tt s2 /\
    heap_ok s2 (cs1 ++ Chunk (cv_adr v)
      (fl1 ++ (a, if m - round_size n =? 16 then round_size n else m) :: fl2) (cv_used v) :: cs2).
Proof.
  intros Hh Hv Hn0 Hn Hm Hcs Hfl. destruct (round_size_spec n) as [Hr Hmod]; [lia|lia|].
  pose proof (rt_malloc_fits s (cs1 ++ v :: cs2) n Hh ltac:(lia) Hn) as H.
  pose proof (ho_chunks _ _ Hh) as Hch. rewrite Forall_app, Forall_cons in Hch. destruct Hch as (_ & (_ & Cv) & _).
  rewrite Hv in Cv. destruct (chunk_around _ _ _ _ _ _ _ Cv) as ((_ & _ & Hlo & Hhi & _ & Hmm) & _).
  cbn [fst snd] in *. rewrite Z.gtb_ltb, (proj2 (Z.ltb_ge _ _)) in H by blk_lia.
  assert (Hff : first_fit (round_size n) (cs1 ++ v :: cs2) =
    (data a, cs1 ++ Chunk (cv_adr v) (fl1 ++ rest a m (round_size n) ++ fl2) ((a, round_size n) :: cv_used v) :: cs2)).
  { clear H Hh. induction Hcs as [|x cs1 Hx Hcs IH]; cbn [app first_fit].
    - by rewrite Hv, fit_some.
    - by rewrite fit_none, IH. }
  rewrite Hff in H. destruct H as (s1 & E1 & H1). exists s1.
  destruct (rt_free_releases s1 cs1 (cv_adr v) (fl1 ++ rest a m (round_size n) ++ fl2) [] a (round_size n)
              (cv_used v) cs2 H1) as (s2 & E2 & H2); [lia|].
  exists s2. split_and!; [done|done|]. rewrite release_rest in H2; [exact H2|..|done|done].
  - by destruct (ck_apart _ _ _ _ Cv).
  - pose proof (ck_free _ _ _ _ Cv) as Hf. rewrite Forall_app, Forall_cons in Hf. destruct Hf as (Hf1 & _ & Hf2).
    rewrite Forall_app. split; [apply (Forall_impl _ _ _ Hf1)|apply (Forall_impl _ _ _ Hf2)]; lia.
  - lia.
Qed.

(** ** Witnesses *)

(** A chunk of 256 bytes, and two blocks in it. *)
Definition heap_ex0 : MEM := run (rt_alloc_sysrq_handler 4096) (mem_zero 256 1 64).
Definition heap_ex1 : MEM := run (rt_malloc 100) heap_ex0.

Lemma heap_ex0_ok : heap_ok heap_ex0 [new_chunk 256 4096].
Proof.
  destruct (rt_alloc_sysrq_handler_adds 4096 (mem_zero 256 1 64) []) as (s & E & H & _).
  - split; try done. constructor.
  - done.
  - constructor.
  - done.
  - unfold heap_ex0, run. rewrite E. exact H.
Qed.

Lemma heap_ex1_ok : heap_ok heap_ex1 [Chunk 4096 [(4240, 96)] [(4112, 112)]].
Proof.
  pose proof (rt_malloc_fits heap_ex0 [new_chunk 256 4096] 100 heap_ex0_ok ltac:(lia) ltac:(lia)) as H.
  replace (granularity heap_ex0) with 256 in H by (vm_compute; reflexivity).
  change (round_size 100 >? 256 - OVERHEAD) with false in H. cbv iota in H.
  change (first_fit (round_size 100) [new_chunk 256 4096])
    with (4128, [Chunk 4096 [(4240, 96)] [(4112, 112)]]) in H.
  destruct H as (s & E & H). unfold heap_ex1, run. by rewrite E.
Qed.

Lemma heap_ex1_gran : granularity heap_ex1 = 256.
Proof. vm_compute. reflexivity. Qed.

Lemma rt_malloc_first_fit_witness :
  exists s', rt_malloc 50 heap_ex1 = Done 4256 s' /\
    heap_ok s' [Chunk 4096 [(4320, 16)] [(4240, 64); (4112, 112)]].
Proof.
  pose proof (rt_malloc_first_fit heap_ex1 _ 50 heap_ex1_ok ltac:(lia) ltac:(lia)) as H.
  rewrite heap_ex1_gran in H. exact H.
Defined.

Lemma rt_free_coalesces_witness :
  (exists s', rt_free 4128 heap_ex1 = Done tt s' /\ heap_ok s' [new_chunk 256 4096]) /\
  rt_free 4256 heap_ex1 = Done tt heap_ex1.
Proof.
  split.
  - apply (rt_free_coalesces heap_ex1 [] 4096 [(4240, 96)] [(4112, 112)] [] 4112 112 heap_ex1_ok) with (us1 := []) (us2 := []);
      [done|lia].
  - apply (rt_free_coalesces heap_ex1 [] 4096 [(4240, 96)] [(4112, 112)] [] 4240 96 heap_ex1_ok).
    right. by apply list_elem_of_singleton.
Defined.

(** 80 bytes of a free block of 96: 16 are lost. *)
Lemma malloc_free_roundtrip_witness :
  exists s1 s2, rt_malloc 80 heap_ex1 = Done 4256 s1 /\ rt_free 4256 s1 = Done tt s2 /\
    heap_ok s2 [Chunk 4096 [(4240, 80)] [(4112, 112)]].
Proof.
  apply (malloc_free_roundtrip heap_ex1 [] (Chunk 4096 [(4240, 96)] [(4112, 112)]) [] [] 4240 96 [] 80);
    [exact heap_ex1_ok|done|lia|lia|done|constructor|constructor].
Defined.

Lemma rt_free_sysrq_handler_safe_witness :
  exists cs1 v cs2 s', [new_chunk 256 4096] = cs1 ++ v :: cs2 /\ cv_used v = [] /\
    rt_free_sysrq_handler heap_ex0 = Done tt s' /\ heap_ok s' (cs1 ++ cs2) /\
    mlog s' = FreeChunk (cv_adr v) :: mlog heap_ex0.
Proof.
  destruct (rt_free_sysrq_handler_safe heap_ex0 [new_chunk 256 4096] heap_ex0_ok)
    as [(s' & _ & _ & _ & H)|(cs1 & v & cs2 & s' & E & Hu & _ & H)].
  - vm_compute. reflexivity.
  - inversion_clear H as [|? ? Hw _]. vm_compute in Hw. discriminate.
  - by exists cs1, v, cs2, s'.
Defined.
