(* ===== verification/Bits.v ===== *)
(** Bits: event flags.

    [bits/rtai_bits.c]: a set of 32 flags, on which a task waits until a test
    of the flags holds.  A [BITS] is laid out like a [SEM], with the same
    magic number, so that user space can use the calls of the semaphores: its
    fields are those of the semaphore at the same address, the mask being at
    the place of the count.  What a waiting task tests is kept in the two
    halves of its field [retval].

    A test or an action with two masks takes one argument and reads the
    second mask from the word that follows the argument in memory
    ([MASK1]).  That word is not written by the callers here: it is the
    parameter [after] of the services, any word at all. *)

From S2P Require Import Prelude Resume DList SchedState SchedQueues Schedule SchedTask SchedSem.

Definition RT_BITS_MAGIC : Z := RT_SEM_MAGIC.
Definition BITS_ERR : Z := 65535.
Definition BITS_TIMOUT : Z := 65534.

(** [bits->mask] *)
Definition mask (s : RTAI) (bits : semp) : Z := sem_count s bits.
Definition set_mask (bits : semp) (m : Z) : K unit := wr sem_count bits m.

(** * Tests and actions

    On the mask [m], with the arguments [m0], at the place of [masks], and
    [m1], the word after it. *)

Definition all_set (m m0 m1 : Z) : bool := Z.land m m0 =? m0.
Definition any_set (m m0 m1 : Z) : bool := nz (Z.land m m0).
Definition all_clr (m m0 m1 : Z) : bool := Z.land (Z.lnot m) m0 =? m0.
Definition any_clr (m m0 m1 : Z) : bool := nz (Z.land (Z.lnot m) m0).

Definition all_set_and_any_set (m m0 m1 : Z) : bool :=
  nz (Z.land m m1) && (Z.land m m0 =? m0).
Definition all_set_and_all_clr (m m0 m1 : Z) : bool :=
  (Z.land m m0 =? m0) && (Z.land (Z.lnot m) m1 =? m1).
Definition all_set_and_any_clr (m m0 m1 : Z) : bool :=
  (Z.land m m0 =? m0) && nz (Z.land (Z.lnot m) m1).
Definition any_set_and_all_clr (m m0 m1 : Z) : bool :=
  nz (Z.land m m0) && (Z.land (Z.lnot m) m1 =? m1).
Definition any_set_and_any_clr (m m0 m1 : Z) : bool :=
  nz (Z.land m m0) && nz (Z.land (Z.lnot m) m1).
Definition all_clr_and_any_clr (m m0 m1 : Z) : bool :=
  nz (Z.land (Z.lnot m) m1) && (Z.land (Z.lnot m) m0 =? m0).
Definition all_set_or_any_set (m m0 m1 : Z) : bool :=
  nz (Z.land m m1) || (Z.land m m0 =? m0).
Definition all_set_or_all_clr (m m0 m1 : Z) : bool :=
  (Z.land m m0 =? m0) || (Z.land (Z.lnot m) m1 =? m1).
Definition all_set_or_any_clr (m m0 m1 : Z) : bool :=
  (Z.land m m0 =? m0) || nz (Z.land (Z.lnot m) m1).
Definition any_set_or_all_clr (m m0 m1 : Z) : bool :=
  nz (Z.land m m0) || (Z.land (Z.lnot m) m1 =? m1).
Definition any_set_or_any_clr (m m0 m1 : Z) : bool :=
  nz (Z.land m m0) || nz (Z.land (Z.lnot m) m1).
Definition all_clr_or_any_clr (m m0 m1 : Z) : bool :=
  nz (Z.land (Z.lnot m) m1) || (Z.land (Z.lnot m) m0 =? m0).

Definition set_bits (m m0 m1 : Z) : Z := Z.lor m m0.
Definition clr_bits (m m0 m1 : Z) : Z := Z.land m (Z.lnot m0).
Definition set_clr_bits (m m0 m1 : Z) : Z := Z.land (Z.lor m m0) (Z.lnot m1).
Definition nop_fun (m m0 m1 : Z) : Z := m.

Definition test_fun : list (Z -> Z -> Z -> bool) :=
  [all_set; any_set; all_clr; any_clr;
   all_set_and_any_set; all_set_and_all_clr; all_set_and_any_clr;
   any_set_and_all_clr; any_set_and_any_clr; all_clr_and_any_clr;
   all_set_or_any_set; all_set_or_all_clr; all_set_or_any_clr;
   any_set_or_all_clr; any_set_or_any_clr; all_clr_or_any_clr].

Definition exec_fun : list (Z -> Z -> Z -> Z) := [set_bits; clr_bits; set_clr_bits; nop_fun].

(** [test_fun[i](bits, m0)]; an index outside the table calls whatever is
    there. *)
Definition call_test (i m m0 m1 : Z) : option bool :=
  if i <? 0 then None
  else match test_fun !! Z.to_nat i with Some f => Some (f m m0 m1) | None => None end.
Definition call_exec (i m m0 m1 : Z) : option Z :=
  if i <? 0 then None
  else match exec_fun !! Z.to_nat i with Some f => Some (f m m0 m1) | None => None end.

(** * What a waiting task tests

    [((int * )&task->retval)[0]] and [((unsigned long * )&task->retval)[1]] *)

Definition TEST_FUN (s : RTAI) (task : Z) : Z := i32 (retval s task).
Definition TEST_MASK (s : RTAI) (task : Z) : Z := u32 (retval s task / 4294967296).

Definition set_test (task testfun testmasks : Z) : K unit :=
  s ← get;
  wr retval task (i64 (retval s task / 4294967296 * 4294967296 + u32 testfun));;
  s ← get;
  wr retval task (i64 (testmasks * 4294967296 + u32 (retval s task))).

(** * Services *)

(** The queue of waiting tasks is in order of arrival. *)
Definition enqueue_waiting (task : Z) (q : qptr) : K unit :=
  wr blocked_on task q;; qlink (Queue task) q.

(** [if ((task->state & ~(READY | RUNNING)) && (task->state &= ~(SEMAPHORE |
    DELAYED)) == READY) rt_enq_ready_task(task);], after
    [rt_rem_timed_task(task)]; tells whether [schedmap] is set. *)
Definition wake_task (task : Z) : K bool :=
  rem_timed_task task;;
  s ← get;
  if nz (clr (state s task) (Z.lor READY RUNNING)) then
    wr state task (clr (state s task) (Z.lor SEMAPHORE DELAYED));;
    s ← get;
    if state s task =? READY then enq_ready_task task;; mret true else mret false
  else mret false.

(** Without [CONFIG_SMP] [RT_SCHEDULE_MAP] is [nop_fun]: nothing is
    scheduled. *)
Definition rt_schedule_map (schedmap : bool) : K unit := mret tt.

Definition rt_bits_init (bits : semp) (m : Z) : K unit :=
  wr sem_magic bits RT_BITS_MAGIC;;
  wr q_prev (SemQueue bits) (SemQueue bits);;
  wr q_next (SemQueue bits) (SemQueue bits);;
  wr q_task (SemQueue bits) 0;;
  set_mask bits m.

Fixpoint bits_delete_loop (fuel : nat) (bits : semp) (q : qptr) (schedmap : bool) : K bool :=
  s ← get;
  let q := q_next s q in
  let task := q_task s q in
  if bool_decide (q = SemQueue bits) || negb (nz task) then mret schedmap
  else match fuel with
       | O => stuck
       | S fuel' =>
           woken ← wake_task task;
           bits_delete_loop fuel' bits q (schedmap || woken)
       end.

Definition rt_bits_delete (bits : semp) : K Z :=
  s ← get;
  if negb (sem_magic s bits =? RT_BITS_MAGIC) then mret BITS_ERR
  else
    wr sem_magic bits 0;;
    schedmap ← bits_delete_loop LIST_FUEL bits (SemQueue bits) false;
    rt_schedule_map schedmap;;
    mret 0.

Definition rt_get_bits (s : RTAI) (bits : semp) : Z := mask s bits.

Fixpoint bits_reset_loop (fuel : nat) (bits : semp) (q : qptr) (schedmap : bool) : K bool :=
  s ← get;
  let q := q_next s q in
  if bool_decide (q = SemQueue bits) then mret schedmap
  else match fuel with
       | O => stuck
       | S fuel' =>
           let task := q_task s q in
           dequeue_blocked task;;
           woken ← wake_task task;
           bits_reset_loop fuel' bits q (schedmap || woken)
       end.

Definition rt_bits_reset (bits : semp) (m : Z) : K Z :=
  s ← get;
  if negb (sem_magic s bits =? RT_BITS_MAGIC) then mret BITS_ERR
  else
    let oldmask := mask s bits in
    set_mask bits m;;
    schedmap ← bits_reset_loop LIST_FUEL bits (SemQueue bits) false;
    wr q_next (SemQueue bits) (SemQueue bits);;
    wr q_prev (SemQueue bits) (SemQueue bits);;
    rt_schedule_map schedmap;;
    mret (i32 oldmask).

Section Services.
Context (after : Z).

Definition exec_bits (fun_ : Z) (bits : semp) (masks : Z) : K unit :=
  s ← get;
  m ← of_option (call_exec fun_ (mask s bits) masks after);
  set_mask bits m.

Definition test_bits (fun_ : Z) (bits : semp) (masks : Z) : K bool :=
  s ← get;
  of_option (call_test fun_ (mask s bits) masks after).

Fixpoint bits_signal_loop (fuel : nat) (bits : semp) (q : qptr) (schedmap : bool) : K bool :=
  s ← get;
  let q := q_next s q in
  if bool_decide (q = SemQueue bits) then mret schedmap
  else match fuel with
       | O => stuck
       | S fuel' =>
           let task := q_task s q in
           test ← test_bits (TEST_FUN s task) bits (TEST_MASK s task);
           woken ← (if (test : bool) then dequeue_blocked task;; wake_task task else mret false);
           bits_signal_loop fuel' bits q (schedmap || woken)
       end.

Definition rt_bits_signal (bits : semp) (setfun masks : Z) : K Z :=
  s ← get;
  if negb (sem_magic s bits =? RT_BITS_MAGIC) then mret BITS_ERR
  else
    exec_bits setfun bits masks;;
    s ← get;
    let masks := mask s bits in
    schedmap ← bits_signal_loop LIST_FUEL bits (SemQueue bits) false;
    rt_schedule_map schedmap;;
    mret masks.

(** The result is what is returned, and [*resulting_mask] if it is stored. *)
Definition rt_bits_wait (bits : semp) (testfun testmasks exitfun exitmasks : Z) : K (Z * option Z) :=
  s ← get;
  if negb (sem_magic s bits =? RT_BITS_MAGIC) then mret (BITS_ERR, None)
  else
    let rt_current := rt_smp_current s in
    test ← test_bits testfun bits testmasks;
    if negb test then
      set_test rt_current testfun testmasks;;
      s ← get;
      wr state rt_current (Z.lor (state s rt_current) SEMAPHORE);;
      rem_ready_current rt_current;;
      enqueue_waiting rt_current (SemQueue bits);;
      rt_schedule;;
      s ← get;
      let resulting_mask := mask s bits in
      if negb (bool_decide (blocked_on s rt_current = QNull)) ||
         negb (sem_magic s bits =? RT_BITS_MAGIC) then
        wr prio_passed_to rt_current NOTHING;; mret (BITS_ERR, Some resulting_mask)
      else exec_bits exitfun bits exitmasks;; mret (0, Some resulting_mask)
    else exec_bits exitfun bits exitmasks;; mret (0, Some (mask s bits)).

Definition rt_bits_wait_if (bits : semp) (testfun testmasks exitfun exitmasks : Z) : K (Z * option Z) :=
  s ← get;
  if negb (sem_magic s bits =? RT_BITS_MAGIC) then mret (BITS_ERR, None)
  else
    test ← test_bits testfun bits testmasks;
    if (test : bool) then exec_bits exitfun bits exitmasks;; mret (1, Some (mask s bits))
    else mret (0, Some (mask s bits)).

Definition rt_bits_wait_until (bits : semp) (testfun testmasks exitfun exitmasks time : Z)
    : K (Z * option Z) :=
  s ← get;
  if negb (sem_magic s bits =? RT_BITS_MAGIC) then mret (BITS_ERR, None)
  else
    let rt_current := rt_smp_current s in
    test ← test_bits testfun bits testmasks;
    if negb test then
      set_test rt_current testfun testmasks;;
      wr blocked_on rt_current (SemQueue bits);;
      wr resume_time rt_current time;;
      s ← get;
      (if time >? rt_get_time s then
         wr state rt_current (Z.lor (state s rt_current) (Z.lor SEMAPHORE DELAYED));;
         rem_ready_current rt_current;;
         enqueue_waiting rt_current (SemQueue bits);;
         enq_timed_task rt_current;;
         rt_schedule
       else
         wr q_next (Queue rt_current) (Queue rt_current);;
         wr q_prev (Queue rt_current) (Queue rt_current));;
      s ← get;
      let resulting_mask := mask s bits in
      if negb (sem_magic s bits =? RT_BITS_MAGIC) then
        wr prio_passed_to rt_current NOTHING;; mret (BITS_ERR, Some resulting_mask)
      else if negb (bool_decide (blocked_on s rt_current = QNull)) then
        dequeue_blocked rt_current;; mret (BITS_TIMOUT, Some resulting_mask)
      else exec_bits exitfun bits exitmasks;; mret (0, Some resulting_mask)
    else exec_bits exitfun bits exitmasks;; mret (0, Some (mask s bits)).

Definition rt_bits_wait_timed (bits : semp) (testfun testmasks exitfun exitmasks delay : Z)
    : K (Z * option Z) :=
  s ← get;
  rt_bits_wait_until bits testfun testmasks exitfun exitmasks (i64 (rt_get_time s + delay)).
End Services.

(** * Lemmas *)

Section BitsLemmas.
Context (after : Z).
Implicit Types (s : RTAI) (t : Z) (l W : list Z) (bits : semp).

(** What the task waits for holds of the mask [m]. *)
Definition test_holds (s : RTAI) (m t : Z) : bool :=
  default false (call_test (TEST_FUN s t) m (TEST_MASK s t) after).

(** A task that waits for event flags, without a time limit. *)
Definition waits s t : Prop :=
  state s t = Z.lor READY SEMAPHORE /\ is_hard s t <> 0 /\ priority s t < RT_LINUX_PRIORITY /\
  0 <= TEST_FUN s t < 16 /\ t <> rt_linux_task.

Lemma call_test_valid i m m0 m1 : 0 <= i < 16 -> exists b, call_test i m m0 m1 = Some b.
Proof.
  intros Hi. unfold call_test. rewrite (proj2 (Z.ltb_ge _ _)) by lia.
  destruct (lookup_lt_is_Some_2 test_fun (Z.to_nat i)) as [f ->]; [simpl; lia|]. by eexists.
Qed.

(** Ready tasks woken in the order of the queue. *)
Definition wake_all (prio : Z -> Z) l W : list Z :=
  foldl (fun rl t => insert_ready prio (prio t) t rl) l W.

(** What waking tasks keeps. *)
Record keeps s s' : Prop := {
  kp_mask : sem_count s' = sem_count s;
  kp_magic : sem_magic s' = sem_magic s;
  kp_retval : retval s' = retval s;
  kp_priority : priority s' = priority s;
  kp_hard : is_hard s' = is_hard s;
  kp_task : q_task s' = q_task s;
  kp_current : rt_smp_current s' = rt_smp_current s;
  kp_log : log s' = log s
}.

Lemma keeps_trans s1 s2 s3 : keeps s1 s2 -> keeps s2 s3 -> keeps s1 s3.
Proof. intros [] []. split; congruence. Qed.

Lemma keeps_refl s : keeps s s.
Proof. by split. Qed.

Lemma wake_task_spec s t l :
  waits s t -> ready_list s l -> fits l -> t ∉ l ->
  priority s rt_linux_task = RT_LINUX_PRIORITY ->
  exists P N, let s' := s <| state ::= <[t := READY]> |> <| rprev := P |> <| rnext := N |> in
    wake_task t s = Done true s' /\ ready_list s' (insert_ready (priority s) (priority s t) t l).
Proof.
  intros (Hst & Hh & Hp & _ & Ht) Hr Hf Hl Hlx. unfold wake_task.
  rewrite (bind_done _ _ _ _ _ (rem_timed_task_not_delayed s t ltac:(by rewrite Hst))). step_m.
  rewrite Hst. change (nz (clr (Z.lor READY SEMAPHORE) (Z.lor READY RUNNING))) with true. step_m.
  rewrite upd_eq. change (clr (Z.lor READY SEMAPHORE) (Z.lor SEMAPHORE DELAYED)) with READY.
  rewrite Z.eqb_refl. step_m. set (s1 := s <| state ::= _ |>).
  destruct (enq_ready_task_spec s1 t l) as (s2 & -> & (P & N & ->) & R2);
    [unfold s1, ready_list; state_simpl; exact Hr|done|by apply not_elem_of_cons
    |unfold s1; by state_simpl|unfold s1; by state_simpl|unfold s1; by state_simpl|].
  exists P, N. split; [done|]. unfold s1, ready_list in *. state_simpl_in R2. state_simpl. exact R2.
Qed.

(** A waiting task taken from the queue still leads to the next one. *)
Lemma dequeue_waiting s t q W1 W2 :
  wait_queue s q (W1 ++ t :: W2) ->
  exists QP QN, let s' := s <| prio_passed_to ::= <[t := NOTHING]> |> <| blocked_on ::= <[t := QNull]> |>
                    <| q_prev := QP |> <| q_next := QN |> in
    dequeue_blocked t s = Done tt s' /\ wait_queue s' q (W1 ++ W2) /\ QN (Queue t) = hd q (Queue <$> W2).
Proof.
  intros Hw. pose proof Hw as [Hr Hq]. unfold dequeue_blocked. step_m. rewrite qunlink_eq. step_m.
  exists (unlink_prev (q_next s) (q_prev s) (Queue t)), (unlink_next (q_next s) (q_prev s) (Queue t)).
  split; [reflexivity|]. rewrite fmap_app, fmap_cons in Hr. split.
  - split; state_simpl; [|intros x Hx; apply Hq; list_in].
    rewrite fmap_app. by apply ring_unlink.
  - unfold unlink_next. rewrite upd_ne; [by apply (ring_next_in _ _ _ _ _ _ Hr)|].
    destruct Hr as [Hs Hnd]. destruct (seg_app (q_next s) (q_prev s) q (Queue <$> W1) (Queue t) (Queue <$> W2) q) as [Happ _].
    destruct (Happ Hs) as [Hs1 _]. pose proof (seg_prev_elem _ _ _ _ _ Hs1) as Hp. intros E. rewrite E in Hp.
    rewrite app_comm_cons in Hnd. by apply (NoDup_app_ne _ _ (Queue t) (Queue t) Hnd Hp ltac:(list_in)).
Qed.

Lemma wake_all_app prio l W1 t : wake_all prio l (W1 ++ [t]) = insert_ready prio (prio t) t (wake_all prio l W1).
Proof. unfold wake_all. by rewrite foldl_app. Qed.
End BitsLemmas.

Section SignalLoop.
Context (after : Z).
Implicit Types (s : RTAI) (t : Z) (l W T : list Z) (bits : semp).

(** The state after the tasks [T] are woken, from [s]. *)
Record wakes_tasks s (T : list Z) s' : Prop := {
  wt_keeps : keeps s s';
  wt_woken : forall t, t ∈ T -> state s' t = READY /\ blocked_on s' t = QNull;
  wt_other : forall t, t ∉ T -> state s' t = state s t /\ blocked_on s' t = blocked_on s t
}.

Lemma wakes_tasks_nil s : wakes_tasks s [] s.
Proof. split; [apply keeps_refl|by intros t ?%not_elem_of_nil|done]. Qed.

Lemma wakes_tasks_cons s1 t T s2 s3 :
  t ∉ T -> keeps s1 s2 -> state s2 = <[t := READY]> (state s1) -> blocked_on s2 = <[t := QNull]> (blocked_on s1) ->
  wakes_tasks s2 T s3 -> wakes_tasks s1 (t :: T) s3.
Proof.
  intros Ht Hk Es Eb [Hk' Hw Ho]. split.
  - by apply (keeps_trans _ s2).
  - intros x [->|Hx]%elem_of_cons; [|by apply Hw]. destruct (Ho t Ht) as [-> ->]. by rewrite Es, Eb, !upd_eq.
  - intros x [Hx HxT]%not_elem_of_cons. destruct (Ho x HxT) as [-> ->]. by rewrite Es, Eb, !upd_ne.
Qed.

Lemma waits_keeps s s' t : waits s t -> keeps s s' -> state s' t = state s t -> waits s' t.
Proof.
  intros (H1 & H2 & H3 & H4 & H5) [_ _ Er Ep Eh _ _ _] Es. unfold waits, TEST_FUN. by rewrite Es, Er, Ep, Eh.
Qed.

Lemma wake_all_keeps prio prio' l W : prio = prio' -> wake_all prio l W = wake_all prio' l W.
Proof. by intros ->. Qed.

(** The loop of [rt_bits_signal] wakes the tasks of the rest [W2] of the
    queue for which the test holds, and leaves the others, [W1] included,
    where they are. *)
Lemma bits_signal_loop_spec fuel bits q W1 W2 l sched s :
  wait_queue s (SemQueue bits) (W1 ++ W2) -> q_next s q = hd (SemQueue bits) (Queue <$> W2) ->
  (length W2 <= fuel)%nat -> (forall t, t ∈ W2 -> waits s t) ->
  ready_list s l -> (length l + length W2 < LIST_FUEL)%nat -> NoDup (l ++ W2) ->
  priority s rt_linux_task = RT_LINUX_PRIORITY ->
  let T := filter (fun t => test_holds after s (mask s bits) t = true) W2 in
  exists s' b, bits_signal_loop after fuel bits q sched s = Done b s' /\ wakes_tasks s T s' /\
    wait_queue s' (SemQueue bits) (W1 ++ filter (fun t => test_holds after s (mask s bits) t <> true) W2) /\
    ready_list s' (wake_all (priority s) l T).
Proof.
  revert q W1 W2 l sched s. induction fuel as [|fuel IH]; intros q W1 W2 l sched s Hw Hq Hf Hwt Hr Hlen Hnd Hlx T.
  { destruct W2; [|simpl in Hf; lia]. exists s, sched. cbn [bits_signal_loop]. step_m. rewrite Hq. cbn [fmap list_fmap hd].
    rewrite bool_decide_true by done. split_and!; [done|apply wakes_tasks_nil|by rewrite filter_nil|done]. }
  destruct W2 as [|t W2].
  { exists s, sched. cbn [bits_signal_loop]. step_m. rewrite Hq. cbn [fmap list_fmap hd].
    rewrite bool_decide_true by done. split_and!; [done|apply wakes_tasks_nil|by rewrite filter_nil|done]. }
  pose proof (Hwt t ltac:(list_in)) as Ht. pose proof Ht as (_ & _ & _ & Hfun & Htl).
  assert (Hqt : Queue t <> SemQueue bits) by done.
  assert (Htt : q_task s (Queue t) = t) by (apply Hw; list_in).
  cbn [bits_signal_loop]. step_m. rewrite Hq, fmap_cons. cbn [hd]. rewrite bool_decide_false by done. rewrite Htt.
  destruct (call_test_valid (TEST_FUN s t) (mask s bits) (TEST_MASK s t) after Hfun) as [b Eb].
  assert (Eh : test_holds after s (mask s bits) t = b) by (unfold test_holds; by rewrite Eb).
  unfold test_bits. step_m. rewrite Eb. step_m.
  assert (Hnd' : t ∉ l /\ t ∉ W2 /\ NoDup (t :: l ++ W2)).
  { assert (Hp : l ++ t :: W2 ≡ₚ t :: l ++ W2) by (symmetry; apply Permutation_middle).
    rewrite Hp in Hnd. pose proof Hnd as [Hn _]%NoDup_cons. rewrite elem_of_app in Hn. tauto. }
  destruct Hnd' as (Hl & Hw2 & Hnd'). simpl in Hlen, Hf.
  destruct b; step_m.
  - destruct (dequeue_waiting s t _ W1 W2 Hw) as (QP & QN & Ed & Hwq & Hn). rewrite Ed. cbn [bind_out].
    set (s1 := s <| prio_passed_to ::= _ |> <| blocked_on ::= _ |> <| q_prev := QP |> <| q_next := QN |>) in *.
    assert (Hk1 : keeps s s1) by (by split).
    destruct (wake_task_spec s1 t l) as (P & N & Ew & Hr2);
      [by apply (waits_keeps s)|done|unfold fits; lia|done|done|].
    rewrite Ew. cbn [bind_out]. set (s2 := s1 <| state ::= _ |> <| rprev := P |> <| rnext := N |>) in *.
    assert (Hk2 : keeps s s2) by (by split).
    assert (Hlen2 : length (insert_ready (priority s1) (priority s1 t) t l) = S (length l))
      by (by rewrite insert_ready_perm).
    destruct (IH (Queue t) W1 W2 (insert_ready (priority s1) (priority s1 t) t l) (sched || true) s2)
      as (s3 & b3 & E3 & Hwk & Hwq3 & Hr3); [by apply (wait_queue_frame s1)|done|lia| |done|lia| |done|].
    { intros x Hx. apply (waits_keeps s); [apply Hwt; list_in|done|]. unfold s2, s1. state_simpl.
      rewrite upd_ne; [done|]. by intros ->. }
    { by rewrite insert_ready_perm. }
    exists s3, b3. rewrite E3. split; [done|]. unfold T. rewrite filter_cons_True by done.
    rewrite filter_cons_False by (by rewrite Eh; intros []).
    split_and!; [|exact Hwq3|exact Hr3].
    apply (wakes_tasks_cons _ _ _ s2); [by intros [_ ?]%list_elem_of_filter|done|done|done|exact Hwk].
  - destruct (IH (Queue t) (W1 ++ [t]) W2 l (sched || false) s) as (s3 & b3 & E3 & Hwk & Hwq3 & Hr3);
      [by rewrite <- app_assoc| |lia|intros x Hx; apply Hwt; list_in|done|lia| |done|].
    { destruct Hw as [Hring _]. rewrite fmap_app, fmap_cons in Hring. apply (ring_next_in _ _ _ _ _ _ Hring). }
    { by apply NoDup_cons in Hnd' as [_ ?]. }
    exists s3, b3. rewrite E3. split; [done|]. unfold T. rewrite filter_cons_False by (by rewrite Eh).
    rewrite (filter_cons_True _ t) by (by rewrite Eh). rewrite <- app_assoc in Hwq3. by split_and!.
Qed.
End SignalLoop.

(** * Theorems *)

(** C32: a signal applies its action to the flags and wakes exactly the
    waiting tasks whose test holds of the new flags: they leave the queue and
    enter the ready list in the order of the queue, each behind the tasks of
    its priority, while the others keep their places.  The call returns the
    new flags without calling the scheduler, even if it woke a task of higher
    priority than the running one. *)
Theorem rt_bits_signal_wakes after s bits setfun masks W l :
  sem_magic s bits = RT_BITS_MAGIC -> 0 <= setfun < 4 ->
  wait_queue s (SemQueue bits) W -> (forall t, t ∈ W -> waits s t) ->
  ready_list s l -> (length l + length W < LIST_FUEL)%nat -> NoDup (l ++ W) ->
  priority s rt_linux_task = RT_LINUX_PRIORITY ->
  exists m s', call_exec setfun (mask s bits) masks after = Some m /\
    rt_bits_signal after bits setfun masks s = Done m s' /\ mask s' bits = m /\
    rt_smp_current s' = rt_smp_current s /\ log s' = log s /\
    let T := filter (fun t => test_holds after s m t = true) W in
    wait_queue s' (SemQueue bits) (filter (fun t => test_holds after s m t <> true) W) /\
    ready_list s' (wake_all (priority s) l T) /\
    (forall t, t ∈ T -> state s' t = READY /\ blocked_on s' t = QNull) /\
    (forall t, t ∉ T -> state s' t = state s t /\ blocked_on s' t = blocked_on s t).
Proof.
  intros Hm Hset Hw Hwt Hr Hlen Hnd Hlx.
  destruct (call_exec setfun (mask s bits) masks after) as [m|] eqn:E.
  2:{ unfold call_exec in E. rewrite (proj2 (Z.ltb_ge _ _)) in E by lia.
      destruct (lookup_lt_is_Some_2 exec_fun (Z.to_nat setfun)) as [f Hf]; [simpl; lia|]. by rewrite Hf in E. }
  unfold rt_bits_signal. step_m. rewrite Hm, Z.eqb_refl. unfold exec_bits, set_mask. step_m. rewrite E. step_m.
  set (s1 := s <| sem_count ::= _ |>).
  assert (Emask : mask s1 bits = m) by (unfold mask, s1; state_simpl; by rewrite upd_eq).
  destruct (bits_signal_loop_spec after LIST_FUEL bits (SemQueue bits) [] W l false s1)
    as (s2 & b & -> & [Hk Hwo Hot] & Hwq & Hrl); [by apply (wait_queue_frame s)| |lia|exact Hwt|exact Hr|exact Hlen|done|exact Hlx|].
  { destruct Hw as [Hring _]. unfold s1. state_simpl. by apply (ring_next _ _ _ _ Hring). }
  step_m. rewrite Emask in *. exists m, s2.
  assert (Em : mask s2 bits = m) by (unfold mask; by rewrite (kp_mask _ _ Hk)).
  split_and!; try done; [by rewrite (kp_current _ _ Hk)|by rewrite (kp_log _ _ Hk)].
Qed.

Section Tests.
Implicit Types (m i : Z).

Lemma land_all m m0 :
  (Z.land m m0 =? m0) = true <-> forall i, 0 <= i -> Z.testbit m0 i = true -> Z.testbit m i = true.
Proof.
  rewrite Z.eqb_eq. split.
  - intros E i Hi H. rewrite <- E, Z.land_spec in H. by apply andb_true_iff in H as [? _].
  - intros H. apply Z.bits_inj'. intros i Hi. rewrite Z.land_spec. specialize (H i Hi).
    destruct (Z.testbit m0 i); [|apply andb_false_r]. by rewrite H.
Qed.

Lemma land_any m m0 : 0 <= m0 ->
  nz (Z.land m m0) = true <-> exists i, 0 <= i /\ Z.testbit m0 i = true /\ Z.testbit m i = true.
Proof.
  intros H0. rewrite nz_true. split.
  - intros Hn. assert (0 < Z.land m m0) by (pose proof (proj2 (Z.land_nonneg m m0) (or_intror H0)); lia).
    exists (Z.log2 (Z.land m m0)). pose proof (Z.bit_log2 _ H) as Hb. rewrite Z.land_spec in Hb.
    apply andb_true_iff in Hb as [? ?]. split_and!; [apply Z.log2_nonneg|done|done].
  - intros (i & Hi & H1 & H2) E. pose proof (Z.land_spec m m0 i) as Hs. rewrite E, Z.bits_0, H1, H2 in Hs. done.
Qed.

(** The tests with two masks: how the test of [masks] and that of the word
    after it are combined. *)
Definition two_masks : list ((bool -> bool -> bool) * (Z -> Z -> Z -> bool) * (Z -> Z -> Z -> bool)) :=
  [(andb, all_set, any_set); (andb, all_set, all_clr); (andb, all_set, any_clr);
   (andb, any_set, all_clr); (andb, any_set, any_clr); (andb, all_clr, any_clr);
   (orb, all_set, any_set); (orb, all_set, all_clr); (orb, all_set, any_clr);
   (orb, any_set, all_clr); (orb, any_set, any_clr); (orb, all_clr, any_clr)].

(** C35: the tests and actions of the tables do, bit by bit, what their names
    say: each of the first four looks at the bits of its mask only, the twelve
    others combine two of these on two masks, and the actions set and clear
    exactly the bits of their masks. *)
Theorem bits_tables_mean m m0 m1 :
  0 <= m0 ->
  (call_test 0 m m0 m1 = Some true <->
     forall i, 0 <= i -> Z.testbit m0 i = true -> Z.testbit m i = true) /\
  (call_test 1 m m0 m1 = Some true <->
     exists i, 0 <= i /\ Z.testbit m0 i = true /\ Z.testbit m i = true) /\
  (call_test 2 m m0 m1 = Some true <->
     forall i, 0 <= i -> Z.testbit m0 i = true -> Z.testbit m i = false) /\
  (call_test 3 m m0 m1 = Some true <->
     exists i, 0 <= i /\ Z.testbit m0 i = true /\ Z.testbit m i = false) /\
  (forall k op f g, two_masks !! k = Some (op, f, g) ->
     call_test (4 + Z.of_nat k) m m0 m1 = Some (op (f m m0 m1) (g m m1 m0))) /\
  (forall i x y z, 0 <= i -> call_exec 0 m m0 m1 = Some x -> call_exec 1 m m0 m1 = Some y ->
     call_exec 2 m m0 m1 = Some z ->
     Z.testbit x i = Z.testbit m i || Z.testbit m0 i /\
     Z.testbit y i = Z.testbit m i && negb (Z.testbit m0 i) /\
     Z.testbit z i = (Z.testbit m i || Z.testbit m0 i) && negb (Z.testbit m1 i)).
Proof.
  intros H0. change (call_test 0 m m0 m1) with (Some (all_set m m0 m1)).
  change (call_test 1 m m0 m1) with (Some (any_set m m0 m1)).
  change (call_test 2 m m0 m1) with (Some (all_clr m m0 m1)).
  change (call_test 3 m m0 m1) with (Some (any_clr m m0 m1)).
  assert (Hs : forall b : bool, Some b = Some true <-> b = true) by (intros b; split; congruence).
  split_and!.
  - rewrite Hs. unfold all_set. apply land_all.
  - rewrite Hs. unfold any_set. by apply land_any.
  - rewrite Hs. unfold all_clr. rewrite land_all. split; intros H i Hi Hb; specialize (H i Hi Hb);
      rewrite ?Z.lnot_spec in * by done; by destruct (Z.testbit m i).
  - rewrite Hs. unfold any_clr. rewrite land_any by done.
    split; intros (i & Hi & Hb & Hm); exists i; rewrite ?Z.lnot_spec in * by done; by destruct (Z.testbit m i).
  - intros k op f g Hk. destruct k as [|[|[|[|[|[|[|[|[|[|[|[|k]]]]]]]]]]]]; try discriminate Hk; injection Hk as <- <- <-;
      unfold call_test; cbn; f_equal; first [apply andb_comm|apply orb_comm|reflexivity].
  - intros i x y z Hi [= <-] [= <-] [= <-]. unfold set_bits, clr_bits, set_clr_bits.
    by rewrite !Z.land_spec, !Z.lor_spec, !Z.lnot_spec.
Qed.
End Tests.

(** A test with two masks is not a function of its arguments and of the
    flags: with the same of both, the call returns 1 or 0 as the word that
    follows its argument in memory has it. *)
Theorem bits_second_mask_stray s bits m0 e :
  sem_magic s bits = RT_BITS_MAGIC -> mask s bits <> 0 -> all_set (mask s bits) m0 0 = false ->
  (exists s', rt_bits_wait_if (mask s bits) bits 10 m0 3 e s = Done (1, Some (mask s bits)) s') /\
  rt_bits_wait_if 0 bits 10 m0 3 e s = Done (0, Some (mask s bits)) s.
Proof.
  intros Hm Hn Ha. unfold rt_bits_wait_if, test_bits, exec_bits, set_mask. step_m. rewrite Hm, Z.eqb_refl. step_m.
  assert (E : forall w, call_test 10 (mask s bits) m0 w = Some (nz (Z.land (mask s bits) w))).
  { intros w. change (call_test 10 (mask s bits) m0 w) with (Some (all_set_or_any_set (mask s bits) m0 w)).
    unfold all_set_or_any_set. unfold all_set in Ha. by rewrite Ha, orb_false_r. }
  rewrite !E, Z.land_diag, Z.land_0_r, (proj2 (nz_true _) Hn). change (nz 0) with false. step_m.
  split; [|done]. change (call_exec 3 (mask s bits) e (mask s bits)) with (Some (mask s bits)). step_m. by eexists.
Qed.

(** ** Witnesses *)

(** Flags 1 and 2 of [Sem 7] are set; task 64 waits for flag 4, task 80 for
    flag 8; the tasks 32 and 48 are ready. *)
Definition demo_bits : RTAI :=
  run (rt_bits_init (Sem 7) 3;;
       set_test 64 1 4;; enqueue_waiting 64 (SemQueue (Sem 7));; wr state 64 (Z.lor READY SEMAPHORE);;
       set_test 80 0 8;; enqueue_waiting 80 (SemQueue (Sem 7));; wr state 80 (Z.lor READY SEMAPHORE))
    (new_task 80 4 demo).

Lemma demo_bits_waits t : t ∈ [64; 80] -> waits demo_bits t.
Proof. intros H. list_norm; subst; split_and!; by_eval. Qed.

Lemma rt_bits_signal_wakes_witness :
  exists m s', call_exec 0 (mask demo_bits (Sem 7)) 4 0 = Some m /\
    rt_bits_signal 0 (Sem 7) 0 4 demo_bits = Done m s' /\ mask s' (Sem 7) = m /\
    rt_smp_current s' = rt_smp_current demo_bits /\ log s' = log demo_bits /\
    let T := filter (fun t => test_holds 0 demo_bits m t = true) [64; 80] in
    wait_queue s' (SemQueue (Sem 7)) (filter (fun t => test_holds 0 demo_bits m t <> true) [64; 80]) /\
    ready_list s' (wake_all (priority demo_bits) [32; 48] T) /\
    (forall t, t ∈ T -> state s' t = READY /\ blocked_on s' t = QNull) /\
    (forall t, t ∉ T -> state s' t = state demo_bits t /\ blocked_on s' t = blocked_on demo_bits t).
Proof.
  apply (rt_bits_signal_wakes 0 demo_bits (Sem 7) 0 4 [64; 80] [32; 48]);
    [by_eval|lia| |exact demo_bits_waits|solve_ring|vm_compute; lia
    |repeat (apply NoDup_cons; split; [not_in|]); apply NoDup_nil_2|by_eval].
  split; [solve_ring|]. intros t H. list_norm; subst; by_eval.
Defined.

(** Of the two only the first wakes. *)
Example rt_bits_signal_wakes_64 :
  filter (fun t => test_holds 0 demo_bits 7 t = true) [64; 80] = [64].
Proof. vm_compute. reflexivity. Qed.

Lemma bits_tables_mean_witness :
  0 <= 6 /\ (call_test 0 7 6 0 = Some true <->
    forall i, 0 <= i -> Z.testbit 6 i = true -> Z.testbit 7 i = true).
Proof. split; [lia|]. apply (bits_tables_mean 7 6 0). lia. Defined.

Lemma bits_second_mask_stray_witness :
  (exists s', rt_bits_wait_if 3 (Sem 7) 10 4 3 0 demo_bits = Done (1, Some 3) s') /\
  rt_bits_wait_if 0 (Sem 7) 10 4 3 0 demo_bits = Done (0, Some 3) demo_bits.
Proof. apply (bits_second_mask_stray demo_bits (Sem 7) 4 0); by_eval. Defined.
