(* ===== verification/Tasklets.v ===== *)
(** Tasklets: tasklets and timers.

    [tasklets/tasklets.c]: functions that any task can call ([rt_exec_tasklet]),
    and functions that the task [timers_manager] calls at given times, once or
    periodically, by priority.  Both kinds are structs linked in a ring; the
    timers are sorted by firing time.  A tasklet of user space has a task of
    its own, which is resumed instead of a call.

    The services use those of the scheduler: [sched] is its state.  The
    handlers, and the memory the structs are in, are those of the
    application: arguments of the definitions. *)

From S2P Require Import Prelude Resume DList SchedState SchedQueues Schedule SchedTask.

(** What the module asks of the rest of the system. *)
Inductive tevent : Type :=
  | Fire (timer handler data : Z) | CopyToUser (usptasklet tasklet : Z)
  | SaveFpu | RestoreFpuEnv | ScheduleTimeout (ticks : Z) | SchedFree (tasklet : Z).

Record TASKLETS : Type := mkTASKLETS {
  (* struct rt_tasklet_struct, by address *)
  t_next : Z -> Z;
  t_prev : Z -> Z;
  t_priority : Z -> Z;
  t_uses_fpu : Z -> Z;
  firing_time : Z -> Z;
  t_period : Z -> Z;
  handler : Z -> Z;
  t_data : Z -> Z;
  id : Z -> Z;
  thread : Z -> Z;
  t_task : Z -> Z;
  usptasklet : Z -> Z;
  (* tuned.timers_tol[0] *)
  timers_tol : Z;
  (* the scheduler *)
  sched : RTAI;
  tlog : list tevent
}.

#[export] Instance TASKLETS_eta : Eta TASKLETS := fun s =>
  mkTASKLETS (t_next s) (t_prev s) (t_priority s) (t_uses_fpu s) (firing_time s) (t_period s)
    (handler s) (t_data s) (id s) (thread s) (t_task s) (usptasklet s) (timers_tol s) (sched s)
    (tlog s).

#[export] Instance set_t_next : Setter t_next := ltac:(mk_setter).
#[export] Instance set_t_prev : Setter t_prev := ltac:(mk_setter).
#[export] Instance set_t_priority : Setter t_priority := ltac:(mk_setter).
#[export] Instance set_t_uses_fpu : Setter t_uses_fpu := ltac:(mk_setter).
#[export] Instance set_firing_time : Setter firing_time := ltac:(mk_setter).
#[export] Instance set_t_period : Setter t_period := ltac:(mk_setter).
#[export] Instance set_handler : Setter handler := ltac:(mk_setter).
#[export] Instance set_t_data : Setter t_data := ltac:(mk_setter).
#[export] Instance set_id : Setter id := ltac:(mk_setter).
#[export] Instance set_thread : Setter thread := ltac:(mk_setter).
#[export] Instance set_t_task : Setter t_task := ltac:(mk_setter).
#[export] Instance set_usptasklet : Setter usptasklet := ltac:(mk_setter).
#[export] Instance set_timers_tol : Setter timers_tol := ltac:(mk_setter).
#[export] Instance set_sched : Setter sched := ltac:(mk_setter).
#[export] Instance set_tlog : Setter tlog := ltac:(mk_setter).

Abbreviation T A := (M TASKLETS A).

(** The addresses of the static structs [timers_list], [tasklets_list] and
    [timers_manager]. *)
Definition timers_list : Z := 4096.
Definition tasklets_list : Z := 4160.
Definition timers_manager : Z := 8192.

(** The static data: the two lists are empty. *)
Definition tasklets_zero (sched_ : RTAI) : TASKLETS :=
  let self a := fun x => if x =? timers_list then timers_list
                         else if x =? tasklets_list then tasklets_list else a in
  mkTASKLETS (self 0) (self 0) (fun x => if x =? timers_list then RT_LOWEST_PRIORITY else 0)
    (fun _ => 0) (fun x => if x =? timers_list then RT_TIME_END else 0) (fun _ => 0) (fun _ => 0)
    (fun _ => 0) (fun _ => 0) (fun _ => 0) (fun _ => 0) (fun _ => 0) 0 sched_ [].

Definition log_tasklet (e : tevent) : T unit := modify (fun s => s <| tlog ::= cons e |>).

Definition schd {A} (m : K A) : T A := lift sched m.

(** * Linking *)

(** [x->next = b; x->prev = b->prev; (b->prev)->next = x; b->prev = x;] *)
Definition tk_link (x b : Z) : T unit :=
  wr t_next x b;;
  s ← get;
  wr t_prev x (t_prev s b);;
  s ← get;
  wr t_next (t_prev s b) x;;
  wr t_prev b x.

(** [(x->next)->prev = x->prev; (x->prev)->next = x->next;] *)
Definition tk_unlink (x : Z) : T unit :=
  s ← get;
  wr t_prev (t_next s x) (t_prev s x);;
  s ← get;
  wr t_next (t_prev s x) (t_next s x).

(** [x->next != x && x->prev != x] *)
Definition is_linked (s : TASKLETS) (x : Z) : bool :=
  negb (t_next s x =? x) && negb (t_prev s x =? x).

(** [x->next = x->prev = x;] *)
Definition tk_self (x : Z) : T unit := wr t_prev x x;; wr t_next x x.

(** The task of a tasklet of user space gets its priority, and user space a
    copy of the struct. *)
Definition init_task (t priority_ pid : Z) : T unit :=
  s ← get;
  if negb (nz pid) then wr t_task t 0
  else
    schd (wr priority (t_task s t) priority_);;
    log_tasklet (CopyToUser (usptasklet s t) t).

Definition copy_if_task (t : Z) : T unit :=
  s ← get;
  when (nz (t_task s t)) (log_tasklet (CopyToUser (usptasklet s t) t)).

(** * Tasklets *)

Definition rt_insert_tasklet (tasklet priority_ handler_ data_ id_ pid : Z) : T Z :=
  if negb (nz handler_) || negb (nz id_) then mret (- EINVAL)
  else
    wr t_uses_fpu tasklet 0;;
    wr t_priority tasklet priority_;;
    wr handler tasklet handler_;;
    wr t_data tasklet data_;;
    wr id tasklet id_;;
    init_task tasklet priority_ pid;;
    tk_link tasklet tasklets_list;;
    mret 0.

Definition rt_remove_tasklet (tasklet : Z) : T unit :=
  s ← get;
  when (is_linked s tasklet) (tk_unlink tasklet;; tk_self tasklet).

(** [while ((tasklet = tasklet->next) != &tasklets_list) if (id == tasklet->id)
    return tasklet;] *)
Definition rt_find_tasklet_by_id (s : TASKLETS) (id_ : Z) : option Z :=
  t ← walk LIST_FUEL (fun t => negb (t =? tasklets_list) && negb (id_ =? id s t)) (t_next s)
        (t_next s tasklets_list);
  mret (if t =? tasklets_list then 0 else t).

Definition rt_set_tasklet_priority (tasklet priority_ : Z) : T unit :=
  wr t_priority tasklet priority_;;
  s ← get;
  when (nz (t_task s tasklet)) (schd (wr priority (t_task s tasklet) priority_)).

Definition rt_set_tasklet_handler (tasklet handler_ : Z) : T Z :=
  if negb (nz handler_) then mret (- EINVAL)
  else wr handler tasklet handler_;; copy_if_task tasklet;; mret 0.

Definition rt_set_tasklet_data (tasklet data_ : Z) : T unit :=
  wr t_data tasklet data_;; copy_if_task tasklet.

Definition rt_tasklet_use_fpu (tasklet use_fpu : Z) : T Z :=
  wr t_uses_fpu tasklet (b2z (nz use_fpu));;
  s ← get;
  mret (t_task s tasklet).

(** * Timers *)

(** [while ((timer = timer->next) != &timers_list) if (timer->priority < priority)
    priority = timer->priority;] *)
Fixpoint min_prio_loop (fuel : nat) (s : TASKLETS) (timer priority_ : Z) : option Z :=
  let timer := t_next s timer in
  if timer =? timers_list then Some priority_
  else match fuel with
       | O => None
       | S fuel' =>
           min_prio_loop fuel' s timer
             (if t_priority s timer <? priority_ then t_priority s timer else priority_)
       end.

(** The manager takes the priority of the highest timer, if that is higher
    than its own. *)
Definition raise_manager (priority_ : Z) : K unit :=
  s ← get;
  when (priority s timers_manager >? priority_)
    (wr priority timers_manager priority_;;
     when ((state s timers_manager =? READY) || (state s timers_manager =? Z.lor READY RUNNING))
       (rem_ready_task timers_manager;; enq_ready_task timers_manager)).

Definition asgn_min_prio : T unit :=
  s ← get;
  let timer := t_next s timers_list in
  priority_ ← of_option (min_prio_loop LIST_FUEL s timer (t_priority s timer));
  schd (raise_manager priority_).

(** [while (firing_time >= (tmr = tmr->next)->firing_time);] from the head of
    the list, and the timer linked before [tmr]. *)
Definition tmr_insert (timer firing_time_ : Z) : T unit :=
  s ← get;
  tmr ← walkM (fun t => firing_time_ >=? firing_time s t) (t_next s) (t_next s timers_list);
  tk_link timer tmr.

Definition set_timer_firing_time (timer firing_time_ : Z) : T unit :=
  s ← get;
  when (is_linked s timer)
    (wr firing_time timer firing_time_;;
     tk_unlink timer;;
     tmr_insert timer firing_time_).

(** A timer that is now the first, and earlier than the time the manager
    sleeps until. *)
Definition manager_late (s : TASKLETS) (timer firing_time_ : Z) : bool :=
  (t_next s timers_list =? timer) && has (state (sched s) timers_manager) DELAYED &&
  (firing_time_ <? resume_time (sched s) timers_manager).

(** The manager is to wake up earlier: [timers_manager.resume_time =
    firing_time;] and the move in the timed list. *)
Definition advance_manager (firing_time_ : Z) : K unit :=
  wr resume_time timers_manager firing_time_;;
  rem_timed_task timers_manager;;
  enq_timed_task timers_manager.

Definition deadline_inheritance (timer firing_time_ : Z) : T unit :=
  s ← get;
  when (manager_late s timer firing_time_) (schd (advance_manager firing_time_);; schd rt_schedule).

Definition inherit_priority (timer : Z) : T unit :=
  s ← get;
  when (t_priority s timer <? priority (sched s) timers_manager)
    (schd (wr priority timers_manager (t_priority s timer))).

Definition rt_insert_timer (timer priority_ firing_time_ period_ handler_ data_ pid : Z) : T Z :=
  if negb (nz handler_) then mret (- EINVAL)
  else
    wr t_uses_fpu timer 0;;
    wr t_priority timer priority_;;
    wr firing_time timer firing_time_;;
    wr t_period timer period_;;
    wr handler timer handler_;;
    wr t_data timer data_;;
    init_task timer priority_ pid;;
    tmr_insert timer firing_time_;;
    inherit_priority timer;;
    deadline_inheritance timer firing_time_;;
    mret 0.

Definition rt_remove_timer (timer : Z) : T unit :=
  s ← get;
  when (is_linked s timer) (tk_unlink timer;; tk_self timer;; asgn_min_prio).

Definition rt_set_timer_priority (timer priority_ : Z) : T unit :=
  rt_set_tasklet_priority timer priority_;; asgn_min_prio.

Definition rt_set_timer_firing_time (timer firing_time_ : Z) : T unit :=
  set_timer_firing_time timer firing_time_;; deadline_inheritance timer firing_time_.

Definition rt_set_timer_period (timer period_ : Z) : T unit := wr t_period timer period_.

(** The first timer due with the highest priority (0: [timers_list], if there
    is none), and that priority:
    [while ((tmr = tmr->next)->firing_time <= now) if (tmr->priority < priority)
    priority = (timer = tmr)->priority;] *)
Fixpoint find_due (fuel : nat) (s : TASKLETS) (now tmr timer priority_ : Z) : option (Z * Z) :=
  let tmr := t_next s tmr in
  if firing_time s tmr <=? now then
    match fuel with
    | O => None
    | S fuel' =>
        if t_priority s tmr <? priority_ then find_due fuel' s now tmr tmr (t_priority s tmr)
        else find_due fuel' s now tmr timer priority_
    end
  else Some (timer, priority_).

(** A timer that fires is taken out, or moved to its next firing time. *)
Definition retire_timer (timer : Z) : T unit :=
  s ← get;
  if negb (nz (t_period s timer)) then tk_unlink timer;; tk_self timer
  else set_timer_firing_time timer (i64 (firing_time s timer + t_period s timer)).

Section Handlers.
(** [run_handler h data]: the effect of [h(data)]. *)
Context (run_handler : Z -> Z -> T unit).

Definition call_handler (t : Z) : T unit :=
  s ← get;
  log_tasklet (Fire t (handler s t) (t_data s t));;
  run_handler (handler s t) (t_data s t).

Definition rt_exec_tasklet (tasklet : Z) : T Z :=
  s ← get;
  if nz tasklet && is_linked s tasklet then
    (if negb (nz (t_task s tasklet)) then call_handler tasklet
     else _ ← schd (rt_task_resume (t_task s tasklet)); mret tt);;
    mret 0
  else mret (- EINVAL).

(** The call of a timer; the result is [used_fpu]. *)
Definition fire_timer (timer used_fpu : Z) : T Z :=
  s ← get;
  if negb (nz (t_task s timer)) then
    used_fpu ←
      (if negb (nz used_fpu) && nz (t_uses_fpu s timer) then log_tasklet SaveFpu;; mret 1
       else mret used_fpu);
    call_handler timer;;
    mret used_fpu
  else _ ← schd (rt_task_resume (t_task s timer)); mret used_fpu.

(** The loop over the timers to be fired; the result is [used_fpu] after
    it. *)
Fixpoint fire_loop (fuel : nat) (now : Z) : T Z :=
  let used_fpu := 0 in
  s ← get;
  '(timer, priority_) ← of_option (find_due LIST_FUEL s now timers_list timers_list RT_LOWEST_PRIORITY);
  schd (wr priority timers_manager priority_);;
  if timer =? timers_list then mret used_fpu
  else match fuel with
       | O => stuck
       | S fuel' =>
           retire_timer timer;;
           used_fpu ← fire_timer timer used_fpu;
           fire_loop fuel' now
       end.

(** One turn of the loop of [rt_timers_manager], from the end of its sleep;
    [fuel] bounds the number of calls. *)
Definition timers_manager_turn (fuel : nat) : T unit :=
  s ← get;
  let now := i64 (resume_time (sched s) timers_manager + timers_tol s) in
  used_fpu ← fire_loop fuel now;
  when (nz used_fpu) (log_tasklet RestoreFpuEnv);;
  asgn_min_prio.

Definition rt_timers_manager_loop (fuel : nat) : T unit :=
  s ← get;
  schd (rt_sleep_until (firing_time s (t_next s timers_list)));;
  timers_manager_turn fuel.
End Handlers.

(** * Tasklets of user space *)

(** [tasklet]: the result of [sched_malloc], which the code does not check. *)
Definition rt_init_tasklet (tasklet : Z) : T Z :=
  if negb (nz tasklet) then stuck
  else
    wr t_next tasklet 0;; wr t_prev tasklet 0;; wr t_priority tasklet 0;;
    wr t_uses_fpu tasklet 0;; wr firing_time tasklet 0;; wr t_period tasklet 0;;
    wr handler tasklet 0;; wr t_data tasklet 0;; wr id tasklet 0;; wr thread tasklet 0;;
    wr t_task tasklet 0;; wr usptasklet tasklet 0;;
    mret tasklet.

Definition rt_register_task (tasklet usptasklet_ task : Z) : T unit :=
  wr t_task tasklet task;;
  wr usptasklet tasklet usptasklet_;;
  log_tasklet (CopyToUser usptasklet_ tasklet).

(** [current->state = TASK_INTERRUPTIBLE; schedule_timeout(2);] *)
Definition linux_nap : T unit :=
  s ← get;
  schd (wr p_state (current (sched s)) 1);;
  switch (fun s => s <| tlog ::= cons (ScheduleTimeout 2) |>).

(** [while (cond) { nap }], for at most [turns] naps. *)
Fixpoint nap_while (turns : nat) (cond : TASKLETS -> bool) : T unit :=
  s ← get;
  if cond s then
    match turns with
    | O => stuck
    | S turns' => linux_nap;; nap_while turns' cond
    end
  else mret tt.

Definition is_soft (tasklet : Z) (s : TASKLETS) : bool :=
  negb (nz (t_task s tasklet)) || negb (has (state (sched s) (t_task s tasklet)) SUSPENDED).

Definition rt_wait_tasklet_is_hard (turns : nat) (tasklet thread_ : Z) : T unit :=
  wr thread tasklet thread_;;
  nap_while turns (is_soft tasklet).

(** [lnx_pid]: the pid of a Linux task; [find_task_by_pid]: whether there is
    a process of this pid. *)
Definition rt_delete_tasklet (lnx_pid : Z -> Z) (find_task_by_pid : TASKLETS -> Z -> bool)
    (turns : nat) (tasklet : Z) : T Z :=
  rt_remove_tasklet tasklet;;
  wr handler tasklet 0;;
  s ← get;
  let pid := lnx_pid (lnxtsk (sched s) (t_task s tasklet)) in
  log_tasklet (CopyToUser (usptasklet s tasklet) tasklet);;
  _ ← schd (rt_task_resume (t_task s tasklet));
  nap_while turns (fun s => find_task_by_pid s pid);;
  s ← get;
  let thread_ := thread s tasklet in
  log_tasklet (SchedFree tasklet);;
  mret thread_.

(** * The module

    [st]: the stack of the manager. *)
Definition init_module (st : Z) : T Z :=
  _ ← schd (rt_task_init st timers_manager RT_LOWEST_PRIORITY 0 0);
  _ ← schd (rt_task_resume timers_manager);
  mret 0.

Definition cleanup_module : T unit := _ ← schd (rt_task_delete timers_manager); mret tt.

(** * Lemmas on the lists *)

Lemma elem_middle {A} (x : A) l1 l2 : x ∈ l1 ++ x :: l2.
Proof. rewrite elem_of_app, elem_of_cons. tauto. Qed.

Lemma elem_skip {A} (x y : A) l1 l2 : x ∈ l1 ++ l2 -> x ∈ l1 ++ y :: l2.
Proof. rewrite !elem_of_app, elem_of_cons. tauto. Qed.

Lemma fits_skip {A} (y : A) l1 l2 : fits (l1 ++ y :: l2) -> fits (l1 ++ l2) /\ fits (y :: l1 ++ l2).
Proof. unfold fits. rewrite !length_app. cbn [length]. rewrite length_app. lia. Qed.

Lemma sorted_skip {A} (k : A -> Z) (l1 l2 : list A) x : sorted_by k (l1 ++ x :: l2) -> sorted_by k (l1 ++ l2).
Proof.
  unfold sorted_by. induction l1 as [|a l1 IH]; simpl; intros S; inversion S as [|? ? S' F]; subst; [done|].
  constructor; [by apply IH|]. rewrite Forall_forall in *. intros y Hy. by apply F, elem_skip.
Qed.

Section TaskletLemmas.
Implicit Types (s : TASKLETS) (t x : Z) (l : list Z).

Definition tk_ring s (h : Z) l : Prop := ring (t_next s) (t_prev s) h l.

(** Only the links differ. *)
Definition with_links s (N P : Z -> Z) : TASKLETS := s <| t_next := N |> <| t_prev := P |>.

Lemma tk_link_spec s h t l1 l2 :
  tk_ring s h (l1 ++ l2) -> t ∉ h :: l1 ++ l2 ->
  exists N P, tk_link t (hd h l2) s = Done tt (with_links s N P) /\ ring N P h (l1 ++ t :: l2) /\
    (forall y, y ∉ t :: h :: l1 ++ l2 -> N y = t_next s y /\ P y = t_prev s y).
Proof.
  intros Hr Ht. unfold tk_link, with_links. run_m. do 2 eexists. split; [by destruct s|].
  assert (Hb : hd h l2 <> t) by (destruct l2; list_in).
  pose proof (seg_prev_elem _ _ _ _ _ (ring_split _ _ _ _ _ Hr)) as Hp.
  assert (Hpb : t_prev s (hd h l2) <> t) by (intros E; rewrite E in Hp; list_in).
  rewrite (upd_ne (t_prev s)) by done.
  assert (HN : forall y, (<[t_prev s (hd h l2) := t]> (<[t := hd h l2]> (t_next s))) y =
                         link_next (t_next s) (t_prev s) t (hd h l2) y).
  { intros y. unfold link_next. rewrite !upd_dec. repeat case_decide; congruence. }
  split.
  - apply (ring_frame (link_next (t_next s) (t_prev s) t (hd h l2))
             (link_prev (t_prev s) t (hd h l2))); [done|done|]. by apply ring_link.
  - intros y Hy. rewrite HN. split; [eapply link_next_out|by eapply link_prev_out]; done.
Qed.

Lemma tk_unlink_spec s h t l1 l2 :
  tk_ring s h (l1 ++ t :: l2) ->
  exists N P, tk_unlink t s = Done tt (with_links s N P) /\ ring N P h (l1 ++ l2) /\
    (forall y, y ∉ h :: l1 ++ t :: l2 -> N y = t_next s y /\ P y = t_prev s y).
Proof.
  intros Hr. unfold tk_unlink, with_links. run_m. do 2 eexists. split; [by destruct s|].
  rewrite upd_self. split; [by apply ring_unlink|].
  intros y Hy. by eapply unlink_out.
Qed.

Lemma is_linked_in s h l t : tk_ring s h l -> t ∈ l -> is_linked s t = true.
Proof.
  intros Hr (l1 & l2 & ->)%list_elem_of_split. pose proof (ring_middle _ _ _ _ _ _ Hr) as (Hh & Hn & _).
  pose proof (ring_next_in _ _ _ _ _ _ Hr) as E. destruct Hr as [[H1 _]%seg_app _].
  pose proof (seg_prev_elem _ _ _ _ _ H1) as Hp. unfold is_linked. rewrite E.
  rewrite andb_true_iff, !negb_true_iff, !Z.eqb_neq. split.
  - destruct l2; list_in.
  - intros Ep. rewrite Ep in Hp. list_in.
Qed.
End TaskletLemmas.

(** * The timers *)

Section Timers.
Implicit Types (s : TASKLETS) (t x : Z) (l : list Z).

(** The timers, sorted by firing time; the head of the list is later than
    all of them. *)
Record timers s l : Prop := {
  tm_ring : tk_ring s timers_list l;
  tm_sorted : sorted_by (firing_time s) l;
  tm_head : firing_time s timers_list = RT_TIME_END;
  tm_end : forall t, t ∈ l -> firing_time s t < RT_TIME_END
}.

(** The place of a timer: after those that fire at the same time or before. *)
Definition insert_tmr (ft : Z -> Z) (t : Z) l : list Z := insert_after (fun y => ft y <=? ft t) t l.

Lemma insert_tmr_perm ft t l : insert_tmr ft t l ≡ₚ t :: l.
Proof. apply insert_after_perm. Qed.

Lemma insert_tmr_sorted ft t l : sorted_by ft l -> sorted_by ft (insert_tmr ft t l).
Proof. apply insert_after_sorted; intros y Hy; bool_prop; lia. Qed.

Lemma tmr_insert_spec s t l :
  timers s l -> fits l -> t ∉ timers_list :: l -> firing_time s t < RT_TIME_END ->
  exists N P, tmr_insert t (firing_time s t) s = Done tt (with_links s N P) /\
    timers (with_links s N P) (insert_tmr (firing_time s) t l) /\
    (forall y, y ∉ t :: timers_list :: l -> N y = t_next s y /\ P y = t_prev s y).
Proof.
  intros [Hr Hs Hh He] Hf Ht Hft. unfold tmr_insert, walkM. run_m.
  rewrite (walk_ring _ _ _ _ _ _ Hr); [|rewrite Hh, Z.geb_leb; by apply Z.leb_gt|done]. run_m.
  rewrite (drop_while_ext _ (fun y => firing_time s y <=? firing_time s t)) by (intros; apply Z.geb_leb).
  set (p := fun y => firing_time s y <=? firing_time s t) in *.
  destruct (tk_link_spec s timers_list t (take_while p l) (drop_while p l)) as (N & P & E & R & Ho);
    rewrite ?take_drop_while in *; [done|done|].
  exists N, P. split; [done|]. split; [|done]. split; unfold with_links; state_simpl.
  - unfold tk_ring. state_simpl. exact R.
  - by apply insert_tmr_sorted.
  - done.
  - intros x. unfold insert_tmr. rewrite insert_after_elem. intros [->|Hx]; auto.
Qed.

(** What reading a timer sees. *)
Lemma timers_sched s l σ : timers s l -> timers (s <| sched := σ |>) l.
Proof. intros [? ? ? ?]. split; unfold tk_ring; state_simpl; done. Qed.

Lemma timers_elem s l t : timers s l -> t ∈ l -> t <> timers_list.
Proof. intros [Hr _ _ _] Hx. by eapply ring_not_head. Qed.

(** Removing a timer from the ring, its firing time changed or not. *)
Lemma timers_middle s l1 t l2 :
  timers s (l1 ++ t :: l2) -> t <> timers_list /\ t ∉ l1 ++ l2 /\ NoDup (l1 ++ l2).
Proof.
  intros [Hr _ _ _]. destruct (ring_middle _ _ _ _ _ _ Hr) as (? & ? & _).
  apply ring_NoDup in Hr. rewrite <- Permutation_middle in Hr. by apply NoDup_cons in Hr as [_ ?].
Qed.

Lemma timers_unlink s t l1 l2 v :
  timers s (l1 ++ t :: l2) ->
  exists N P, let s' := with_links (s <| firing_time ::= <[t := v]> |>) N P in
    tk_unlink t (s <| firing_time ::= <[t := v]> |>) = Done tt s' /\ timers s' (l1 ++ l2).
Proof.
  intros Ht. pose proof (timers_middle _ _ _ _ Ht) as (Hh & Hn & _). destruct Ht as [Hr Hs Hh' He].
  destruct (tk_unlink_spec (s <| firing_time ::= <[t := v]> |>) timers_list t l1 l2) as (N & P & E & R & Ho);
    [unfold tk_ring; state_simpl; exact Hr|].
  exists N, P. cbn zeta. rewrite E. split; [done|].
  split; unfold with_links, tk_ring; state_simpl.
  - done.
  - apply (sorted_by_ext (firing_time s)).
    + intros x Hx. rewrite upd_ne; [done|]. by intros ->.
    + by eapply sorted_skip.
  - by rewrite upd_ne.
  - intros x Hx. rewrite upd_ne by (by intros ->). apply He. set_solver.
Qed.
End Timers.

(** * Moving a timer *)

Section Moving.
Implicit Types (s : TASKLETS) (t x : Z) (l : list Z).

(** A timer is moved to the place of its new firing time. *)
Lemma set_timer_firing_time_spec s t l1 l2 v :
  timers s (l1 ++ t :: l2) -> fits (l1 ++ l2) -> v < RT_TIME_END ->
  exists N P, let s' := with_links (s <| firing_time ::= <[t := v]> |>) N P in
    set_timer_firing_time t v s = Done tt s' /\
    timers s' (insert_tmr (firing_time s') t (l1 ++ l2)).
Proof.
  intros Ht Hf Hv. unfold set_timer_firing_time. run_m.
  rewrite (is_linked_in s timers_list (l1 ++ t :: l2)) by (apply Ht || list_in). run_m.
  pose proof (timers_middle _ _ _ _ Ht) as (Hh & Hn & _).
  destruct (timers_unlink s t l1 l2 v Ht) as (N & P & E & Ht'). cbn zeta in E, Ht'. rewrite E.
  cbn [bind_out]. set (s1 := with_links _ N P) in *.
  assert (Ev : firing_time s1 t = v) by (unfold s1, with_links; state_simpl; apply upd_eq).
  destruct (tmr_insert_spec s1 t (l1 ++ l2)) as (N' & P' & E' & Ht'' & _);
    [done|done|by apply not_elem_of_cons|by rewrite Ev|].
  rewrite Ev in E'. rewrite E'. exists N', P'. split; [done|]. exact Ht''.
Qed.

(** A timer that has fired once, for ever, is alone. *)
Lemma tk_self_spec s t l :
  timers s l -> t ∉ timers_list :: l ->
  exists N P, tk_self t s = Done tt (with_links s N P) /\ timers (with_links s N P) l.
Proof.
  intros [Hr Hs Hh He] Hn. unfold tk_self, with_links. run_m. do 2 eexists. split; [by destruct s|].
  split; unfold tk_ring; state_simpl; [|done..].
  revert Hr. apply ring_frame; intros y Hy; rewrite upd_ne; try done; by intros ->.
Qed.
End Moving.

(** * What is due *)

Section Due.
Implicit Types (s : TASKLETS) (t x now : Z) (l : list Z).

Fixpoint pick (prio : Z -> Z) l t p : Z * Z :=
  match l with
  | [] => (t, p)
  | x :: l' => if prio x <? p then pick prio l' x (prio x) else pick prio l' t p
  end.

Lemma find_due_spec fuel s now a l t p :
  seg (t_next s) (t_prev s) a l timers_list -> now < firing_time s timers_list ->
  (length l < fuel)%nat ->
  find_due fuel s now a t p =
    Some (pick (t_priority s) (take_while (fun x => firing_time s x <=? now) l) t p).
Proof.
  revert a t p fuel. induction l as [|x l IH]; intros a t p [|fuel] Hs Hn Hf; simpl in Hs, Hf; try lia.
  - destruct Hs as [E _]. cbn [find_due]. rewrite E, (proj2 (Z.leb_gt _ _)) by done. done.
  - destruct Hs as (E & _ & Hs). cbn [find_due take_while]. rewrite E.
    destruct (firing_time s x <=? now); [|done]. cbn [pick].
    by destruct (t_priority s x <? p); apply IH; [done|done|lia|done|done|lia].
Qed.

Lemma pick_spec prio l t p :
  (pick prio l t p = (t, p) /\ (forall x, x ∈ l -> p <= prio x)) \/
  (exists l1 x l2, l = l1 ++ x :: l2 /\ pick prio l t p = (x, prio x) /\ prio x < p /\
     (forall y, y ∈ l1 -> prio x < prio y) /\ (forall y, y ∈ l2 -> prio x <= prio y)).
Proof.
  revert t p. induction l as [|y l IH]; intros t p; simpl.
  - left. split; [done|]. by intros x ?%not_elem_of_nil.
  - destruct (Z.ltb_spec (prio y) p) as [Hy|Hy].
    + right. destruct (IH y (prio y)) as [[E H]|(l1 & x & l2 & -> & E & Hx & H1 & H2)].
      * exists [], y, l. split_and!; [done|done|done|by intros ? ?%not_elem_of_nil|done].
      * exists (y :: l1), x, l2. split_and!; [done|done|lia| |done].
        intros z [->|Hz]%elem_of_cons; [lia|auto].
    + destruct (IH t p) as [[E H]|(l1 & x & l2 & -> & E & Hx & H1 & H2)].
      * left. split; [done|]. intros x [->|Hx]%elem_of_cons; [lia|auto].
      * right. exists (y :: l1), x, l2. split_and!; [done|done|done| |done].
        intros z [->|Hz]%elem_of_cons; [lia|auto].
Qed.

(** The releases of a timer that are due at [now], and its first firing time
    after them. *)
Definition releases s now t : Z :=
  if now <? firing_time s t then 0
  else if t_period s t =? 0 then 1 else (now - firing_time s t) / t_period s t + 1.

Definition after s now t : Z := firing_time s t + releases s now t * t_period s t.

Definition total s now l : Z := foldr (fun t n => releases s now t + n) 0 l.

Lemma releases_pos s now t : 0 <= t_period s t -> 0 <= releases s now t.
Proof.
  intros Hp. unfold releases. destruct (Z.ltb_spec now (firing_time s t)); [lia|].
  destruct (Z.eqb_spec (t_period s t) 0); [lia|].
  pose proof (Z.div_pos (now - firing_time s t) (t_period s t)). lia.
Qed.

Lemma releases_due s now t :
  0 <= t_period s t -> 0 < releases s now t <-> firing_time s t <= now.
Proof.
  intros Hp. unfold releases. destruct (Z.ltb_spec now (firing_time s t)); [lia|].
  destruct (Z.eqb_spec (t_period s t) 0); [lia|].
  pose proof (Z.div_pos (now - firing_time s t) (t_period s t)). lia.
Qed.

(** One release later. *)
Lemma releases_step s s' now t :
  firing_time s t <= now -> 0 < t_period s t -> t_period s' t = t_period s t ->
  firing_time s' t = firing_time s t + t_period s t ->
  releases s now t = releases s' now t + 1 /\ after s now t = after s' now t.
Proof.
  intros Hd Hp Ep Ef. assert (E : releases s now t = releases s' now t + 1).
  { unfold releases. rewrite Ef, Ep.
    rewrite (proj2 (Z.ltb_ge _ _)), (proj2 (Z.eqb_neq _ _)) by lia.
    set (P := t_period s t) in *. set (f := firing_time s t) in *.
    replace (now - f) with ((now - (f + P)) + 1 * P) by lia.
    rewrite Z.div_add by lia. destruct (Z.ltb_spec now (f + P)); [|lia].
    assert ((now - (f + P)) / P = -1) as ->; [|lia].
    symmetry. apply Z.div_unique with (now - f); lia. }
  split; [done|]. unfold after. rewrite E, Ep, Ef. lia.
Qed.

Lemma releases_ext s s' now t :
  firing_time s' t = firing_time s t -> t_period s' t = t_period s t ->
  releases s' now t = releases s now t /\ after s' now t = after s now t.
Proof. intros E1 E2. unfold after, releases. by rewrite E1, E2. Qed.

Lemma total_perm s now l l' : l ≡ₚ l' -> total s now l = total s now l'.
Proof. induction 1; simpl; lia. Qed.

Lemma total_ext s s' now l :
  (forall x, x ∈ l -> releases s' now x = releases s now x) -> total s' now l = total s now l.
Proof.
  induction l as [|x l IH]; simpl; [done|]. intros H. rewrite (H x), IH; [done| |]; [|list_in].
  intros y Hy. apply H. list_in.
Qed.

Lemma total_pos s now l : (forall x, x ∈ l -> 0 <= t_period s x) -> 0 <= total s now l.
Proof.
  induction l as [|x l IH]; simpl; [lia|]. intros H. pose proof (releases_pos s now x (H x ltac:(list_in))).
  assert (0 <= total s now l) by (apply IH; intros y Hy; apply H; list_in). lia.
Qed.
End Due.

(** * The calls of the timers *)

Section Firing.
Context (run_handler : Z -> Z -> T unit).
Implicit Types (s : TASKLETS) (t x now : Z) (l : list Z).

(** The handlers leave the timers alone: they use the scheduler only. *)
Definition quiet : Prop := forall h d s, exists σ, run_handler h d s = Done tt (s <| sched := σ |>).

(** The timers called so far, latest first. *)
Definition fired s : list Z :=
  omap (fun e => match e with Fire t _ _ => Some t | _ => None end) (tlog s).

(** A timer of the kernel, of a priority the manager looks for, whose times
    do not overflow. *)
Record can_fire s now t : Prop := {
  cf_task : t_task s t = 0;
  cf_prio : t_priority s t < RT_LOWEST_PRIORITY;
  cf_period : 0 <= t_period s t;
  cf_time : 0 <= firing_time s t;
  cf_after : after s now t < RT_TIME_END
}.

Record timer_frame s s' : Prop := {
  fr_prio : t_priority s' = t_priority s;
  fr_period : t_period s' = t_period s;
  fr_task : t_task s' = t_task s
}.

Lemma timer_frame_trans s1 s2 s3 : timer_frame s1 s2 -> timer_frame s2 s3 -> timer_frame s1 s3.
Proof. intros [] []. split; congruence. Qed.

Context (Hq : quiet).

Lemma fire_timer_spec s t u :
  t_task s t = 0 ->
  exists u' L σ, fire_timer run_handler t u s = Done u' (s <| tlog := L |> <| sched := σ |>) /\
    omap (fun e => match e with Fire t _ _ => Some t | _ => None end) L = t :: fired s.
Proof.
  intros Ht. unfold fire_timer. run_m. rewrite Ht. change (nz 0) with false. run_m.
  unfold call_handler, log_tasklet.
  destruct (negb (nz u) && nz (t_uses_fpu s t)); run_m.
  - destruct (Hq (handler s t) (t_data s t)
      (s <| tlog ::= cons SaveFpu |> <| tlog ::= cons (Fire t (handler s t) (t_data s t)) |>)) as [σ ->].
    cbn [bind_out]. by exists 1, (Fire t (handler s t) (t_data s t) :: SaveFpu :: tlog s), σ.
  - destruct (Hq (handler s t) (t_data s t)
      (s <| tlog ::= cons (Fire t (handler s t) (t_data s t)) |>)) as [σ ->].
    cbn [bind_out]. by exists u, (Fire t (handler s t) (t_data s t) :: tlog s), σ.
Qed.

(** A due timer is taken out of the list or moved to its next release. *)
Lemma retire_timer_spec s t l1 l2 now :
  timers s (l1 ++ t :: l2) -> fits (l1 ++ t :: l2) -> can_fire s now t -> firing_time s t <= now ->
  exists s' l', retire_timer t s = Done tt s' /\ timers s' l' /\ timer_frame s s' /\ tlog s' = tlog s /\
    ((t_period s t = 0 /\ l' = l1 ++ l2 /\ firing_time s' = firing_time s) \/
     (0 < t_period s t /\ l' ≡ₚ t :: l1 ++ l2 /\
      firing_time s' = <[t := firing_time s t + t_period s t]> (firing_time s))).
Proof.
  intros Ht Hf [Htk Hp Hper Ht0 Hend] Hd. unfold retire_timer. run_m.
  pose proof (timers_middle _ _ _ _ Ht) as (Hh & Hn & _).
  destruct (Z.eqb_spec (t_period s t) 0) as [E|Hne].
  - rewrite E. change (nz 0) with false. run_m.
    destruct (tk_unlink_spec s timers_list t l1 l2) as (N & P & Eu & R & _); [apply Ht|].
    rewrite Eu. cbn [bind_out].
    assert (Hu : timers (with_links s N P) (l1 ++ l2)).
    { destruct Ht as [_ Hs Hh' He]. split; unfold with_links, tk_ring; state_simpl; [done| |done|].
      - by eapply sorted_skip.
      - intros x Hx. apply He. set_solver. }
    destruct (tk_self_spec (with_links s N P) t (l1 ++ l2)) as (N' & P' & Es & Hu');
      [done|by apply not_elem_of_cons|].
    rewrite Es. exists (with_links (with_links s N P) N' P'), (l1 ++ l2). split_and!; [done|done|done|done|].
    left. done.
  - rewrite (proj2 (nz_true _)) by done. run_m.
    assert (Hstep : firing_time s t + t_period s t <= after s now t).
    { unfold after, releases. rewrite (proj2 (Z.ltb_ge _ _)), (proj2 (Z.eqb_neq _ _)) by lia.
      pose proof (Z.div_pos (now - firing_time s t) (t_period s t)). nia. }
    rewrite i64_id by (unfold in_i64, RT_TIME_END in *; unfold LLONG_MAX in *; lia).
    destruct (set_timer_firing_time_spec s t l1 l2 (firing_time s t + t_period s t))
      as (N & P & E & Ht'); [done| |lia|].
    { unfold fits in *. rewrite length_app in *. simpl in Hf. lia. }
    cbn zeta in E, Ht'. rewrite E. eexists _, _. split_and!; [done|exact Ht'|done|done|].
    right. split_and!; [lia|apply insert_tmr_perm|done].
Qed.

(** One turn of the loop calls the timer of highest priority among those that
    are due. *)
Lemma fire_loop_step s now l :
  timers s l -> fits l -> now < RT_TIME_END -> (forall t, t ∈ l -> can_fire s now t) ->
  (exists σ, (forall fuel, fire_loop run_handler fuel now s = Done 0 (s <| sched := σ |>)) /\
     (forall t, t ∈ l -> now < firing_time s t)) \/
  (exists l1 t l2, l = l1 ++ t :: l2 /\ firing_time s t <= now /\
     (forall x, x ∈ l -> firing_time s x <= now -> t_priority s t <= t_priority s x) /\
     exists s' l', (forall fuel, fire_loop run_handler (S fuel) now s = fire_loop run_handler fuel now s') /\
       timers s' l' /\ timer_frame s s' /\ fired s' = t :: fired s /\
       ((t_period s t = 0 /\ l' = l1 ++ l2 /\ firing_time s' = firing_time s) \/
        (0 < t_period s t /\ l' ≡ₚ t :: l1 ++ l2 /\
         firing_time s' = <[t := firing_time s t + t_period s t]> (firing_time s)))).
Proof.
  intros Ht Hf Hnow Hc. pose proof Ht as [Hr Hs Hh He].
  set (D := take_while (fun x => firing_time s x <=? now) l).
  assert (Efd : find_due LIST_FUEL s now timers_list timers_list RT_LOWEST_PRIORITY =
                Some (pick (t_priority s) D timers_list RT_LOWEST_PRIORITY)).
  { apply find_due_spec; [apply Hr|by rewrite Hh|exact Hf]. }
  assert (HD : forall x, x ∈ l -> firing_time s x <= now -> x ∈ D).
  { intros x Hx Hd. unfold D. rewrite <- (take_drop_while (fun y => firing_time s y <=? now) l) in Hx.
    apply elem_of_app in Hx as [?|Hx]; [done|].
    apply (drop_while_sorted (firing_time s)) in Hx; [lia|done]. }
  assert (HDl : forall x, x ∈ D -> x ∈ l /\ firing_time s x <= now).
  { intros x Hx. split; [|apply take_while_all in Hx; by bool_prop].
    rewrite <- (take_drop_while (fun y => firing_time s y <=? now) l). apply elem_of_app. by left. }
  assert (Eloop : forall f, fire_loop run_handler f now s =
     let '(timer, p) := pick (t_priority s) D timers_list RT_LOWEST_PRIORITY in
     let s1 := s <| sched ::= (fun σ => σ <| priority ::= <[timers_manager := p]> |>) |> in
     if timer =? timers_list then Done 0 s1
     else match f with
          | O => Stuck
          | S f' => (retire_timer timer;; u ← fire_timer run_handler timer 0; fire_loop run_handler f' now) s1
          end).
  { intros f. destruct f; cbn [fire_loop]; run_m; rewrite Efd; run_m;
      destruct (pick _ _ _ _) as [timer p]; unfold schd, lift; run_m; cbn [lift_out bind_out];
      by destruct (timer =? timers_list). }
  destruct (pick_spec (t_priority s) D timers_list RT_LOWEST_PRIORITY)
    as [[Ep Hlow]|(D1 & t & D2 & ED & Ep & Hlt & H1 & H2)].
  - left. exists (sched s <| priority ::= <[timers_manager := RT_LOWEST_PRIORITY]> |>).
    split; [intros fuel; rewrite Eloop, Ep; cbn zeta; by rewrite Z.eqb_refl|]. intros t Hin.
    destruct (Z.le_gt_cases (firing_time s t) now) as [Hd|]; [exfalso|done].
    pose proof (Hlow t (HD t Hin Hd)). pose proof (cf_prio _ _ _ (Hc t Hin)). lia.
  - right. assert (Htd : t ∈ D) by (rewrite ED, elem_of_app, elem_of_cons; tauto). destruct (HDl t Htd) as [Hin Hd].
    pose proof (timers_elem _ _ _ Ht Hin) as Hth. pose proof (Hc t Hin) as Hct.
    apply list_elem_of_split in Hin as (l1 & l2 & ->). exists l1, t, l2. split_and!; [done|done| |].
    { intros x Hx Hdx. specialize (HD x Hx Hdx). rewrite ED in HD.
      apply elem_of_app in HD as [Hx1|Hx2]; [specialize (H1 x Hx1); lia|].
      apply elem_of_cons in Hx2 as [->|Hx2]; [lia|auto]. }
    set (s1 := s <| sched ::= (fun σ => σ <| priority ::= <[timers_manager := t_priority s t]> |>) |>).
    destruct (retire_timer_spec s1 t l1 l2 now) as (s2 & l' & E2 & T2 & F2 & L2 & H);
      [by apply (timers_sched s _ (sched s <| priority ::= <[timers_manager := t_priority s t]> |>))|done|by destruct Hct|done|].
    destruct (fire_timer_spec s2 t 0) as (u & L & σ & E3 & HL);
      [rewrite (fr_task _ _ F2); apply Hct|].
    exists (s2 <| tlog := L |> <| sched := σ |>), l'. split_and!; [| |by destruct F2| |exact H].
    + intros fuel. rewrite Eloop, Ep. cbn zeta. rewrite (proj2 (Z.eqb_neq _ _)) by done. fold s1.
      rewrite (bind_done _ _ _ _ _ E2). by rewrite (bind_done _ _ _ _ _ E3).
    + destruct T2 as [R S' H' E']. split; unfold tk_ring; state_simpl; done.
    + unfold fired. state_simpl. rewrite HL. unfold fired. by rewrite L2.
Qed.
End Firing.

Section Rounds.
Context (run_handler : Z -> Z -> T unit) (Hq : quiet run_handler).
Implicit Types (s : TASKLETS) (t x now : Z) (l calls : list Z).

(** The timers that stay: periodic ones, and those that are not due. *)
Definition stays s now t : Prop := now < firing_time s t \/ t_period s t <> 0.
#[export] Instance stays_dec s now t : Decision (stays s now t).
Proof. unfold stays. apply _. Defined.

(** All that is due at [now] is called, the highest priority first. *)
Record round s now l calls s' l' : Prop := {
  rd_timers : timers s' l';
  rd_left : l' ≡ₚ filter (stays s now) l;
  rd_not_due : forall t, t ∈ l' -> now < firing_time s' t;
  rd_next : forall t, firing_time s' t = if decide (t ∈ l) then after s now t else firing_time s t;
  rd_fired : fired s' = reverse calls ++ fired s;
  rd_count : forall t, Z.of_nat (count_occ Z.eq_dec calls t) = if decide (t ∈ l) then releases s now t else 0;
  rd_order : sorted_by (t_priority s) calls;
  rd_frame : timer_frame s s'
}.

Lemma stays_filter s s' now l :
  (forall t, t ∈ l -> stays s' now t <-> stays s now t) -> filter (stays s' now) l = filter (stays s now) l.
Proof.
  induction l as [|t l IH]; intros H; [done|]. rewrite !filter_cons, IH by (intros y Hy; apply H; set_solver).
  specialize (H t ltac:(set_solver)). repeat case_decide; tauto.
Qed.

Lemma stays_all s now l : (forall t, t ∈ l -> now < firing_time s t) -> filter (stays s now) l = l.
Proof.
  induction l as [|t l IH]; intros H; [done|].
  rewrite filter_cons_True by (left; apply H; list_in). f_equal. apply IH. intros x Hx. apply H. list_in.
Qed.

Lemma round_nil s now l σ :
  timers s l -> (forall t, t ∈ l -> now < firing_time s t) -> round s now l [] (s <| sched := σ |>) l.
Proof.
  intros Ht Hd.
  assert (Hr : forall t, t ∈ l -> releases s now t = 0).
  { intros t Hin. unfold releases. by rewrite (proj2 (Z.ltb_lt _ _)) by auto. }
  split; [by apply timers_sched| | | |done| | |done].
  - by rewrite stays_all.
  - done.
  - intros t. state_simpl. case_decide; [|done]. unfold after. rewrite Hr by done. lia.
  - intros t. simpl. case_decide; [|done]. by rewrite Hr.
  - constructor.
Qed.

(** One call more, before those of a round. *)
Lemma round_cons s now l1 t l2 s1 l3 calls s' l' :
  let l := l1 ++ t :: l2 in
  NoDup l -> can_fire s now t -> firing_time s t <= now ->
  (forall x, x ∈ l -> 0 <= t_period s x) ->
  (forall x, x ∈ l -> firing_time s x <= now -> t_priority s t <= t_priority s x) ->
  timer_frame s s1 -> fired s1 = t :: fired s ->
  ((t_period s t = 0 /\ l3 = l1 ++ l2 /\ firing_time s1 = firing_time s) \/
   (0 < t_period s t /\ l3 ≡ₚ t :: l1 ++ l2 /\
    firing_time s1 = <[t := firing_time s t + t_period s t]> (firing_time s))) ->
  round s1 now l3 calls s' l' -> round s now l (t :: calls) s' l'.
Proof.
  intros l Hnd Hc Hd Hper Hbest Hfr Hfired Hcase [RT RL RN RX RF RC RO RFr].
  assert (Hp : l ≡ₚ t :: l1 ++ l2) by (symmetry; apply Permutation_middle).
  assert (Hn : t ∉ l1 ++ l2) by (rewrite Hp in Hnd; by apply NoDup_cons in Hnd as [? _]).
  assert (Eper : forall x, t_period s1 x = t_period s x) by (intros x; by rewrite (fr_period _ _ Hfr)).
  assert (Hft : forall x, x <> t -> firing_time s1 x = firing_time s x).
  { intros x Hx. destruct Hcase as [(_ & _ & ->)|(_ & _ & ->)]; [done|]. by rewrite upd_ne. }
  assert (Hrel : forall x, x <> t -> releases s1 now x = releases s now x /\ after s1 now x = after s now x).
  { intros x Hx. by apply releases_ext; [apply Hft|apply Eper]. }
  assert (Ht1 : if decide (t ∈ l3) then releases s now t = releases s1 now t + 1 /\ after s now t = after s1 now t
                else releases s now t = 1 /\ after s now t = firing_time s1 t).
  { destruct Hcase as [(E0 & -> & Ef)|(E0 & El & Ef)].
    - rewrite decide_False by done. unfold after, releases.
      rewrite (proj2 (Z.ltb_ge _ _)), E0, Ef by lia. split; [done|]. lia.
    - rewrite decide_True by (rewrite El; set_solver).
      apply releases_step; [done|done|apply Eper|]. rewrite Ef. apply upd_eq. }
  assert (Hin3 : forall x, x <> t -> x ∈ l3 <-> x ∈ l).
  { intros x Hx. rewrite Hp. destruct Hcase as [(_ & -> & _)|(_ & -> & _)]; set_solver. }
  split; [done| |done| | | | |by eapply timer_frame_trans].
  - rewrite RL. destruct Hcase as [(E0 & -> & Ef)|(E0 & El & Ef)].
    + rewrite Hp. rewrite filter_cons_False by (unfold stays; lia).
      by rewrite (stays_filter s s1) by (intros x Hx; unfold stays; by rewrite Eper, Ef).
    + rewrite El, Hp. rewrite !filter_cons_True by (right; rewrite ?Eper; lia).
      rewrite (stays_filter s s1); [done|]. intros x Hx. unfold stays. rewrite Eper, Hft; [done|].
      by intros ->.
  - intros x. rewrite RX. destruct (decide (x = t)) as [->|Hx].
    + rewrite (decide_True (P := t ∈ l)) by (rewrite Hp; set_solver). case_decide; symmetry; apply Ht1.
    + destruct (Hrel x Hx) as [_ ->]. rewrite Hft by done.
      pose proof (Hin3 x Hx). repeat case_decide; tauto.
  - rewrite RF, Hfired, reverse_cons, <- app_assoc. done.
  - intros x. simpl. destruct (Z.eq_dec t x) as [<-|Hx].
    + rewrite (decide_True (P := t ∈ l)) by (rewrite Hp; set_solver).
      rewrite Nat2Z.inj_succ, RC. case_decide; destruct Ht1 as [-> _]; lia.
    + rewrite RC. destruct (Hrel x (not_eq_sym Hx)) as [-> _]. pose proof (Hin3 x (not_eq_sym Hx)).
      repeat case_decide; tauto.
  - constructor; [by rewrite <- (fr_prio _ _ Hfr)|]. apply Forall_forall. intros x Hx.
    destruct (decide (x = t)) as [->|Hxt]; [done|].
    assert (0 < count_occ Z.eq_dec calls x)%nat.
    { apply (count_occ_In Z.eq_dec calls x). by apply list_elem_of_In. }
    specialize (RC x). destruct (decide (x ∈ l3)) as [Hx3|]; [|lia].
    destruct (Hrel x Hxt) as [E _]. rewrite E in RC. apply Hin3 in Hx3; [|done].
    apply Hbest; [done|]. apply (releases_due s now x); [by apply Hper|lia].
Qed.

Lemma fire_loop_round fuel s now l :
  timers s l -> fits l -> now < RT_TIME_END -> (forall t, t ∈ l -> can_fire s now t) ->
  total s now l <= Z.of_nat fuel ->
  exists calls s' l', fire_loop run_handler fuel now s = Done 0 s' /\ round s now l calls s' l'.
Proof.
  revert s l. induction fuel as [|fuel IH]; intros s l Ht Hf Hnow Hc Htot;
    destruct (fire_loop_step run_handler Hq s now l Ht Hf Hnow Hc)
      as [(σ & E & Hd)|(l1 & t & l2 & -> & Hd & Hbest & s1 & l3 & E & T1 & F1 & G1 & Hcase)];
    try (exists [], (s <| sched := σ |>), l; split; [apply E|by apply round_nil]).
  - exfalso. pose proof (releases_due s now t (cf_period _ _ _ (Hc t (elem_middle _ _ _)))).
    rewrite <- (total_perm s now _ _ (Permutation_middle l1 l2 t)) in Htot. simpl in Htot.
    assert (0 <= total s now (l1 ++ l2)); [|lia].
    apply total_pos. intros x Hx. apply (Hc x), elem_skip, Hx.
  - pose proof (ring_NoDup _ _ _ _ (tm_ring _ _ Ht)) as Hnd.
    pose proof (timers_middle _ _ _ _ Ht) as (_ & Hn & _).
    assert (Hct : can_fire s now t) by apply Hc, elem_middle.
    assert (Hx : forall x, x ∈ l1 ++ l2 -> can_fire s1 now x /\ releases s1 now x = releases s now x).
    { intros x Hx. assert (Hxt : x <> t) by (by intros ->). destruct (Hc x (elem_skip _ _ _ _ Hx)) as [A B C D E'].
      assert (Ef : firing_time s1 x = firing_time s x).
      { destruct Hcase as [(_ & _ & ->)|(_ & _ & ->)]; [done|by rewrite upd_ne]. }
      destruct (releases_ext s s1 now x Ef) as [Er Ea]; [by rewrite (fr_period _ _ F1)|].
      split; [|done]. split; rewrite ?(fr_task _ _ F1), ?(fr_prio _ _ F1), ?(fr_period _ _ F1), ?Ef, ?Ea; done. }
    assert (Ht3 : t ∈ l3 -> can_fire s1 now t /\ releases s now t = releases s1 now t + 1).
    { destruct Hcase as [(_ & -> & _)|(E0 & _ & Ef)]; [done|]. intros _. destruct Hct as [A B C D E'].
      destruct (releases_step s s1 now t) as [Er Ea]; [done|done|by rewrite (fr_period _ _ F1)|by rewrite Ef, upd_eq|].
      split; [|done]. split; rewrite ?(fr_task _ _ F1), ?(fr_prio _ _ F1), ?(fr_period _ _ F1), <- ?Ea; try done.
      rewrite Ef, upd_eq. lia. }
    destruct (IH s1 l3) as (calls & s' & l' & E' & R); [done| |done| | |].
    { apply fits_skip in Hf as [Hf1 Hf2]. destruct Hcase as [(_ & -> & _)|(_ & El & _)]; [done|].
      unfold fits. by rewrite (Permutation_length El). }
    { intros x Hx3. destruct (decide (x = t)) as [->|]; [by apply Ht3|]. apply Hx.
      destruct Hcase as [(_ & -> & _)|(_ & El & _)]; [done|]. rewrite El, elem_of_cons in Hx3. tauto. }
    { rewrite <- (total_perm s now _ _ (Permutation_middle l1 l2 t)) in Htot. simpl in Htot.
      rewrite <- (total_ext s s1) in Htot by (intros x ?; by apply Hx).
      pose proof (releases_due s now t (cf_period _ _ _ Hct)).
      destruct Hcase as [(_ & -> & _)|(_ & El & _)]; [lia|].
      rewrite (total_perm _ _ _ _ El). simpl. destruct Ht3 as [_ ?]; [rewrite El; by left|]. lia. }
    exists (t :: calls), s', l'. rewrite E. split; [done|].
    eapply round_cons; try done. intros x Hx'. by apply (Hc x).
Qed.
End Rounds.

(** * The manager and the scheduler *)

Section Manager.
Implicit Types (s : TASKLETS) (t x : Z) (l L : list Z) (σ : RTAI).

(** A manager that sleeps wakes up before any timer is to fire. *)
Definition in_time s l : Prop :=
  has (state (sched s) timers_manager) DELAYED = true ->
  forall t, t ∈ l -> resume_time (sched s) timers_manager <= firing_time s t.

(** The timed list of the scheduler is sorted, and a manager that sleeps is in
    it. *)
Record manager_ok σ L : Prop := {
  mg_list : timed_list σ L;
  mg_fits : fits L;
  mg_sorted : sorted_by (resume_time σ) L;
  mg_in : has (state σ timers_manager) DELAYED = true -> timers_manager ∈ L;
  mg_hard : is_hard σ timers_manager <> 0;
  mg_last : resume_time σ rt_linux_task = RT_TIME_END
}.

Lemma manager_ok_priority σ L f : manager_ok σ L -> manager_ok (σ <| priority ::= f |>) L.
Proof. intros [H1 H2 H3 H4 H5 H6]. split; try done; unfold timed_list; state_simpl; done. Qed.

(** What choosing a task depends on in periodic mode. *)
Definition same_ready σ σ' : Prop :=
  rnext σ' = rnext σ /\ rprev σ' = rprev σ /\ state σ' = state σ /\ policy σ' = policy σ /\
  oneshot_running σ' = oneshot_running σ /\ rt_smp_current σ' = rt_smp_current σ.

Lemma same_ready_trans σ1 σ2 σ3 : same_ready σ1 σ2 -> same_ready σ2 σ3 -> same_ready σ1 σ3.
Proof. unfold same_ready. intuition congruence. Qed.

Lemma same_ready_schedule σ σ' rl :
  same_ready σ σ' -> oneshot_running σ = 0 -> policy σ (rt_smp_current σ) <= 0 -> ready_list σ rl -> fits rl ->
  can_schedule σ' [] rl.
Proof.
  intros (E1 & E2 & _ & E4 & E5 & E6) Ho Hp Hr Hf. split; [unfold ready_list; by rewrite E1, E2|exact Hf| |].
  - intros H. rewrite E4, E6 in H. lia.
  - intros H. by rewrite E5 in H.
Qed.

Lemma advance_manager_spec σ L ft :
  manager_ok σ L -> has (state σ timers_manager) DELAYED = true -> ft <= RT_TIME_END ->
  exists σ' L', advance_manager ft σ = Done tt σ' /\ manager_ok σ' L' /\ L' ≡ₚ L /\
    resume_time σ' timers_manager = ft /\ state σ' = state σ /\ same_ready σ σ'.
Proof.
  intros [H1 H2 H3 H4 H5 H6] Hd Hft. specialize (H4 Hd).
  apply list_elem_of_split in H4 as (L1 & L2 & ->).
  destruct (ring_middle _ _ _ _ _ _ H1) as (Hlx & Hn & _).
  unfold advance_manager. set (σ1 := σ <| resume_time ::= <[timers_manager := ft]> |>).
  unfold wr, modify. rewrite (bind_done _ _ _ tt σ1) by done.
  destruct (rem_timed_task_spec σ1 timers_manager L1 L2) as (σ2 & E2 & (P & N & ->) & R2);
    [unfold σ1, timed_list; state_simpl; exact H1|exact Hd|].
  rewrite (bind_done _ _ _ _ _ E2). set (σ2 := σ1 <| tprev := P |> <| tnext := N |>) in *.
  destruct (enq_timed_task_spec σ2 timers_manager (L1 ++ L2)) as (σ3 & E3 & (P' & N' & ->) & R3);
    try (unfold σ2, σ1; state_simpl).
  - done.
  - by apply fits_skip in H2 as [? _].
  - apply not_elem_of_cons. done.
  - done.
  - rewrite upd_eq. done.
  - by rewrite upd_ne.
  - eexists _, _. split; [exact E3|]. unfold σ2, σ1 in *. state_simpl. state_simpl_in R3. cbn beta in R3.
    set (rs := <[timers_manager := ft]> (resume_time σ)) in *.
    assert (Hperm : insert_timed rs timers_manager (L1 ++ L2) ≡ₚ L1 ++ timers_manager :: L2).
    { unfold insert_timed. by rewrite insert_after_perm, Permutation_middle. }
    split_and!; [|exact Hperm|apply upd_eq|done|by repeat split]. split; try (unfold timed_list; state_simpl); fold rs; try done.
    + unfold fits. by rewrite (Permutation_length Hperm).
    + apply insert_after_sorted; [intros y Hy; rewrite Z.gtb_ltb in Hy; bool_prop; lia..|].
      apply (sorted_by_ext (resume_time σ)); [|by eapply sorted_skip].
      intros x Hx. unfold rs. rewrite upd_ne; [done|]. by intros <-.
    + intros _. rewrite Hperm. apply elem_middle.
Qed.

(** The state a change of firing times leaves before the scheduler is
    called, if it is: the manager is in time for all timers. *)
Lemma deadline_inheritance_spec s t l L :
  timers s l -> t ∈ l -> manager_ok (sched s) L ->
  (forall x, x ∈ l -> x <> t -> has (state (sched s) timers_manager) DELAYED = true ->
     resume_time (sched s) timers_manager <= firing_time s x) ->
  exists s1 L1, timers s1 l /\ in_time s1 l /\ manager_ok (sched s1) L1 /\ L1 ≡ₚ L /\
    firing_time s1 = firing_time s /\ s1 = s <| sched := sched s1 |> /\ same_ready (sched s) (sched s1) /\
    deadline_inheritance t (firing_time s t) s =
      (if manager_late s t (firing_time s t) then schd rt_schedule s1 else Done tt s1).
Proof.
  intros Ht Hin Hm Hothers. unfold deadline_inheritance. run_m.
  destruct (manager_late s t (firing_time s t)) eqn:El.
  - unfold manager_late in El. bool_prop.
    destruct (advance_manager_spec (sched s) L (firing_time s t)) as (σ & L1 & E & Hm' & HL & Hr & Hst & Hsr);
      [done|done|pose proof (tm_end _ _ Ht t Hin); lia|].
    exists (s <| sched := σ |>), L1. state_simpl.
    rewrite (ring_next _ _ _ _ (tm_ring _ _ Ht)) in *.
    split_and!; [by apply timers_sched| |done|done|done|by destruct s|exact Hsr|].
    + intros _ x Hx. state_simpl. rewrite Hr.
      destruct Ht as [_ Hs _ _]. destruct l as [|y l]; [by apply not_elem_of_nil in Hin|].
      simpl in *. subst y. unfold sorted_by in Hs. inversion_clear Hs as [|? ? _ F].
      apply elem_of_cons in Hx as [->|Hx]; [lia|]. rewrite Forall_forall in F. by apply F.
    + unfold schd. rewrite (lift_done sched _ _ _ _ E). done.
  - exists s, L. split_and!; [done| |done|done|done|by destruct s|by repeat split|done].
    intros Hd x Hx. destruct (decide (x = t)) as [->|Hxt]; [|by apply Hothers].
    unfold manager_late in El. rewrite (ring_next _ _ _ _ (tm_ring _ _ Ht)), Hd in El.
    destruct (Z.eqb_spec (hd timers_list l) t) as [E|E]; simpl in El; [by bool_prop|].
    destruct Ht as [_ Hs _ _]. destruct l as [|y l]; [by apply not_elem_of_nil in Hin|]. simpl in E.
    pose proof (Hothers y ltac:(by left) E Hd). unfold sorted_by in Hs. inversion_clear Hs as [|? ? _ F].
    apply elem_of_cons in Hin as [->|Hin]; [done|]. rewrite Forall_forall in F. specialize (F t Hin). lia.
Qed.
End Manager.

(** * Insertion *)

Section Insertion.
Implicit Types (s : TASKLETS) (t x : Z) (l L : list Z).

(** The fields of a new timer. *)
Definition new_timer (t prio ft per h d : Z) s : TASKLETS :=
  s <| t_uses_fpu ::= <[t := 0]> |> <| t_priority ::= <[t := prio]> |> <| firing_time ::= <[t := ft]> |>
    <| t_period ::= <[t := per]> |> <| handler ::= <[t := h]> |> <| t_data ::= <[t := d]> |>.

(** Only priorities in the scheduler, the task of [t] and the log differ. *)
Lemma init_task_spec s t prio pid :
  exists k g f, init_task t prio pid s =
    Done tt (s <| t_task := k |> <| sched ::= (fun σ => σ <| priority ::= f |>) |> <| tlog := g |>).
Proof.
  unfold init_task. run_m. destruct (nz pid); run_m.
  - unfold schd, lift. run_m. cbn [lift_out bind_out]. unfold log_tasklet. run_m.
    exists (t_task s), (CopyToUser (usptasklet s t) t :: tlog s), (<[t_task s t := prio]>). by destruct s.
  - exists (<[t := 0]> (t_task s)), (tlog s), (fun f => f). destruct s as [? ? ? ? ? ? ? ? ? ? ? ? ? σ ?].
    by destruct σ.
Qed.

Lemma inherit_priority_spec s t :
  exists f, inherit_priority t s = Done tt (s <| sched ::= (fun σ => σ <| priority ::= f |>) |>).
Proof.
  unfold inherit_priority. run_m. destruct (t_priority s t <? priority (sched s) timers_manager); run_m.
  - unfold schd, lift. run_m. cbn [lift_out]. by exists (<[timers_manager := t_priority s t]>).
  - exists (fun f => f). destruct s as [? ? ? ? ? ? ? ? ? ? ? ? ? σ ?]. by destruct σ.
Qed.

Lemma insert_tmr_split ft t l :
  sorted_by ft l ->
  exists l1 l2, l = l1 ++ l2 /\ insert_tmr ft t l = l1 ++ t :: l2 /\
    (forall x, x ∈ l1 -> ft x <= ft t) /\ (forall x, x ∈ l2 -> ft t < ft x).
Proof.
  intros Hs. exists (take_while (fun y => ft y <=? ft t) l), (drop_while (fun y => ft y <=? ft t) l).
  split_and!; [by rewrite take_drop_while|done| |].
  - intros x Hx%take_while_all. by bool_prop.
  - intros x Hx. by eapply drop_while_sorted.
Qed.

(** A timer before the deadline inheritance: in the list, and only
    priorities changed in the scheduler. *)
Lemma rt_insert_timer_eq s t prio ft per h d pid l :
  h <> 0 -> timers s l -> fits l -> t ∉ timers_list :: l -> ft < RT_TIME_END ->
  exists s1 f, rt_insert_timer t prio ft per h d pid s = (deadline_inheritance t ft;; mret 0) s1 /\
    timers s1 (insert_tmr (firing_time s1) t l) /\
    firing_time s1 = <[t := ft]> (firing_time s) /\ sched s1 = sched s <| priority ::= f |>.
Proof.
  intros Hh [Hr Hs Hhd He] Hf Hn Hft. apply nz_true in Hh.
  pose proof (proj1 (not_elem_of_cons _ _ _) Hn) as [Hth Htl].
  destruct (init_task_spec (new_timer t prio ft per h d s) t prio pid) as (k & g & f & E1).
  set (s1 := new_timer t prio ft per h d s <| t_task := k |>
               <| sched ::= (fun σ => σ <| priority ::= f |>) |> <| tlog := g |>) in *.
  assert (Eft : firing_time s1 = <[t := ft]> (firing_time s)) by done.
  assert (Hold : forall x, x ∈ l -> firing_time s1 x = firing_time s x).
  { intros x Hx. rewrite Eft, upd_ne; [done|]. by intros ->. }
  assert (T1 : timers s1 l).
  { split; [exact Hr| |by rewrite Eft, upd_ne|intros x Hx; rewrite Hold by done; by apply He].
    apply (sorted_by_ext (firing_time s)); [|done]. intros x Hx. symmetry. by apply Hold. }
  destruct (tmr_insert_spec s1 t l) as (N & P & E2 & T2 & _); [done..|by rewrite Eft, upd_eq|].
  rewrite Eft, upd_eq in E2. set (s2 := with_links s1 N P) in *.
  destruct (inherit_priority_spec s2 t) as (f2 & E3).
  eexists _, (fun p => f2 (f p)). split; [|split; [|split]].
  - unfold rt_insert_timer. rewrite Hh. cbn [negb].
    transitivity ((init_task t prio pid;; tmr_insert t ft;; inherit_priority t;; deadline_inheritance t ft;; mret 0)
                    (new_timer t prio ft per h d s)); [done|].
    rewrite (bind_done _ _ _ _ _ E1). fold s1. by rewrite (bind_done _ _ _ _ _ E2), (bind_done _ _ _ _ _ E3).
  - unfold s2, with_links in *. state_simpl.
    by apply (timers_sched (with_links s1 N P) _ (sched (with_links s1 N P) <| priority ::= f2 |>)).
  - unfold s2, with_links. state_simpl. exact Eft.
  - done.
Qed.
Lemma insert_tmr_place ft t l1 l2 :
  (forall x, x ∈ l1 -> ft x <= ft t) -> (forall x, x ∈ l2 -> ft t < ft x) ->
  insert_tmr ft t (l1 ++ l2) = l1 ++ t :: l2.
Proof.
  intros H1 H2. unfold insert_tmr, insert_after. induction l1 as [|x l1 IH]; cbn [app take_while drop_while].
  - destruct l2 as [|y l2]; [done|]. cbn [take_while drop_while].
    by rewrite (proj2 (Z.leb_gt _ _)) by (apply H2; by left).
  - rewrite (proj2 (Z.leb_le _ _)) by (apply H1; by left). cbn [app]. f_equal. apply IH. intros y Hy. apply H1. by right.
Qed.

(** The insertion as a whole. *)
Lemma rt_insert_timer_spec s t prio ft per h d pid l L :
  h <> 0 -> timers s l -> fits l -> t ∉ timers_list :: l -> ft < RT_TIME_END ->
  in_time s l -> manager_ok (sched s) L ->
  exists s1 l1 l2 L1, l = l1 ++ l2 /\ timers s1 (l1 ++ t :: l2) /\
    (forall x, x ∈ l1 -> firing_time s x <= ft) /\ (forall x, x ∈ l2 -> ft < firing_time s x) /\
    firing_time s1 = <[t := ft]> (firing_time s) /\
    in_time s1 (l1 ++ t :: l2) /\ manager_ok (sched s1) L1 /\ L1 ≡ₚ L /\ same_ready (sched s) (sched s1) /\
    rt_insert_timer t prio ft per h d pid s =
      (if bool_decide (l1 = []) && has (state (sched s) timers_manager) DELAYED &&
          (ft <? resume_time (sched s) timers_manager)
       then (schd rt_schedule;; mret 0) s1 else Done 0 s1).
Proof.
  intros Hh Ht Hf Hn Hft Hin Hm. pose proof (proj1 (not_elem_of_cons _ _ _) Hn) as [_ Htl].
  destruct (rt_insert_timer_eq s t prio ft per h d pid l) as (s3 & f & -> & T3 & F3 & Es); [done..|].
  destruct (insert_tmr_split (firing_time s3) t l) as (l1' & l2' & El' & Ei & B1 & B2).
  { apply (sorted_by_ext (firing_time s)); [|apply Ht]. intros x Hx. rewrite F3, upd_ne; [done|]. by intros ->. }
  rewrite Ei in T3.
  assert (Hsub : forall x, x ∈ l1' ++ l2' -> firing_time s3 x = firing_time s x).
  { intros x Hx. rewrite F3, upd_ne; [done|]. rewrite <- El' in Hx. by intros ->. }
  assert (Eft : firing_time s3 t = ft) by (rewrite F3; apply upd_eq).
  destruct (deadline_inheritance_spec s3 t (l1' ++ t :: l2') L) as (s4 & L1 & T4 & I4 & M4 & HL & F4 & _ & Hsr & E4);
    [done|apply elem_middle|rewrite Es; by apply manager_ok_priority|..].
  { intros x Hx Hxt. rewrite Es. state_simpl. intros Hd.
    assert (x ∈ l1' ++ l2') by (rewrite elem_of_app, elem_of_cons in Hx; rewrite elem_of_app; tauto).
    rewrite Hsub by done. apply (Hin Hd). by rewrite El'. }
  rewrite Eft in *.
  exists s4, l1', l2', L1. split_and!; [exact El'|exact T4| | |rewrite F4; exact F3|exact I4|exact M4|exact HL| |].
  - intros x Hx. rewrite <- Hsub by (rewrite elem_of_app; by left). by apply B1.
  - intros x Hx. rewrite <- Hsub by (rewrite elem_of_app; by right). by apply B2.
  - eapply same_ready_trans; [|exact Hsr]. rewrite Es. by repeat split.
  - unfold mbind at 1, M_bind at 1. rewrite E4.
    assert (manager_late s3 t ft = bool_decide (l1' = []) && has (state (sched s) timers_manager) DELAYED &&
      (ft <? resume_time (sched s) timers_manager)) as ->; [|by destruct (_ && _)].
    unfold manager_late. rewrite (ring_next _ _ _ _ (tm_ring _ _ T3)), Es. state_simpl. do 2 f_equal.
    destruct l1' as [|y l1']; simpl; [by rewrite Z.eqb_refl|].
    apply Z.eqb_neq. intros ->. apply Htl. rewrite El'. by left.
Qed.

(** The walk over all timers and their head does not end for a firing time
    that is not below that of the head. *)
Lemma insert_walk_loops s t ft l fuel x :
  timers s l -> t ∉ timers_list :: l -> RT_TIME_END <= ft -> x ∈ timers_list :: l ->
  walk fuel (fun x => ft >=? (<[t := ft]> (firing_time s)) x) (t_next s) x = None.
Proof.
  intros Ht Hn Hft. revert x.
  assert (Hall : forall x, x ∈ timers_list :: l -> ft >=? (<[t := ft]> (firing_time s)) x = true).
  { intros x Hx. rewrite Z.geb_leb, upd_ne by (by intros <-).
    apply Z.leb_le. destruct Ht as [_ _ Hhd He]. apply elem_of_cons in Hx as [->|Hx]; [lia|].
    specialize (He x Hx). lia. }
  assert (Hnext : forall x, x ∈ timers_list :: l -> t_next s x ∈ timers_list :: l).
  { destruct Ht as [Hr _ _ _]. intros x [->|Hx]%elem_of_cons.
    - rewrite (ring_next _ _ _ _ Hr). destruct l; simpl; [by left|by right; left].
    - apply list_elem_of_split in Hx as (l1 & l2 & ->). rewrite (ring_next_in _ _ _ _ _ _ Hr).
      destruct l2; simpl; [by left|]. right. rewrite elem_of_app. right. by right; left. }
  induction fuel as [|fuel IH]; intros x Hx; cbn [walk]; rewrite Hall by done; [done|]. by apply IH, Hnext.
Qed.

Lemma insert_walk_ends s t ft l fuel :
  timers s l -> t ∉ timers_list :: l -> ft < RT_TIME_END -> (length l < fuel)%nat ->
  let after := fun x => ft >=? (<[t := ft]> (firing_time s)) x in
  walk fuel after (t_next s) (t_next s timers_list) = Some (hd timers_list (drop_while after l)).
Proof.
  intros [Hr _ Hh _] Hn Hft Hf after. apply (walk_ring _ _ _ _ _ _ Hr); [|done].
  unfold after. rewrite upd_ne, Hh, Z.geb_leb by (intros ->; apply Hn; by left). by apply Z.leb_gt.
Qed.

(** A call of the scheduler ends. *)
Lemma schd_schedule_ends s tl rl : can_schedule (sched s) tl rl -> (schd rt_schedule;; mret 0) s <> Stuck.
Proof.
  intros Hc. destruct (rt_schedule_spec (sched s) tl rl Hc) as (σ & rl0 & _ & _ & _ & _ & _ & _ & _ & _ & G).
  apply given_not_stuck in G. unfold mbind, M_bind, schd, lift. by destruct (rt_schedule (sched s)).
Qed.
End Insertion.

(** C24: a timer is inserted after the timers that fire before it or at the
    same time; the manager, if it sleeps, is moved in the timed list if need
    be, and the scheduler called, so that it wakes up before any timer is to
    fire. *)
Theorem rt_insert_timer_in_time s t prio ft per h d pid l L :
  h <> 0 -> timers s l -> fits l -> t ∉ timers_list :: l -> ft < RT_TIME_END ->
  in_time s l -> manager_ok (sched s) L ->
  exists s1 l1 l2 L1, l = l1 ++ l2 /\ timers s1 (l1 ++ t :: l2) /\
    (forall x, x ∈ l1 -> firing_time s x <= ft) /\ (forall x, x ∈ l2 -> ft < firing_time s x) /\
    firing_time s1 = <[t := ft]> (firing_time s) /\
    in_time s1 (l1 ++ t :: l2) /\ manager_ok (sched s1) L1 /\ L1 ≡ₚ L /\
    rt_insert_timer t prio ft per h d pid s =
      (if bool_decide (l1 = []) && has (state (sched s) timers_manager) DELAYED &&
          (ft <? resume_time (sched s) timers_manager)
       then (schd rt_schedule;; mret 0) s1 else Done 0 s1).
Proof.
  intros H1 H2 H3 H4 H5 H6 H7.
  destruct (rt_insert_timer_spec s t prio ft per h d pid l L) as
    (s1 & l1 & l2 & L1 & A1 & A2 & A3 & A4 & A5 & A6 & A7 & A8 & _ & A9); [done..|].
  by exists s1, l1, l2, L1.
Qed.

(** C14: when the manager wakes up, every release of a timer that is due is
    called, exactly once, the timers of higher priority first; after that no
    timer is due, periodic timers wait for their first release in the future,
    and those that fire once are gone.  The loop ends if each periodic timer
    has a positive period. *)
Theorem fire_loop_calls_due run_handler fuel s now l :
  quiet run_handler -> timers s l -> fits l -> now < RT_TIME_END ->
  (forall t, t ∈ l -> can_fire s now t) -> total s now l <= Z.of_nat fuel ->
  exists calls s' l', fire_loop run_handler fuel now s = Done 0 s' /\ round s now l calls s' l'.
Proof. intros Hq. by apply fire_loop_round. Qed.

(** C37: the search for the place of a timer ends exactly if its firing time
    is below [RT_TIME_END], the one of the head of the list.  Then it takes a
    step for each timer at most, and [rt_insert_timer] returns 0 with the timer in
    its place, after the scheduler was called if the manager sleeps too long:
    that ends too, wherever the scheduler can be called, as it can in periodic
    mode from a task that is not subject to the round robin.  Otherwise no number of
    steps is enough, and [rt_insert_timer] does not return. *)
Theorem rt_insert_timer_ends s t prio ft per h d pid l L :
  h <> 0 -> timers s l -> fits l -> t ∉ timers_list :: l ->
  let after := fun x => ft >=? (<[t := ft]> (firing_time s)) x in
  let call := rt_insert_timer t prio ft per h d pid s in
  (ft < RT_TIME_END -> in_time s l -> manager_ok (sched s) L ->
     (forall fuel, (length l < fuel)%nat ->
        walk fuel after (t_next s) (t_next s timers_list) = Some (hd timers_list (drop_while after l))) /\
     exists s1, timers s1 (insert_tmr (firing_time s1) t l) /\ firing_time s1 = <[t := ft]> (firing_time s) /\
       if bool_decide (Forall (fun x => ft < firing_time s x) l) && has (state (sched s) timers_manager) DELAYED &&
          (ft <? resume_time (sched s) timers_manager)
       then call = (schd rt_schedule;; mret 0) s1 /\
         (forall tl rl, can_schedule (sched s1) tl rl -> call <> Stuck) /\
         (forall rl, oneshot_running (sched s) = 0 -> policy (sched s) (rt_smp_current (sched s)) <= 0 ->
            ready_list (sched s) rl -> fits rl -> call <> Stuck)
       else call = Done 0 s1) /\
  (RT_TIME_END <= ft ->
     (forall fuel, walk fuel after (t_next s) (t_next s timers_list) = None) /\ call = Stuck).
Proof.
  intros Hh Ht Hf Hn after call. split.
  - intros Hft Hin Hm. split; [intros fuel; by apply insert_walk_ends|].
    destruct (rt_insert_timer_spec s t prio ft per h d pid l L) as
      (s1 & l1 & l2 & L1 & El & T1 & B1 & B2 & F1 & _ & _ & _ & Hsr & E); [done..|]. exists s1.
    assert (Ei : insert_tmr (firing_time s1) t l = l1 ++ t :: l2).
    { rewrite El. apply insert_tmr_place; rewrite F1, upd_eq; intros x Hx; (rewrite upd_ne;
        [|intros <-; apply Hn; rewrite El; right; apply elem_of_app; auto]); auto. }
    rewrite Ei. split; [exact T1|]. split; [exact F1|].
    assert (Hd : bool_decide (l1 = []) = bool_decide (Forall (fun x => ft < firing_time s x) l)).
    { apply bool_decide_ext. rewrite Forall_forall. split; [intros ->; by rewrite El|].
      destruct l1 as [|y l1]; [done|]. intros HF. specialize (B1 y ltac:(by left)).
      specialize (HF y ltac:(rewrite El; by left)). lia. }
    rewrite Hd in E. destruct (_ && _); [|exact E]. split; [exact E|].
    assert (Hend : forall tl rl, can_schedule (sched s1) tl rl -> call <> Stuck)
      by (intros tl rl Hc; unfold call; rewrite E; by eapply schd_schedule_ends).
    split; [exact Hend|]. intros rl Ho Hp Hr Hrf. eapply Hend. by eapply same_ready_schedule.
  - intros Hft. split.
    { intros fuel. apply (insert_walk_loops s t ft l); [done..|]. rewrite (ring_next _ _ _ _ (tm_ring _ _ Ht)).
      destruct l; simpl; [by left|by right; left]. }
    unfold call, rt_insert_timer. rewrite (proj2 (nz_true _)) by done. cbn [negb].
    destruct (init_task_spec (new_timer t prio ft per h d s) t prio pid) as (k & g & f & E1).
    transitivity ((init_task t prio pid;; tmr_insert t ft;; inherit_priority t;; deadline_inheritance t ft;; mret 0)
                    (new_timer t prio ft per h d s)); [done|].
    rewrite (bind_done _ _ _ _ _ E1). unfold tmr_insert, walkM. run_m.
    unfold new_timer. state_simpl. rewrite (insert_walk_loops s t ft l); [done..|].
    rewrite (ring_next _ _ _ _ (tm_ring _ _ Ht)). destruct l; simpl; [by left|by right; left].
Qed.

Section Lowest.
Implicit Types (s : TASKLETS) (t x : Z) (l : list Z).

Lemma min_prio_loop_spec s a l p fuel :
  seg (t_next s) (t_prev s) a l timers_list -> timers_list ∉ l -> (length l <= fuel)%nat ->
  min_prio_loop fuel s a p = Some (foldl (fun p x => if t_priority s x <? p then t_priority s x else p) p l).
Proof.
  revert a p fuel. induction l as [|x l IH]; intros a p fuel Hs Hn Hf; simpl in Hs, Hf.
  - destruct Hs as [E _]. destruct fuel; cbn [min_prio_loop]; by rewrite E, Z.eqb_refl.
  - destruct Hs as (E & _ & Hs). destruct fuel as [|fuel]; [lia|]. cbn [min_prio_loop]. rewrite E.
    apply not_elem_of_cons in Hn as [Hx Hn]. rewrite (proj2 (Z.eqb_neq _ _)) by congruence.
    simpl. apply IH; [done|done|lia].
Qed.

Lemma foldl_min_lower (prio : Z -> Z) l p b :
  b <= p -> (forall x, x ∈ l -> b <= prio x) ->
  b <= foldl (fun p x => if prio x <? p then prio x else p) p l.
Proof.
  revert p. induction l as [|x l IH]; intros p Hp Hl; simpl; [done|]. apply IH.
  - destruct (prio x <? p); [apply Hl; by left|done].
  - intros y Hy. apply Hl. by right.
Qed.

(** The manager keeps its priority if no timer has a higher one. *)
Lemma asgn_min_prio_keeps s t l b :
  tk_ring s timers_list (t :: l) -> fits (t :: l) ->
  (forall x, x ∈ t :: l -> b <= t_priority s x) -> priority (sched s) timers_manager <= b ->
  exists σ, asgn_min_prio s = Done tt (s <| sched := σ |>).
Proof.
  intros Hr Hf Hb Hp. unfold asgn_min_prio. run_m. rewrite (ring_next _ _ _ _ Hr). cbn [hd].
  destruct (ring_app_inj _ _ _ [] t l [] l Hr Hr) as [_ _].
  pose proof (ring_middle _ _ _ [] t l Hr) as (Hth & Hn & _).
  destruct Hr as [(_ & _ & Hs) Hnd]. apply NoDup_cons in Hnd as [Hl _].
  rewrite (min_prio_loop_spec s t l) by (done || (unfold fits in Hf; simpl in Hf; lia) || (by intros ?; apply Hl; right)).
  unfold schd, lift, raise_manager. run_m.
  rewrite Z.gtb_ltb, (proj2 (Z.ltb_ge _ _)).
  - cbn [lift_out]. by eexists.
  - etransitivity; [exact Hp|]. apply foldl_min_lower; [apply Hb; by left|]. intros x Hx. apply Hb. by right.
Qed.
End Lowest.

(** A timer of priority [RT_LOWEST_PRIORITY] is never called: when such
    timers are due the manager goes round without sleeping, and the next turn
    finds the same timers. *)
Theorem lowest_priority_never_fires run_handler s t l :
  timers s (t :: l) -> fits (t :: l) ->
  (forall x, x ∈ t :: l -> RT_LOWEST_PRIORITY <= t_priority s x) ->
  rt_smp_current (sched s) = timers_manager ->
  firing_time s t <= rt_time_h (sched s) ->
  i64 (firing_time s t + timers_tol s) < RT_TIME_END ->
  exists σ, rt_timers_manager_loop run_handler 0 s = Done tt (s <| sched := σ |>) /\
    timers (s <| sched := σ |>) (t :: l).
Proof.
  intros Ht Hf Hlow Hcur Hdue Hnow. pose proof Ht as [Hr _ Hhd _].
  unfold rt_timers_manager_loop. run_m. rewrite (ring_next _ _ _ _ Hr). cbn [hd].
  unfold schd at 1, lift at 1, rt_sleep_until. run_m. rewrite Hcur, Z.gtb_ltb, (proj2 (Z.ltb_ge _ _)) by done.
  run_m. cbn [lift_out bind_out]. unfold timers_manager_turn. run_m. rewrite upd_eq.
  set (now := i64 _) in *. cbn [fire_loop]. run_m.
  set (s1 := s <| sched := _ |>).
  rewrite (find_due_spec LIST_FUEL s1 now timers_list (t :: l)); [|apply Hr|change (now < firing_time s timers_list); by rewrite Hhd|done].
  change (t_priority s1) with (t_priority s).
  destruct (pick_spec (t_priority s) (take_while (fun x => firing_time s1 x <=? now) (t :: l)) timers_list
    RT_LOWEST_PRIORITY) as [[-> _]|(D1 & x & D2 & ED & _ & Hx & _ & _)].
  - run_m. unfold schd at 1, lift at 1. run_m. cbn [lift_out bind_out]. rewrite Z.eqb_refl. run_m.
    change (nz 0) with false. run_m. set (s2 := s1 <| sched := _ |>).
    destruct (asgn_min_prio_keeps s2 t l RT_LOWEST_PRIORITY) as [σ ->]; [exact Hr|done|done| |].
    + unfold s2. state_simpl. rewrite upd_eq. lia.
    + exists σ. split; [by destruct s|]. by apply timers_sched.
  - exfalso. assert (Hin : x ∈ t :: l).
    { rewrite <- (take_drop_while (fun x => firing_time s1 x <=? now) (t :: l)), ED.
      rewrite !elem_of_app, elem_of_cons. tauto. }
    specialize (Hlow x Hin). lia.
Qed.

(** The first tasklet with an id, 0 if there is none. *)
Definition first_id (ids : Z -> Z) (id_ : Z) (l : list Z) : Z :=
  hd 0 (filter (fun t => ids t = id_) l).

Lemma rt_find_tasklet_by_id_spec s l id_ :
  tk_ring s tasklets_list l -> fits l ->
  rt_find_tasklet_by_id s id_ = Some (first_id (id s) id_ l).
Proof.
  intros Hr Hf. unfold rt_find_tasklet_by_id. rewrite (walk_ring _ _ _ _ _ _ Hr); [|by rewrite Z.eqb_refl|done].
  simpl. f_equal. assert (Hh : tasklets_list ∉ l) by (intros Hin; by eapply ring_not_head).
  clear Hr Hf. unfold first_id. induction l as [|x l IH]; [done|].
  apply not_elem_of_cons in Hh as [Hx Hl]. cbn [drop_while]. rewrite filter_cons.
  rewrite (proj2 (Z.eqb_neq x _)) by congruence. cbn [negb andb].
  destruct (Z.eqb_spec id_ (id s x)) as [->|Hne]; cbn [negb].
  - rewrite decide_True by done. simpl. by rewrite (proj2 (Z.eqb_neq _ _)) by congruence.
  - rewrite decide_False by congruence. by apply IH.
Qed.

(** Tasklets are found by the id they were inserted with, the oldest
    first; [rt_remove_tasklet] undoes [rt_insert_tasklet]. *)
Theorem tasklets_found_by_id s t prio h d id_ l :
  h <> 0 -> id_ <> 0 -> tk_ring s tasklets_list l -> fits (t :: l) -> t ∉ tasklets_list :: l ->
  exists s1 s2, rt_insert_tasklet t prio h d id_ 0 s = Done 0 s1 /\ tk_ring s1 tasklets_list (l ++ [t]) /\
    (forall i, rt_find_tasklet_by_id s1 i = Some (first_id (<[t := id_]> (id s)) i (l ++ [t]))) /\
    rt_remove_tasklet t s1 = Done tt s2 /\ tk_ring s2 tasklets_list l /\
    (forall i, rt_find_tasklet_by_id s2 i = Some (first_id (id s) i l)).
Proof.
  intros Hh Hid Hr Hf Hn. apply nz_true in Hh, Hid. pose proof (proj1 (not_elem_of_cons _ _ _) Hn) as [_ Hl].
  unfold rt_insert_tasklet. rewrite Hh, Hid. cbn [negb orb]. unfold init_task. run_m.
  change (nz 0) with false. cbn [negb]. run_m.
  match goal with |- context [tk_link _ _ ?x] => set (s0 := x) end.
  destruct (tk_link_spec s0 tasklets_list t l []) as (N & P & E & R & _); rewrite ?app_nil_r in *; [exact Hr|exact Hn|].
  cbn [hd] in E. rewrite E. run_m. set (s1 := with_links s0 N P) in *.
  assert (R1 : tk_ring s1 tasklets_list (l ++ [t])) by exact R.
  assert (Ef : fits (l ++ [t])) by (unfold fits; rewrite length_app, Nat.add_comm; exact Hf).
  destruct (tk_unlink_spec s1 tasklets_list t l []) as (N2 & P2 & E2 & R2 & _); [exact R1|]. rewrite app_nil_r in R2.
  assert (R3 : tk_ring (with_links (with_links s1 N2 P2) (<[t := t]> N2) (<[t := t]> P2)) tasklets_list l).
  { revert R2. apply ring_frame; intros y Hy; unfold with_links; state_simpl; rewrite upd_ne; try done; by intros <-. }
  exists s1, (with_links (with_links s1 N2 P2) (<[t := t]> N2) (<[t := t]> P2)). split_and!; [done|done| | |exact R3|].
  - intros i. by rewrite (rt_find_tasklet_by_id_spec _ (l ++ [t])).
  - unfold rt_remove_tasklet. run_m. rewrite (is_linked_in s1 tasklets_list (l ++ [t])) by (done || apply elem_middle).
    rewrite E2. unfold tk_self. run_m. done.
  - intros i. rewrite (rt_find_tasklet_by_id_spec _ l); [|exact R3|unfold fits in *; simpl in Hf; lia].
    f_equal. unfold first_id. f_equal. clear -Hl. induction l as [|x l IH]; [done|].
    apply not_elem_of_cons in Hl as [Hx Hl]. rewrite !filter_cons, IH by done.
    replace (id (with_links (with_links s1 N2 P2) (<[t := t]> N2) (<[t := t]> P2)) x) with (id s x); [done|].
    change (id s x = (<[t := id_]> (id s)) x). by rewrite upd_ne.
Qed.

(** * Witnesses *)

(** The manager sleeps until 50, when a timer of priority 3 and period 10
    fires; a timer of priority 1 fires once, at 60. *)
Definition demo_tasklets : TASKLETS :=
  run (_ ← rt_insert_timer 5000 3 50 10 7 0 0; _ ← rt_insert_timer 5100 1 60 0 8 1 0; mret tt)
    (tasklets_zero
       (run (enq_timed_task timers_manager)
          (new_task timers_manager RT_LOWEST_PRIORITY idle
             <| state ::= <[timers_manager := Z.lor READY DELAYED]> |>
             <| resume_time ::= <[timers_manager := 50]> |>))).

(** A handler that uses the scheduler. *)
Definition demo_handler (h d : Z) : T unit := schd (wr msg timers_manager d).

Lemma demo_handler_quiet : quiet demo_handler.
Proof. intros h d s. unfold demo_handler, schd, lift. run_m. cbn [lift_out]. by eexists. Qed.

Ltac in_cases H := repeat (apply elem_of_cons in H as [->|H]); [..|by apply not_elem_of_nil in H].

Lemma demo_tasklets_timers : timers demo_tasklets [5000; 5100].
Proof.
  split; [solve_ring|sorted_eval|by_eval|]. intros t Ht. in_cases Ht; vm_compute; reflexivity.
Qed.

Lemma demo_tasklets_manager : manager_ok (sched demo_tasklets) [timers_manager].
Proof. split; [solve_ring|fits_eval|sorted_eval|intros _; by left|by_eval|by_eval]. Qed.

Lemma rt_insert_timer_in_time_witness :
  exists s1 l1 l2 L1, [5000; 5100] = l1 ++ l2 /\ timers s1 (l1 ++ 5200 :: l2) /\
    (forall x, x ∈ l1 -> firing_time demo_tasklets x <= 40) /\
    (forall x, x ∈ l2 -> 40 < firing_time demo_tasklets x) /\
    firing_time s1 = <[5200 := 40]> (firing_time demo_tasklets) /\
    in_time s1 (l1 ++ 5200 :: l2) /\ manager_ok (sched s1) L1 /\ L1 ≡ₚ [timers_manager] /\
    rt_insert_timer 5200 2 40 0 9 0 0 demo_tasklets =
      (if bool_decide (l1 = []) && has (state (sched demo_tasklets) timers_manager) DELAYED &&
          (40 <? resume_time (sched demo_tasklets) timers_manager)
       then (schd rt_schedule;; mret 0) s1 else Done 0 s1).
Proof.
  apply rt_insert_timer_in_time; [done|exact demo_tasklets_timers|fits_eval|not_in|by_eval| |exact demo_tasklets_manager].
  intros _ t Ht. in_cases Ht; by_eval.
Defined.

Lemma fire_loop_calls_due_witness :
  exists calls s' l', fire_loop demo_handler 4 75 demo_tasklets = Done 0 s' /\
    round demo_tasklets 75 [5000; 5100] calls s' l'.
Proof.
  apply fire_loop_calls_due;
    [exact demo_handler_quiet|exact demo_tasklets_timers|fits_eval|by_eval| |by_eval].
  intros t Ht. in_cases Ht; split; by_eval.
Defined.

Lemma rt_insert_timer_ends_witness :
  ((exists s1, timers s1 (insert_tmr (firing_time s1) 5200 [5000; 5100]) /\
      firing_time s1 = <[5200 := 5]> (firing_time demo_tasklets) /\
      rt_insert_timer 5200 2 5 0 9 0 0 demo_tasklets = (schd rt_schedule;; mret 0) s1) /\
   rt_insert_timer 5200 2 5 0 9 0 0 demo_tasklets <> Stuck) /\
  (exists s1, timers s1 (insert_tmr (firing_time s1) 5200 [5000; 5100]) /\
     rt_insert_timer 5200 2 55 0 9 0 0 demo_tasklets = Done 0 s1) /\
  rt_insert_timer 5200 2 9223372036854775807 0 9 0 0 demo_tasklets = Stuck.
Proof.
  assert (Hin : in_time demo_tasklets [5000; 5100]) by (intros _ t Ht; in_cases Ht; by_eval).
  split; [|split].
  - destruct (rt_insert_timer_ends demo_tasklets 5200 2 5 0 9 0 0 [5000; 5100] [timers_manager]) as [H _];
      [done|exact demo_tasklets_timers|fits_eval|not_in|].
    destruct (H ltac:(by_eval) Hin demo_tasklets_manager) as (_ & s1 & T & F & E & _ & N).
    split; [exists s1; split; [exact T|split; [exact F|exact E]]|]. apply (N []); [by_eval|by_eval|solve_ring|fits_eval].
  - destruct (rt_insert_timer_ends demo_tasklets 5200 2 55 0 9 0 0 [5000; 5100] [timers_manager]) as [H _];
      [done|exact demo_tasklets_timers|fits_eval|not_in|].
    destruct (H ltac:(by_eval) Hin demo_tasklets_manager) as (_ & s1 & T & _ & E). exists s1. split; [exact T|exact E].
  - destruct (rt_insert_timer_ends demo_tasklets 5200 2 9223372036854775807 0 9 0 0 [5000; 5100] [timers_manager])
      as [_ H]; [done|exact demo_tasklets_timers|fits_eval|not_in|].
    apply H. by_eval.
Defined.

(** A timer of the lowest priority, that was to fire at 50. *)
Definition demo_lowest : TASKLETS :=
  run (_ ← rt_insert_timer 5000 RT_LOWEST_PRIORITY 50 10 7 0 0; mret tt)
    (tasklets_zero (new_task timers_manager RT_LOWEST_PRIORITY idle
       <| rt_smp_current := timers_manager |> <| rt_time_h := 60 |>)).

Lemma lowest_priority_never_fires_witness :
  exists σ, rt_timers_manager_loop demo_handler 0 demo_lowest = Done tt (demo_lowest <| sched := σ |>) /\
    timers (demo_lowest <| sched := σ |>) [5000].
Proof.
  apply lowest_priority_never_fires; [|fits_eval| |by_eval|by_eval|by_eval].
  - split; [solve_ring|sorted_eval|by_eval|]. intros t Ht. in_cases Ht. vm_compute. reflexivity.
  - intros t Ht. in_cases Ht. by_eval.
Defined.

Lemma tasklets_found_by_id_witness :
  exists s1 s2, rt_insert_tasklet 5000 2 7 0 33 0 (tasklets_zero idle) = Done 0 s1 /\
    tk_ring s1 tasklets_list ([] ++ [5000]) /\
    (forall i, rt_find_tasklet_by_id s1 i = Some (first_id (<[5000 := 33]> (id (tasklets_zero idle))) i ([] ++ [5000]))) /\
    rt_remove_tasklet 5000 s1 = Done tt s2 /\ tk_ring s2 tasklets_list [] /\
    (forall i, rt_find_tasklet_by_id s2 i = Some (first_id (id (tasklets_zero idle)) i [])).
Proof. apply tasklets_found_by_id; [done|done|solve_ring|fits_eval|not_in]. Defined.
