(* ===== verification/Pqueue.v ===== *)
(** Pqueue: message queues.

    [tbx/rtai_pqueue.c]: named queues of messages with priorities.  A queue
    has a block of memory from the memory manager, cut into slots of a header
    ([MSG_HDR]) and the bytes of a message; the messages in the queue are
    linked by priority.  Each task has a table of the queues it opened.  A
    mutex and two condition variables of the scheduler protect a queue and
    let tasks wait until it is not empty, or not full.  [PqueueSpec] proves what
    the services promise.

    The slots of a queue are bytes of memory: where they are is computed in
    several places, and differently.  The other structs are arrays of fields.
    Reading through a null pointer is a fault: the service is [Stuck]. *)

From stdpp Require Import strings sorting.
From S2P Require Import Prelude Memory Resume DList SchedState SchedQueues Schedule SchedTask SchedSem SchedSync SchedMsg SchedMsgx MemMgr.

#[global] Open Scope Z_scope.

Record PQUEUES : Type := mkPQUEUES {
  (* rt_pqueue_descr, by index *)
  owner : Z -> Z;
  open_count : Z -> Z;
  q_name : Z -> string;
  q_id : Z -> Z;
  marked_for_deletion : Z -> bool;
  pq_base : Z -> Z;
  pq_head : Z -> Z;
  pq_tail : Z -> Z;
  mq_maxmsg : Z -> Z;
  mq_msgsize : Z -> Z;
  mq_flags : Z -> Z;
  mq_curmsgs : Z -> Z;
  permissions : Z -> Z;
  notify_task : Z -> Z;
  notify_data : Z -> Z;
  (* task_pqueue_access, by address, and q_access, by address and index *)
  this_task : Z -> Z;
  n_open_pqueues : Z -> Z;
  access_id : Z * Z -> Z;
  access_oflags : Z * Z -> Z;
  (* the Z_APPS of a task, and their fields, by address *)
  system_data_ptr : Z -> Z;
  in_use_count : Z -> Z;
  z_pthreads : Z -> Z;
  z_pqueues : Z -> Z;
  z_vxtasks : Z -> Z;
  (* package global data *)
  num_pqueues : Z;
  task_queueing_policy : Z;
  queue_type : Z;
  (* the bytes of memory, the memory manager, the scheduler *)
  bytes : Z -> Z;
  heap : MEM;
  sched : RTAI
}.

#[export] Instance PQUEUES_eta : Eta PQUEUES := fun s =>
  mkPQUEUES (owner s) (open_count s) (q_name s) (q_id s) (marked_for_deletion s) (pq_base s)
    (pq_head s) (pq_tail s) (mq_maxmsg s) (mq_msgsize s) (mq_flags s) (mq_curmsgs s)
    (permissions s) (notify_task s) (notify_data s) (this_task s) (n_open_pqueues s)
    (access_id s) (access_oflags s) (system_data_ptr s) (in_use_count s) (z_pthreads s)
    (z_pqueues s) (z_vxtasks s) (num_pqueues s) (task_queueing_policy s) (queue_type s)
    (bytes s) (heap s) (sched s).

#[export] Instance set_owner : Setter owner := ltac:(mk_setter).
#[export] Instance set_open_count : Setter open_count := ltac:(mk_setter).
#[export] Instance set_q_name : Setter q_name := ltac:(mk_setter).
#[export] Instance set_q_id : Setter q_id := ltac:(mk_setter).
#[export] Instance set_marked_for_deletion : Setter marked_for_deletion := ltac:(mk_setter).
#[export] Instance set_pq_base : Setter pq_base := ltac:(mk_setter).
#[export] Instance set_pq_head : Setter pq_head := ltac:(mk_setter).
#[export] Instance set_pq_tail : Setter pq_tail := ltac:(mk_setter).
#[export] Instance set_mq_maxmsg : Setter mq_maxmsg := ltac:(mk_setter).
#[export] Instance set_mq_msgsize : Setter mq_msgsize := ltac:(mk_setter).
#[export] Instance set_mq_flags : Setter mq_flags := ltac:(mk_setter).
#[export] Instance set_mq_curmsgs : Setter mq_curmsgs := ltac:(mk_setter).
#[export] Instance set_permissions : Setter permissions := ltac:(mk_setter).
#[export] Instance set_notify_task : Setter notify_task := ltac:(mk_setter).
#[export] Instance set_notify_data : Setter notify_data := ltac:(mk_setter).
#[export] Instance set_this_task : Setter this_task := ltac:(mk_setter).
#[export] Instance set_n_open_pqueues : Setter n_open_pqueues := ltac:(mk_setter).
#[export] Instance set_access_id : Setter access_id := ltac:(mk_setter).
#[export] Instance set_access_oflags : Setter access_oflags := ltac:(mk_setter).
#[export] Instance set_system_data_ptr : Setter system_data_ptr := ltac:(mk_setter).
#[export] Instance set_in_use_count : Setter in_use_count := ltac:(mk_setter).
#[export] Instance set_z_pthreads : Setter z_pthreads := ltac:(mk_setter).
#[export] Instance set_z_pqueues : Setter z_pqueues := ltac:(mk_setter).
#[export] Instance set_z_vxtasks : Setter z_vxtasks := ltac:(mk_setter).
#[export] Instance set_num_pqueues : Setter num_pqueues := ltac:(mk_setter).
#[export] Instance upd_task_queueing_policy : Setter task_queueing_policy := ltac:(mk_setter).
#[export] Instance upd_queue_type : Setter queue_type := ltac:(mk_setter).
#[export] Instance set_bytes : Setter bytes := ltac:(mk_setter).
#[export] Instance set_heap : Setter heap := ltac:(mk_setter).
#[export] Instance set_pq_sched : Setter sched := ltac:(mk_setter).

Abbreviation Q A := (M PQUEUES A).

Definition schd {A} (m : K A) : Q A := lift sched m.
Definition hp {A} (m : MM A) : Q A := lift heap m.

(** * Constants *)

Definition MAX_PQUEUES : Z := 4.
Definition MAX_MSGSIZE : Z := 50.
Definition MAX_MSGS : Z := 10.
Definition MAX_RT_TASKS : Z := 128.
Definition MQ_OPEN_MAX : Z := 8.
Definition MQ_PRIO_MAX : Z := 32.
Definition MQ_BLOCK : Z := 0.
Definition MQ_NONBLOCK : Z := 1.
Definition MQ_NAME_MAX : Z := 80.
Definition MQ_MIN_MSG_PRIORITY : Z := 0.
Definition INVALID_PQUEUE : Z := 0.
Definition FIFO_BASED : Z := 0.
Definition PRIORITY_BASED : Z := 1.
Definition POSIX : Z := 0.
Definition VxWORKS : Z := 1.
Definition OK : Z := 0.
Definition ERROR : Z := -1.
Inductive Q_ACCESS : Type := FOR_READ | FOR_WRITE.

(** Of the headers of Linux for the i386. *)
Definition O_WRONLY : Z := 1.
Definition O_RDWR : Z := 2.
Definition O_CREAT : Z := 64.
Definition O_EXCL : Z := 128.
Definition O_NONBLOCK : Z := 2048.
Definition S_IRUSR : Z := 256.
Definition S_IWUSR : Z := 128.
Definition S_IRGRP : Z := 32.
Definition S_IWGRP : Z := 16.
Definition ENOENT : Z := 2.
Definition EBADF : Z := 9.
Definition EEXIST : Z := 17.
Definition EMFILE : Z := 24.
Definition ENAMETOOLONG : Z := 36.
Definition EMSGSIZE : Z := 90.
Definition ENOBUFS : Z := 105.
Definition ETIMEDOUT : Z := 110.

(** The addresses of static data, and the sizes of structs. *)
Definition pqueue_mutex : semp := Sem 16384.
Definition task_pqueue_access : Z := 32768.
Definition sizeof_access : Z := 72.
Definition sizeof_z_apps : Z := 16.
Definition sizeof_MSG_HDR : Z := 16.

(** Conversion to [char] and to [unsigned char]. *)
Definition i8 (z : Z) : Z := (z + 128) mod 256 - 128.
Definition u8 (z : Z) : Z := z mod 256.

Definition pqueues_zero (heap_ : MEM) (sched_ : RTAI) : PQUEUES :=
  mkPQUEUES (fun _ => 0) (fun _ => 0) (fun _ => ""%string) (fun _ => 0) (fun _ => false) (fun _ => 0)
    (fun _ => 0) (fun _ => 0) (fun _ => 0) (fun _ => 0) (fun _ => 0) (fun _ => 0) (fun _ => 0)
    (fun _ => 0) (fun _ => 0) (fun _ => 0) (fun _ => 0) (fun _ => 0) (fun _ => 0) (fun _ => 0)
    (fun _ => 0) (fun _ => 0) (fun _ => 0) (fun _ => 0) 0 FIFO_BASED POSIX (fun _ => 0) heap_ sched_.

(** * Words in memory *)

Definition store32 (a v : Z) : Q unit := modify (fun s => s <| bytes ::= fun m => st32 m a v |>).

(** The fields of a [MSG_HDR], and the first byte of the message. *)
Definition in_use (s : PQUEUES) (msg : Z) : Z := ld32 (bytes s) msg.
Definition msg_size (s : PQUEUES) (msg : Z) : Z := ld32 (bytes s) (msg + 4).
Definition msg_priority (s : PQUEUES) (msg : Z) : Z := ld32 (bytes s) (msg + 8).
Definition msg_next (s : PQUEUES) (msg : Z) : Z := ld32 (bytes s) (msg + 12).
Definition msg_data (msg : Z) : Z := msg + sizeof_MSG_HDR.

(** [for (i = 0; i < n; i++) dst[i] = src[i];] *)
Fixpoint copy_loop (n : nat) (dst src : Z) : Q unit :=
  match n with
  | O => mret tt
  | S n' => modify (fun s => s <| bytes ::= fun m => <[dst := m src]> m |>);; copy_loop n' (dst + 1) (src + 1)
  end.
Definition copy_bytes (n dst src : Z) : Q unit := copy_loop (Z.to_nat n) dst src.

(** [memcpy] *)
Definition copy_block (n dst src : Z) : Q unit := modify (fun s => s <| bytes ::= fun m => copied m dst src n |>).

(** * Local functions *)

(** The block is not checked: with a null pointer [zapps->in_use_count = 0]
    is a fault. *)
Definition init_z_apps (task : Z) : Q Z :=
  s ← get;
  if system_data_ptr s task =? 0 then
    zapps ← hp (rt_malloc sizeof_z_apps);
    wr system_data_ptr task zapps;;
    if zapps =? 0 then stuck
    else
      wr in_use_count zapps 0;;
      wr z_pthreads zapps 0;;
      wr z_pqueues zapps 0;;
      wr z_vxtasks zapps 0;;
      mret zapps
  else mret (system_data_ptr s task).

Definition free_z_apps (task : Z) : Q unit :=
  s ← get;
  when (nz (system_data_ptr s task))
    (hp (rt_free (system_data_ptr s task));; wr system_data_ptr task 0).

(** [for (ind = i; ind < MAX_PQUEUES; ind++)], [n] turns. *)
Fixpoint name_loop (n : nat) (s : PQUEUES) (name : string) (ind : Z) : Z :=
  match n with
  | O => ERROR
  | S n' =>
      if negb (bool_decide (q_name s ind = ""%string)) && bool_decide (q_name s ind = name) then ind
      else name_loop n' s name (ind + 1)
  end.
Definition name_to_id (s : PQUEUES) (name : string) : Z := name_loop (Z.to_nat MAX_PQUEUES) s name 0.

Definition is_empty (s : PQUEUES) (q : Z) : bool := mq_curmsgs s q =? 0.
Definition is_full (s : PQUEUES) (q : Z) : bool := mq_curmsgs s q =? mq_maxmsg s q.

Fixpoint getnode_loop (n : nat) (size msg : Z) : Q Z :=
  match n with
  | O => mret 0
  | S n' =>
      s ← get;
      if in_use s msg =? 0 then store32 msg 1;; mret msg
      else getnode_loop n' size (msg + size)
  end.
Definition getnode (q : Z) : Q Z :=
  s ← get;
  getnode_loop (Z.to_nat (u32 (mq_maxmsg s q))) (u8 (mq_msgsize s q + sizeof_MSG_HDR)) (pq_base s q).

(** [while (insertpt->priority >= this_msg->priority) { prev = insertpt;
    insertpt = insertpt->next; }] *)
Fixpoint insert_walk (fuel : nat) (s : PQUEUES) (prio prev insertpt : Z) : option (Z * Z) :=
  if insertpt =? 0 then None
  else if msg_priority s insertpt >=? prio then
    match fuel with
    | O => None
    | S fuel' => insert_walk fuel' s prio insertpt (msg_next s insertpt)
    end
  else Some (prev, insertpt).

Definition insert_message (q this_msg : Z) : Q unit :=
  s ← get;
  if msg_priority s (pq_tail s q) >=? msg_priority s this_msg then
    store32 (pq_tail s q + 12) this_msg;;
    wr pq_tail q this_msg
  else
    '(prev, insertpt) ←
      (if queue_type s =? POSIX then
         of_option (insert_walk (Z.to_nat (u32 (mq_maxmsg s q))) s (msg_priority s this_msg)
                      (pq_head s q) (pq_head s q))
       else mret (pq_head s q, pq_head s q));
    if insertpt =? pq_head s q then
      store32 (this_msg + 12) (pq_head s q);;
      wr pq_head q this_msg
    else
      store32 (this_msg + 12) (msg_next s prev);;
      store32 (prev + 12) this_msg.

(** [zapps->pqueues] of a task. *)
Definition task_pqueues (s : PQUEUES) (task : Z) : option Z :=
  if system_data_ptr s task =? 0 then None else Some (z_pqueues s (system_data_ptr s task)).

(** The first index, from [ind], of [q_access] with an identifier; the number
    of entries if there is none. *)
Fixpoint access_loop (n : nat) (s : PQUEUES) (p id ind : Z) : Z :=
  match n with
  | O => ind
  | S n' => if access_id s (p, ind) =? id then ind else access_loop n' s p id (ind + 1)
  end.
Definition find_access (s : PQUEUES) (p id : Z) : Z := access_loop (Z.to_nat MQ_OPEN_MAX) s p id 0.

Definition is_blocking (s : PQUEUES) (q : Z) : option bool :=
  p ← task_pqueues s (rt_whoami (sched s));
  if p =? 0 then None
  else
    let ind := find_access s p (q_id s q) in
    Some (if ind =? MQ_OPEN_MAX then false else negb (has (access_oflags s (p, ind)) O_NONBLOCK)).

Definition permitted (s : PQUEUES) (q : Z) (access : Q_ACCESS) : bool :=
  let '(r, w) := if owner s q =? rt_whoami (sched s) then (S_IRUSR, S_IWUSR) else (S_IRGRP, S_IWGRP) in
  match access with FOR_READ => has (permissions s q) r | FOR_WRITE => has (permissions s q) w end.

Definition can_access (s : PQUEUES) (q : Z) (access : Q_ACCESS) : option bool :=
  if permitted s q access then
    p ← task_pqueues s (rt_whoami (sched s));
    if p =? 0 then Some false
    else
      let ind := find_access s p (q_id s q) in
      if ind =? MQ_OPEN_MAX then Some false
      else match access with
           | FOR_WRITE => Some (has (access_oflags s (p, ind)) O_WRONLY || has (access_oflags s (p, ind)) O_RDWR)
           | FOR_READ => Some true
           end
  else Some false.

(** [msg_ptr += (char)msg_size]: the slots as they are initialised. *)
Fixpoint init_slots (n : nat) (size msg : Z) : Q unit :=
  match n with
  | O => mret tt
  | S n' =>
      store32 msg 0;;
      store32 (msg + 4) 0;;
      store32 (msg + 8) MQ_MIN_MSG_PRIORITY;;
      store32 (msg + 12) 0;;
      init_slots n' size (msg + size)
  end.
Definition initialise_queue (q : Z) : Q unit :=
  s ← get;
  if pq_base s q =? 0 then mret tt
  else init_slots (Z.to_nat (u32 (mq_maxmsg s q))) (i8 (mq_msgsize s q + sizeof_MSG_HDR)) (pq_base s q).

(** Slots a quarter of their size apart. *)
Fixpoint clear_slots (n : nat) (size msg : Z) : Q unit :=
  match n with
  | O => mret tt
  | S n' => store32 msg 0;; clear_slots n' size (msg + size)
  end.

Definition pq_lock (q : Z) : Q unit := _ ← schd (rt_sem_wait (PqMutex q)); mret tt.
Definition pq_unlock (q : Z) : Q unit := _ ← schd (rt_sem_signal (PqMutex q)); mret tt.
Definition all_lock : Q unit := _ ← schd (rt_sem_wait pqueue_mutex); mret tt.
Definition all_unlock : Q unit := _ ← schd (rt_sem_signal pqueue_mutex); mret tt.

Definition delete_queue (q : Z) : Q unit :=
  s ← get;
  clear_slots (Z.to_nat (mq_maxmsg s q)) (u32 (mq_msgsize s q + sizeof_MSG_HDR) / 4) (pq_base s q);;
  hp (rt_free (pq_base s q));;
  wr owner q 0;;
  wr open_count q 0;;
  wr q_name q ""%string;;
  wr q_id q INVALID_PQUEUE;;
  wr pq_base q 0;;
  wr pq_head q 0;;
  wr pq_tail q 0;;
  wr mq_maxmsg q 0;;
  wr mq_msgsize q 0;;
  wr mq_flags q 0;;
  wr mq_curmsgs q 0;;
  wr permissions q 0;;
  pq_unlock q;;
  _ ← schd (rt_sem_delete (PqMutex q));
  _ ← schd (rt_sem_delete (PqEmp q));
  _ ← schd (rt_sem_delete (PqFull q));
  s ← get;
  wg num_pqueues (u32 (num_pqueues s - 1)).

(** * Access functions *)

Definition get_task_queueing_policy (s : PQUEUES) : Z := task_queueing_policy s.
Definition set_task_queueing_policy (policy_ : Z) : Q Z := wg task_queueing_policy policy_;; mret policy_.
Definition get_queue_type (s : PQUEUES) : Z := queue_type s.
Definition set_queue_type (type : Z) : Q Z := wg queue_type type;; mret type.

(** * Opening *)

Definition access_adr (t : Z) : Z := task_pqueue_access + sizeof_access * t.

Fixpoint spare_access (n : nat) (s : PQUEUES) (t : Z) : option Z :=
  match n with
  | O => None
  | S n' => if this_task s (access_adr t) =? 0 then Some (access_adr t) else spare_access n' s (t + 1)
  end.

(** A table for a task that has none. *)
Definition take_access (task zapps : Z) : Q (option Z) :=
  s ← get;
  match spare_access (Z.to_nat MAX_RT_TASKS) s 0 with
  | Some p => wr this_task p task;; wr z_pqueues zapps p;; mret (Some p)
  | None => mret None
  end.

(** Whether the queue is in the table, and the index of its entry; the number
    of the entries not in use before it, and the index of the first. *)
Fixpoint open_scan (n : nat) (s : PQUEUES) (p id ind spare_count first_spare : Z) : bool * Z * Z * Z :=
  match n with
  | O => (false, ind, spare_count, first_spare)
  | S n' =>
      if access_id s (p, ind) =? id then (true, ind, spare_count, first_spare)
      else if access_id s (p, ind) =? INVALID_PQUEUE then
        open_scan n' s p id (ind + 1) (spare_count + 1) (if spare_count =? 0 then ind else first_spare)
      else open_scan n' s p id (ind + 1) spare_count first_spare
  end.

Definition count_open (p : Z) (d : Z) : Q unit :=
  s ← get;
  wr n_open_pqueues p (i32 (n_open_pqueues s p + d)).

(** The result is 0, or an error. *)
Definition open_existing (q task zapps p oflags : Z) : Q Z :=
  if has oflags O_CREAT && has oflags O_EXCL then mret (- EEXIST)
  else
    p ← (if p =? 0 then take_access task zapps else mret (Some p));
    match p with
    | None => mret (- ENOMEM)
    | Some p =>
        pq_lock q;;
        s ← get;
        let '(q_found, q_ind, spare_count, first_spare) :=
          open_scan (Z.to_nat MQ_OPEN_MAX) s p (q_id s q) 0 0 0 in
        if negb q_found && (spare_count =? 0) then pq_unlock q;; mret (- EINVAL)
        else
          when (negb q_found) (count_open p 1);;
          let q_ind := if q_found then q_ind else first_spare in
          wr access_id (p, q_ind) (q_id s q);;
          wr access_oflags (p, q_ind) oflags;;
          pq_unlock q;;
          mret 0
    end.

(** [struct mq_attr] *)
Record MQ_ATTR : Type := mkATTR { a_maxmsg : Z; a_msgsize : Z; a_flags : Z; a_curmsgs : Z }.
Definition default_data_queue_attrs : MQ_ATTR := mkATTR MAX_MSGS MAX_MSGSIZE MQ_NONBLOCK 0.
Definition attrs (s : PQUEUES) (q : Z) : MQ_ATTR :=
  mkATTR (mq_maxmsg s q) (mq_msgsize s q) (mq_flags s q) (mq_curmsgs s q).

Fixpoint spare_descr (n : nat) (s : PQUEUES) (q : Z) : option Z :=
  match n with
  | O => None
  | S n' => if q_id s q =? INVALID_PQUEUE then Some q else spare_descr n' s (q + 1)
  end.

(** The size of a slot is a [char]. *)
Definition queue_size (attr : MQ_ATTR) : Z := i32 (i8 (a_msgsize attr + sizeof_MSG_HDR) * a_maxmsg attr).

Definition init_sync (q : Z) : Q unit :=
  schd (rt_typed_sem_init (PqEmp q) 0 BIN_SEM);;
  schd (rt_typed_sem_init (PqFull q) 0 BIN_SEM);;
  schd (rt_typed_sem_init (PqMutex q) 1 RES_SEM).

(** The descriptor of a new queue with the block [mem_ptr]. *)
Definition init_descr (q mem_ptr : Z) (mq_name : string) (permissions_ : Z) (attr : MQ_ATTR) : Q unit :=
  s ← get;
  wr pq_base q mem_ptr;;
  wr owner q (rt_whoami (sched s));;
  wr open_count q 0;;
  wr q_name q mq_name;;
  wr q_id q (q + 1);;
  wr marked_for_deletion q false;;
  wr pq_tail q mem_ptr;;
  wr pq_head q mem_ptr;;
  wr mq_maxmsg q (a_maxmsg attr);;
  wr mq_msgsize q (a_msgsize attr);;
  wr mq_flags q (a_flags attr);;
  wr mq_curmsgs q 0;;
  wr permissions q permissions_;;
  init_sync q;;
  initialise_queue q.

(** The entry of the new queue is the one after the last of those in use, if
    none was closed before. *)
Definition record_access (p q oflags : Z) : Q unit :=
  s ← get;
  let q_ind := n_open_pqueues s p in
  count_open p 1;;
  wr access_id (p, q_ind) (q + 1);;
  wr access_oflags (p, q_ind) oflags.

(** The index of the queue, or an error. *)
Definition create_queue (task zapps p : Z) (mq_name : string) (oflags permissions_ : Z)
    (mq_attr : option MQ_ATTR) : Q (Z + Z) :=
  s ← get;
  if num_pqueues s >=? MAX_PQUEUES then mret (inr (- ENOMEM))
  else if Z.of_nat (String.length mq_name) >=? MQ_NAME_MAX then mret (inr (- ENAMETOOLONG))
  else if nz p && (n_open_pqueues s p >=? MQ_OPEN_MAX) then mret (inr (- EINVAL))
  else
    p ← (if p =? 0 then take_access task zapps else mret (Some p));
    match p with
    | None => mret (inr (- ENOMEM))
    | Some p =>
        let attr := match mq_attr with Some a => a | None => default_data_queue_attrs end in
        s ← get;
        match spare_descr (Z.to_nat MAX_PQUEUES) s 0 with
        | None => mret (inr (- EMFILE))
        | Some q =>
            mem_ptr ← hp (rt_malloc (u32 (queue_size attr)));
            if mem_ptr =? 0 then mret (inr (- ENOMEM))
            else
              init_descr q mem_ptr mq_name permissions_ attr;;
              record_access p q oflags;;
              s ← get;
              wg num_pqueues (u32 (num_pqueues s + 1));;
              mret (inl q)
        end
    end.

Definition mq_open (mq_name : string) (oflags permissions_ : Z) (mq_attr : option MQ_ATTR) : Q Z :=
  s ← get;
  let task := rt_whoami (sched s) in
  zapps ← init_z_apps task;
  s ← get;
  let p := z_pqueues s zapps in
  all_lock;;
  s ← get;
  let q_index := name_to_id s mq_name in
  r ← (if q_index >=? 0 then
         err ← open_existing q_index task zapps p oflags;
         mret (if err =? 0 then inl q_index else inr err)
       else if has oflags O_CREAT then create_queue task zapps p mq_name oflags permissions_ mq_attr
       else mret (inr (- ENOENT)));
  match r with
  | inr err => all_unlock;; mret (u32 err)
  | inl q =>
      s ← get;
      wr open_count q (i32 (open_count s q + 1));;
      all_unlock;;
      s ← get;
      mret (q_id s q)
  end.

(** * Messages *)

(** [while (is_empty(&q->data))] ([is_full]), on the call that waits; its
    result is the error to return, if it timed out. *)
Fixpoint wait_while (fuel : nat) (cond : PQUEUES -> Z -> bool) (wait : Q (option Z)) (q : Z) : Q (option Z) :=
  s ← get;
  if cond s q then
    blocking ← of_option (is_blocking s q);
    if blocking : bool then
      match fuel with
      | O => stuck
      | S fuel' =>
          r ← wait;
          match r with
          | Some err => pq_unlock q;; mret (Some err)
          | None => wait_while fuel' cond wait q
          end
      end
    else pq_unlock q;; mret (Some (- EAGAIN))
  else mret None.

(** [pthread_cond_wait(cnd, &q->mutex)] and [rt_cond_wait_until(cnd,
    &q->mutex, time) < 0]. *)
Definition cond_wait (cnd : semp) (q : Z) : Q (option Z) :=
  _ ← schd (rt_cond_wait cnd (PqMutex q)); mret None.
Definition cond_wait_until (cnd : semp) (time q : Z) : Q (option Z) :=
  r ← schd (rt_cond_wait_until cnd (PqMutex q) time);
  mret (if r <? 0 then Some (- ETIMEDOUT) else None).

(** Out of the queue and back into the pool. *)
Definition release_message (q msg : Z) : Q unit :=
  s ← get;
  wr pq_head q (msg_next s msg);;
  s ← get;
  when (pq_head s q =? 0) (wr pq_tail q (pq_base s q);; wr pq_head q (pq_base s q));;
  store32 msg 0;;
  store32 (msg + 4) 0;;
  store32 (msg + 12) 0;;
  wr mq_curmsgs q (i32 (mq_curmsgs s q - 1)).

(** The first message, on the copy that the service uses. *)
Definition receive_message (copy : Z -> Z -> Z -> Q unit) (q msg_buffer buflen msgprio : Z) : Q Z :=
  s ← get;
  let msg_ptr := pq_head s q in
  if buflen <? u32 (mq_msgsize s q) then pq_unlock q;; mret (u32 (- EMSGSIZE))
  else
    nBytes ←
      (let nBytes := msg_size s msg_ptr in
       if nBytes <=? buflen then
         copy nBytes msg_buffer (msg_data msg_ptr);;
         s ← get;
         store32 msgprio (msg_priority s msg_ptr);;
         mret nBytes
       else mret (u32 ERROR));
    release_message q msg_ptr;;
    _ ← schd (rt_sem_signal (PqFull q));
    pq_unlock q;;
    mret nBytes.

(** [0 <= q_index && q_index < MAX_PQUEUES] for [q_index = mq - 1]. *)
Definition valid_mq (mq : Z) : bool := (0 <=? i32 (mq - 1)) && (i32 (mq - 1) <? MAX_PQUEUES).

Definition receive_with (copy : Z -> Z -> Z -> Q unit) (wait : Z -> Q (option Z))
    (mq msg_buffer buflen msgprio : Z) : Q Z :=
  if valid_mq mq then
    let q := i32 (mq - 1) in
    s ← get;
    ok ← of_option (can_access s q FOR_READ);
    if negb ok then mret (u32 (- EINVAL))
    else
      pq_lock q;;
      r ← wait_while SCHED_FUEL is_empty (wait q) q;
      match r with
      | Some err => mret (u32 err)
      | None => receive_message copy q msg_buffer buflen msgprio
      end
  else mret (u32 (- EBADF)).

Definition mq_receive : Z -> Z -> Z -> Z -> Q Z :=
  receive_with copy_bytes (fun q => cond_wait (PqEmp q) q).

Definition mq_timedreceive (mq msg_buffer buflen msgprio time : Z) : Q Z :=
  receive_with copy_block (fun q => cond_wait_until (PqEmp q) time q) mq msg_buffer buflen msgprio.

(** Only a message that was printed tells of the notification. *)
Definition notify_first (q : Z) (q_was_empty : bool) : Q unit :=
  s ← get;
  when (q_was_empty && nz (notify_task s q)) (wr notify_task q 0).

Definition send_message (copy : Z -> Z -> Z -> Q unit) (q msg msglen msgprio : Z) : Q Z :=
  this_msg ← getnode q;
  if this_msg =? 0 then pq_unlock q;; mret (- ENOBUFS)
  else
    s ← get;
    let q_was_empty := is_empty s q in
    wr mq_curmsgs q (i32 (mq_curmsgs s q + 1));;
    if msglen >? u32 (mq_msgsize s q) then pq_unlock q;; mret (- EMSGSIZE)
    else
      store32 (this_msg + 4) msglen;;
      store32 (this_msg + 8) msgprio;;
      copy msglen (msg_data this_msg) msg;;
      insert_message q this_msg;;
      _ ← schd (rt_sem_signal (PqEmp q));
      notify_first q q_was_empty;;
      pq_unlock q;;
      mret (i32 msglen).

Definition send_with (copy : Z -> Z -> Z -> Q unit) (wait : Z -> Q (option Z))
    (mq msg msglen msgprio : Z) : Q Z :=
  if valid_mq mq then
    let q := i32 (mq - 1) in
    s ← get;
    ok ← of_option (can_access s q FOR_WRITE);
    if negb ok then mret (- EINVAL)
    else if msgprio >? MQ_PRIO_MAX then mret (- EINVAL)
    else
      pq_lock q;;
      r ← wait_while SCHED_FUEL is_full (wait q) q;
      match r with
      | Some err => mret err
      | None => send_message copy q msg msglen msgprio
      end
  else mret (- EBADF).

Definition mq_send : Z -> Z -> Z -> Z -> Q Z :=
  send_with copy_bytes (fun q => cond_wait (PqFull q) q).

Definition mq_timedsend (mq msg msglen msgprio time : Z) : Q Z :=
  send_with copy_block (fun q => cond_wait_until (PqFull q) time q) mq msg msglen msgprio.

(** * Closing, attributes, notification *)

Definition mq_close (mq : Z) : Q Z :=
  if valid_mq mq then
    let q := i32 (mq - 1) in
    s ← get;
    p ← of_option (task_pqueues s (rt_whoami (sched s)));
    if p =? 0 then mret (- EINVAL)
    else
      all_lock;;
      s ← get;
      let q_ind := find_access s p mq in
      if q_ind =? MQ_OPEN_MAX then all_unlock;; mret (- EINVAL)
      else
        wr access_id (p, q_ind) INVALID_PQUEUE;;
        count_open p (-1);;
        pq_lock q;;
        s ← get;
        when (notify_task s q =? rt_whoami (sched s)) (wr notify_task q 0);;
        wr open_count q (i32 (open_count s q - 1));;
        s ← get;
        (if (open_count s q <=? 0) && marked_for_deletion s q then delete_queue q else pq_unlock q);;
        all_unlock;;
        mret OK
  else mret (- EINVAL).

(** The result, and what is stored in [*attrbuf]. *)
Definition mq_getattr (mq : Z) : Q (Z * option MQ_ATTR) :=
  s ← get;
  mret (if valid_mq mq then (OK, Some (attrs s (i32 (mq - 1)))) else (- EBADF, None)).

(** The result, and what is stored in [*old_attrs]. *)
Definition mq_setattr (mq : Z) (new_attrs : MQ_ATTR) (want_old : bool) : Q (Z * option MQ_ATTR) :=
  if valid_mq mq then
    let q := i32 (mq - 1) in
    s ← get;
    let old := if want_old then Some (attrs s q) else None in
    p ← of_option (task_pqueues s (rt_whoami (sched s)));
    if p =? 0 then mret (- EINVAL, old)
    else
      let q_ind := find_access s p mq in
      if q_ind =? MQ_OPEN_MAX then mret (- EINVAL, old)
      else
        let oflags := access_oflags s (p, q_ind) in
        if (a_flags new_attrs =? MQ_NONBLOCK) || (a_flags new_attrs =? MQ_BLOCK) then
          wr access_oflags (p, q_ind)
            (if a_flags new_attrs =? MQ_NONBLOCK then Z.lor oflags O_NONBLOCK else clr oflags O_NONBLOCK);;
          pq_lock q;;
          wr mq_flags q (a_flags new_attrs);;
          pq_unlock q;;
          mret (OK, old)
        else mret (- EINVAL, old)
  else mret (- EBADF, None).

(** [notification]: the [struct sigevent], or a null pointer. *)
Definition mq_notify (mq : Z) (notification : option Z) : Q Z :=
  if valid_mq mq then
    let q := i32 (mq - 1) in
    pq_lock q;;
    s ← get;
    let me := rt_whoami (sched s) in
    rtn ←
      match notification with
      | Some data_ =>
          if nz (notify_task s q) then wr notify_task q me;; wr notify_data q data_;; mret OK
          else mret ERROR
      | None => if notify_task s q =? me then wr notify_task q 0;; mret OK else mret ERROR
      end;
    pq_unlock q;;
    mret rtn
  else mret (- EBADF).

Definition mq_unlink (mq_name : string) : Q Z :=
  all_lock;;
  s ← get;
  let q := name_to_id s mq_name in
  if q <? 0 then all_unlock;; mret (- ENOENT)
  else
    pq_lock q;;
    s ← get;
    rtn ←
      (if open_count s q >? 0 then
         wr q_name q ""%string;;
         wr marked_for_deletion q true;;
         pq_unlock q;;
         s ← get;
         mret (open_count s q)
       else delete_queue q;; mret OK);
    all_unlock;;
    mret rtn.

Definition init_module : Q Z :=
  wg num_pqueues 0;;
  schd (rt_typed_sem_init pqueue_mutex 1 RES_SEM);;
  mret OK.

Definition cleanup_module : Q unit := _ ← schd (rt_sem_delete pqueue_mutex); mret tt.

(** A copy of bytes: [memcpy], or a loop, which agree when the ranges do not
    overlap. *)
Class Copier (copy : Z -> Z -> Z -> Q unit) : Prop :=
  copies : forall n dst src s, 0 <= n -> apart_mem dst n src n ->
    exists m', copy n dst src s = Done tt (s <| bytes := m' |>) /\
      forall x, m' x = copied (bytes s) dst src n x.

#[export] Instance copy_block_copies : Copier copy_block.
Proof.
  intros n dst src s Hn Ha. exists (copied (bytes s) dst src n). split; [|done].
  unfold copy_block. run_m. by destruct s.
Qed.

#[export] Instance copy_bytes_copies : Copier copy_bytes.
Proof.
  intros n dst src s Hn. unfold copy_bytes. rewrite <- (Z2Nat.id n Hn). rewrite Nat2Z.id.
  generalize (Z.to_nat n) as k. clear n Hn. intros k. revert dst src s.
  induction k as [|k IH]; intros dst src s Ha.
  - exists (bytes s). split; [by destruct s|]. intros x. by rewrite copied_0.
  - cbn [copy_loop]. run_m. unfold apart_mem in *.
    edestruct (IH (dst + 1) (src + 1)) as (m' & -> & Hm'); [lia|].
    exists m'. split; [by destruct s|]. intros x. rewrite Hm'. state_simpl.
    destruct (decide (dst <= x < dst + Z.of_nat (S k))) as [Hx|Hx].
    + rewrite <- (Zplus_minus dst x). rewrite (copied_inside _ _ _ (Z.of_nat (S k)) (x - dst)) by lia.
      destruct (decide (x = dst)) as [->|Hne].
      * rewrite copied_outside by lia. rewrite Zplus_minus, upd_eq. f_equal. lia.
      * replace (dst + (x - dst)) with (dst + 1 + (x - dst - 1)) by lia.
        rewrite copied_inside by lia. rewrite upd_ne by lia. f_equal. lia.
    + rewrite !copied_outside by lia. apply upd_ne. lia.
Qed.

(** * The messages of a queue

    A message in the queue is the address of its slot, its priority and its
    bytes. *)

Abbreviation entry := (Z * (Z * list Z))%type.
Definition prio_of (x : Z * list Z) : Z := x.1.

(** [nx] links the elements of [l]. *)
Fixpoint links (nx : Z -> Z) (l : list Z) : Prop :=
  match l with
  | [] => True
  | a :: l' => match l' with [] => True | b :: _ => nx a = b end /\ links nx l'
  end.

Section Links.
Implicit Types (nx : Z -> Z) (l : list Z) (a b : Z).

Lemma links_ext nx nx' l : (forall a, a ∈ l -> nx' a = nx a) -> links nx l -> links nx' l.
Proof.
  induction l as [|a l IH]; [done|]. intros H [Ha Hl]. split; [|apply IH; [set_solver|done]].
  destruct l; [done|]. rewrite H by set_solver. done.
Qed.

Lemma links_insert nx nx' l1 l2 b :
  links nx (l1 ++ l2) -> NoDup (l1 ++ l2) ->
  (forall a, a ∈ l1 ++ l2 -> last l1 <> Some a -> nx' a = nx a) ->
  (forall a, last l1 = Some a -> nx' a = b) ->
  (forall a, head l2 = Some a -> nx' b = a) ->
  links nx' (l1 ++ b :: l2).
Proof.
  induction l1 as [|a l1 IH]; cbn [app]; intros Hl Hnd Hs Hlast Hhd.
  - split; [destruct l2; [done|by apply Hhd]|]. by apply (links_ext nx); [intros; apply Hs|].
  - destruct Hl as [Ha Hl]. apply NoDup_cons in Hnd as [Hn Hnd]. split.
    + destruct l1 as [|c l1]; cbn [app] in *; [by apply Hlast|]. rewrite Hs; [done|left|].
      intros E. apply Hn. rewrite last_cons_cons in E. rewrite app_comm_cons. apply elem_of_app. left.
      by apply last_Some_elem_of.
    + apply IH; [done|done| |intros c Hc; apply Hlast; destruct l1; [done|exact Hc]|done].
      intros c Hc Hne. apply Hs; [by right|]. destruct l1 as [|d l1]; [|exact Hne].
      cbn. intros [= ->]. done.
Qed.
Lemma links_at nx l1 b c l2 : links nx (l1 ++ c :: l2) -> last l1 = Some b -> nx b = c.
Proof.
  intros Hl [k ->]%last_Some. rewrite <- app_assoc in Hl. induction k as [|a k IH]; cbn [app] in *; [apply Hl|].
  by destruct Hl as [_ Hl%IH].
Qed.
End Links.

Section Slots.
Context (base size N : Z).
Implicit Types (m : Z -> Z) (a b p x : Z) (bs : list Z) (L : list entry).

(** A slot is a header and [size] bytes. *)
Definition width : Z := size + sizeof_MSG_HDR.
Definition slot (i : Z) : Z := base + width * i.
Definition is_slot a : Prop := exists i, 0 <= i < N /\ a = slot i.

(** The sizes a [char] can hold; the block is below 4 GB. *)
Definition params_ok : Prop := 0 <= size <= 111 /\ 0 < N /\ 0 < base /\ base + width * N <= 4294967296.

Definition entry_ok m (e : entry) : Prop :=
  let '(a, (p, bs)) := e in
  ld32 m a = 1 /\ ld32 m (a + 4) = Z.of_nat (length bs) /\ Z.of_nat (length bs) <= size /\
  ld32 m (a + 8) = p /\ 0 <= p <= MQ_PRIO_MAX /\ load m (msg_data a) (Z.of_nat (length bs)) = bs.

(** The messages [L] are linked, from [H] to [T], in the order of priority. *)
Record msgs_ok m (H T : Z) L : Prop := {
  ms_slots : forall a, a ∈ L.*1 -> is_slot a;
  ms_nodup : NoDup L.*1;
  ms_used : Forall (entry_ok m) L;
  ms_links : links (fun a => ld32 m (a + 12)) L.*1;
  ms_head : H = default base (head L.*1);
  ms_tail : T = default base (last L.*1);
  ms_last : forall a, last L.*1 = Some a -> ld32 m (a + 12) = 0 \/ a = base /\ ld32 m (a + 12) = base;
  ms_sorted : StronglySorted (fun e e' : entry => prio_of e'.2 <= prio_of e.2) L
}.

(** The slots but those in [A] are not in use, and empty. *)
Definition free_ok m (A : list Z) : Prop :=
  forall a, is_slot a -> a ∉ A ->
    ld32 m a = 0 /\ ld32 m (a + 4) = 0 /\ 0 <= ld32 m (a + 8) <= MQ_PRIO_MAX /\ ld32 m (a + 12) = 0.

Context (Hp : params_ok).

Lemma slot_apart a b : is_slot a -> is_slot b -> a <> b -> apart_mem a width b width.
Proof.
  destruct Hp as (Hs & _). intros (i & _ & ->) (j & _ & ->) Hne. unfold slot, width, apart_mem, sizeof_MSG_HDR in *.
  assert (i <> j) by (intros ->; done). assert (i + 1 <= j \/ j + 1 <= i) as [|] by lia; [left|right]; nia.
Qed.

Lemma slot_range a : is_slot a -> base <= a /\ a + width <= base + width * N /\ 0 < a < 4294967296 /\ 16 <= width.
Proof.
  destruct Hp as (Hs & HN & Hb & Ht). intros (i & Hi & ->). unfold slot, width, sizeof_MSG_HDR in *. nia.
Qed.

(** Memory that agrees on a slot, or on the slots of the messages. *)
Definition same_at m m' a : Prop := forall x, a <= x < a + width -> m' x = m x.

Lemma same_word m m' a k : is_slot a -> same_at m m' a -> 0 <= k <= 12 -> ld32 m' (a + k) = ld32 m (a + k).
Proof.
  intros Ha H Hk. apply slot_range in Ha. apply ld_ext. intros i Hi. apply H. lia.
Qed.

Lemma entry_ok_same m m' (e : entry) : is_slot e.1 -> same_at m m' e.1 -> entry_ok m e -> entry_ok m' e.
Proof.
  destruct e as [a [p bs]]. cbn [fst]. intros Ha H (H1 & H2 & H3 & H4 & H5 & H6). unfold entry_ok.
  rewrite <- (Z.add_0_r a) at 1. rewrite !(same_word m m') by (done || lia). rewrite Z.add_0_r.
  split_and!; [done || lia..|]. rewrite <- H6 at 2. apply load_ext. intros i Hi. apply H.
  apply slot_range in Ha. unfold msg_data, width, sizeof_MSG_HDR in *. lia.
Qed.

Lemma msgs_ok_same m m' H T L :
  (forall a, a ∈ L.*1 -> same_at m m' a) -> msgs_ok m H T L -> msgs_ok m' H T L.
Proof.
  intros Hm [S1 S2 S3 S4 S5 S6 S7 S8]. split; [done|done| | |done|done| |done].
  - rewrite Forall_forall in *. intros e He.
    assert (e.1 ∈ L.*1) by (by apply list_elem_of_fmap_2). apply (entry_ok_same m); auto.
  - apply (links_ext (fun a => ld32 m (a + 12))); [|done]. intros a Ha. apply same_word; [auto..|lia].
  - intros a Ha. pose proof (last_Some_elem_of _ _ Ha) as Hin. rewrite (same_word m m') by (auto || lia). auto.
Qed.

Lemma free_ok_same m m' A :
  (forall a, is_slot a -> a ∉ A -> same_at m m' a) -> free_ok m A -> free_ok m' A.
Proof.
  intros Hm H a Ha HA. destruct (H a Ha HA) as (E1 & E2 & E3 & E4). rewrite <- (Z.add_0_r a) at 1.
  rewrite !(same_word m m') by (auto || lia). by rewrite Z.add_0_r.
Qed.

Lemma msgs_ok_nil m : msgs_ok m base base [].
Proof. by split; try constructor; try set_solver. Qed.

Lemma msgs_ok_tail m H T e L :
  msgs_ok m H T (e :: L) ->
  let H' := ld32 m (e.1 + 12) in
  msgs_ok m (if H' =? 0 then base else H') (if H' =? 0 then base else T) L.
Proof.
  intros [S1 S2 S3 S4 S5 S6 S7 S8]. cbn zeta. destruct e as [a pb]. cbn [fst fmap list_fmap] in *.
  destruct L as [|e' L].
  - specialize (S7 a eq_refl). cbn [last default] in S6. subst T.
    destruct Hp as (_ & _ & Hb & _).
    destruct S7 as [->|[-> E]]; cbn [Z.eqb]; [apply msgs_ok_nil|].
    rewrite E, (proj2 (Z.eqb_neq base 0)) by lia. apply msgs_ok_nil.
  - cbn [fmap list_fmap links] in *. destruct S4 as [E S4]. rewrite E.
    assert (0 < e'.1) by (assert (is_slot e'.1) as Hsl%slot_range by (apply S1; set_solver); lia).
    rewrite (proj2 (Z.eqb_neq _ 0)) by lia. apply NoDup_cons in S2 as [Hn S2]. apply Forall_cons in S3 as [_ S3].
    inversion_clear S8. split; [|done..| |done|done|done|done]; [intros; apply S1; by right|done].
Qed.

(** A new message after [L1]: what is written to the links. *)
Lemma msgs_ok_insert m m' H T L1 L2 a p bs :
  msgs_ok m H T (L1 ++ L2) -> is_slot a -> a ∉ (L1 ++ L2).*1 -> entry_ok m (a, (p, bs)) ->
  Forall (fun e => p <= prio_of e.2) L1 -> Forall (fun e => prio_of e.2 < p) L2 ->
  (forall b, is_slot b -> forall x, b <= x < b + width -> ~ b + 12 <= x < b + 16 -> m' x = m x) ->
  (forall b, b ∈ (L1 ++ L2).*1 -> last L1.*1 <> Some b -> ld32 m' (b + 12) = ld32 m (b + 12)) ->
  (forall b, last L1.*1 = Some b -> ld32 m' (b + 12) = a) ->
  (forall b, head L2.*1 = Some b -> ld32 m' (a + 12) = b) ->
  (L2 = [] -> ld32 m' (a + 12) = 0 \/ a = base /\ ld32 m' (a + 12) = base) ->
  msgs_ok m' (default a (head L1.*1)) (default a (last L2.*1)) (L1 ++ (a, (p, bs)) :: L2).
Proof.
  intros [S1 S2 S3 S4 S5 S6 S7 S8] Ha Hn He F1 F2 Hm K1 K2 K3 K4.
  assert (Hkeep : forall e, is_slot e.1 -> entry_ok m e -> entry_ok m' e).
  { intros [b [p' bs']] Hb (A1 & A2 & A3 & A4 & A5 & A6). cbn [fst] in Hb. unfold entry_ok.
    pose proof (slot_range b Hb). pose proof (Hm b Hb) as Hmb.
    rewrite !(ld_ext m m') by (intros; apply Hmb; lia). split_and!; [done || lia..|].
    rewrite <- A6 at 2. apply load_ext. intros i Hi. apply Hmb;
      unfold msg_data, width, sizeof_MSG_HDR in *; lia. }
  rewrite fmap_app in *. split; rewrite ?fmap_app, ?fmap_cons; cbn [fst].
  - intros b. rewrite elem_of_app, elem_of_cons. intros [Hb|[->|Hb]]; [|done|]; apply S1; set_solver.
  - apply NoDup_app in S2 as (N1 & N2 & N3). apply NoDup_app. split_and!; [done| |].
    + intros b Hb. apply not_elem_of_cons. split; [set_solver|by apply N2].
    + apply NoDup_cons. split; [set_solver|done].
  - assert (HF : Forall (entry_ok m') (L1 ++ L2)).
    { rewrite Forall_forall in *. intros e Hin. apply Hkeep; [|by apply S3]. apply S1.
      rewrite <- fmap_app. by apply list_elem_of_fmap_2. }
    apply Forall_app in HF as [HF1 HF2]. apply Forall_app; split; [done|]. constructor; [|done]. by apply Hkeep.
  - by apply (links_insert (fun b => ld32 m (b + 12))).
  - destruct L1; [done|reflexivity].
  - rewrite last_app, last_cons. by destruct (last L2.*1).
  - intros b. rewrite last_app, last_cons. destruct (last L2.*1) as [c|] eqn:E.
    + intros [= <-]. pose proof (last_Some_elem_of _ _ E). rewrite K1; [apply S7; by rewrite last_app, E|set_solver|].
      intros E1%last_Some_elem_of. apply NoDup_app in S2 as (_ & N2 & _). by apply (N2 c).
    + intros [= <-]. apply K4. apply last_None in E. by apply fmap_nil_inv in E.
  - apply StronglySorted_app in S8 as (H12 & H1 & H2).
    apply StronglySorted_app. split_and!; [|done|].
    + intros e e' Hi [->|Hi']%elem_of_cons; cbn [snd]; [|by apply H12].
      rewrite Forall_forall in F1. by apply F1.
    + constructor; [done|]. rewrite Forall_forall in *. intros e Hi. cbn [snd]. unfold prio_of in *.
      specialize (F2 e Hi). cbn in *. lia.
Qed.
End Slots.

(** * Insertion *)

Section Insert.
Implicit Types (s : PQUEUES) (q a b p : Z) (bs : list Z) (L : list entry).

(** The messages before and after a new one of priority [p]. *)
Lemma insert_parts p L :
  StronglySorted (fun e e' : entry => prio_of e'.2 <= prio_of e.2) L ->
  let P := fun e : entry => p <=? prio_of e.2 in
  Forall (fun e => p <= prio_of e.2) (take_while P L) /\ Forall (fun e => prio_of e.2 < p) (drop_while P L).
Proof.
  intros HS P. rewrite !Forall_forall. split; intros e He.
  - apply take_while_all in He. unfold P in He. by bool_prop.
  - enough (- p < - prio_of e.2) by lia.
    apply (drop_while_sorted (fun e : entry => - prio_of e.2) (- p) L).
    + unfold sorted_by. revert HS. clear. induction L; [constructor|]. intros HS. inversion_clear HS.
      constructor; [auto|]. eapply Forall_impl; [done|]. intros e; cbn. lia.
    + rewrite (drop_while_ext _ P); [done|]. intros x _. unfold P.
      destruct (Z.leb_spec (- prio_of x.2) (- p)), (Z.leb_spec p (prio_of x.2)); lia || done.
Qed.

Lemma insert_walk_spec s p (L1 : list Z) e (L2 : list Z) fuel prev :
  links (msg_next s) (L1 ++ e :: L2) -> Forall (fun b => b <> 0 /\ p <= msg_priority s b) L1 ->
  e <> 0 -> msg_priority s e < p -> (length L1 <= fuel)%nat ->
  insert_walk fuel s p prev (hd e L1) = Some (default prev (last L1), e).
Proof.
  revert fuel prev. induction L1 as [|b L1 IH]; intros fuel prev Hl HF He Hpe Hf.
  - cbn [hd last default]. destruct fuel; cbn [insert_walk];
      by rewrite (proj2 (Z.eqb_neq e 0)), Z.geb_leb, (proj2 (Z.leb_gt _ _)).
  - apply Forall_cons in HF as [[Hb Hpb] HF]. destruct fuel as [|fuel]; [cbn in Hf; lia|].
    cbn [hd insert_walk]. rewrite (proj2 (Z.eqb_neq b 0)), Z.geb_leb, (proj2 (Z.leb_le _ _)) by done.
    destruct Hl as [Hb' Hl]. assert (E : msg_next s b = hd e L1) by (destruct L1; exact Hb').
    rewrite E, IH; [|done..|cbn in Hf; lia]. f_equal. f_equal. rewrite last_cons. by destruct (last L1).
Qed.

(** What the insertion writes, before a list [L2] and after [L1]. *)
Definition inserts s q a L1 L2 (s' : PQUEUES) : Prop :=
  exists m' H T, s' = s <| bytes := m' |> <| pq_head := H |> <| pq_tail := T |> /\
    H q = default a (head L1.*1) /\ T q = default a (last L2.*1) /\
    (forall q', q' <> q -> H q' = pq_head s q' /\ T q' = pq_tail s q') /\
    (forall x, (forall b, b ∈ a :: (L1 ++ L2).*1 -> ~ b + 12 <= x < b + 16) -> m' x = bytes s x) /\
    (forall b, b ∈ (L1 ++ L2).*1 -> last L1.*1 <> Some b -> ld32 m' (b + 12) = msg_next s b) /\
    (forall b, last L1.*1 = Some b -> ld32 m' (b + 12) = a) /\
    (forall b, head L2.*1 = Some b -> ld32 m' (a + 12) = b) /\
    (L2 = [] -> ld32 m' (a + 12) = if decide (L1 = []) then a else msg_next s a).

Section Writes.
Context (s : PQUEUES) (q a p : Z) (L1 L2 : list entry).
Let base := pq_base s q.
Let size := mq_msgsize s q.
Let N := mq_maxmsg s q.
Context (Hp : params_ok base size N) (Hq : queue_type s = POSIX)
  (Hok : msgs_ok base size N (bytes s) (pq_head s q) (pq_tail s q) (L1 ++ L2))
  (Ha : is_slot base size N a) (Hn : a ∉ (L1 ++ L2).*1) (Hpa : msg_priority s a = p)
  (Hbase : L1 ++ L2 = [] -> a = base)
  (Hlen : Z.of_nat (length (L1 ++ L2)) <= N < 4294967296)
  (F1 : Forall (fun e => p <= prio_of e.2) L1) (F2 : Forall (fun e => prio_of e.2 < p) L2).

Lemma writes_slot b : b ∈ a :: (L1 ++ L2).*1 -> is_slot base size N b.
Proof. intros [->|Hb]%elem_of_cons; [done|]. by apply Hok. Qed.

Lemma writes_apart b c :
  b ∈ a :: (L1 ++ L2).*1 -> c ∈ a :: (L1 ++ L2).*1 -> b <> c -> b + 16 <= c \/ c + 16 <= b.
Proof.
  intros Hb Hc Hbc. destruct (slot_apart _ _ _ Hp b c); [by apply writes_slot..|done| |];
    destruct Hp as [? _]; unfold width, sizeof_MSG_HDR in *; lia.
Qed.

Lemma writes_prio (e : entry) : e ∈ L1 ++ L2 -> msg_priority s e.1 = prio_of e.2.
Proof.
  intros He. pose proof (ms_used _ _ _ _ _ _ _ Hok) as Hu. rewrite Forall_forall in Hu.
  specialize (Hu _ He). destruct e as [b [pb bs]]. by destruct Hu as (_ & _ & _ & ? & _).
Qed.

(** At the end: every message has at least the priority of the new one. *)
Lemma insert_message_last :
  L2 = [] -> exists s', insert_message q a s = Done tt s' /\ inserts s q a L1 L2 s'.
Proof.
  pose proof writes_apart as Wa. pose proof writes_prio as Wp.
  intros ->. rewrite app_nil_r in *. pose proof (slot_range _ _ _ Hp a Ha) as Hra.
  pose proof (ms_head _ _ _ _ _ _ _ Hok) as HH. pose proof (ms_tail _ _ _ _ _ _ _ Hok) as HT.
  assert (HTe : L1 <> [] -> last L1.*1 = Some (pq_tail s q)).
  { intros He. rewrite HT. destruct (last L1.*1) eqn:E; [done|]. by apply last_None, fmap_nil_inv in E. }
  assert (HTin : pq_tail s q ∈ a :: L1.*1).
  { destruct (decide (L1 = [])) as [E|E]; [|right; by apply last_Some_elem_of, HTe].
    rewrite HT, (Hbase E), E. by left. }
  unfold insert_message, store32. run_m. rewrite Hpa, Z.geb_leb, (proj2 (Z.leb_le _ _)).
  2:{ destruct (decide (L1 = [])) as [E|E]; [rewrite HT, E; cbn; by rewrite <- (Hbase E), Hpa|].
      pose proof (HTe E) as Hl. apply last_Some_elem_of, list_elem_of_fmap in Hl as (e & -> & He).
      rewrite Wp by done. rewrite Forall_forall in F1. by apply F1. }
  eexists. split; [reflexivity|]. exists (st32 (bytes s) (pq_tail s q + 12) a), (pq_head s), (<[q:=a]> (pq_tail s)).
  rewrite app_nil_r. split_and!; [by destruct s| |by rewrite upd_eq| | | | |done|].
  - rewrite HH. destruct L1; [|done]. cbn. by rewrite Hbase.
  - intros q' Hq'. by rewrite upd_ne.
  - intros x Hx. specialize (Hx (pq_tail s q) HTin). apply st32_out. lia.
  - intros b Hb Hlb. apply ld_st_ne.
    destruct (Wa (pq_tail s q) b) as [|]; [done|by right| |lia|lia].
    intros <-. apply Hlb, HTe. intros E. rewrite E in Hb. by apply not_elem_of_nil in Hb.
  - intros b Hb. assert (pq_tail s q = b) as -> by (rewrite HT, Hb; done). apply ld_st_eq. lia.
  - intros _. destruct (decide (L1 = [])) as [E|He].
    + rewrite HT, E. cbn. rewrite <- Hbase by done. apply ld_st_eq. lia.
    + apply ld_st_ne. destruct (Wa (pq_tail s q) a) as [|]; [done|by left| |lia|lia].
      intros E. apply Hn. rewrite <- E. by apply last_Some_elem_of, HTe.
Qed.

(** Before the first message of lower priority. *)
Lemma insert_message_before e L2' :
  L2 = e :: L2' -> exists s', insert_message q a s = Done tt s' /\ inserts s q a L1 L2 s'.
Proof.
  intros E2. pose proof (slot_range _ _ _ Hp a Ha) as Hra.
  pose proof (ms_head _ _ _ _ _ _ _ Hok) as HH. pose proof (ms_tail _ _ _ _ _ _ _ Hok) as HT.
  pose proof (ms_links _ _ _ _ _ _ _ Hok) as HL. pose proof (ms_nodup _ _ _ _ _ _ _ Hok) as HND.
  assert (He : e ∈ L1 ++ L2) by (rewrite E2; set_solver).
  assert (Hin : forall x : entry, x ∈ L1 ++ L2 -> x.1 ∈ a :: (L1 ++ L2).*1)
    by (intros x Hx; right; by apply list_elem_of_fmap_2).
  pose proof (slot_range _ _ _ Hp _ (writes_slot _ (Hin _ He))) as Hre.
  unfold insert_message, store32. run_m. rewrite Hpa, Z.geb_leb, (proj2 (Z.leb_gt _ _)).
  2:{ assert (exists l, last (L1 ++ L2) = Some l /\ l ∈ L2) as (l & El & Hl).
      { rewrite last_app. destruct (last L2) as [l|] eqn:El; [exists l; split; [done|by apply last_Some_elem_of]|].
        apply last_None in El. by rewrite E2 in El. }
      rewrite HT, fmap_last, El. cbn. rewrite writes_prio by (apply elem_of_app; by right).
      rewrite Forall_forall in F2. by apply F2. }
  rewrite Hq. cbn [Z.eqb]. rewrite fmap_app, E2, fmap_cons in HL, HND, HH.
  assert (HH' : pq_head s q = hd e.1 L1.*1) by (rewrite HH; by destruct L1.*1). rewrite HH'.
  rewrite (insert_walk_spec s p L1.*1 e.1 L2'.*1); [|done| |lia| |].
  2:{ rewrite Forall_fmap, Forall_forall. intros x Hx. assert (Hx' : x ∈ L1 ++ L2) by (apply elem_of_app; by left).
      pose proof (slot_range _ _ _ Hp _ (writes_slot _ (Hin _ Hx'))). split; [cbn; lia|].
      cbn. rewrite writes_prio by done. rewrite Forall_forall in F1. by apply F1. }
  2:{ rewrite writes_prio by done. rewrite Forall_forall in F2. apply F2. rewrite E2. by left. }
  2:{ rewrite length_fmap. rewrite length_app in Hlen. unfold u32. rewrite Z.mod_small; lia. }
  change (POSIX =? POSIX) with true. run_m.
  assert (Hae : a <> e.1) by (intros ->; by apply Hn, list_elem_of_fmap_2).
  assert (Hea : e.1 + 16 <= a \/ a + 16 <= e.1)
    by (apply writes_apart; [by apply Hin|by left|done]).
  assert (HTl : pq_tail s q = default a (last L2.*1)).
  { rewrite HT, fmap_app, last_app. rewrite E2, fmap_cons, last_cons. by destruct (last L2'.*1). }
  assert (Hap : forall b, b ∈ (L1 ++ L2).*1 -> b + 16 <= a \/ a + 16 <= b).
  { intros b Hb. apply writes_apart; [by right|by left|]. intros ->. done. }
  destruct (last L1.*1) as [b|] eqn:El; cbn [default].
  - assert (Hb : b ∈ (L1 ++ L2).*1) by (rewrite fmap_app; apply elem_of_app; left; by apply last_Some_elem_of).
    assert (Hhd : hd e.1 L1.*1 ∈ L1.*1) by (destruct L1.*1; [done|by left]).
    rewrite (proj2 (Z.eqb_neq e.1 _)).
    2:{ intros E. rewrite <- E in Hhd. apply NoDup_app in HND as (_ & HND & _). apply (HND _ Hhd). by left. }
    assert (Enx : msg_next s b = e.1) by exact (links_at _ _ _ _ _ HL El). change (id b) with b. rewrite Enx.
    eexists. split; [reflexivity|]. unfold inserts.
    exists (st32 (st32 (bytes s) (a + 12) e.1) (b + 12) a), (pq_head s), (pq_tail s).
    pose proof (Hap b Hb). split_and!; [by destruct s| |done|done| | | | |by rewrite E2].
    + rewrite HH'. by destruct L1.*1.
    + intros x Hx. pose proof (Hx a ltac:(by left)). pose proof (Hx b ltac:(by right)).
      rewrite !st32_out by lia. done.
    + intros c Hc Hcb. pose proof (Hap c Hc). rewrite !ld_st_ne; [done|lia|].
      destruct (writes_apart b c) as [|]; [by right|by right|congruence|lia|lia].
    + intros c Hc. rewrite Hc in El. injection El as ->. apply ld_st_eq. lia.
    + intros c. rewrite E2. intros [= <-]. rewrite ld_st_ne by lia. apply ld_st_eq. lia.
  - apply last_None in El. rewrite El in *. cbn [hd]. rewrite Z.eqb_refl. run_m.
    eexists. split; [reflexivity|]. unfold inserts.
    exists (st32 (bytes s) (a + 12) e.1), (<[q:=a]> (pq_head s)), (pq_tail s).
    split_and!; [by destruct s| |done| | | | | |by rewrite E2].
    + rewrite upd_eq. by rewrite El.
    + intros q' Hq'. by rewrite upd_ne.
    + intros x Hx. pose proof (Hx a ltac:(by left)). by rewrite st32_out by lia.
    + intros c Hc _. apply ld_st_ne. pose proof (Hap c Hc). lia.
    + intros c Hc. by rewrite El in Hc.
    + intros c. rewrite E2. intros [= <-]. apply ld_st_eq. lia.
Qed.
End Writes.
End Insert.

Section Queue.
Implicit Types (s : PQUEUES) (q a b p c : Z) (bs : list Z) (L : list entry) (B : list (Z * list Z)).

Lemma insert_message_spec s q L a p bs :
  let base := pq_base s q in let size := mq_msgsize s q in let N := mq_maxmsg s q in
  params_ok base size N -> queue_type s = POSIX ->
  msgs_ok base size N (bytes s) (pq_head s q) (pq_tail s q) L -> Z.of_nat (length L) <= N ->
  is_slot base size N a -> a ∉ L.*1 -> entry_ok size (bytes s) (a, (p, bs)) -> msg_next s a = 0 ->
  (L = [] -> a = base) ->
  exists m' H T, insert_message q a s = Done tt (s <| bytes := m' |> <| pq_head := H |> <| pq_tail := T |>) /\
    msgs_ok base size N m' (H q) (T q) (insert_after (fun e => p <=? prio_of e.2) (a, (p, bs)) L) /\
    (forall q', q' <> q -> H q' = pq_head s q' /\ T q' = pq_tail s q') /\
    (forall x, (forall b, b ∈ a :: L.*1 -> ~ b + 12 <= x < b + 16) -> m' x = bytes s x).
Proof.
  intros base size N Hp Hq Hok Hlen Ha Hn He Hnext Hbase.
  set (P := fun e : entry => p <=? prio_of e.2). unfold insert_after.
  destruct (insert_parts p L (ms_sorted _ _ _ _ _ _ _ Hok)) as [F1 F2]. fold P in F1, F2.
  assert (HLe : L = take_while P L ++ drop_while P L) by by rewrite take_drop_while.
  set (L1 := take_while P L) in *. set (L2 := drop_while P L) in *. clearbody L1 L2. subst L.
  assert (HN : N < 4294967296) by (destruct Hp as (? & ? & ? & ?); unfold width, sizeof_MSG_HDR in *; nia).
  assert (exists s', insert_message q a s = Done tt s' /\ inserts s q a L1 L2 s')
    as (s' & E & m' & H & T & -> & HH & HT & Hqs & Hm & K1 & K2 & K3 & K4).
  { assert (Hpa : msg_priority s a = p) by apply He.
    destruct L2 as [|e2 L2']; [by eapply insert_message_last|by eapply insert_message_before]. }
  exists m', H, T. split_and!; [done| |done|done]. rewrite HH, HT.
  apply (msgs_ok_insert _ _ _ Hp (bytes s) m' (pq_head s q) (pq_tail s q)); [done..| |done|done|done|].
  - intros b Hb x Hx Hout. apply Hm. intros c Hc. destruct (decide (c = b)) as [->|Hcb]; [done|].
    assert (Hcs : is_slot base size N c) by (apply elem_of_cons in Hc as [->|Hc]; [done|by apply Hok]).
    destruct (slot_apart _ _ _ Hp b c); [done..|congruence| |]; unfold width, sizeof_MSG_HDR in *;
      destruct Hp as [? _]; lia.
  - intros EL2. specialize (K4 EL2). destruct (decide (L1 = [])) as [E1|_]; [|left; by rewrite K4].
    right. rewrite K4. assert (a = base) by (apply Hbase; by rewrite E1, EL2). done.
Qed.

(** A slot is free if there are fewer messages than slots; [getnode] takes the
    first. *)
Lemma free_slot base size N L :
  params_ok base size N -> Z.of_nat (length L) < N -> exists i, 0 <= i < N /\ slot base size i ∉ L.*1.
Proof.
  intros Hp Hlen. set (l := slot base size <$> seqZ 0 N).
  destruct (decide (Forall (fun a => a ∈ L.*1) l)) as [HF|HF].
  - exfalso. assert (Hnd : NoDup l).
    { apply NoDup_fmap_2_strong; [|apply NoDup_seqZ]. intros i j Hi Hj. unfold slot, width, sizeof_MSG_HDR.
      destruct Hp. nia. }
    assert (Hsub : l ⊆+ L.*1) by (apply NoDup_submseteq; [done|]; by apply Forall_forall).
    apply submseteq_length in Hsub. unfold l in Hsub. rewrite !length_fmap, length_seqZ in Hsub. lia.
  - apply not_Forall_Exists in HF; [|apply _]. apply Exists_exists in HF as (a & Ha & Hn).
    apply list_elem_of_fmap in Ha as (i & -> & Hi). apply elem_of_seqZ in Hi. exists i. split; [lia|done].
Qed.

Lemma getnode_loop_spec size n a s :
  (exists j, 0 <= j < Z.of_nat n /\ in_use s (a + size * j) = 0) ->
  exists i, 0 <= i < Z.of_nat n /\ in_use s (a + size * i) = 0 /\
    (forall j, 0 <= j < i -> in_use s (a + size * j) <> 0) /\
    (a + size * i <> 0 -> getnode_loop n size a s = Done (a + size * i) (s <| bytes := st32 (bytes s) (a + size * i) 1 |>)).
Proof.
  revert a. induction n as [|n IH]; intros a (j & Hj & Ej); [lia|].
  destruct (decide (in_use s a = 0)) as [E|E].
  - exists 0. rewrite Z.mul_0_r, Z.add_0_r. split_and!; [lia|lia|done|intros; lia|]. intros _.
    cbn [getnode_loop]. run_m. rewrite E. unfold store32. run_m. by destruct s.
  - destruct (IH (a + size)) as (i & Hi & Ei & Hf & El).
    { exists (j - 1). assert (j <> 0) by (intros ->; by rewrite Z.mul_0_r, Z.add_0_r in Ej).
      split; [lia|]. rewrite <- Ej. f_equal. lia. }
    exists (i + 1). replace (a + size * (i + 1)) with (a + size + size * i) by lia.
    split_and!; [lia|lia|done| |].
    + intros k Hk. destruct (decide (k = 0)) as [->|Hk0]; [by rewrite Z.mul_0_r, Z.add_0_r|].
      replace (a + size * k) with (a + size + size * (k - 1)) by lia. apply Hf. lia.
    + intros Hne. cbn [getnode_loop]. run_m. rewrite (proj2 (Z.eqb_neq _ 0)) by done. by apply El.
Qed.

Lemma getnode_spec s q L :
  let base := pq_base s q in let size := mq_msgsize s q in let N := mq_maxmsg s q in
  params_ok base size N -> msgs_ok base size N (bytes s) (pq_head s q) (pq_tail s q) L ->
  free_ok base size N (bytes s) L.*1 -> Z.of_nat (length L) < N ->
  exists a, getnode q s = Done a (s <| bytes := st32 (bytes s) a 1 |>) /\
    is_slot base size N a /\ a ∉ L.*1 /\ (L = [] -> a = base).
Proof.
  intros base size N Hp Hok Hfree Hlen. destruct (free_slot _ _ _ L Hp Hlen) as (i & Hi & Hin).
  assert (HN : N < 4294967296) by (destruct Hp as (? & ? & ? & ?); unfold width, sizeof_MSG_HDR in *; nia).
  assert (EN : Z.of_nat (Z.to_nat (u32 N)) = N) by (unfold u32; rewrite Z.mod_small; lia).
  assert (Ew : u8 (size + sizeof_MSG_HDR) = width size).
  { destruct Hp. unfold u8, width, sizeof_MSG_HDR in *. rewrite Z.mod_small; lia. }
  assert (Hz : forall j, 0 <= j < N -> slot base size j ∉ L.*1 -> in_use s (base + width size * j) = 0).
  { intros j Hj Hjn. apply Hfree; [by exists j|done]. }
  destruct (getnode_loop_spec (width size) (Z.to_nat (u32 N)) base s) as (j & Hj & Ej & Hf & El).
  { exists i. split; [lia|]. by apply Hz. }
  assert (Hs : is_slot base size N (slot base size j)) by (exists j; split; [lia|done]).
  pose proof (slot_range _ _ _ Hp _ Hs) as Hr. exists (slot base size j). split_and!; [|done| |].
  - unfold getnode. run_m. fold base size N. rewrite Ew. apply El. unfold slot in *. lia.
  - intros Hin'. pose proof (ms_used _ _ _ _ _ _ _ Hok) as Hu. rewrite Forall_forall in Hu.
    apply list_elem_of_fmap in Hin' as ([a [p bs]] & Ea & He). destruct (Hu _ He) as (E1 & _).
    cbn [fst] in Ea. rewrite <- Ea in E1. unfold in_use, slot in *. rewrite E1 in Ej. done.
  - intros ->. destruct (decide (j = 0)) as [->|Hj0]; [unfold slot; lia|]. exfalso. apply (Hf 0); [lia|].
    apply Hz; [lia|apply not_elem_of_nil].
Qed.
End Queue.
