(* ===== verification/PqueueSpec.v ===== *)
(** PqueueSpec: what the message queues of [Pqueue] promise.

    The mutex and the conditions of a queue that no task waits for; sending
    and receiving as operations of an abstract queue by priority; the life of
    a queue, from [mq_open] to [mq_unlink] and [mq_close]; waiting; and what
    the code does wrong. *)

From stdpp Require Import strings sorting.
From S2P Require Import Prelude Memory Resume DList SchedState SchedQueues Schedule SchedTask SchedSem SchedSync SchedMsg SchedMsgx MemMgr Pqueue.

(** * Mutexes and conditions that no task waits for *)

Section Sync.
Implicit Types (σ : RTAI) (q c k : Z) (sem mtx cnd : semp).

Definition unwaited σ sem : Prop :=
  sem_magic σ sem = RT_SEM_MAGIC /\ wait_queue σ (SemQueue sem) [] /\ q_task σ (SemQueue sem) = 0.

(** A resource of which [n] units (1 or 0) are left, and a condition. *)
Definition mutex σ mtx (n : Z) : Prop := unwaited σ mtx /\ sem_type σ mtx = 1 /\ sem_count σ mtx = n.
Definition condition σ cnd : Prop := unwaited σ cnd /\ sem_type σ cnd = -1 /\ 0 <= sem_count σ cnd <= 1.

(** The running task [c] has [k] resources and is not asked to suspend. *)
Definition runs_with σ c k : Prop :=
  rt_smp_current σ = c /\ owndres σ c = k /\ base_priority σ c = priority σ c /\ suspdepth σ c = 0.

(** The tasks are as they were. *)
Definition tasks_same σ σ' : Prop :=
  state σ' = state σ /\ priority σ' = priority σ /\ is_hard σ' = is_hard σ /\ rnext σ' = rnext σ /\
  rprev σ' = rprev σ.

(** What a call on [sem] does not change. *)
Definition sync_frame σ σ' sem : Prop :=
  sem_magic σ' = sem_magic σ /\ sem_type σ' = sem_type σ /\ q_next σ' = q_next σ /\ q_prev σ' = q_prev σ /\
  q_task σ' = q_task σ /\ (forall x, x <> sem -> sem_count σ' x = sem_count σ x) /\ tasks_same σ σ'.

Lemma unwaited_frame σ σ' sem sem' : sync_frame σ σ' sem -> unwaited σ sem' -> unwaited σ' sem'.
Proof.
  intros (E1 & _ & E2 & E3 & E4 & _) (H1 & H2 & H3).
  split_and!; [by rewrite E1|by apply (wait_queue_frame σ)|by rewrite E4].
Qed.

Lemma mutex_frame σ σ' sem mtx n : sync_frame σ σ' sem -> mtx <> sem -> mutex σ mtx n -> mutex σ' mtx n.
Proof.
  intros HF Hne (U & T & C). split; [by apply (unwaited_frame σ σ' sem)|].
  destruct HF as (_ & E & _ & _ & _ & Ec & _). rewrite E, Ec by done. done.
Qed.

Lemma condition_frame σ σ' sem cnd : sync_frame σ σ' sem -> cnd <> sem -> condition σ cnd -> condition σ' cnd.
Proof.
  intros HF Hne (U & T & C). split; [by apply (unwaited_frame σ σ' sem)|].
  destruct HF as (_ & E & _ & _ & _ & Ec & _). rewrite E, Ec by done. done.
Qed.

Lemma mutex_lock σ mtx c k :
  mutex σ mtx 1 -> runs_with σ c k -> 0 <= k < 100 ->
  exists σ', rt_sem_wait mtx σ = Done 1 σ' /\ mutex σ' mtx 0 /\ runs_with σ' c (k + 1) /\ sync_frame σ σ' mtx.
Proof.
  intros (U & Ht & Hn) (Hc & Ho & Hb & Hs) Hk. pose proof U as (Hm & _). unfold rt_sem_wait, sem_own. step_m.
  rewrite Hm, Z.eqb_refl. step_m. rewrite Hn, Hc. cbn [Z.leb Z.compare]. step_m.
  rewrite Ht. cbn [Z.gtb Z.compare]. step_m. rewrite Ho, i32_id by (unfold in_i32, INT_MIN, INT_MAX; lia).
  eexists. split; [reflexivity|].
  assert (HF : sync_frame σ (σ <| sem_count ::= <[mtx := 1 - 1]> |> <| sem_owndby ::= <[mtx := c]> |>
                               <| owndres ::= <[c := k + 1]> |>) mtx).
  { unfold sync_frame, tasks_same. state_simpl. split_and!; try done. intros x Hx. by rewrite upd_ne. }
  split_and!; [|unfold runs_with; state_simpl; by rewrite upd_eq|exact HF].
  split; [by apply (unwaited_frame σ _ mtx)|]. state_simpl. by rewrite upd_eq.
Qed.

Lemma mutex_unlock σ mtx c k :
  mutex σ mtx 0 -> runs_with σ c k -> 0 < k < 100 ->
  exists σ', rt_sem_signal mtx σ = Done 0 σ' /\ mutex σ' mtx 1 /\ runs_with σ' c (k - 1) /\ sync_frame σ σ' mtx.
Proof.
  intros (U & Ht & Hn) (Hc & Ho & Hb & Hs) Hk. pose proof U as (Hm & Hw & Hq). unfold rt_sem_signal. step_m.
  rewrite Hm, Z.eqb_refl, Ht. cbn [Z.gtb Z.compare Pos.compare Pos.compare_cont]. step_m.
  destruct (sem_post_eq σ mtx) as (f & -> & Ef); [rewrite Hn; unfold in_i32, INT_MIN, INT_MAX; lia|].
  cbn [bind_out]. step_m. rewrite (wait_queue_head _ _ _ Hw Hq). cbn [hd]. change (nz 0) with false.
  unfold sem_signal_res, release_current, drop_resource. step_m.
  rewrite Ht. cbn [Z.gtb Z.compare]. step_m. rewrite Hc, Ho.
  assert (Hlow : forall j, 0 <= j < 100 -> Z.land j SEMHLF = j).
  { intros j Hj. change SEMHLF with (Z.ones 16). rewrite Z.land_ones by lia. apply Z.mod_small. lia. }
  rewrite Hlow, (proj2 (nz_true k)) by lia. step_m. rewrite i32_id by (unfold in_i32, INT_MIN, INT_MAX; lia).
  set (s1 := σ <| sem_count := f |> <| sem_owndby ::= _ |> <| owndres ::= _ |>).
  assert (Ep : priority s1 = priority σ) by (unfold s1; by state_simpl).
  assert (Er : (match fallback_prio s1 c with Some p => renq_current c p | None => mret 0 end) s1 = Done 0 s1).
  { unfold fallback_prio, s1. state_simpl. rewrite upd_eq, Hlow by lia.
    destruct (nz (k - 1)); cbn [negb]; [done|]. rewrite Hb. fold s1. rewrite <- Ep. apply renq_current_same. }
  unfold mbind, M_bind, mret, M_ret in Er. rewrite Er. cbn [bind_out].
  assert (Es : suspdepth s1 c = 0) by (unfold s1; by state_simpl). rewrite Es.
  change (nz 0) with false. cbn [bind_out]. exists s1. split; [reflexivity|].
  assert (HF : sync_frame σ s1 mtx).
  { unfold sync_frame, tasks_same, s1. state_simpl. split_and!; try done. intros x Hx. by rewrite Ef, upd_ne. }
  split_and!; [|unfold runs_with, s1; state_simpl; by rewrite upd_eq|exact HF].
  split; [by apply (unwaited_frame σ _ mtx)|]. unfold s1. state_simpl. rewrite Ef, upd_eq.
  unfold posted. by rewrite Ht, Hn.
Qed.

Lemma condition_signal σ cnd c k :
  condition σ cnd -> runs_with σ c k ->
  exists σ', rt_sem_signal cnd σ = Done 0 σ' /\ condition σ' cnd /\ runs_with σ' c k /\ sync_frame σ σ' cnd.
Proof.
  intros (U & Ht & Hn) Hc. pose proof U as (U1 & U2 & U3).
  destruct (rt_sem_signal_free σ cnd) as (f & E & Ef);
    [done|unfold in_i32, INT_MIN, INT_MAX; lia|lia|done|done|].
  eexists. split; [exact E|].
  assert (HF : sync_frame σ (σ <| sem_count := f |>) cnd).
  { unfold sync_frame, tasks_same. state_simpl. split_and!; try done. intros x Hx. by rewrite Ef, upd_ne. }
  split_and!; [|unfold runs_with in *; by state_simpl|exact HF].
  split; [by apply (unwaited_frame σ _ cnd)|]. state_simpl. rewrite Ef, upd_eq. split; [done|].
  unfold posted. rewrite Ht. cbn [nz Z.eqb negb]. lia.
Qed.

(** The mutex of the queue [q] is held ([own] = 1) by the running task [c], or
    free ([own] = 0), and no signal is pending. *)
Record mutex_ok σ q c (own : Z) : Prop := {
  mo_mtx : mutex σ (PqMutex q) (1 - own);
  mo_emp : condition σ (PqEmp q);
  mo_full : condition σ (PqFull q);
  mo_task : runs_with σ c own
}.

Lemma mo_cur σ q c own : mutex_ok σ q c own -> rt_smp_current σ = c.
Proof. by intros [_ _ _ [? _]]. Qed.

Lemma queue_lock σ q c :
  mutex_ok σ q c 0 -> exists σ', rt_sem_wait (PqMutex q) σ = Done 1 σ' /\ mutex_ok σ' q c 1.
Proof.
  intros [Hm He Hf Ht]. destruct (mutex_lock σ (PqMutex q) c 0 Hm Ht) as (σ' & E & Hm' & Ht' & HF); [lia|].
  exists σ'. split; [done|]. split; [done|by apply (condition_frame σ _ _ _ HF)..|done].
Qed.

Lemma queue_unlock σ q c :
  mutex_ok σ q c 1 -> exists σ', rt_sem_signal (PqMutex q) σ = Done 0 σ' /\ mutex_ok σ' q c 0.
Proof.
  intros [Hm He Hf Ht]. destruct (mutex_unlock σ (PqMutex q) c 1 Hm Ht) as (σ' & E & Hm' & Ht' & HF); [lia|].
  exists σ'. split; [done|]. split; [done|by apply (condition_frame σ _ _ _ HF)..|done].
Qed.

Lemma cond_signal σ q c cnd :
  mutex_ok σ q c 1 -> cnd = PqEmp q \/ cnd = PqFull q ->
  exists σ', rt_sem_signal cnd σ = Done 0 σ' /\ mutex_ok σ' q c 1.
Proof.
  intros [Hm He Hf Ht] Hc. assert (Hcn : condition σ cnd) by (by destruct Hc as [->| ->]).
  destruct (condition_signal σ cnd c 1 Hcn Ht) as (σ' & E & Hc' & Ht' & HF). exists σ'. split; [done|].
  split; [apply (mutex_frame σ _ _ _ _ HF); [by destruct Hc as [->| ->]|done]| | |done];
    destruct Hc as [->| ->]; (done || by apply (condition_frame σ _ _ _ HF)).
Qed.
End Sync.

(** * Sending and receiving *)

(** The messages of the queue [q] are [B], by priority. *)
Definition pool_ok (s : PQUEUES) (q : Z) (B : list (Z * list Z)) : Prop :=
  params_ok (pq_base s q) (mq_msgsize s q) (mq_maxmsg s q) /\ queue_type s = POSIX /\
  exists L, B = L.*2 /\ mq_curmsgs s q = Z.of_nat (length L) /\
    msgs_ok (pq_base s q) (mq_msgsize s q) (mq_maxmsg s q) (bytes s) (pq_head s q) (pq_tail s q) L /\
    free_ok (pq_base s q) (mq_msgsize s q) (mq_maxmsg s q) (bytes s) L.*1.

(** The queue [q], whose messages are [B], is open to the running task [c] for
    reading and writing without waiting, and no task waits for it. *)
Record mq_ready (s : PQUEUES) (q c : Z) (B : list (Z * list Z)) : Prop := {
  mr_pool : pool_ok s q B;
  mr_sync : mutex_ok (sched s) q c 0;
  mr_access : forall acc, can_access s q acc = Some true;
  mr_nonblock : is_blocking s q = Some false
}.

(** The bytes of the slots of the queue. *)
Definition in_pool (s : PQUEUES) (q x : Z) : Prop :=
  pq_base s q <= x < pq_base s q + width (mq_msgsize s q) * mq_maxmsg s q.
Definition out_of_pool (s : PQUEUES) (q a n : Z) : Prop := forall x, a <= x < a + n -> ~ in_pool s q x.

(** What a queue of at most [N] messages of at most [size] bytes does. *)
Definition spec_send (N p : Z) (bs : list Z) (B : list (Z * list Z)) : Z * list (Z * list Z) :=
  if p >? MQ_PRIO_MAX then (- EINVAL, B)
  else if Z.of_nat (length B) =? N then (- EAGAIN, B)
  else (Z.of_nat (length bs), insert_after (fun m => p <=? prio_of m) (p, bs) B).

Definition spec_receive (size buflen : Z) (B : list (Z * list Z)) :
    Z * option (Z * list Z) * list (Z * list Z) :=
  match B with
  | [] => (u32 (- EAGAIN), None, [])
  | m :: B' =>
      if buflen <? size then (u32 (- EMSGSIZE), None, B)
      else (Z.of_nat (length m.2), Some m, B')
  end.

Section SendReceive.
Implicit Types (s : PQUEUES) (q a b p c n : Z) (bs : list Z) (L : list entry) (B : list (Z * list Z)).

(** What the access of a task to a queue depends on. *)
Definition same_access s s' : Prop :=
  owner s' = owner s /\ permissions s' = permissions s /\ system_data_ptr s' = system_data_ptr s /\
  z_pqueues s' = z_pqueues s /\ q_id s' = q_id s /\ access_id s' = access_id s /\
  access_oflags s' = access_oflags s /\ rt_smp_current (sched s') = rt_smp_current (sched s).

(** What no call changes. *)
Definition kept s s' : Prop :=
  pq_base s' = pq_base s /\ mq_msgsize s' = mq_msgsize s /\ mq_maxmsg s' = mq_maxmsg s /\ same_access s s'.

Lemma find_access_same s s' p id : access_id s' = access_id s -> find_access s' p id = find_access s p id.
Proof.
  intros E. unfold find_access. generalize (Z.to_nat MQ_OPEN_MAX) as k, 0 as i. intros k.
  induction k as [|k IH]; intros i; [done|]. cbn [access_loop]. by rewrite E, IH.
Qed.

Lemma can_access_same s s' q acc : same_access s s' -> can_access s' q acc = can_access s q acc.
Proof.
  intros (E1 & E2 & E3 & E4 & E5 & E6 & E7 & E8).
  assert (Ep : permitted s' q acc = permitted s q acc) by (unfold permitted, rt_whoami; by rewrite E1, E2, E8).
  unfold can_access, task_pqueues, rt_whoami. rewrite Ep, E3, E4, E5, E7, E8. destruct (permitted s q acc); [|done].
  destruct (system_data_ptr s _ =? 0); [done|]. cbn [mbind option_bind]. by rewrite (find_access_same s s').
Qed.

Lemma is_blocking_same s s' q : same_access s s' -> is_blocking s' q = is_blocking s q.
Proof.
  intros (E1 & E2 & E3 & E4 & E5 & E6 & E7 & E8). unfold is_blocking, task_pqueues, rt_whoami.
  rewrite E3, E4, E5, E7, E8.
  destruct (system_data_ptr s _ =? 0); [done|]. cbn [mbind option_bind]. by rewrite (find_access_same s s').
Qed.

(** The calls of the scheduler's services. *)
Lemma pq_lock_eq s q c :
  mutex_ok (sched s) q c 0 -> exists σ, pq_lock q s = Done tt (s <| sched := σ |>) /\ mutex_ok σ q c 1.
Proof.
  intros H. destruct (queue_lock _ _ _ H) as (σ & E & Hm). exists σ. split; [|done].
  unfold pq_lock, schd. unfold mbind, M_bind. by rewrite (lift_done _ _ _ _ _ E).
Qed.

Lemma pq_unlock_eq s q c :
  mutex_ok (sched s) q c 1 -> exists σ, pq_unlock q s = Done tt (s <| sched := σ |>) /\ mutex_ok σ q c 0.
Proof.
  intros H. destruct (queue_unlock _ _ _ H) as (σ & E & Hm). exists σ. split; [|done].
  unfold pq_unlock, schd. unfold mbind, M_bind. by rewrite (lift_done _ _ _ _ _ E).
Qed.

Lemma pq_signal_eq s q c cnd :
  mutex_ok (sched s) q c 1 -> cnd = PqEmp q \/ cnd = PqFull q ->
  exists σ, schd (rt_sem_signal cnd) s = Done 0 (s <| sched := σ |>) /\ mutex_ok σ q c 1.
Proof.
  intros H Hc. destruct (cond_signal _ _ _ _ H Hc) as (σ & E & Hm). exists σ. split; [|done].
  unfold schd. by rewrite (lift_done _ _ _ _ _ E).
Qed.

Lemma valid_mq_eq q : 0 <= q < MAX_PQUEUES -> valid_mq (q + 1) = true /\ i32 (q + 1 - 1) = q.
Proof.
  unfold MAX_PQUEUES. intros Hq. unfold valid_mq.
  assert (E : i32 (q + 1 - 1) = q) by (rewrite i32_id; [lia|unfold in_i32, INT_MIN, INT_MAX; lia]).
  rewrite E. split; [|done]. apply andb_true_iff. unfold MAX_PQUEUES. split; [apply Z.leb_le|apply Z.ltb_lt]; lia.
Qed.

(** A slot that was filled by [send_message]. *)
Lemma slot_filled base size N (m m' : Z -> Z) a p n src :
  params_ok base size N -> is_slot base size N a -> 0 <= n <= size -> 0 <= p <= MQ_PRIO_MAX ->
  (forall x, src <= x < src + n -> ~ base <= x < base + width size * N) ->
  (forall x, m' x = copied (st32 (st32 (st32 m a 1) (a + 4) n) (a + 8) p) (msg_data a) src n x) ->
  entry_ok size m' (a, (p, load m src n)) /\ ld32 m' (a + 12) = ld32 m (a + 12) /\
  (forall x, ~ a <= x < a + width size -> m' x = m x).
Proof.
  intros Hp Ha Hn Hpr Hsrc Hm. pose proof (slot_range _ _ _ Hp a Ha) as Hr.
  destruct Hp as (Hsz & _). unfold width, msg_data, sizeof_MSG_HDR, MQ_PRIO_MAX in *.
  assert (Hw : forall k, 0 <= k <= 12 -> ld32 m' (a + k) =
             ld32 (st32 (st32 (st32 m a 1) (a + 4) n) (a + 8) p) (a + k)).
  { intros k Hk. apply ld_ext. intros i Hi. rewrite Hm. apply copied_outside. lia. }
  split_and!.
  - unfold entry_ok. rewrite <- (Z.add_0_r a) at 1. rewrite !Hw by lia. rewrite Z.add_0_r. rewrite length_load by lia.
    unfold msg_data, sizeof_MSG_HDR, MQ_PRIO_MAX.
    split_and!; [|rewrite ld_st_ne by lia; apply ld_st_eq; lia|lia|apply ld_st_eq; lia|lia|lia|].
    + rewrite !ld_st_ne by lia. apply ld_st_eq. lia.
    + rewrite (load_copied _ m' _ src n Hm). apply load_ext. intros i Hi.
      pose proof (Hsrc (src + i) ltac:(lia)). rewrite !st32_out by lia. done.
  - rewrite Hw by lia. rewrite !ld_st_ne by lia. done.
  - intros x Hx. rewrite Hm, copied_outside by lia. rewrite !st32_out by lia. done.
Qed.

(** The slots not in use stay so when a slot is taken and links are written. *)
Lemma free_ok_more base size N (m m' : Z -> Z) (A A' : list Z) a :
  params_ok base size N -> free_ok base size N m A -> is_slot base size N a ->
  (forall b, b ∈ A -> is_slot base size N b) -> (forall b, b ∈ a :: A -> b ∈ A') ->
  (forall x, ~ a <= x < a + width size -> (forall b, b ∈ A -> ~ b + 12 <= x < b + 16) -> m' x = m x) ->
  free_ok base size N m' A'.
Proof.
  intros Hp Hf Ha HA Hsub Hm. apply (free_ok_same _ _ _ Hp m).
  - intros b Hb Hbn x Hx. assert (Hba : b ∉ a :: A) by (intros Hin; by apply Hbn, Hsub).
    apply not_elem_of_cons in Hba as [Hba HbA]. apply Hm.
    + destruct (slot_apart _ _ _ Hp a b Ha Hb); [congruence|lia|lia].
    + intros d Hd. pose proof (slot_range _ _ _ Hp b Hb).
      destruct (slot_apart _ _ _ Hp d b (HA d Hd) Hb); [by intros ->|lia..].
  - intros b Hb Hbn. apply Hf; [done|]. intros Hin. apply Hbn, Hsub. by right.
Qed.

(** A buffer outside of the slots is apart from the message in a slot. *)
Lemma pool_apart s q a src n k :
  is_slot (pq_base s q) (mq_msgsize s q) (mq_maxmsg s q) a ->
  params_ok (pq_base s q) (mq_msgsize s q) (mq_maxmsg s q) ->
  0 <= n <= mq_msgsize s q -> 0 <= k -> out_of_pool s q src k -> k = 0 \/ n = 0 \/ apart_mem (msg_data a) n src k.
Proof.
  intros Ha Hp Hn Hk Hsrc. pose proof (slot_range _ _ _ Hp a Ha) as Hr.
  unfold apart_mem, msg_data, sizeof_MSG_HDR, out_of_pool, in_pool, width in *.
  destruct (decide (n = 0)); [lia|]. destruct (decide (k = 0)); [lia|]. do 2 right.
  destruct (Z.le_gt_cases (a + 16 + n) src); [by left|]. right.
  destruct (Z.le_gt_cases (src + k) (a + 16)); [done|]. exfalso.
  destruct (Z.le_gt_cases src (a + 16)); [apply (Hsrc (a + 16))|apply (Hsrc src)];
    unfold sizeof_MSG_HDR in *; lia.
Qed.

Lemma insert_after_fmap {A C} (f : A -> C) (P : C -> bool) x (l : list A) :
  f <$> insert_after (fun y => P (f y)) x l = insert_after P (f x) (f <$> l).
Proof.
  unfold insert_after. rewrite fmap_app, fmap_cons, drop_while_fmap. f_equal.
  induction l as [|y l IH]; [done|]. cbn. destruct (P (f y)); [|done]. cbn. by f_equal.
Qed.

Lemma notify_first_eq s q (e : bool) : exists f, notify_first q e s = Done tt (s <| notify_task := f |>).
Proof.
  unfold notify_first. run_m. destruct (e && _); run_m; [by eexists|]. exists (notify_task s). by destruct s.
Qed.

Lemma send_message_spec copy `{!Copier copy} s q c B src n p :
  pool_ok s q B -> mutex_ok (sched s) q c 1 -> Z.of_nat (length B) < mq_maxmsg s q ->
  0 <= n <= mq_msgsize s q -> 0 <= p <= MQ_PRIO_MAX -> out_of_pool s q src n ->
  exists s', send_message copy q src n p s = Done n s' /\ mutex_ok (sched s') q c 0 /\ kept s s' /\
    pool_ok s' q (insert_after (fun m => p <=? prio_of m) (p, load (bytes s) src n) B) /\
    (forall x, ~ in_pool s q x -> bytes s' x = bytes s x).
Proof.
  intros (Hp & Ht & L & -> & Hc & Hok & Hfree) Hmo Hlen Hn Hpr Hsrc. rewrite length_fmap in Hlen.
  destruct (getnode_spec s q L Hp Hok Hfree Hlen) as (a & Eg & Ha & Hna & Hbase).
  pose proof (slot_range _ _ _ Hp a Ha) as Hr.
  unfold send_message. unfold mbind at 1, M_bind at 1. rewrite Eg. cbn [bind_out].
  rewrite (proj2 (Z.eqb_neq a 0)) by lia. unfold store32. run_m.
  assert (Eu : u32 (mq_msgsize s q) = mq_msgsize s q).
  { destruct Hp. unfold u32. rewrite Z.mod_small; lia. }
  rewrite Eu, Z.gtb_ltb, (proj2 (Z.ltb_ge _ _)) by lia. run_m.
  set (s1 := s <| bytes := _ |> <| mq_curmsgs ::= _ |> <| bytes ::= _ |> <| bytes ::= _ |>).
  destruct (copies (copy := copy) n (msg_data a) src s1) as (m4 & -> & Hm4); [lia| |].
  { destruct (pool_apart s q a src n n Ha Hp) as [->|[->|]]; [lia..|done| | |done]; unfold apart_mem; lia. }
  destruct (slot_filled _ _ _ (bytes s) m4 a p n src Hp Ha Hn Hpr) as (He & Hnx & Hout); [exact Hsrc|exact Hm4|].
  assert (Hne : forall b, is_slot (pq_base s q) (mq_msgsize s q) (mq_maxmsg s q) b -> b <> a ->
            same_at (mq_msgsize s q) (bytes s) m4 b).
  { intros b Hb Hba x Hx. apply Hout. destruct (slot_apart _ _ _ Hp a b Ha Hb) as [|]; [congruence|lia|lia]. }
  cbn [bind_out].
  destruct (insert_message_spec (s1 <| bytes := m4 |>) q L a p (load (bytes s) src n)) as
    (m5 & H & T & -> & Hok5 & Hqs & Hm5); unfold s1; state_simpl; [done|done| |lia|done|done|done| |done|].
  { apply (msgs_ok_same _ _ _ Hp (bytes s)); [|done]. intros b Hb. apply Hne; [by apply Hok|]. by intros ->. }
  { unfold msg_next. state_simpl. rewrite Hnx. by apply Hfree. }
  cbn [bind_out]. state_simpl.
  match goal with |- context [bind_out (schd _ ?st) _] => set (s5 := st) end.
  destruct (pq_signal_eq s5 q c (PqEmp q)) as (σ6 & -> & Hmo6);
    [unfold s5, s1; by state_simpl|by left|]. cbn [bind_out].
  destruct (notify_first_eq (s5 <| sched := σ6 |>) q (is_empty (s <| bytes := st32 (bytes s) a 1 |>) q)) as (f & ->).
  cbn [bind_out]. destruct (pq_unlock_eq (s5 <| sched := σ6 |> <| notify_task := f |>) q c) as (σ7 & -> & Hmo7);
    [by state_simpl|]. cbn [bind_out].
  rewrite i32_id by (destruct Hp; unfold in_i32, INT_MIN, INT_MAX; lia).
  eexists. split; [reflexivity|]. unfold s5. unfold kept, same_access, pool_ok. state_simpl.
  pose proof (mo_cur _ _ _ _ Hmo) as Hc0. pose proof (mo_cur _ _ _ _ Hmo7) as Hc7.
  assert (Hfin : forall x, ~ a <= x < a + width (mq_msgsize s q) ->
            (forall b, b ∈ L.*1 -> ~ b + 12 <= x < b + 16) -> m5 x = bytes s x).
  { intros x Hxa Hx. rewrite Hm5; [unfold s1; state_simpl; by apply Hout|].
    intros b [->|Hb]%elem_of_cons; [unfold width, sizeof_MSG_HDR in *; lia|by apply Hx]. }
  split_and!; [done..|congruence|done|done| |].
  - eexists. split; [|split; [|split; [exact Hok5|]]].
    + symmetry. apply (insert_after_fmap snd (fun m => p <=? prio_of m)).
    + rewrite upd_eq, Hc, (Permutation_length (insert_after_perm _ _ _)). cbn [length].
      rewrite i32_id; [lia|]. destruct Hp as (? & ? & ? & ?).
      unfold in_i32, INT_MIN, INT_MAX, width, sizeof_MSG_HDR in *. nia.
    + apply (free_ok_more _ _ _ (bytes s) _ L.*1 _ a); [done..|by apply Hok| |done].
      intros b. rewrite !list_elem_of_fmap, elem_of_cons, list_elem_of_fmap. setoid_rewrite insert_after_elem.
      intros [->|(e & -> & He')]; [|exists e; by split; [|right]].
      exists (a, (p, load (bytes s) src n)). by split; [|left].
  - intros x Hx. unfold in_pool in Hx. apply Hfin; [lia|]. intros b Hb.
    assert (Hbs : is_slot (pq_base s q) (mq_msgsize s q) (mq_maxmsg s q) b) by by apply Hok.
    pose proof (slot_range _ _ _ Hp b Hbs). lia.
Qed.

(** A slot that was released. *)
Lemma slot_cleared base size N (m m' : Z -> Z) (A : list Z) a :
  params_ok base size N -> is_slot base size N a -> free_ok base size N m (a :: A) ->
  (forall x, ~ a <= x < a + width size -> base <= x < base + width size * N -> m' x = m x) ->
  0 <= ld32 m' (a + 8) <= MQ_PRIO_MAX ->
  let m'' := st32 (st32 (st32 m' a 0) (a + 4) 0) (a + 12) 0 in
  (forall b, is_slot base size N b -> b <> a -> same_at size m m'' b) /\
  free_ok base size N m'' A /\ (forall x, ~ base <= x < base + width size * N -> m'' x = m' x).
Proof.
  intros Hp Ha Hf Hm Hpr m''. pose proof (slot_range _ _ _ Hp a Ha) as Hr.
  assert (Hout : forall x, ~ a <= x < a + width size -> m'' x = m' x)
    by (intros x Hx; unfold m''; rewrite !st32_out by lia; done).
  assert (Hne : forall b, is_slot base size N b -> b <> a -> same_at size m m'' b).
  { intros b Hb Hba x Hx. pose proof (slot_range _ _ _ Hp b Hb).
    assert (~ a <= x < a + width size) by (destruct (slot_apart _ _ _ Hp a b Ha Hb); [congruence|lia..]).
    rewrite Hout by done. apply Hm; [done|lia]. }
  split_and!; [done| |intros x Hx; apply Hout; lia].
  intros b Hb HbA. destruct (decide (b = a)) as [->|Hba].
  - unfold m''. split; [by rewrite !ld_st_ne, ld_st_eq by lia|]. split; [by rewrite ld_st_ne, ld_st_eq by lia|].
    split; [by rewrite !ld_st_ne by lia|by apply ld_st_eq].
  - rewrite <- (Z.add_0_r b) at 1. rewrite !(same_word _ _ _ Hp m m'' b) by (auto || lia). rewrite Z.add_0_r.
    apply Hf; [done|]. by apply not_elem_of_cons.
Qed.

Lemma msgs_length base size N m H T L :
  params_ok base size N -> msgs_ok base size N m H T L -> Z.of_nat (length L) <= N.
Proof.
  intros Hp Hok. assert (Hsub : L.*1 ⊆+ slot base size <$> seqZ 0 N).
  { apply NoDup_submseteq; [by apply (ms_nodup _ _ _ _ _ _ _ Hok)|]. intros a Ha.
    destruct (ms_slots _ _ _ _ _ _ _ Hok a Ha) as (i & Hi & ->). apply list_elem_of_fmap.
    exists i. split; [done|]. apply elem_of_seqZ. lia. }
  apply submseteq_length in Hsub. rewrite !length_fmap, length_seqZ in Hsub. destruct Hp. lia.
Qed.

Lemma release_message_eq s q a :
  let nx := msg_next s a in
  exists H T, release_message q a s = Done tt (s <| pq_head := H |> <| pq_tail := T |>
      <| bytes := st32 (st32 (st32 (bytes s) a 0) (a + 4) 0) (a + 12) 0 |>
      <| mq_curmsgs ::= <[q := i32 (mq_curmsgs s q - 1)]> |>) /\
    H q = (if nx =? 0 then pq_base s q else nx) /\ T q = (if nx =? 0 then pq_base s q else pq_tail s q).
Proof.
  intros nx. unfold release_message, store32. run_m. rewrite upd_eq. fold nx. destruct (nx =? 0); run_m.
  - exists (<[q:=pq_base s q]> (<[q:=nx]> (pq_head s))), (<[q:=pq_base s q]> (pq_tail s)).
    split; [by destruct s|]. by rewrite !upd_eq.
  - exists (<[q:=nx]> (pq_head s)), (pq_tail s). split; [by destruct s|]. by rewrite upd_eq.
Qed.

Lemma receive_message_spec copy `{!Copier copy} s q c p bs B buf buflen pp :
  pool_ok s q ((p, bs) :: B) -> mutex_ok (sched s) q c 1 -> mq_msgsize s q <= buflen ->
  out_of_pool s q buf buflen -> out_of_pool s q pp 4 -> apart_mem buf buflen pp 4 ->
  exists s', receive_message copy q buf buflen pp s = Done (Z.of_nat (length bs)) s' /\
    mutex_ok (sched s') q c 0 /\ kept s s' /\ pool_ok s' q B /\
    load (bytes s') buf (Z.of_nat (length bs)) = bs /\ ld32 (bytes s') pp = p /\
    (forall x, ~ in_pool s q x -> ~ buf <= x < buf + buflen -> ~ pp <= x < pp + 4 -> bytes s' x = bytes s x).
Proof.
  intros (Hp & Ht & L & HB & Hc & Hok & Hfree) Hmo Hbl Hbuf Hpp Hap.
  destruct L as [|[a [p' bs']] L]; [done|]. cbn in HB. injection HB as <- <- ->.
  assert (Ha : is_slot (pq_base s q) (mq_msgsize s q) (mq_maxmsg s q) a) by (apply Hok; by left).
  assert (He : entry_ok (mq_msgsize s q) (bytes s) (a, (p, bs)))
    by (pose proof (ms_used _ _ _ _ _ _ _ Hok) as Hu; by apply Forall_cons in Hu as [? _]).
  destruct He as (_ & Esz & Hsz & Epr & Hpr & Eld). pose proof (slot_range _ _ _ Hp a Ha) as Hr.
  set (n := Z.of_nat (length bs)) in *.
  unfold receive_message. run_m. pose proof (ms_head _ _ _ _ _ _ _ Hok) as HH. cbn in HH. rewrite HH.
  assert (Eu : u32 (mq_msgsize s q) = mq_msgsize s q) by (destruct Hp; unfold u32; rewrite Z.mod_small; lia).
  rewrite Eu, (proj2 (Z.ltb_ge _ _)) by done. assert (Ems : msg_size s a = n) by exact Esz. rewrite Ems.
  rewrite (proj2 (Z.leb_le n buflen)) by lia. run_m.
  destruct (copies (copy := copy) n buf (msg_data a) s) as (m1 & -> & Hm1); [lia| |].
  { destruct (pool_apart s q a buf n buflen Ha Hp) as [|[|]]; unfold apart_mem in *; [lia..|done|lia|lia|lia]. }
  unfold store32. run_m. set (m2 := st32 m1 pp p).
  match goal with |- context [release_message q a ?st] => set (s2 := st) end.
  assert (Hin : forall x, pq_base s q <= x < pq_base s q + width (mq_msgsize s q) * mq_maxmsg s q -> m1 x = bytes s x).
  { intros x Hx. rewrite Hm1. apply copied_outside. intros Hb. apply (Hbuf x); [lia|exact Hx]. }
  assert (Hin2 : forall x, pq_base s q <= x < pq_base s q + width (mq_msgsize s q) * mq_maxmsg s q -> m2 x = bytes s x).
  { intros x Hx. unfold m2. rewrite st32_out; [by apply Hin|]. destruct (decide (pp <= x < pp + 4)); [|lia].
    exfalso. by apply (Hpp x). }
  assert (Ep : msg_priority (s <| bytes := m1 |>) a = p).
  { unfold msg_priority. state_simpl. rewrite <- Epr. apply ld_ext. intros i Hi. apply Hin. lia. }
  assert (Es2 : bytes s2 = m2) by (unfold s2; state_simpl; by rewrite Ep).
  assert (Enx : msg_next s2 a = ld32 (bytes s) (a + 12)).
  { unfold msg_next. rewrite Es2. apply ld_ext. intros i Hi. apply Hin2. lia. }
  destruct (release_message_eq s2 q a) as (H & T & -> & EH & ET). cbn [bind_out]. rewrite Enx in EH, ET.
  destruct (slot_cleared _ _ _ (bytes s) m2 L.*1 a Hp Ha Hfree) as (Hsame & Hfr & Hout);
    [intros; by apply Hin2|rewrite (ld_ext (bytes s)), Epr by (intros; apply Hin2; lia); exact Hpr|].
  pose proof (msgs_ok_tail _ _ _ Hp _ _ _ _ _ Hok) as Hok'. cbn [fst] in Hok'.
  match goal with |- context [bind_out (schd _ ?st) _] => set (s3 := st) end.
  destruct (pq_signal_eq s3 q c (PqFull q)) as (σ4 & -> & Hmo4);
    [unfold s3, s2; by state_simpl|by right|]. cbn [bind_out].
  destruct (pq_unlock_eq (s3 <| sched := σ4 |>) q c) as (σ5 & -> & Hmo5); [by state_simpl|]. cbn [bind_out].
  eexists. split; [reflexivity|]. unfold s3 in *. state_simpl. rewrite Es2.
  unfold s2, kept, same_access, pool_ok in *. state_simpl.
  pose proof (mo_cur _ _ _ _ Hmo). pose proof (mo_cur _ _ _ _ Hmo5). pose proof (msgs_length _ _ _ _ _ _ _ Hp Hok) as HlN.
  state_simpl_in EH. state_simpl_in ET. rewrite EH, ET.
  split_and!; [done..|congruence|done|done| | | |].
  - exists L. split_and!; [done| | |exact Hfr].
    + rewrite upd_eq, Hc. destruct Hp as (? & ? & ? & ?).
      rewrite i32_id; [cbn [length] in *; lia|].
      unfold in_i32, INT_MIN, INT_MAX, width, sizeof_MSG_HDR in *. nia.
    + apply (msgs_ok_same _ _ _ Hp (bytes s)); [|done].
      intros b Hb. apply Hsame; [apply Hok; by right|]. intros ->.
      pose proof (ms_nodup _ _ _ _ _ _ _ Hok) as Hnd. by apply NoDup_cons in Hnd as [? _].
  - rewrite <- Eld. rewrite <- (load_copied (bytes s) m1 buf) by done. apply load_ext. intros i Hi.
    rewrite Hout; [|intros Hx; apply (Hbuf (buf + i)); [lia|exact Hx]]. unfold m2. apply st32_out.
    unfold apart_mem in Hap. lia.
  - transitivity (ld32 m2 pp); [|unfold m2; apply ld_st_eq; unfold MQ_PRIO_MAX in *; lia].
    apply ld_ext. intros i Hi. apply Hout. apply (Hpp (pp + i)). lia.
  - intros x Hx Hxb Hxp. rewrite Hout by exact Hx. unfold m2. rewrite st32_out by lia. rewrite Hm1.
    apply copied_outside. lia.
Qed.

Lemma mq_ready_kept s s' q c B :
  kept s s' -> pool_ok s' q B -> mutex_ok (sched s') q c 0 -> (forall acc, can_access s q acc = Some true) ->
  is_blocking s q = Some false -> mq_ready s' q c B.
Proof.
  intros (_ & _ & _ & Hs) Hpool Hmo Ha Hb. split; [done|done| |].
  - intros acc. by rewrite (can_access_same s).
  - by rewrite (is_blocking_same s).
Qed.

(** A service locks the queue, waits while [cond] (never, here), and goes
    on. *)
Lemma wait_while_nonblock s q c (cond : PQUEUES -> Z -> bool) wait :
  mutex_ok (sched s) q c 1 -> is_blocking s q = Some false ->
  if cond s q then
    exists σ, wait_while SCHED_FUEL cond wait q s = Done (Some (- EAGAIN)) (s <| sched := σ |>) /\ mutex_ok σ q c 0
  else wait_while SCHED_FUEL cond wait q s = Done None s.
Proof.
  intros Hmo Hb. unfold SCHED_FUEL. cbn [wait_while]. run_m. destruct (cond s q); [|done].
  rewrite Hb. run_m. destruct (pq_unlock_eq _ _ _ Hmo) as (σ & -> & Hm). cbn [bind_out]. by exists σ.
Qed.

Lemma kept_sched s σ : rt_smp_current σ = rt_smp_current (sched s) -> kept s (s <| sched := σ |>).
Proof. intros H. unfold kept, same_access. state_simpl. done. Qed.

Lemma kept_trans s1 s2 s3 : kept s1 s2 -> kept s2 s3 -> kept s1 s3.
Proof.
  intros (A1 & A2 & A3 & A4 & A5 & A6 & A7 & A8 & A9 & A10 & A11) (B1 & B2 & B3 & B4 & B5 & B6 & B7 & B8 & B9 & B10 & B11).
  unfold kept, same_access. by rewrite B1, B2, B3, B4, B5, B6, B7, B8, B9, B10, B11.
Qed.

Lemma mq_ready_sched s q c B σ : mq_ready s q c B -> mutex_ok σ q c 0 -> mq_ready (s <| sched := σ |>) q c B.
Proof.
  intros [Hpool Hmo Ha Hb] Hmo'. apply (mq_ready_kept s); [| |done..].
  - apply kept_sched. by rewrite (mo_cur _ _ _ _ Hmo), (mo_cur _ _ _ _ Hmo').
  - unfold pool_ok in *. by state_simpl.
Qed.

(** What precedes [send_message]. *)
Lemma send_enters copy wait s q c B src n p :
  mq_ready s q c B -> 0 <= q < MAX_PQUEUES -> p <= MQ_PRIO_MAX ->
  exists σ, kept s (s <| sched := σ |>) /\
    if Z.of_nat (length B) =? mq_maxmsg s q then
      send_with copy wait (q + 1) src n p s = Done (- EAGAIN) (s <| sched := σ |>) /\ mutex_ok σ q c 0
    else
      send_with copy wait (q + 1) src n p s = send_message copy q src n p (s <| sched := σ |>) /\ mutex_ok σ q c 1.
Proof.
  intros [Hpool Hmo Ha Hb] Hq Hp. destruct (valid_mq_eq q Hq) as [Ev Ei].
  unfold send_with. rewrite Ev, Ei. run_m. rewrite Ha. run_m.
  rewrite Z.gtb_ltb, (proj2 (Z.ltb_ge _ _)) by done. run_m.
  destruct (pq_lock_eq _ _ _ Hmo) as (σ & -> & Hmo1). cbn [bind_out]. set (s1 := s <| sched := σ |>).
  assert (Hk : kept s s1) by (apply kept_sched; by rewrite (mo_cur _ _ _ _ Hmo), (mo_cur _ _ _ _ Hmo1)).
  pose proof (wait_while_nonblock s1 q c is_full (wait q) Hmo1) as Hw.
  rewrite (is_blocking_same s) in Hw by apply Hk. specialize (Hw Hb).
  assert (Ef : is_full s1 q = (Z.of_nat (length B) =? mq_maxmsg s q)).
  { destruct Hpool as (_ & _ & L & -> & Hc & _). unfold is_full, s1. state_simpl. by rewrite Hc, length_fmap. }
  rewrite Ef in Hw. destruct (_ =? _).
  - destruct Hw as (σ2 & -> & Hmo2). cbn [bind_out]. exists σ2. split_and!; [|done|done].
    apply kept_sched. by rewrite (mo_cur _ _ _ _ Hmo), (mo_cur _ _ _ _ Hmo2).
  - rewrite Hw. by exists σ.
Qed.

Lemma send_with_spec copy `{!Copier copy} wait s q c B src n p :
  mq_ready s q c B -> 0 <= q < MAX_PQUEUES -> 0 <= n <= mq_msgsize s q -> 0 <= p -> out_of_pool s q src n ->
  let '(r, B') := spec_send (mq_maxmsg s q) p (load (bytes s) src n) B in
  exists s', send_with copy wait (q + 1) src n p s = Done r s' /\ mq_ready s' q c B' /\ kept s s' /\
    (forall x, ~ in_pool s q x -> bytes s' x = bytes s x).
Proof.
  intros Hr Hq Hn Hp Hsrc. pose proof Hr as [Hpool Hmo Ha Hb]. unfold spec_send. rewrite length_load by lia.
  rewrite Z.gtb_ltb. destruct (Z.ltb_spec MQ_PRIO_MAX p) as [Hlt|Hge].
  - exists s. split_and!; [|done..]. destruct (valid_mq_eq q Hq) as [Ev Ei].
    unfold send_with. rewrite Ev, Ei. run_m. rewrite Ha. run_m.
    by rewrite Z.gtb_ltb, (proj2 (Z.ltb_lt _ _)).
  - destruct (send_enters copy wait s q c B src n p Hr Hq Hge) as (σ & Hk & He).
    destruct (Z.eqb_spec (Z.of_nat (length B)) (mq_maxmsg s q)) as [_|Hne]; destruct He as [-> Hmo1].
    + eexists. split; [reflexivity|]. split_and!; [by apply mq_ready_sched|done|done].
    + assert (Hpool1 : pool_ok (s <| sched := σ |>) q B) by (unfold pool_ok in *; by state_simpl).
      destruct (send_message_spec copy (s <| sched := σ |>) q c B src n p) as (s' & E & Hmo' & Hk' & Hpool' & Hm);
        [done|done| |done|done|done|].
      { destruct Hpool as (Hpar & _ & L & -> & _ & Hok & _). state_simpl. rewrite length_fmap in *.
        pose proof (msgs_length _ _ _ _ _ _ _ Hpar Hok). lia. }
      exists s'. pose proof (kept_trans _ _ _ Hk Hk') as Hk2.
      split_and!; [exact E|by apply (mq_ready_kept s)|done|exact Hm].
Qed.

(** The buffers of a call to receive. *)
Definition buffers_ok s q buf buflen pp : Prop :=
  0 <= buflen /\ out_of_pool s q buf buflen /\ out_of_pool s q pp 4 /\ apart_mem buf buflen pp 4.

Lemma receive_with_spec copy `{!Copier copy} wait s q c B buf buflen pp :
  mq_ready s q c B -> 0 <= q < MAX_PQUEUES -> buffers_ok s q buf buflen pp ->
  let '(r, m, B') := spec_receive (mq_msgsize s q) buflen B in
  exists s', receive_with copy wait (q + 1) buf buflen pp s = Done r s' /\ mq_ready s' q c B' /\ kept s s' /\
    match m with
    | Some (p, bs) => load (bytes s') buf (Z.of_nat (length bs)) = bs /\ ld32 (bytes s') pp = p
    | None => bytes s' = bytes s
    end /\
    (forall x, ~ in_pool s q x -> ~ buf <= x < buf + buflen -> ~ pp <= x < pp + 4 -> bytes s' x = bytes s x).
Proof.
  intros Hr Hq (Hbl & Hbuf & Hpp & Hap). pose proof Hr as [Hpool Hmo Ha Hb]. destruct (valid_mq_eq q Hq) as [Ev Ei].
  unfold receive_with. rewrite Ev, Ei. run_m. rewrite Ha. run_m.
  destruct (pq_lock_eq _ _ _ Hmo) as (σ & -> & Hmo1). cbn [bind_out]. set (s1 := s <| sched := σ |>).
  assert (Hk : kept s s1) by (apply kept_sched; by rewrite (mo_cur _ _ _ _ Hmo), (mo_cur _ _ _ _ Hmo1)).
  assert (Hpool1 : pool_ok s1 q B) by (unfold pool_ok, s1; by state_simpl).
  assert (Hend : forall σ2, mutex_ok σ2 q c 0 ->
            mq_ready (s1 <| sched := σ2 |>) q c B /\ kept s (s1 <| sched := σ2 |>)).
  { intros σ2 Hmo2. split; [by apply (mq_ready_sched s)|].
    apply (kept_sched s). by rewrite (mo_cur _ _ _ _ Hmo), (mo_cur _ _ _ _ Hmo2). }
  pose proof (wait_while_nonblock s1 q c is_empty (wait q) Hmo1) as Hw.
  rewrite (is_blocking_same s) in Hw by apply Hk. specialize (Hw Hb).
  assert (Ee : is_empty s1 q = bool_decide (B = [])).
  { destruct Hpool1 as (_ & _ & L & -> & Hc & _). unfold is_empty. rewrite Hc. by destruct L. }
  rewrite Ee in Hw. destruct B as [|[p bs] B]; cbn [bool_decide decide decide_rel] in Hw; cbn [spec_receive].
  - destruct Hw as (σ2 & -> & Hmo2). cbn [bind_out]. eexists. split; [reflexivity|].
    destruct (Hend σ2 Hmo2). by split_and!.
  - change (bool_decide _) with false in Hw. rewrite Hw. cbn [bind_out].
    destruct (Z.ltb_spec buflen (mq_msgsize s q)) as [Hlt|Hge].
    + unfold receive_message. run_m. assert (Eu : u32 (mq_msgsize s1 q) = mq_msgsize s q).
      { unfold s1. state_simpl. destruct Hpool as (Hp & _). destruct Hp. unfold u32. rewrite Z.mod_small; lia. }
      rewrite Eu, (proj2 (Z.ltb_lt _ _)) by done. run_m.
      destruct (pq_unlock_eq s1 q c Hmo1) as (σ2 & -> & Hmo2). cbn [bind_out]. eexists. split; [reflexivity|].
      destruct (Hend σ2 Hmo2). by split_and!.
    + destruct (receive_message_spec copy s1 q c p bs B buf buflen pp) as (s' & E & Hmo' & Hk' & Hpool' & Hl & Hpr & Hm);
        [done..|].
      pose proof (kept_trans _ _ _ Hk Hk') as Hk2. exists s'.
      split_and!; [exact E|by apply (mq_ready_kept s)|done|done|done|exact Hm].
Qed.

(** ** Sequences of calls *)

(** A call of a task, timed if it has a time. *)
Inductive mq_call : Type :=
  | Send (src len prio : Z) (time : option Z)
  | Receive (buf buflen pp : Z) (time : option Z).

(** What the task sees: the message and the result of a call to send; the
    result of a call to receive, and the message, if it gets one. *)
Inductive mq_obs : Type :=
  | Sent (m : Z * list Z) (r : Z)
  | Received (buflen r : Z) (m : option (Z * list Z)).

Definition call_ok s q (call : mq_call) : Prop :=
  match call with
  | Send src len prio _ => 0 <= len <= mq_msgsize s q /\ 0 <= prio /\ out_of_pool s q src len
  | Receive buf buflen pp _ => buffers_ok s q buf buflen pp
  end.

Definition do_call (mq : Z) (call : mq_call) : Q mq_obs :=
  s ← get;
  match call with
  | Send src len prio time =>
      r ← match time with Some t => mq_timedsend mq src len prio t | None => mq_send mq src len prio end;
      mret (Sent (prio, load (bytes s) src len) r)
  | Receive buf buflen pp time =>
      r ← match time with
          | Some t => mq_timedreceive mq buf buflen pp t
          | None => mq_receive mq buf buflen pp
          end;
      s ← get;
      mret (Received buflen r (if r <=? mq_msgsize s (mq - 1)
                               then Some (ld32 (bytes s) pp, load (bytes s) buf r) else None))
  end.

Fixpoint do_calls (mq : Z) (calls : list mq_call) : Q (list mq_obs) :=
  match calls with
  | [] => mret []
  | call :: calls => o ← do_call mq call; os ← do_calls mq calls; mret (o :: os)
  end.

(** The observations are those of the abstract queue [B], which becomes
    [B']. *)
Fixpoint explains (N size : Z) (B : list (Z * list Z)) (os : list mq_obs) (B' : list (Z * list Z)) : Prop :=
  match os with
  | [] => B' = B
  | Sent m r :: os =>
      let '(r1, B1) := spec_send N m.1 m.2 B in r = r1 /\ explains N size B1 os B'
  | Received buflen r m :: os =>
      let '(r1, m1, B1) := spec_receive size buflen B in r = r1 /\ m = m1 /\ explains N size B1 os B'
  end.

Lemma do_call_spec s q c B call :
  mq_ready s q c B -> 0 <= q < MAX_PQUEUES -> call_ok s q call ->
  exists o s' B', do_call (q + 1) call s = Done o s' /\
    explains (mq_maxmsg s q) (mq_msgsize s q) B [o] B' /\ mq_ready s' q c B' /\ kept s s'.
Proof.
  intros Hr Hq Hok. destruct call as [src n p time|buf buflen pp time]; unfold do_call; run_m; cbn [call_ok] in Hok.
  - destruct Hok as (Hn & Hp & Hsrc).
    assert (H : let '(r, B') := spec_send (mq_maxmsg s q) p (load (bytes s) src n) B in
      exists s', match time with
            | Some t => mq_timedsend (q + 1) src n p t s
            | None => mq_send (q + 1) src n p s
            end = Done r s' /\ mq_ready s' q c B' /\ kept s s' /\
        (forall x, ~ in_pool s q x -> bytes s' x = bytes s x)) by (destruct time; [by apply (send_with_spec copy_block)|by apply (send_with_spec copy_bytes)]).
    destruct (spec_send _ _ _ _) as [r B'] eqn:E. destruct H as (s' & Es & Hr' & Hk & _).
    destruct time; rewrite Es; cbn [bind_out]; eexists _, s', B'; (split; [reflexivity|]);
      cbn [explains fst snd]; rewrite E; done.
  - assert (H : let '(r, m, B') := spec_receive (mq_msgsize s q) buflen B in
      exists s', match time with
            | Some t => mq_timedreceive (q + 1) buf buflen pp t s
            | None => mq_receive (q + 1) buf buflen pp s
            end = Done r s' /\ mq_ready s' q c B' /\ kept s s' /\
        match m with
        | Some (p, bs) => load (bytes s') buf (Z.of_nat (length bs)) = bs /\ ld32 (bytes s') pp = p
        | None => bytes s' = bytes s
        end /\
        (forall x, ~ in_pool s q x -> ~ buf <= x < buf + buflen -> ~ pp <= x < pp + 4 -> bytes s' x = bytes s x))
      by (destruct time; [by apply (receive_with_spec copy_block)|by apply (receive_with_spec copy_bytes)]).
    destruct (spec_receive _ _ _) as [[r m] B'] eqn:E. destruct H as (s' & Es & Hr' & Hk & Hm & _).
    assert (Ek : mq_msgsize s' q = mq_msgsize s q) by (by destruct Hk as (_ & -> & _)).
    destruct (mr_pool _ _ _ _ Hr) as (Hp & _ & L & HB & _ & Hms & _). destruct Hp as (Hsz & _).
    assert (Em : (if r <=? mq_msgsize s' (q + 1 - 1) then Some (ld32 (bytes s') pp, load (bytes s') buf r) else None) = m).
    { replace (q + 1 - 1) with q by lia. rewrite Ek. destruct B as [|[p bs] B]; cbn [spec_receive] in E.
      - injection E as <- <- <-. rewrite (proj2 (Z.leb_gt _ _)); [done|]. change (u32 (- EAGAIN)) with 4294967285. lia.
      - destruct (buflen <? mq_msgsize s q).
        + injection E as <- <- <-. rewrite (proj2 (Z.leb_gt _ _)); [done|].
          change (u32 (- EMSGSIZE)) with 4294967206. lia.
        + injection E as <- <- <-. cbn [snd] in *. destruct Hm as [-> ->].
          rewrite (proj2 (Z.leb_le _ _)); [done|]. destruct L as [|[a [p' bs']] L]; [done|].
          cbn in HB. injection HB as <- <- ->. pose proof (ms_used _ _ _ _ _ _ _ Hms) as Hu.
          apply Forall_cons in Hu as [(_ & _ & Hle & _) _]. done. }
    destruct time; rewrite Es; cbn [bind_out]; eexists _, s', B'; (split; [reflexivity|]);
      cbn [explains fst snd]; rewrite E; split_and!; done.
Qed.

Lemma call_ok_kept s s' q call : kept s s' -> call_ok s q call -> call_ok s' q call.
Proof.
  intros (E1 & E2 & E3 & _). destruct call; cbn [call_ok]; unfold buffers_ok, out_of_pool, in_pool;
    by rewrite E1, E2, E3.
Qed.
End SendReceive.

(** * Properties *)

(** C5: the message queues are queues by priority: over any sequence of
    calls to send and receive, timed or not, of a task that does not wait, a
    queue takes at most [mq_maxmsg] messages, gives them back unchanged, the
    higher priorities first and equal ones in the order they were sent, and
    refuses a priority above the maximum, a full queue, an empty queue, and a
    buffer smaller than [mq_msgsize]. *)
Theorem mq_refines q c calls s B :
  mq_ready s q c B -> 0 <= q < MAX_PQUEUES -> Forall (call_ok s q) calls ->
  exists os s' B', do_calls (q + 1) calls s = Done os s' /\
    explains (mq_maxmsg s q) (mq_msgsize s q) B os B' /\ mq_ready s' q c B'.
Proof.
  intros Hr Hq. revert s B Hr. induction calls as [|call calls IH]; intros s B Hr HF.
  - exists [], s, B. by split_and!.
  - apply Forall_cons in HF as [Hok HF].
    destruct (do_call_spec s q c B call Hr Hq Hok) as (o & s1 & B1 & E & Hex & Hr1 & Hk).
    destruct (IH s1 B1 Hr1) as (os & s2 & B2 & E2 & Hex2 & Hr2).
    { eapply Forall_impl; [exact HF|]. intros call'. by apply call_ok_kept. }
    exists (o :: os), s2, B2. split_and!; [|clear E E2|done].
    + cbn [do_calls]. unfold mbind, M_bind. rewrite E. cbn [bind_out]. by rewrite E2.
    + destruct Hk as (_ & E1' & E3' & _). rewrite E1', E3' in Hex2.
      destruct o as [m r|buflen r m]; cbn [explains] in *.
      * destruct (spec_send _ _ _ _) as [r1 B']. destruct Hex as [-> ->]. done.
      * destruct (spec_receive _ _ _) as [[r1 m1] B']. destruct Hex as (-> & -> & ->). done.
Qed.

(** [mq_send] takes a slot and counts the message before it checks the
    size: a message that is too big is refused, but the queue counts it, and
    the slot is lost; if the queue was empty, the refused message is in it as
    a message of no bytes, which the next call to receive returns. *)
Theorem mq_send_too_big q c s B src n p :
  mq_ready s q c B -> 0 <= q < MAX_PQUEUES -> Z.of_nat (length B) < mq_maxmsg s q ->
  mq_msgsize s q < n -> p <= MQ_PRIO_MAX ->
  exists s', mq_send (q + 1) src n p s = Done (- EMSGSIZE) s' /\
    mq_curmsgs s' q = Z.of_nat (length B) + 1 /\ pq_head s' q = pq_head s q /\ pq_tail s' q = pq_tail s q /\
    (B = [] -> exists p0, mq_ready s' q c [(p0, [])]).
Proof.
  intros Hr Hq Hlen Hn Hp. pose proof Hr as [Hpool Hmo Ha Hb].
  destruct (send_enters copy_bytes (fun q => cond_wait (PqFull q) q) s q c B src n p Hr Hq Hp) as (σ & Hk & He).
  rewrite (proj2 (Z.eqb_neq _ _)) in He by lia. destruct He as [He Hmo1]. unfold mq_send. rewrite He. clear He.
  destruct Hpool as (Hpar & Ht & L & HB & Hc & Hok & Hf). set (s1 := s <| sched := σ |>).
  assert (HL : Z.of_nat (length L) < mq_maxmsg s q) by (by rewrite HB, length_fmap in Hlen).
  destruct (getnode_spec s1 q L Hpar Hok Hf HL) as (a & Eg & Hsa & Hna & Hbase).
  pose proof (slot_range _ _ _ Hpar a Hsa) as Hra. unfold send_message. unfold mbind at 1, M_bind at 1. rewrite Eg.
  cbn [bind_out]. rewrite (proj2 (Z.eqb_neq a 0)) by (unfold s1 in *; state_simpl_in Hra; lia). run_m.
  assert (Eu : u32 (mq_msgsize s q) = mq_msgsize s q) by (destruct Hpar; unfold u32; rewrite Z.mod_small; lia).
  change (mq_msgsize s1 q) with (mq_msgsize s q). rewrite Eu, Z.gtb_ltb, (proj2 (Z.ltb_lt _ _)) by done. run_m.
  match goal with |- context [bind_out (pq_unlock q ?st) _] => set (s2 := st) end.
  destruct (pq_unlock_eq s2 q c) as (σ3 & -> & Hmo3); [unfold s2, s1; by state_simpl|]. cbn [bind_out].
  eexists. split; [reflexivity|]. unfold s2, s1 in *. state_simpl.
  assert (HlN : mq_maxmsg s q < 4294967296 / 16).
  { destruct Hpar as (? & ? & ? & ?). unfold width, sizeof_MSG_HDR in *. change (4294967296 / 16) with 268435456. nia. }
  assert (Ec : i32 (mq_curmsgs s q + 1) = Z.of_nat (length L) + 1).
  { rewrite Hc, i32_id; [done|]. unfold in_i32, INT_MIN, INT_MAX. change (4294967296 / 16) with 268435456 in HlN. lia. }
  rewrite upd_eq, Ec, HB, length_fmap. split_and!; [done..|]. intros HBe.
  assert (L = []) as -> by (destruct L; [done|]; by rewrite HBe in HB). specialize (Hbase eq_refl).
  state_simpl_in Hsa. state_simpl_in Hbase.
  destruct (Hf a Hsa Hna) as (F1 & F2 & F3 & F4). exists (ld32 (bytes s) (a + 8)).
  apply (mq_ready_kept s); [| |done|done|done].
  { unfold kept, same_access. state_simpl. by rewrite (mo_cur _ _ _ _ Hmo), (mo_cur _ _ _ _ Hmo3). }
  unfold pool_ok. state_simpl. split_and!; [done|done|]. exists [(a, (ld32 (bytes s) (a + 8), []))].
  rewrite upd_eq. split_and!; [done|done| |].
  - pose proof (ms_head _ _ _ _ _ _ _ Hok) as HH. pose proof (ms_tail _ _ _ _ _ _ _ Hok) as HT.
    unfold s1 in HH, HT. state_simpl_in HH. state_simpl_in HT. cbn in HH, HT. subst a.
    split; cbn [fmap list_fmap fst]; [|apply NoDup_singleton| |done|done|done| |].
    + intros b ->%list_elem_of_singleton. done.
    + constructor; [|constructor]. unfold entry_ok. rewrite ld_st_eq, !ld_st_ne by lia.
      split_and!; [done|done|cbn; destruct Hpar; lia|done|lia|lia|done].
    + intros b [= <-]. left. rewrite ld_st_ne by lia. done.
    + repeat constructor.
  - apply (free_ok_more _ _ _ (bytes s) _ [] _ a Hpar Hf Hsa); [by intros b ?%not_elem_of_nil|done|].
    intros x Hx _. apply st32_out. lia.
Qed.

(** * The life of a queue *)

Section Life.
Implicit Types (s : PQUEUES) (σ : RTAI) (q c k : Z) (mtx : semp).

(** Semaphores, as they were. *)
Definition sync_same σ σ' : Prop :=
  sem_magic σ' = sem_magic σ /\ sem_type σ' = sem_type σ /\ q_next σ' = q_next σ /\ q_prev σ' = q_prev σ /\
  q_task σ' = q_task σ /\ (forall x, sem_count σ' x = sem_count σ x) /\ tasks_same σ σ'.

Lemma sync_same_frame σ σ' sem : sync_same σ σ' -> sync_frame σ σ' sem.
Proof. unfold sync_same, sync_frame. naive_solver. Qed.

Lemma mutex_ok_same σ σ' q c own :
  sync_same σ σ' -> runs_with σ' c own -> mutex_ok σ q c own -> mutex_ok σ' q c own.
Proof.
  intros HS Hc [Hm He Hf _]. pose proof (sync_same_frame _ _ (Sem 0) HS) as HF.
  split; [by apply (mutex_frame _ _ _ _ _ HF)|by apply (condition_frame _ _ _ _ HF)..|done].
Qed.

Lemma tasks_same_trans σ1 σ2 σ3 : tasks_same σ1 σ2 -> tasks_same σ2 σ3 -> tasks_same σ1 σ3.
Proof.
  intros (A1 & A2 & A3 & A4 & A5) (B1 & B2 & B3 & B4 & B5). unfold tasks_same. by rewrite B1, B2, B3, B4, B5.
Qed.

(** Locked and unlocked: nothing has changed. *)
Lemma sync_frame_undo σ1 σ2 σ3 mtx :
  sync_frame σ1 σ2 mtx -> sync_frame σ2 σ3 mtx -> sem_count σ3 mtx = sem_count σ1 mtx -> sync_same σ1 σ3.
Proof.
  intros (A1 & A2 & A3 & A4 & A5 & A6 & A7) (B1 & B2 & B3 & B4 & B5 & B6 & B7) E. unfold sync_same.
  rewrite B1, B2, B3, B4, B5. split_and!; [done..| |by apply (tasks_same_trans _ σ2)]. intros x.
  destruct (decide (x = mtx)) as [->|Hx]; [done|]. by rewrite B6, A6.
Qed.

Lemma sync_frame_same σ1 σ2 σ3 mtx : sync_frame σ1 σ2 mtx -> sync_same σ2 σ3 -> sync_frame σ1 σ3 mtx.
Proof.
  intros (A1 & A2 & A3 & A4 & A5 & A6 & A7) (B1 & B2 & B3 & B4 & B5 & B6 & B7). unfold sync_frame.
  rewrite B1, B2, B3, B4, B5. split_and!; [done..| |by apply (tasks_same_trans _ σ2)]. intros x Hx. by rewrite B6, A6.
Qed.

(** A lock on the state of the module. *)
Lemma lock_eq s mtx c k :
  mutex (sched s) mtx 1 -> runs_with (sched s) c k -> 0 <= k < 99 ->
  exists σ, schd (rt_sem_wait mtx) s = Done 1 (s <| sched := σ |>) /\ mutex σ mtx 0 /\ runs_with σ c (k + 1) /\
    sync_frame (sched s) σ mtx.
Proof.
  intros Hm Hc Hk. destruct (mutex_lock _ _ _ _ Hm Hc) as (σ & E & H); [lia|]. exists σ. split; [|done].
  unfold schd. by rewrite (lift_done _ _ _ _ _ E).
Qed.

Lemma unlock_eq s mtx c k :
  mutex (sched s) mtx 0 -> runs_with (sched s) c (k + 1) -> 0 <= k < 99 ->
  exists σ, schd (rt_sem_signal mtx) s = Done 0 (s <| sched := σ |>) /\ mutex σ mtx 1 /\ runs_with σ c k /\
    sync_frame (sched s) σ mtx.
Proof.
  intros Hm Hc Hk. destruct (mutex_unlock _ _ _ _ Hm Hc) as (σ & E & H1 & H2 & H3); [lia|].
  rewrite Z.add_simpl_r in H2. exists σ. split; [|done]. unfold schd. by rewrite (lift_done _ _ _ _ _ E).
Qed.

(** The index of a name is that of a queue of the name. *)
Lemma name_loop_found n s name i j :
  name_loop n s name i = j -> j <> ERROR -> i <= j < i + Z.of_nat n /\ q_name s j = name /\ name <> ""%string.
Proof.
  revert i. induction n as [|n IH]; intros i; cbn [name_loop]; [by intros <-|].
  destruct (bool_decide_reflect (q_name s i = ""%string)); destruct (bool_decide_reflect (q_name s i = name)) as [E|];
    cbn [negb andb]; intros Hj Hne; try (destruct (IH _ Hj Hne) as (? & ? & ?); split_and!; (done || lia)).
  subst j. split_and!; [lia|lia|done|]. by rewrite <- E.
Qed.

Lemma name_loop_none n s name i :
  (forall j, i <= j < i + Z.of_nat n -> q_name s j <> name) -> name_loop n s name i = ERROR.
Proof.
  revert i. induction n as [|n IH]; intros i H; cbn [name_loop]; [done|].
  rewrite (bool_decide_false (q_name s i = name)) by (apply H; lia). rewrite andb_false_r. apply IH.
  intros j Hj. apply H. lia.
Qed.

Lemma name_to_id_found s name q :
  name_to_id s name = q -> 0 <= q -> q < MAX_PQUEUES /\ q_name s q = name /\ name <> ""%string.
Proof. intros E Hq. destruct (name_loop_found _ _ _ _ _ E); [unfold ERROR; lia|]. split; [lia|done]. Qed.

Lemma name_to_id_none s name :
  (forall j, 0 <= j < MAX_PQUEUES -> q_name s j <> name) -> name_to_id s name = ERROR.
Proof. intros H. apply name_loop_none. intros j Hj. apply H. done. Qed.
End Life.

(** No task can ask to be notified: a request is refused unless there is
    one already, and a first one is never accepted, whatever the calls. *)
Theorem mq_notify_refused q c k s notification :
  0 <= q < MAX_PQUEUES -> mutex (sched s) (PqMutex q) 1 -> runs_with (sched s) c k -> 0 <= k < 99 -> c <> 0 ->
  notify_task s q = 0 ->
  exists s', mq_notify (q + 1) notification s = Done ERROR s' /\ notify_task s' = notify_task s /\
    notify_data s' = notify_data s /\ sync_same (sched s) (sched s') /\ runs_with (sched s') c k.
Proof.
  intros Hq Hm Hc Hk Hc0 Hn. destruct (valid_mq_eq q Hq) as [Ev Ei].
  unfold mq_notify. rewrite Ev, Ei. unfold pq_lock. run_m.
  destruct (lock_eq s (PqMutex q) c k Hm Hc Hk) as (σ1 & -> & Hm1 & Hc1 & HF1). cbn [bind_out]. state_simpl.
  assert (Ew : rt_whoami σ1 = c) by apply Hc1.
  assert (Hend : exists s', bind_out (pq_unlock q (s <| sched := σ1 |>)) (fun _ s0 => Done ERROR s0) = Done ERROR s' /\
            notify_task s' = notify_task s /\ notify_data s' = notify_data s /\
            sync_same (sched s) (sched s') /\ runs_with (sched s') c k).
  { unfold pq_unlock. run_m.
    destruct (unlock_eq (s <| sched := σ1 |>) (PqMutex q) c k) as (σ2 & -> & Hm2 & Hc2 & HF2); state_simpl; [done..|].
    cbn [bind_out]. eexists. split; [reflexivity|]. state_simpl. state_simpl_in HF2. split_and!; [done|done| |done].
    apply (sync_frame_undo _ σ1 _ (PqMutex q)); [done..|]. destruct Hm as (_ & _ & ->). by destruct Hm2 as (_ & _ & ->). }
  rewrite Hn, Ew. destruct notification as [d|]; [change (nz 0) with false; run_m; exact Hend|].
  rewrite (proj2 (Z.eqb_neq 0 c)) by done. run_m. exact Hend.
Qed.

(** To unlink a queue that is open takes its name away, so that it
    cannot be opened any more, and nothing else: the messages stay, the tasks
    that have it open go on sending and receiving, and the result is the
    number of them. *)
Theorem mq_unlink_open q c s name :
  name_to_id s name = q -> 0 <= q -> (forall j, 0 <= j < MAX_PQUEUES -> q_name s j = name -> j = q) ->
  0 < open_count s q ->
  mutex (sched s) pqueue_mutex 1 -> mutex (sched s) (PqMutex q) 1 -> runs_with (sched s) c 0 ->
  exists s', mq_unlink name s = Done (open_count s q) s' /\
    name_to_id s' name = ERROR /\ marked_for_deletion s' q = true /\ open_count s' = open_count s /\
    sync_same (sched s) (sched s') /\ (forall B, mq_ready s q c B -> mq_ready s' q c B).
Proof.
  intros Hid Hq0 Huniq Ho Hmall Hmq Hc. destruct (name_to_id_found _ _ _ Hid Hq0) as (Hq & Hname & Hne).
  unfold mq_unlink, all_lock, all_unlock, pq_lock, pq_unlock. run_m.
  destruct (lock_eq s pqueue_mutex c 0 Hmall Hc) as (σ1 & -> & Hm1 & Hc1 & HF1); [lia|]. cbn [bind_out].
  change (name_to_id (s <| sched := σ1 |>) name) with (name_to_id s name). rewrite Hid.
  rewrite (proj2 (Z.ltb_ge q 0)) by done. run_m.
  destruct (lock_eq (s <| sched := σ1 |>) (PqMutex q) c (0 + 1)) as (σ2 & -> & Hm2 & Hc2 & HF2); state_simpl;
    [by apply (mutex_frame _ _ _ _ _ HF1)|done|lia|]. cbn [bind_out]. state_simpl.
  rewrite Z.gtb_ltb, (proj2 (Z.ltb_lt _ _)) by done. run_m. state_simpl_in HF2.
  match goal with |- context [schd (rt_sem_signal (PqMutex q)) ?st] => set (s2 := st) end.
  destruct (unlock_eq s2 (PqMutex q) c (0 + 1)) as (σ3 & -> & Hm3 & Hc3 & HF3); unfold s2; state_simpl; [done..|lia|].
  cbn [bind_out]. state_simpl. unfold s2 in HF3. state_simpl_in HF3.
  match goal with |- context [schd (rt_sem_signal pqueue_mutex) ?st] => set (s3 := st) end.
  assert (HS2 : sync_same σ1 σ3).
  { apply (sync_frame_undo _ σ2 _ (PqMutex q)); [done..|].
    pose proof (mutex_frame _ _ _ (PqMutex q) 1 HF1 ltac:(discriminate) Hmq) as (_ & _ & ->). by destruct Hm3 as (_ & _ & ->). }
  destruct (unlock_eq s3 pqueue_mutex c 0) as (σ4 & -> & Hm4 & Hc4 & HF4); unfold s3; state_simpl; [|done|lia|].
  { by apply (mutex_frame σ1 _ (Sem 0) _ _ (sync_same_frame _ _ _ HS2)). }
  cbn [bind_out]. unfold s3 in HF4. state_simpl_in HF4. eexists. split; [reflexivity|]. unfold s3, s2. state_simpl.
  assert (HS : sync_same (sched s) σ4).
  { apply (sync_frame_undo _ σ3 _ pqueue_mutex); [by apply (sync_frame_same _ σ1)|done|].
    destruct Hmall as (_ & _ & ->). by destruct Hm4 as (_ & _ & ->). }
  split_and!; [|by rewrite upd_eq|done|done|].
  - apply name_to_id_none. state_simpl. intros j Hj. rewrite upd_dec. case_decide; [congruence|].
    intros E. by rewrite (Huniq j Hj E) in *.
  - intros B Hr. pose proof Hr as [Hpool Hmo Ha Hb]. apply (mq_ready_kept s); [| |by apply (mutex_ok_same (sched s))|done..].
    + unfold kept, same_access. state_simpl. by rewrite (mo_cur _ _ _ _ Hmo), (proj1 Hc4).
    + unfold pool_ok in *. by state_simpl.
Qed.

(** * Creating a queue *)

Section Create.
Implicit Types (s : PQUEUES) (σ : RTAI) (q c k p : Z) (sem mtx : semp) (m : Z -> Z).

(** A semaphore that is as it was. *)
Definition sem_same σ σ' sem : Prop :=
  sem_magic σ' sem = sem_magic σ sem /\ sem_type σ' sem = sem_type σ sem /\ sem_count σ' sem = sem_count σ sem /\
  q_next σ' (SemQueue sem) = q_next σ (SemQueue sem) /\ q_prev σ' (SemQueue sem) = q_prev σ (SemQueue sem) /\
  q_task σ' (SemQueue sem) = q_task σ (SemQueue sem).

Lemma unwaited_iff σ sem :
  unwaited σ sem <-> sem_magic σ sem = RT_SEM_MAGIC /\ q_next σ (SemQueue sem) = SemQueue sem /\
    q_prev σ (SemQueue sem) = SemQueue sem /\ q_task σ (SemQueue sem) = 0.
Proof.
  unfold unwaited, wait_queue. split.
  - intros (H1 & ([[H2 H3] _] & _) & H4). done.
  - intros (H1 & H2 & H3 & H4). split_and!; [done|by apply ring_nil|by intros t ?%not_elem_of_nil|done].
Qed.

Lemma unwaited_same σ σ' sem : sem_same σ σ' sem -> unwaited σ sem -> unwaited σ' sem.
Proof. rewrite !unwaited_iff. intros (E1 & _ & _ & E2 & E3 & E4). by rewrite E1, E2, E3, E4. Qed.

Lemma mutex_same σ σ' sem n : sem_same σ σ' sem -> mutex σ sem n -> mutex σ' sem n.
Proof.
  intros HS (U & T & C). split; [by apply (unwaited_same σ)|]. destruct HS as (_ & E1 & E2 & _). by rewrite E1, E2.
Qed.

Lemma condition_same σ σ' sem : sem_same σ σ' sem -> condition σ sem -> condition σ' sem.
Proof.
  intros HS (U & T & C). split; [by apply (unwaited_same σ)|]. destruct HS as (_ & E1 & E2 & _). by rewrite E1, E2.
Qed.

(** [rt_typed_sem_init] of a mutex and of a condition. *)
Lemma sem_init_spec σ sem v type c k :
  v = 1 /\ type = RES_SEM \/ v = 0 /\ type = BIN_SEM -> runs_with σ c k ->
  exists σ', rt_typed_sem_init sem v type σ = Done tt σ' /\ runs_with σ' c k /\
    (if type =? RES_SEM then mutex σ' sem 1 else condition σ' sem) /\ (forall x, x <> sem -> sem_same σ σ' x).
Proof.
  intros Hv Hc. unfold rt_typed_sem_init. unfold mutex, condition.
  destruct Hv as [[-> ->]|[-> ->]]; cbn; run_m; eexists; (split; [reflexivity|]);
    (split; [unfold runs_with in *; by state_simpl|]); unfold sem_same; state_simpl; rewrite ?unwaited_iff;
    state_simpl; rewrite ?upd_eq; (split; [by split_and!|]); intros x Hx; by rewrite !upd_ne by congruence.
Qed.

(** Every slot is set free. *)
Lemma init_slots_spec n w a s :
  16 <= w ->
  exists m', init_slots n w a s = Done tt (s <| bytes := m' |>) /\
    (forall i j, 0 <= i < Z.of_nat n -> j = 0 \/ j = 4 \/ j = 8 \/ j = 12 -> ld32 m' (a + w * i + j) = 0) /\
    (forall x, ~ a <= x < a + w * Z.of_nat n -> m' x = bytes s x).
Proof.
  intros Hw. revert a s. induction n as [|n IH]; intros a s; cbn [init_slots].
  - exists (bytes s). split; [by destruct s|]. split; [lia|done].
  - unfold store32. run_m. match goal with |- context [init_slots n w _ ?st] => set (s1 := st) end.
    destruct (IH (a + w) s1) as (m' & -> & H1 & H2). exists m'. split; [by destruct s|]. split.
    + intros i j Hi Hj. destruct (decide (i = 0)) as [->|Hi0].
      * rewrite Z.mul_0_r, Z.add_0_r.
        rewrite (ld_ext (bytes s1) m') by (intros x Hx; apply H2; lia). unfold s1, MQ_MIN_MSG_PRIORITY. state_simpl.
        destruct Hj as [->|[->|[->| ->]]]; rewrite ?Z.add_0_r; rewrite ?ld_st_ne by lia; by apply ld_st_eq.
      * replace (a + w * i + j) with (a + w + w * (i - 1) + j) by lia. apply H1; [lia|done].
    + intros x Hx. rewrite H2 by lia. unfold s1. state_simpl. by rewrite !st32_out by lia.
Qed.

(** What is asked of [mq_open] to create the queue [q]: the task [c] has the
    table [p] with [k] queues; the name is new; there is a descriptor, and a
    block for the slots; messages are of a size that a [char] can hold. *)
Record can_create s c p k q (name : string) (N size : Z) (cs cs' : list chunkv) (r : Z) : Prop := {
  cc_table : system_data_ptr s c <> 0 /\ z_pqueues s (system_data_ptr s c) = p /\ p <> 0;
  cc_open : n_open_pqueues s p = k /\ 0 <= k < MQ_OPEN_MAX;
  cc_name : Z.of_nat (String.length name) < MQ_NAME_MAX /\ (forall j, 0 <= j < MAX_PQUEUES -> q_name s j <> name);
  cc_room : num_pqueues s < MAX_PQUEUES /\ spare_descr (Z.to_nat MAX_PQUEUES) s 0 = Some q;
  cc_attr : 0 <= size <= 111 /\ 0 < N /\ width size * N < 2147483648;
  cc_type : queue_type s = POSIX;
  cc_heap : heap_ok (heap s) cs /\ first_fit (round_size (width size * N)) cs = (r, cs') /\
            round_size (width size * N) <= granularity (heap s) - OVERHEAD;
  cc_block : 0 < r /\ r + width size * N <= 4294967296
}.

(** The table and the descriptor that are made, with the attributes, and the slots
    at [r]; no byte is written but those of the slots. *)
Definition created s c p k q (name : string) (oflags perms N size fl r : Z) (cs' : list chunkv) (s' : PQUEUES) : Prop :=
  pool_ok s' q [] /\ owner s' = <[q := c]> (owner s) /\
  permissions s' = <[q := perms]> (permissions s) /\ q_id s' = <[q := q + 1]> (q_id s) /\
  access_id s' = <[(p, k) := q + 1]> (access_id s) /\ access_oflags s' = <[(p, k) := oflags]> (access_oflags s) /\
  system_data_ptr s' = system_data_ptr s /\ z_pqueues s' = z_pqueues s /\ q_name s' = <[q := name]> (q_name s) /\
  heap_ok (heap s') cs' /\
  (pq_base s' = <[q := r]> (pq_base s) /\ mq_maxmsg s' = <[q := N]> (mq_maxmsg s) /\
   mq_msgsize s' = <[q := size]> (mq_msgsize s) /\ mq_flags s' = <[q := fl]> (mq_flags s)) /\
  (forall x, ~ r <= x < r + width size * N -> bytes s' x = bytes s x).

Lemma queue_size_eq size N fl cur :
  0 <= size <= 111 -> 0 < N -> width size * N < 2147483648 -> queue_size (mkATTR N size fl cur) = width size * N.
Proof.
  intros Hs HN Hw. unfold queue_size. cbn [a_msgsize a_maxmsg].
  assert (E : i8 (size + sizeof_MSG_HDR) = width size)
    by (unfold i8, width, sizeof_MSG_HDR; rewrite Z.mod_small; lia).
  rewrite E. apply i32_id. unfold in_i32, INT_MIN, INT_MAX, width, sizeof_MSG_HDR in *. nia.
Qed.

Lemma sched_twice s σ σ' : s <| sched := σ |> <| sched := σ' |> = s <| sched := σ' |>.
Proof. by destruct s. Qed.

Lemma init_sync_spec s q c k :
  runs_with (sched s) c k ->
  exists σ, init_sync q s = Done tt (s <| sched := σ |>) /\ mutex σ (PqMutex q) 1 /\ condition σ (PqEmp q) /\
    condition σ (PqFull q) /\ runs_with σ c k /\
    (forall x, x <> PqMutex q -> x <> PqEmp q -> x <> PqFull q -> sem_same (sched s) σ x).
Proof.
  intros Hc. unfold init_sync, schd. run_m.
  destruct (sem_init_spec (sched s) (PqEmp q) 0 BIN_SEM c k) as (σ1 & E1 & Hc1 & I1 & F1); [by right|done|].
  rewrite (lift_done _ _ _ _ _ E1). cbn [bind_out]. set (s2 := s <| sched := σ1 |>).
  destruct (sem_init_spec (sched s2) (PqFull q) 0 BIN_SEM c k) as (σ2 & E2 & Hc2 & I2 & F2); [by right|done|].
  rewrite (lift_done _ _ _ _ _ E2). cbn [bind_out]. set (s3 := s2 <| sched := σ2 |>).
  destruct (sem_init_spec (sched s3) (PqMutex q) 1 RES_SEM c k) as (σ3 & E3 & Hc3 & I3 & F3); [by left|done|].
  rewrite (lift_done _ _ _ _ _ E3). unfold s3, s2 in *. state_simpl_in F2. state_simpl_in F3. rewrite !sched_twice.
  exists σ3. split_and!; [done|exact I3| | |done|].
  - apply (condition_same σ2); [by apply F3|]. by apply (condition_same σ1); [apply F2|].
  - by apply (condition_same σ2); [apply F3|].
  - intros x X1 X2 X3. destruct (F1 x X2) as (A1 & A2 & A3 & A4 & A5 & A6).
    destruct (F2 x X3) as (B1 & B2 & B3 & B4 & B5 & B6). destruct (F3 x X1) as (C1 & C2 & C3 & C4 & C5 & C6).
    unfold sem_same. by rewrite C1, C2, C3, C4, C5, C6, B1, B2, B3, B4, B5, B6, A1, A2, A3, A4, A5, A6.
Qed.

Lemma initialise_queue_spec s q :
  let base := pq_base s q in let size := mq_msgsize s q in let N := mq_maxmsg s q in
  Pqueue.params_ok base size N -> exists m, initialise_queue q s = Done tt (s <| bytes := m |>) /\
    free_ok base size N m [] /\ (forall x, ~ in_pool s q x -> m x = bytes s x).
Proof.
  intros base size N Hp. pose proof Hp as (Hs & HN & Hb & Hr).
  assert (Ew : i8 (size + sizeof_MSG_HDR) = width size)
    by (unfold i8, width, sizeof_MSG_HDR; rewrite Z.mod_small; lia).
  assert (Hw : 16 <= width size) by (unfold width, sizeof_MSG_HDR; lia).
  assert (HNb : u32 N = N) by (unfold u32; rewrite Z.mod_small; nia).
  unfold initialise_queue. run_m. fold base size N. rewrite (proj2 (Z.eqb_neq base 0)), Ew, HNb by lia.
  destruct (init_slots_spec (Z.to_nat N) (width size) base s Hw) as (m & -> & Hm1 & Hm2).
  rewrite Z2Nat.id in Hm1, Hm2 by lia. exists m. split_and!; [done| |done].
  intros a (i & Hi & ->) _. unfold slot. rewrite <- (Z.add_0_r (base + width size * i)) at 1.
  rewrite !Hm1 by lia. unfold MQ_PRIO_MAX. lia.
Qed.

(** The new descriptor. *)
Lemma init_descr_spec s c k q name perms N size fl cur r :
  runs_with (sched s) c k -> 0 <= size <= 111 -> 0 < N -> 0 < r -> r + width size * N <= 4294967296 ->
  queue_type s = POSIX ->
  exists s', init_descr q r name perms (mkATTR N size fl cur) s = Done tt s' /\
    pool_ok s' q [] /\ mutex (sched s') (PqMutex q) 1 /\ condition (sched s') (PqEmp q) /\
    condition (sched s') (PqFull q) /\ runs_with (sched s') c k /\
    (forall x, x <> PqMutex q -> x <> PqEmp q -> x <> PqFull q -> sem_same (sched s) (sched s') x) /\
    exists m σ, s' = s <| pq_base ::= <[q := r]> |> <| owner ::= <[q := c]> |> <| open_count ::= <[q := 0]> |>
      <| q_name ::= <[q := name]> |> <| q_id ::= <[q := q + 1]> |> <| marked_for_deletion ::= <[q := false]> |>
      <| pq_tail ::= <[q := r]> |> <| pq_head ::= <[q := r]> |> <| mq_maxmsg ::= <[q := N]> |>
      <| mq_msgsize ::= <[q := size]> |> <| mq_flags ::= <[q := fl]> |> <| mq_curmsgs ::= <[q := 0]> |>
      <| permissions ::= <[q := perms]> |> <| sched := σ |> <| bytes := m |> /\
      (forall x, ~ r <= x < r + width size * N -> m x = bytes s x).
Proof.
  intros Hc Hs HN Hr Hre Ht. unfold init_descr. run_m.
  assert (Ec : rt_whoami (sched s) = c) by apply Hc. rewrite Ec. cbn [a_maxmsg a_msgsize a_flags].
  match goal with |- context [init_sync q ?st] => set (s1 := st) end.
  destruct (init_sync_spec s1 q c k) as (σ & -> & Hm & He & Hf & Hc' & Hx); [unfold s1; by state_simpl|].
  cbn [bind_out]. assert (Hpar : Pqueue.params_ok r size N) by (unfold Pqueue.params_ok; lia).
  destruct (initialise_queue_spec (s1 <| sched := σ |>) q) as (m & -> & Hfree & Hout);
    unfold s1; state_simpl; rewrite ?upd_eq; [done|].
  unfold s1 in Hfree. state_simpl_in Hfree. rewrite !upd_eq in Hfree.
  unfold s1, in_pool in Hout. state_simpl_in Hout. rewrite !upd_eq in Hout.
  eexists. split; [reflexivity|]. state_simpl. split_and!; [|done..| |by exists m, σ].
  - unfold pool_ok. state_simpl. rewrite !upd_eq. split_and!; [done..|].
    exists []. split_and!; [done|done|by apply msgs_ok_nil|done].
  - intros x X1 X2 X3. specialize (Hx x X1 X2 X3). unfold s1 in Hx. by state_simpl_in Hx.
Qed.

Lemma spare_descr_range n s i q : spare_descr n s i = Some q -> i <= q < i + Z.of_nat n /\ q_id s q = INVALID_PQUEUE.
Proof.
  revert i. induction n as [|n IH]; intros i; cbn [spare_descr]; [done|].
  destruct (Z.eqb_spec (q_id s i) INVALID_PQUEUE) as [E|E]; [intros [= <-]; by split; [lia|]|].
  intros H. destruct (IH _ H). by split; [lia|].
Qed.

Lemma create_queue_spec s c p k q name N size fl cur cs cs' r oflags perms :
  can_create s c p k q name N size cs cs' r -> runs_with (sched s) c 1 ->
  exists s', create_queue c (system_data_ptr s c) p name oflags perms (Some (mkATTR N size fl cur)) s = Done (inl q) s' /\
    created s c p k q name oflags perms N size fl r cs' s' /\ open_count s' q = 0 /\
    mutex (sched s') (PqMutex q) 1 /\ condition (sched s') (PqEmp q) /\ condition (sched s') (PqFull q) /\
    runs_with (sched s') c 1 /\ sem_same (sched s) (sched s') pqueue_mutex.
Proof.
  intros [(Hz & Hzp & Hp) (Hk & Hk8) (Hlen & _) (Hn & Hq) (Hs & HN & Hw) Ht (Hh & Hff & Hgr) (Hr & Hre)] Hc.
  unfold create_queue. run_m. rewrite !Z.geb_leb, (proj2 (Z.leb_gt _ _) Hn), (proj2 (Z.leb_gt _ _) Hlen).
  rewrite (proj2 (nz_true p) Hp), Hk, (proj2 (Z.leb_gt _ _)) by lia. rewrite (proj2 (Z.eqb_neq p 0) Hp). run_m.
  rewrite Hq, queue_size_eq by done.
  assert (Eu : u32 (width size * N) = width size * N).
  { unfold u32. apply Z.mod_small. unfold width, sizeof_MSG_HDR in *. nia. }
  pose proof (rt_malloc_fits (heap s) cs (width size * N) Hh) as Hm.
  rewrite Z.gtb_ltb, (proj2 (Z.ltb_ge _ _)), Hff in Hm by done.
  destruct Hm as (h & Em & Hh'); [unfold width, sizeof_MSG_HDR in *; nia|lia|].
  unfold hp. run_m. rewrite Eu, (lift_done _ _ _ _ _ Em). cbn [bind_out]. rewrite (proj2 (Z.eqb_neq r 0)) by lia. run_m.
  destruct (init_descr_spec (s <| heap := h |>) c 1 q name perms N size fl cur r)
    as (s1 & -> & Hpool & Hm & He & Hf & Hc1 & Hx & m & σ & E1 & Hout); [by state_simpl|done..|by state_simpl|].
  cbn [bind_out]. unfold record_access, count_open. run_m.
  eexists. split; [reflexivity|]. unfold created. rewrite E1 in *. state_simpl. rewrite Hk, !upd_eq.
  state_simpl_in Hm. state_simpl_in He. state_simpl_in Hf. state_simpl_in Hc1. state_simpl_in Hx. state_simpl_in Hout.
  split_and!; [|done..|by apply Hx].
  unfold pool_ok in *. by state_simpl.
Qed.

Lemma can_create_sched s c p k q name N size cs cs' r σ :
  can_create s c p k q name N size cs cs' r -> can_create (s <| sched := σ |>) c p k q name N size cs cs' r.
Proof. intros [H1 H2 H3 H4 H5 H6 H7 H8]. by split. Qed.

Lemma mq_open_spec s c p k q name N size fl cur cs cs' r oflags perms :
  can_create s c p k q name N size cs cs' r -> mutex (sched s) pqueue_mutex 1 -> runs_with (sched s) c 0 ->
  has oflags O_CREAT = true ->
  exists s', mq_open name oflags perms (Some (mkATTR N size fl cur)) s = Done (q + 1) s' /\
    created s c p k q name oflags perms N size fl r cs' s' /\ open_count s' q = 1 /\ mutex_ok (sched s') q c 0 /\
    mutex (sched s') pqueue_mutex 1.
Proof.
  intros Hcan Hm Hc Hfl. pose proof Hcan as [(Hz & Hzp & Hp) _ (_ & Hname) _ _ _ _ _].
  assert (Ec : rt_whoami (sched s) = c) by apply Hc.
  unfold mq_open, init_z_apps, all_lock, all_unlock. run_m. rewrite Ec, (proj2 (Z.eqb_neq _ 0) Hz). run_m. rewrite Hzp.
  destruct (lock_eq s pqueue_mutex c 0 Hm Hc) as (σ1 & -> & Hm1 & Hc1 & HF1); [lia|]. cbn [bind_out].
  change (name_to_id (s <| sched := σ1 |>) name) with (name_to_id s name).
  rewrite (name_to_id_none s name Hname). cbn [Z.geb Z.compare ERROR]. rewrite Hfl.
  destruct (create_queue_spec (s <| sched := σ1 |>) c p k q name N size fl cur cs cs' r oflags perms)
    as (s1 & E & Hcr & Ho & Hq & He & Hf & Hc2 & Hx); [by apply can_create_sched|done|].
  state_simpl_in E. rewrite E. run_m. rewrite Ho. change (i32 (0 + 1)) with 1.
  match goal with |- context [schd (rt_sem_signal pqueue_mutex) ?st] => set (s2 := st) end.
  destruct (unlock_eq s2 pqueue_mutex c 0) as (σ3 & -> & Hm3 & Hc3 & HF3); unfold s2; state_simpl;
    [by apply (mutex_same σ1)|done|lia|].
  unfold s2 in HF3. state_simpl_in HF3. cbn [bind_out]. state_simpl.
  destruct Hcr as (C1 & C2 & C3 & C4 & C5 & C6 & C7 & C8 & C9 & C10 & (C11 & C12 & C13 & C14) & C15). rewrite C4. state_simpl. rewrite upd_eq.
  eexists. split; [reflexivity|]. split; [unfold created; state_simpl; by split_and!|].
  state_simpl. rewrite upd_eq. split_and!; [done| |exact Hm3].
  split; [by apply (mutex_frame _ _ _ _ _ HF3)|by apply (condition_frame _ _ _ _ HF3)..|done].
Qed.

(** The block of a queue among the others. *)
Lemma new_block_apart h n cs r cs' (P : Prop) :
  heap_ok h cs' -> first_fit (round_size n) cs = (r, cs') -> 0 < r -> 0 <= n -> n + 15 < 4294967296 -> P ->
  let blk := (r - sizeof_blkhdr, round_size n) in
  n <= blk.2 /\ blocks_in_use cs' ≡ₚ blk :: blocks_in_use cs /\
  (forall b, b ∈ all_blocks cs' -> b <> blk -> apart blk b) /\ P.
Proof.
  intros Hh Hf Hr Hn Hn' HP blk. pose proof (first_fit_in_use _ _ _ _ Hf ltac:(lia)) as Hu. fold blk in Hu.
  split; [apply round_size_spec; lia|]. split; [exact Hu|]. split; [|exact HP]. intros b Hb Hne.
  assert (Hin : blk ∈ all_blocks cs').
  { apply in_use_block. rewrite Hu. by left. }
  destruct (blocks_apart h cs' blk b Hh Hin Hb); [congruence|done].
Qed.

(** The entry of a queue in a table. *)
Lemma access_loop_first n s p id i j :
  i <= j < i + Z.of_nat n -> access_id s (p, j) = id -> (forall x, i <= x < j -> access_id s (p, x) <> id) ->
  access_loop n s p id i = j.
Proof.
  revert i. induction n as [|n IH]; intros i Hj E Hx; [lia|]. cbn [access_loop].
  destruct (decide (i = j)) as [->|Hij]; [by rewrite E, Z.eqb_refl|].
  rewrite (proj2 (Z.eqb_neq _ _)) by (apply Hx; lia). apply IH; [lia|done|]. intros x Hx'. apply Hx. lia.
Qed.

Lemma access_loop_none n s p id i :
  (forall x, i <= x < i + Z.of_nat n -> access_id s (p, x) <> id) -> access_loop n s p id i = i + Z.of_nat n.
Proof.
  revert i. induction n as [|n IH]; intros i Hx; cbn [access_loop]; [lia|].
  rewrite (proj2 (Z.eqb_neq _ _)) by (apply Hx; lia). rewrite IH; [lia|]. intros x Hx'. apply Hx. lia.
Qed.
End Create.

(** C23: [mq_open] with [O_CREAT] and a new name makes an empty queue with the
    attributes asked for.  Its slots are the data of a block of the memory
    manager, the one block more that is in use, which is large enough for them
    and overlaps no other block, in use or free; no other byte is written.  The
    queue is entered in the table of the task, which can use it as it asked to. *)
Theorem mq_open_creates s c p k q name N size fl cur cs cs' r oflags perms :
  can_create s c p k q name N size cs cs' r -> mutex (sched s) pqueue_mutex 1 -> runs_with (sched s) c 0 ->
  has oflags O_CREAT = true -> has oflags O_RDWR = true -> has oflags O_NONBLOCK = true ->
  has perms S_IRUSR = true -> has perms S_IWUSR = true ->
  (forall i, 0 <= i < k -> access_id s (p, i) <> q + 1) ->
  exists s', mq_open name oflags perms (Some (mkATTR N size fl cur)) s = Done (q + 1) s' /\
    mq_ready s' q c [] /\ q_name s' q = name /\ open_count s' q = 1 /\
    (mq_maxmsg s' q = N /\ mq_msgsize s' q = size /\ mq_flags s' q = fl) /\
    heap_ok (heap s') cs' /\
    (let blk := (pq_base s' q - sizeof_blkhdr, round_size (width size * N)) in
     width size * N <= blk.2 /\ blocks_in_use cs' ≡ₚ blk :: blocks_in_use cs /\
     (forall b, b ∈ all_blocks cs' -> b <> blk -> apart blk b) /\
     (forall x, ~ in_pool s' q x -> bytes s' x = bytes s x)).
Proof.
  intros Hcan Hm Hc F1 F2 F3 P1 P2 Hi.
  destruct (mq_open_spec s c p k q name N size fl cur cs cs' r oflags perms Hcan Hm Hc F1)
    as (s' & E & (C1 & C2 & C3 & C4 & C5 & C6 & C7 & C8 & C9 & C10 & (C11 & C12 & C13 & C14) & C15) & Ho & Hmo & _).
  destruct Hcan as [(Hz & Hzp & Hp) (Hk & Hk8) _ _ (Hs & HN & Hw) _ (_ & Hff & _) (Hr & _)].
  assert (Ef : find_access s' p (q + 1) = k).
  { apply access_loop_first; [change (Z.of_nat (Z.to_nat MQ_OPEN_MAX)) with MQ_OPEN_MAX; lia|rewrite C5; apply upd_eq|].
    intros x Hx. rewrite C5, upd_ne by (injection; lia). by apply Hi. }
  assert (Ec : rt_whoami (sched s') = c) by apply Hmo.
  assert (Et : task_pqueues s' c = Some p) by (unfold task_pqueues; by rewrite C7, C8, (proj2 (Z.eqb_neq _ 0) Hz), Hzp).
  exists s'. split; [done|]. split; [|split; [rewrite C9; apply upd_eq|split; [done|split; [rewrite C12, C13, C14, !upd_eq; done|split; [done|]]]]].
  2:{ unfold in_pool. rewrite C11, C12, C13, !upd_eq. apply (new_block_apart (heap s')); [done|done|done|unfold width, sizeof_MSG_HDR in *; nia|lia|done]. }
  split; [done|done| |].
  - intros acc. unfold can_access, permitted. rewrite Ec, C2, C3, upd_eq, Z.eqb_refl, upd_eq.
    assert (Ea : match acc with FOR_READ => has perms S_IRUSR | FOR_WRITE => has perms S_IWUSR end = true)
      by (by destruct acc). rewrite Ea, Et. cbn [mbind option_bind].
    rewrite (proj2 (Z.eqb_neq p 0) Hp), C4, upd_eq, Ef, (proj2 (Z.eqb_neq k _)), C6, upd_eq, F2 by lia.
    destruct acc; [done|]. by rewrite orb_true_r.
  - unfold is_blocking. rewrite Ec, Et. cbn [mbind option_bind].
    by rewrite (proj2 (Z.eqb_neq p 0) Hp), C4, upd_eq, Ef, (proj2 (Z.eqb_neq k _)), C6, upd_eq, F3 by lia.
Qed.

(** [mq_open] enters a new queue at the index that is the number of open
    queues, which is not that of a free entry if a queue was closed before:
    the task loses the queue that is there, which it has not closed. *)
Theorem mq_open_drops_access s c p k q name N size fl cur cs cs' r oflags perms q' id :
  can_create s c p k q name N size cs cs' r -> mutex (sched s) pqueue_mutex 1 -> runs_with (sched s) c 0 ->
  has oflags O_CREAT = true ->
  q' <> q -> q_id s q' = id -> id <> q + 1 -> access_id s (p, k) = id ->
  (forall i, 0 <= i < MQ_OPEN_MAX -> access_id s (p, i) = id -> i = k) ->
  exists s', mq_open name oflags perms (Some (mkATTR N size fl cur)) s = Done (q + 1) s' /\
    q_id s' q' = id /\ (forall acc, can_access s' q' acc = Some false).
Proof.
  intros Hcan Hm Hc F1 Hq Hid Hne Hk1 Hi.
  destruct (mq_open_spec s c p k q name N size fl cur cs cs' r oflags perms Hcan Hm Hc F1)
    as (s' & E & (C1 & C2 & C3 & C4 & C5 & C6 & C7 & C8 & _) & Ho & Hmo & _).
  destruct Hcan as [(Hz & Hzp & Hp) (Hk & Hk8) _ _ _ _ _ _].
  assert (Ef : find_access s' p id = MQ_OPEN_MAX).
  { apply (access_loop_none (Z.to_nat MQ_OPEN_MAX)). intros x Hx.
    change (0 + Z.of_nat (Z.to_nat MQ_OPEN_MAX)) with MQ_OPEN_MAX in Hx. rewrite C5, upd_dec.
    case_decide as Ex; [congruence|]. intros Hx'. apply Ex. by rewrite (Hi x Hx Hx'). }
  exists s'. split_and!; [done|by rewrite C4, upd_ne|]. intros acc. unfold can_access.
  destruct (permitted s' q' acc); [|done]. assert (Ec : rt_whoami (sched s') = c) by apply Hmo. rewrite Ec.
  unfold task_pqueues. rewrite C7, C8, (proj2 (Z.eqb_neq _ 0) Hz), Hzp. cbn [mbind option_bind].
  by rewrite (proj2 (Z.eqb_neq p 0) Hp), C4, upd_ne, Hid, Ef, Z.eqb_refl by done.
Qed.

(** A task that receives from an empty queue which it opened to wait
    releases the mutex, so that others can send, leaves the ready list, waits
    for the condition that the queue is not empty, and loses the processor as
    soon as the scheduler takes it away. *)
Theorem mq_receive_waits s q c buf buflen pp l1 l2 :
  0 <= q < MAX_PQUEUES -> can_access s q FOR_READ = Some true -> is_blocking s q = Some true ->
  mq_curmsgs s q = 0 -> mutex_ok (sched s) q c 0 -> sem_count (sched s) (PqEmp q) = 0 ->
  ready_list (sched s) (l1 ++ c :: l2) -> is_hard (sched s) c <> 0 -> q_task (sched s) (Queue c) = c ->
  exists σ, sem_count σ (PqMutex q) = 1 /\ wait_queue σ (SemQueue (PqEmp q)) [c] /\ sem_count σ (PqEmp q) = -1 /\
    state σ c = Z.lor (state (sched s) c) SEMAPHORE /\ ready_list σ (l1 ++ l2) /\
    (forall σ' k, rt_schedule σ = Switch σ' k ->
       exists k', mq_receive (q + 1) buf buflen pp s = Switch (s <| sched := σ' |>) k').
Proof.
  intros Hq Ha Hb Hcur Hmo Hcnt Hr Hh Htt. destruct (valid_mq_eq q Hq) as [Ev Ei].
  unfold mq_receive, receive_with. rewrite Ev, Ei. run_m. rewrite Ha. run_m.
  pose proof Hmo as [Hm He _ Ht]. unfold pq_lock. run_m.
  destruct (lock_eq s (PqMutex q) c 0 Hm Ht) as (σ1 & -> & Hm1 & Hc1 & HF1); [lia|]. cbn [bind_out].
  unfold SCHED_FUEL. cbn [wait_while]. run_m. unfold is_empty. state_simpl. rewrite Hcur.
  rewrite (is_blocking_same s) by (apply kept_sched; by rewrite (proj1 Hc1), (proj1 Ht)). rewrite Hb. cbn [Z.eqb]. run_m.
  destruct (mutex_unlock σ1 (PqMutex q) c 1 Hm1 Hc1) as (σ2 & E2 & Hm2 & Hc2 & HF2); [lia|].
  assert (HT : tasks_same (sched s) σ2) by (apply (tasks_same_trans _ σ1); [apply HF1|apply HF2]).
  assert (He2 : condition σ2 (PqEmp q)) by (by apply (condition_frame _ _ _ _ HF2), (condition_frame _ _ _ _ HF1)).
  assert (Hn2 : sem_count σ2 (PqEmp q) = 0).
  { destruct HF2 as (_ & _ & _ & _ & _ & Ec2 & _), HF1 as (_ & _ & _ & _ & _ & Ec1 & _). by rewrite Ec2, Ec1. }
  assert (Hq2 : q_task σ2 = q_task (sched s)).
  { destruct HF2 as (_ & _ & _ & _ & Eq2 & _), HF1 as (_ & _ & _ & _ & Eq1 & _). by rewrite Eq2, Eq1. }
  destruct HT as (T1 & T2 & T3 & T4 & T5). destruct He2 as ((U1 & U2 & U3) & Hty & _).
  destruct (rt_sem_wait_blocks σ2 c (PqEmp q) l1 l2 []) as (σ & Ek & (P & Nx & QP & QN & F) & R & W);
    [by rewrite (proj1 Hc2)|done|rewrite Hn2; unfold in_i32, INT_MIN, INT_MAX; lia|lia|lia
    |unfold ready_list; by rewrite T4, T5|by rewrite T3|done|fits_eval|by apply not_elem_of_nil|by rewrite Hq2|].
  assert (W' : wait_queue σ (SemQueue (PqEmp q)) [c])
    by (unfold insert_blocked in W; by destruct (nz (sem_qtype σ2 (PqEmp q)))).
  exists σ. split_and!; [|exact W'| | |exact R|].
  - rewrite F. state_simpl. rewrite upd_ne by done. apply Hm2.
  - rewrite F. state_simpl. by rewrite upd_eq, Hn2.
  - rewrite F. state_simpl. by rewrite upd_eq, T1.
  - intros σ' k' Esw. unfold cond_wait, schd. unfold rt_cond_wait.
    eexists. unfold mbind, M_bind, mret, M_ret. unfold lift. state_simpl. rewrite E2. cbn [bind_out].
    rewrite Ek. unfold mbind, M_bind. rewrite Esw. cbn [bind_out lift_out]. rewrite sched_twice. reflexivity.
Qed.

(** * A queue that can be used *)

(** The task 48 runs, and shares the ready list with Linux. *)
Definition demo_sched : RTAI :=
  rtai_zero <| rt_smp_current := 48 |> <| sem_magic := fun _ => RT_SEM_MAGIC |>
    <| sem_type := fun x => match x with PqEmp _ | PqFull _ => -1 | _ => 1 end |>
    <| sem_count := fun x => match x with PqEmp _ | PqFull _ => 0 | _ => 1 end |>
    <| q_next := fun q => q |> <| q_prev := fun q => q |>
    <| q_task := fun q => match q with Queue t => t | _ => 0 end |>
    <| rnext := fun t => if t =? 16 then 48 else 16 |> <| rprev := fun t => if t =? 16 then 48 else 16 |>
    <| is_hard := fun _ => 1 |>.

(** A task whose table of queues is at the address of [task_pqueue_access]. *)
Definition demo_table (h : MEM) : PQUEUES :=
  pqueues_zero h demo_sched <| system_data_ptr ::= <[48 := 1024]> |>
    <| z_pqueues ::= <[1024 := task_pqueue_access]> |>.

(** It made a queue of 2 messages of 4 bytes, and has it open. *)
Definition demo_queue (h : MEM) (oflags : Z) : PQUEUES :=
  demo_table h <| owner ::= <[0 := 48]> |> <| permissions ::= <[0 := 384]> |> <| q_id ::= <[0 := 1]> |>
    <| q_name ::= <[0 := "a"%string]> |> <| open_count ::= <[0 := 1]> |> <| num_pqueues := 1 |>
    <| access_id ::= <[(task_pqueue_access, 0) := 1]> |>
    <| access_oflags ::= <[(task_pqueue_access, 0) := oflags]> |>
    <| n_open_pqueues ::= <[task_pqueue_access := 1]> |>
    <| pq_base ::= <[0 := 65536]> |> <| pq_head ::= <[0 := 65536]> |> <| pq_tail ::= <[0 := 65536]> |>
    <| mq_maxmsg ::= <[0 := 2]> |> <| mq_msgsize ::= <[0 := 4]> |>.

Lemma demo_unwaited sem : unwaited demo_sched sem.
Proof. by apply unwaited_iff. Defined.

Lemma demo_mutex sem : (forall q, sem <> PqEmp q /\ sem <> PqFull q) -> mutex demo_sched sem 1.
Proof.
  intros H. split; [apply demo_unwaited|]. unfold demo_sched. state_simpl.
  destruct sem; try done; exfalso; naive_solver.
Defined.

Lemma demo_runs : runs_with demo_sched 48 0.
Proof. done. Defined.

Lemma demo_sync q : mutex_ok demo_sched q 48 0.
Proof. split; [by apply demo_mutex|split; [apply demo_unwaited|done]..|exact demo_runs]. Defined.

Lemma demo_mq_ready : mq_ready (demo_queue heap_ex1 (Z.lor O_RDWR O_NONBLOCK)) 0 48 [].
Proof.
  split; [|apply demo_sync|by intros []|done]. unfold pool_ok.
  split_and!; [unfold Pqueue.params_ok, width, sizeof_MSG_HDR; vm_compute; naive_solver|done|].
  exists []. split_and!; [done|done|by apply msgs_ok_nil|]. intros a _ _. by split_and!.
Defined.

(** Two messages are sent and received, the one of higher priority first. *)
Definition demo_calls : list mq_call :=
  [Send 100 3 1 None; Send 200 4 5 (Some 7); Receive 300 4 400 None; Receive 300 4 400 (Some 7);
   Receive 300 4 400 None].

Lemma mq_refines_witness :
  exists os s' B', do_calls (0 + 1) demo_calls (demo_queue heap_ex1 (Z.lor O_RDWR O_NONBLOCK)) = Done os s' /\
    explains 2 4 [] os B' /\ mq_ready s' 0 48 B'.
Proof.
  apply (mq_refines 0 48 demo_calls (demo_queue heap_ex1 (Z.lor O_RDWR O_NONBLOCK)) []);
    [exact demo_mq_ready|unfold MAX_PQUEUES; lia|].
  unfold demo_calls, call_ok, buffers_ok, out_of_pool, in_pool, apart_mem.
  change (pq_base _ _) with 65536. change (mq_msgsize _ _) with 4. change (mq_maxmsg _ _) with 2.
  repeat constructor; lia.
Defined.

Lemma mq_send_too_big_witness :
  exists s', mq_send (0 + 1) 100 5 1 (demo_queue heap_ex1 (Z.lor O_RDWR O_NONBLOCK)) = Done (- EMSGSIZE) s' /\
    mq_curmsgs s' 0 = 1 /\ pq_head s' 0 = 65536 /\ pq_tail s' 0 = 65536 /\
    (@nil (Z * list Z) = [] -> exists p0, mq_ready s' 0 48 [(p0, [])]).
Proof.
  apply (mq_send_too_big 0 48 (demo_queue heap_ex1 (Z.lor O_RDWR O_NONBLOCK)) [] 100 5 1);
    [exact demo_mq_ready|unfold MAX_PQUEUES; lia|reflexivity|reflexivity|unfold MQ_PRIO_MAX; lia].
Defined.

Lemma mq_notify_refused_witness :
  exists s', mq_notify (0 + 1) (Some 7) (demo_queue heap_ex1 O_RDWR) = Done ERROR s' /\
    notify_task s' = notify_task (demo_queue heap_ex1 O_RDWR) /\
    notify_data s' = notify_data (demo_queue heap_ex1 O_RDWR) /\
    sync_same demo_sched (sched s') /\ runs_with (sched s') 48 0.
Proof.
  apply (mq_notify_refused 0 48 0 (demo_queue heap_ex1 O_RDWR) (Some 7));
    [unfold MAX_PQUEUES; lia|by apply demo_mutex|exact demo_runs|lia|lia|reflexivity].
Defined.

Lemma mq_unlink_open_witness :
  exists s', mq_unlink "a" (demo_queue heap_ex1 O_RDWR) = Done 1 s' /\
    name_to_id s' "a" = ERROR /\ marked_for_deletion s' 0 = true /\
    open_count s' = open_count (demo_queue heap_ex1 O_RDWR) /\ sync_same demo_sched (sched s') /\
    (forall B, mq_ready (demo_queue heap_ex1 O_RDWR) 0 48 B -> mq_ready s' 0 48 B).
Proof.
  apply (mq_unlink_open 0 48 (demo_queue heap_ex1 O_RDWR) "a");
    [reflexivity|lia| |reflexivity|by apply demo_mutex..|exact demo_runs].
  intros j Hj. unfold demo_queue, demo_table. state_simpl. rewrite upd_dec. by case_decide.
Defined.

(** The block of a new queue, and the chunk after. *)
Definition demo_chunk : chunkv := Chunk 4096 [(4176, 160)] [(4112, 48)].

Lemma demo_fit :
  first_fit (round_size (width 4 * 2)) [new_chunk 256 4096] = (4128, [demo_chunk]) /\
  round_size (width 4 * 2) <= granularity heap_ex0 - OVERHEAD.
Proof. split; [vm_compute; reflexivity|vm_compute; done]. Defined.

Lemma mq_open_creates_witness :
  exists s', mq_open "b" (O_RDWR + O_CREAT + O_NONBLOCK) 384 (Some (mkATTR 2 4 0 0)) (demo_table heap_ex0) =
      Done (0 + 1) s' /\ mq_ready s' 0 48 [] /\ q_name s' 0 = "b"%string /\ open_count s' 0 = 1 /\
    (mq_maxmsg s' 0 = 2 /\ mq_msgsize s' 0 = 4 /\ mq_flags s' 0 = 0) /\ heap_ok (heap s') [demo_chunk] /\
    (let blk := (pq_base s' 0 - sizeof_blkhdr, round_size (width 4 * 2)) in
     width 4 * 2 <= blk.2 /\ blocks_in_use [demo_chunk] ≡ₚ blk :: blocks_in_use [new_chunk 256 4096] /\
     (forall b, b ∈ all_blocks [demo_chunk] -> b <> blk -> apart blk b) /\
     (forall x, ~ in_pool s' 0 x -> bytes s' x = bytes (demo_table heap_ex0) x)).
Proof.
  apply (mq_open_creates (demo_table heap_ex0) 48 task_pqueue_access 0 0 "b" 2 4 0 0
           [new_chunk 256 4096] [demo_chunk] 4128);
    [|by apply demo_mutex|exact demo_runs|reflexivity..|done].
  split; [done|done|done|done|unfold width, sizeof_MSG_HDR; lia|done|exact (conj heap_ex0_ok demo_fit)
    |unfold width, sizeof_MSG_HDR; lia].
Defined.

(** A task that opened two queues and closed the first. *)
Definition demo_closed : PQUEUES :=
  demo_table heap_ex0 <| q_id ::= <[1 := 2]> |> <| num_pqueues := 1 |>
    <| access_id ::= <[(task_pqueue_access, 1) := 2]> |> <| n_open_pqueues ::= <[task_pqueue_access := 1]> |>.

Lemma mq_open_drops_access_witness :
  exists s', mq_open "b" (O_RDWR + O_CREAT) 384 (Some (mkATTR 2 4 0 0)) demo_closed = Done (0 + 1) s' /\ q_id s' 1 = 2 /\ (forall acc, can_access s' 1 acc = Some false).
Proof.
  apply (mq_open_drops_access demo_closed 48 task_pqueue_access 1 0 "b" 2 4 0 0
           [new_chunk 256 4096] [demo_chunk] 4128 (O_RDWR + O_CREAT) 384 1 2);
    [|by apply demo_mutex|exact demo_runs|reflexivity|lia|reflexivity|lia|reflexivity|].
  - split; [done|done|done|done|unfold width, sizeof_MSG_HDR; lia|done|exact (conj heap_ex0_ok demo_fit)
      |unfold width, sizeof_MSG_HDR; lia].
  - intros i _. unfold demo_closed, demo_table. state_simpl. rewrite upd_dec. case_decide as E; [|done].
    by injection E.
Defined.

Lemma mq_receive_waits_witness :
  exists σ, sem_count σ (PqMutex 0) = 1 /\ wait_queue σ (SemQueue (PqEmp 0)) [48] /\ sem_count σ (PqEmp 0) = -1 /\ state σ 48 = Z.lor 0 SEMAPHORE /\ ready_list σ [] /\ (forall σ' k, rt_schedule σ = Switch σ' k ->
       exists k', mq_receive (0 + 1) 300 4 400 (demo_queue heap_ex1 O_RDWR) =
         Switch (demo_queue heap_ex1 O_RDWR <| sched := σ' |>) k').
Proof.
  apply (mq_receive_waits (demo_queue heap_ex1 O_RDWR) 0 48 300 4 400 [] []);
    [unfold MAX_PQUEUES; lia|reflexivity|reflexivity|reflexivity|apply demo_sync|reflexivity| |done|reflexivity].
  split; [split; [split; reflexivity|split; [split; reflexivity|done]]|].
  apply NoDup_cons. split; [set_solver|apply NoDup_singleton].
Defined.
