(* ===== verification/Tbx.v ===== *)
(** Tbx: typed mailboxes.

    [tbx/tbx.c]: mailboxes of messages with a type, which are sent to one
    task, to all waiting tasks ([TYPE_BROADCAST]) or ahead of the others
    ([TYPE_URGENT]).  A message is a byte with its type and its bytes, in a
    circular buffer; its length is not stored.  A message that is broadcast is
    copied to a second buffer, of which the byte of the type tells that a
    broadcast goes on.  Sending and receiving is one task at a time
    ([sndsmx], [rcvsmx]); one task waits for room or for a message
    ([waiting_task]).

    Buffers and messages are bytes of memory; the buffers come from the memory
    manager.  [TbxSpec] proves what the services promise. *)

From S2P Require Import Prelude Memory Resume DList SchedState SchedQueues Schedule SchedTask SchedSem MemMgr.

(** The fields of [struct rt_typed_mailbox], by address; the bytes of memory,
    the memory manager, the scheduler. *)
Record TBXS : Type := mkTBXS {
  tbx_magic : Z -> Z;
  tbx_waiting_nr : Z -> Z;
  tbx_waiting_task : Z -> Z;
  tbx_bufadr : Z -> Z;
  tbx_bcbadr : Z -> Z;
  tbx_size : Z -> Z;
  tbx_fbyte : Z -> Z;
  tbx_avbs : Z -> Z;
  tbx_frbs : Z -> Z;
  bytes : Z -> Z;
  heap : MEM;
  sched : RTAI
}.

#[export] Instance TBXS_eta : Eta TBXS := fun s =>
  mkTBXS (tbx_magic s) (tbx_waiting_nr s) (tbx_waiting_task s) (tbx_bufadr s) (tbx_bcbadr s)
    (tbx_size s) (tbx_fbyte s) (tbx_avbs s) (tbx_frbs s) (bytes s) (heap s) (sched s).

#[export] Instance set_tbx_magic : Setter tbx_magic := ltac:(mk_setter).
#[export] Instance set_tbx_waiting_nr : Setter tbx_waiting_nr := ltac:(mk_setter).
#[export] Instance set_tbx_waiting_task : Setter tbx_waiting_task := ltac:(mk_setter).
#[export] Instance set_tbx_bufadr : Setter tbx_bufadr := ltac:(mk_setter).
#[export] Instance set_tbx_bcbadr : Setter tbx_bcbadr := ltac:(mk_setter).
#[export] Instance set_tbx_size : Setter tbx_size := ltac:(mk_setter).
#[export] Instance set_tbx_fbyte : Setter tbx_fbyte := ltac:(mk_setter).
#[export] Instance set_tbx_avbs : Setter tbx_avbs := ltac:(mk_setter).
#[export] Instance set_tbx_frbs : Setter tbx_frbs := ltac:(mk_setter).
#[export] Instance set_tbx_bytes : Setter bytes := ltac:(mk_setter).
#[export] Instance set_tbx_heap : Setter heap := ltac:(mk_setter).
#[export] Instance set_tbx_sched : Setter sched := ltac:(mk_setter).

Abbreviation T A := (M TBXS A).

Definition schd {A} (m : K A) : T A := lift sched m.
Definition hp {A} (m : MM A) : T A := lift heap m.

Definition tbxs_zero (heap_ : MEM) (sched_ : RTAI) : TBXS :=
  mkTBXS (fun _ => 0) (fun _ => 0) (fun _ => 0) (fun _ => 0) (fun _ => 0) (fun _ => 0) (fun _ => 0)
    (fun _ => 0) (fun _ => 0) (fun _ => 0) heap_ sched_.

Definition RT_TBX_MAGIC : Z := 1855171915. (* 0x6e93ad4b *)
Definition TYPE_NONE : Z := 0.
Definition TYPE_NORMAL : Z := 1.
Definition TYPE_BROADCAST : Z := 2.
Definition TYPE_URGENT : Z := 4.
Definition EMSGSIZE : Z := 90.

(** The embedded semaphores. *)
Definition sndsmx (tbx : Z) : semp := TbxSnd tbx.
Definition rcvsmx (tbx : Z) : semp := TbxRcv tbx.
Definition bcbsmx (tbx : Z) : semp := TbxBcb tbx.

(** [CHK_TBX_MAGIC] *)
Definition CHK_TBX_MAGIC (tbx : Z) {A} (bad : A) (m : T A) : T A :=
  s ← get;
  if negb (tbx_magic s tbx =? RT_TBX_MAGIC) then mret bad else m.

Definition TBX_MOD_SIZE (s : TBXS) (tbx indx : Z) : Z :=
  if indx <? tbx_size s tbx then indx else indx - tbx_size s tbx.

Definition TBX_REVERSE_MOD_SIZE (s : TBXS) (tbx indx : Z) : Z :=
  if indx >=? 0 then indx else tbx_size s tbx + indx.

(** Writes of bytes: [*(adr) = b], [memcpy], [memset(adr, 0, n)]. *)
Definition poke (a b : Z) : T unit := modify (fun s => s <| bytes ::= <[a := b]> |>).
Definition memcpy (dst src n : Z) : T unit :=
  if n <? 0 then stuck else modify (fun s => s <| bytes ::= fun m => copied m dst src n |>).
Definition memset_0 (a n : Z) : T unit :=
  modify (fun s => s <| bytes ::= fun m x => if (a <=? x) && (x <? a + n) then 0 else m x |>).

(** [tbx->waiting_nr += d;] *)
Definition count_waiting (tbx d : Z) : T unit :=
  s ← get;
  wr tbx_waiting_nr tbx (i32 (tbx_waiting_nr s tbx + d)).

(** Whether [task->blocked_on] is not null. *)
Definition is_blocked (s : TBXS) (task : Z) : bool :=
  negb (bool_decide (blocked_on (sched s) task = QNull)).

(** * One task at a time *)

Definition tbx_smx_signal (tbx : Z) (smx : semp) : T unit :=
  s ← get;
  let task := q_task (sched s) (q_next (sched s) (SemQueue smx)) in
  if nz task then
    count_waiting tbx (-1);;
    schd (dequeue_blocked task);;
    schd (rem_timed_task task);;
    s ← get;
    schd (wr state task (clr (state (sched s) task) (Z.lor SEMAPHORE DELAYED)));;
    s ← get;
    when (state (sched s) task =? READY) (schd (enq_ready_task task);; schd rt_schedule)
  else schd (wr sem_count smx 1).

(** The result is whether the task is still queued. *)
Definition tbx_smx_wait (tbx : Z) (smx : semp) (rt_current : Z) : T bool :=
  s ← get;
  (if negb (nz (sem_count (sched s) smx)) then
     count_waiting tbx 1;;
     schd (wr state rt_current (Z.lor (state (sched s) rt_current) SEMAPHORE));;
     schd (rem_ready_current rt_current);;
     schd (enqueue_blocked rt_current (SemQueue smx) (sem_qtype (sched s) smx));;
     schd rt_schedule
   else schd (wr sem_count smx 0));;
  s ← get;
  mret (is_blocked s rt_current).

Definition tbx_smx_wait_until (tbx : Z) (smx : semp) (time rt_current : Z) : T bool :=
  s ← get;
  if negb (nz (sem_count (sched s) smx)) then
    count_waiting tbx 1;;
    schd (wr blocked_on rt_current (SemQueue smx));;
    schd (wr resume_time rt_current time);;
    schd (wr state rt_current (Z.lor (state (sched s) rt_current) (Z.lor SEMAPHORE DELAYED)));;
    schd (rem_ready_current rt_current);;
    schd (enqueue_blocked rt_current (SemQueue smx) (sem_qtype (sched s) smx));;
    schd (enq_timed_task rt_current);;
    schd rt_schedule;;
    s ← get;
    if is_blocked s rt_current then
      schd (dequeue_blocked rt_current);; count_waiting tbx (-1);; mret true
    else mret false
  else schd (wr sem_count smx 0);; mret false.

(** * Waiting for room and for a message

    [fravbs] is the counter ([frbs] or [avbs]) the task waits for. *)

Definition tbx_wait_room (tbx : Z) (fravbs : TBXS -> Z -> Z) (msgsize rt_current : Z) : T bool :=
  s ← get;
  when (fravbs s tbx <? msgsize)
    (count_waiting tbx 1;;
     schd (wr suspdepth rt_current 1);;
     schd (wr state rt_current (Z.lor (state (sched s) rt_current) SUSPENDED));;
     schd (rem_ready_current rt_current);;
     schd (wr blocked_on rt_current QSomething);;
     wr tbx_waiting_task tbx rt_current;;
     schd rt_schedule);;
  s ← get;
  mret (is_blocked s rt_current).

Definition tbx_check_room (tbx : Z) (fravbs : TBXS -> Z -> Z) (msgsize : Z) : T Z :=
  s ← get;
  if (fravbs s tbx <? msgsize) || negb (nz (sem_count (sched s) (sndsmx tbx))) then mret 0
  else schd (wr sem_count (sndsmx tbx) 0);; mret msgsize.

(** Asleep until [time], or until another task takes it from [waiting_task];
    the result is whether the time came first. *)
Definition sleep_waiting (tbx time rt_current : Z) : T bool :=
  s ← get;
  count_waiting tbx 1;;
  schd (wr blocked_on rt_current QSomething);;
  schd (wr resume_time rt_current time);;
  schd (wr state rt_current (Z.lor (state (sched s) rt_current) DELAYED));;
  schd (rem_ready_current rt_current);;
  wr tbx_waiting_task tbx rt_current;;
  schd (enq_timed_task rt_current);;
  schd rt_schedule;;
  s ← get;
  if is_blocked s rt_current then
    count_waiting tbx (-1);;
    schd (wr blocked_on rt_current QNull);;
    wr tbx_waiting_task tbx NOTHING;;
    mret true
  else mret false.

Definition tbx_wait_room_until (tbx : Z) (fravbs : TBXS -> Z -> Z) (msgsize time rt_current : Z) : T bool :=
  s ← get;
  if fravbs s tbx <? msgsize then sleep_waiting tbx time rt_current else mret false.

(** [*type = *(tbx->bufadr + tbx->fbyte);] *)
Definition first_type (s : TBXS) (tbx : Z) : Z := bytes s (tbx_bufadr s tbx + tbx_fbyte s tbx).

(** The byte of the type is taken; [sizeof] is unsigned, and so are the
    sums. *)
Definition skip_type (tbx : Z) : T unit :=
  s ← get;
  let indx := u32 (tbx_fbyte s tbx + 1) in
  let size := u32 (tbx_size s tbx) in
  wr tbx_fbyte tbx (i32 (if indx <? size then indx else indx - size));;
  wr tbx_frbs tbx (i32 (tbx_frbs s tbx + 1));;
  wr tbx_avbs tbx (i32 (tbx_avbs s tbx - 1)).

(** Whether a broadcast goes on. *)
Definition bcb_type (s : TBXS) (tbx : Z) : Z := bytes s (tbx_bcbadr s tbx).

(** The type of the message, [TYPE_NONE] if there is none. *)
Definition tbx_check_msg (tbx : Z) (fravbs : TBXS -> Z -> Z) (msgsize : Z) : T Z :=
  s ← get;
  if (sem_count (sched s) (rcvsmx tbx) =? 0) || (fravbs s tbx <? msgsize) then mret 0
  else
    schd (wr sem_count (rcvsmx tbx) 0);;
    if bcb_type s tbx =? TYPE_BROADCAST then mret TYPE_BROADCAST
    else skip_type tbx;; mret (first_type s tbx).

(** Whether the task is still blocked, and the type. *)
Definition tbx_wait_msg (tbx : Z) (fravbs : TBXS -> Z -> Z) (msgsize rt_current : Z) : T (bool * Z) :=
  s ← get;
  type ←
    (if bcb_type s tbx =? TYPE_BROADCAST then mret TYPE_BROADCAST
     else
       when (fravbs s tbx <? msgsize)
         (count_waiting tbx 1;;
          schd (wr state rt_current (Z.lor (state (sched s) rt_current) SUSPENDED));;
          schd (rem_ready_current rt_current);;
          schd (wr blocked_on rt_current QSomething);;
          wr tbx_waiting_task tbx rt_current;;
          schd rt_schedule);;
       s ← get;
       skip_type tbx;;
       mret (first_type s tbx));
  s ← get;
  mret (is_blocked s rt_current, type).

(** The type is read before the task waits. *)
Definition tbx_wait_msg_until (tbx : Z) (fravbs : TBXS -> Z -> Z) (msgsize time rt_current : Z)
    : T (bool * Z) :=
  s ← get;
  if bcb_type s tbx =? TYPE_BROADCAST then mret (false, TYPE_BROADCAST)
  else
    let type := first_type s tbx in
    timed ←
      (if (fravbs s tbx <? msgsize) && (bcb_type s tbx =? TYPE_NONE)
       then sleep_waiting tbx time rt_current else mret false);
    if timed : bool then mret (true, TYPE_NONE)
    else skip_type tbx;; mret (false, type).

Definition tbx_signal (tbx : Z) : T unit :=
  s ← get;
  let task := tbx_waiting_task s tbx in
  when (nz task)
    (count_waiting tbx (-1);;
     schd (rem_timed_task task);;
     schd (wr blocked_on task QNull);;
     wr tbx_waiting_task tbx NOTHING;;
     s ← get;
     schd (wr state task (clr (state (sched s) task) (Z.lor SUSPENDED DELAYED)));;
     s ← get;
     when (state (sched s) task =? READY) (schd (enq_ready_task task);; schd rt_schedule)).

(** * The buffer *)

(** [tbx->frbs -= n; tbx->avbs += n;] *)
Definition count_put (tbx n : Z) : T unit :=
  s ← get;
  wr tbx_frbs tbx (i32 (tbx_frbs s tbx - n));;
  wr tbx_avbs tbx (i32 (tbx_avbs s tbx + n)).

(** [*(adr) = type], or [memcpy(adr, msg, tocpy)]; the number of bytes. *)
Definition put_piece (adr msg type tocpy : Z) : T Z :=
  if negb (type =? TYPE_NONE) then poke adr type;; mret 1 else memcpy adr msg tocpy;; mret tocpy.

(** [tocpy = tbx->size - indx; if (tocpy > n) tocpy = n;] *)
Definition piece (s : TBXS) (tbx indx n : Z) : Z :=
  let tocpy := i32 (tbx_size s tbx - indx) in if tocpy >? n then n else tocpy.

Fixpoint tbxput_loop (fuel : nat) (tbx msg msgpacksize type : Z) : T Z :=
  s ← get;
  if nz (tbx_frbs s tbx) && (msgpacksize >? 0) then
    match fuel with
    | O => stuck
    | S fuel' =>
        let last_byte := TBX_MOD_SIZE s tbx (i32 (tbx_fbyte s tbx + tbx_avbs s tbx)) in
        tocpy ← put_piece (tbx_bufadr s tbx + last_byte) msg type (piece s tbx last_byte msgpacksize);
        count_put tbx tocpy;;
        tbxput_loop fuel' tbx (if type =? TYPE_NONE then msg + tocpy else msg) (msgpacksize - tocpy) TYPE_NONE
    end
  else mret msgpacksize.

(** The result is the number of bytes that were not put. *)
Definition tbxput (tbx msg msg_size type : Z) : T Z :=
  let msgpacksize := i32 (msg_size + 1) in
  tbxput_loop (Z.to_nat msgpacksize) tbx msg msgpacksize type.

Fixpoint tbxget_loop (fuel : nat) (tbx msg msg_size : Z) : T Z :=
  s ← get;
  if nz (tbx_avbs s tbx) && (msg_size >? 0) then
    match fuel with
    | O => stuck
    | S fuel' =>
        let tocpy := piece s tbx (tbx_fbyte s tbx) msg_size in
        let tocpy := if tocpy >? tbx_avbs s tbx then tbx_avbs s tbx else tocpy in
        memcpy msg (tbx_bufadr s tbx + tbx_fbyte s tbx) tocpy;;
        wr tbx_fbyte tbx (TBX_MOD_SIZE s tbx (i32 (tbx_fbyte s tbx + tocpy)));;
        wr tbx_frbs tbx (i32 (tbx_frbs s tbx + tocpy));;
        wr tbx_avbs tbx (i32 (tbx_avbs s tbx - tocpy));;
        tbxget_loop fuel' tbx (msg + tocpy) (msg_size - tocpy)
    end
  else mret msg_size.

(** The result is the number of bytes that were not there. *)
Definition tbxget (tbx msg msg_size : Z) : T Z := tbxget_loop (Z.to_nat msg_size) tbx msg msg_size.

(** The first turn moves [fbyte] back to where the message begins. *)
Fixpoint tbxbackput_loop (fuel : nat) (tbx msg msgpacksize type first_byte tocpy : Z) : T Z :=
  s ← get;
  if nz (tbx_frbs s tbx) && (msgpacksize >? 0) then
    match fuel with
    | O => stuck
    | S fuel' =>
        first_byte ←
          (if first_byte =? -1 then
             let i := TBX_REVERSE_MOD_SIZE s tbx (i32 (tbx_fbyte s tbx - msgpacksize)) in
             wr tbx_fbyte tbx i;; mret i
           else mret (TBX_MOD_SIZE s tbx (i32 (first_byte + tocpy))));
        tocpy ← put_piece (tbx_bufadr s tbx + first_byte) msg type (piece s tbx first_byte msgpacksize);
        count_put tbx tocpy;;
        tbxbackput_loop fuel' tbx (if type =? TYPE_NONE then msg + tocpy else msg)
          (msgpacksize - tocpy) TYPE_NONE first_byte tocpy
    end
  else mret msgpacksize.

Definition tbxbackput (tbx msg msg_size type : Z) : T Z :=
  let msgpacksize := i32 (msg_size + 1) in
  tbxbackput_loop (Z.to_nat msgpacksize) tbx msg msgpacksize type (-1) 0.

(** The number of bytes not received, and whether to wait until the broadcast
    is over. *)
Definition tbx_receive_core (tbx msg msg_size type : Z) : T (Z * bool) :=
  if type =? TYPE_BROADCAST then
    s ← get;
    if bcb_type s tbx =? TYPE_NONE then
      _ ← tbxget tbx msg msg_size;
      s ← get;
      if tbx_waiting_nr s tbx >? 0 then
        memcpy (tbx_bcbadr s tbx + 1) msg msg_size;;
        poke (tbx_bcbadr s tbx) TYPE_BROADCAST;;
        mret (0, true)
      else _ ← schd (rt_sem_broadcast (bcbsmx tbx)); mret (0, false)
    else
      memcpy msg (tbx_bcbadr s tbx + 1) msg_size;;
      s ← get;
      if tbx_waiting_nr s tbx =? 0 then
        poke (tbx_bcbadr s tbx) TYPE_NONE;;
        _ ← schd (rt_sem_broadcast (bcbsmx tbx));
        mret (0, false)
      else mret (0, true)
  else
    r ← tbxget tbx msg msg_size;
    mret (r, false).

(** * Creation and deletion *)

Definition rt_tbx_init (tbx size flags : Z) : T Z :=
  bufadr ← hp (rt_malloc (u32 size));
  wr tbx_bufadr tbx bufadr;;
  if negb (nz bufadr) then mret (- ENOMEM)
  else
    bcbadr ← hp (rt_malloc (u32 size));
    wr tbx_bcbadr tbx bcbadr;;
    if negb (nz bcbadr) then hp (rt_free bufadr);; mret (- ENOMEM)
    else
      poke bcbadr TYPE_NONE;;
      memset_0 bufadr (u32 size);;
      memset_0 bcbadr (u32 size);;
      schd (rt_typed_sem_init (sndsmx tbx) 1 (Z.lor CNT_SEM flags));;
      schd (rt_typed_sem_init (rcvsmx tbx) 1 (Z.lor CNT_SEM flags));;
      schd (rt_typed_sem_init (bcbsmx tbx) 1 (Z.lor BIN_SEM flags));;
      wr tbx_magic tbx RT_TBX_MAGIC;;
      wr tbx_frbs tbx size;;
      wr tbx_size tbx size;;
      wr tbx_waiting_task tbx 0;;
      wr tbx_waiting_nr tbx 0;;
      wr tbx_avbs tbx 0;;
      wr tbx_fbyte tbx 0;;
      mret 0.

(** [while (tbx->waiting_task) tbx_signal(tbx);] *)
Fixpoint signal_waiting (fuel : nat) (tbx : Z) : T unit :=
  s ← get;
  if nz (tbx_waiting_task s tbx) then
    match fuel with
    | O => stuck
    | S fuel' => tbx_signal tbx;; signal_waiting fuel' tbx
    end
  else mret tt.

Definition rt_tbx_delete (tbx : Z) : T Z :=
  CHK_TBX_MAGIC tbx (- EINVAL)
    (wr tbx_magic tbx 0;;
     r ← schd (rt_sem_delete (sndsmx tbx));
     r ← (if nz r then mret r else schd (rt_sem_delete (rcvsmx tbx)));
     r ← (if nz r then mret r else schd (rt_sem_delete (bcbsmx tbx)));
     if nz r then mret (- EFAULT)
     else
       signal_waiting SCHED_FUEL tbx;;
       s ← get;
       hp (rt_free (tbx_bufadr s tbx));;
       hp (rt_free (tbx_bcbadr s tbx));;
       mret 0).

(** * Sending

    [(msg_size + sizeof(type)) > tbx->size] is a comparison of unsigned
    integers. *)
Definition too_big (s : TBXS) (tbx msg_size : Z) : bool := u32 (msg_size + 1) >? u32 (tbx_size s tbx).

(** The body of [rt_tbx_send], [rt_tbx_broadcast] and [rt_tbx_urgent], and of
    those with a time: [failed] is the result when the task did not get its
    turn or room, [put] copies the message. *)
Definition send_rest (tbx failed : Z) (put : T Z) (no_room : bool) : T Z :=
  if no_room then tbx_smx_signal tbx (sndsmx tbx);; mret failed
  else
    r ← put;
    tbx_signal tbx;;
    tbx_smx_signal tbx (sndsmx tbx);;
    mret r.

Definition send_body (tbx : Z) (wait_turn wait_room : Z -> T bool) (failed : Z) (put : T Z) : T Z :=
  s ← get;
  let rt_current := rt_whoami (sched s) in
  f ← wait_turn rt_current;
  if f : bool then mret failed
  else
    f ← wait_room rt_current;
    send_rest tbx failed put f.

(** [msg_size + sizeof(type)], converted to [int]. *)
Definition pack_size (msg_size : Z) : Z := i32 (msg_size + 1).

Definition rt_tbx_send (tbx msg msg_size : Z) : T Z :=
  CHK_TBX_MAGIC tbx (- EINVAL)
    (s ← get;
     if too_big s tbx msg_size then mret (- EMSGSIZE)
     else
       send_body tbx (tbx_smx_wait tbx (sndsmx tbx)) (tbx_wait_room tbx tbx_frbs (pack_size msg_size))
         msg_size (tbxput tbx msg msg_size TYPE_NORMAL)).

Definition rt_tbx_send_if (tbx msg msg_size : Z) : T Z :=
  CHK_TBX_MAGIC tbx (- EINVAL)
    (s ← get;
     if too_big s tbx msg_size then mret (- EMSGSIZE)
     else
       room ← tbx_check_room tbx tbx_frbs (pack_size msg_size);
       if nz room then
         _ ← tbxput tbx msg msg_size TYPE_NORMAL;
         tbx_signal tbx;;
         tbx_smx_signal tbx (sndsmx tbx);;
         mret 0
       else mret msg_size).

Definition rt_tbx_send_until (tbx msg msg_size time : Z) : T Z :=
  CHK_TBX_MAGIC tbx (- EINVAL)
    (s ← get;
     if too_big s tbx msg_size then mret (- EMSGSIZE)
     else
       send_body tbx (tbx_smx_wait_until tbx (sndsmx tbx) time)
         (tbx_wait_room_until tbx tbx_frbs (pack_size msg_size) time)
         msg_size (tbxput tbx msg msg_size TYPE_NORMAL)).

Definition rt_tbx_send_timed (tbx msg msg_size delay : Z) : T Z :=
  s ← get;
  rt_tbx_send_until tbx msg msg_size (i64 (rt_get_time (sched s) + delay)).

(** * Receiving

    The body of [rt_tbx_receive] and [rt_tbx_receive_until]. *)

(** [if (lock == 1) rt_sem_wait(&(tbx->bcbsmx));] *)
Definition receive_over (tbx : Z) (lock : bool) (r : Z) : T Z :=
  if lock then _ ← schd (rt_sem_wait (bcbsmx tbx)); mret r else mret r.

(** After the type of the message is known. *)
Definition receive_end (tbx msg msg_size type : Z) : T Z :=
  '(r, lock) ← tbx_receive_core tbx msg msg_size type;
  tbx_signal tbx;;
  tbx_smx_signal tbx (rcvsmx tbx);;
  receive_over tbx lock r.

(** When the task has its turn. *)
Definition receive_turn (tbx : Z) (wait_msg : Z -> T (bool * Z)) (msg msg_size rt_current : Z) : T Z :=
  '(f, type) ← wait_msg rt_current;
  if f : bool then tbx_smx_signal tbx (rcvsmx tbx);; mret msg_size
  else receive_end tbx msg msg_size type.

Definition receive_body (tbx : Z) (wait_turn : Z -> T bool) (wait_msg : Z -> T (bool * Z))
    (msg msg_size : Z) : T Z :=
  s ← get;
  let rt_current := rt_whoami (sched s) in
  f ← wait_turn rt_current;
  if f : bool then mret msg_size else receive_turn tbx wait_msg msg msg_size rt_current.

Definition rt_tbx_receive (tbx msg msg_size : Z) : T Z :=
  CHK_TBX_MAGIC tbx (- EINVAL)
    (s ← get;
     if too_big s tbx msg_size then mret (- EMSGSIZE)
     else
       receive_body tbx (tbx_smx_wait tbx (rcvsmx tbx))
         (tbx_wait_msg tbx tbx_avbs (pack_size msg_size)) msg msg_size).

Definition rt_tbx_receive_if (tbx msg msg_size : Z) : T Z :=
  CHK_TBX_MAGIC tbx (- EINVAL)
    (s ← get;
     if too_big s tbx msg_size then mret (- EMSGSIZE)
     else
       type ← tbx_check_msg tbx tbx_avbs (pack_size msg_size);
       if nz type then receive_end tbx msg msg_size type else mret msg_size).

Definition rt_tbx_receive_until (tbx msg msg_size time : Z) : T Z :=
  CHK_TBX_MAGIC tbx (- EINVAL)
    (s ← get;
     if too_big s tbx msg_size then mret (- EMSGSIZE)
     else
       receive_body tbx (tbx_smx_wait_until tbx (rcvsmx tbx) time)
         (tbx_wait_msg_until tbx tbx_avbs (pack_size msg_size) time) msg msg_size).

Definition rt_tbx_receive_timed (tbx msg msg_size delay : Z) : T Z :=
  s ← get;
  rt_tbx_receive_until tbx msg msg_size (i64 (rt_get_time (sched s) + delay)).

(** * Broadcasting

    Nothing is sent if no task waits; the result is the number of tasks that
    waited, for whatever. *)

Definition broadcast_body (tbx msg_size : Z) (body : Z -> T Z) : T Z :=
  CHK_TBX_MAGIC tbx (- EINVAL)
    (s ← get;
     if too_big s tbx msg_size then mret (- EMSGSIZE)
     else
       let wakedup := tbx_waiting_nr s tbx in
       if wakedup =? 0 then mret wakedup else body wakedup).

Definition rt_tbx_broadcast (tbx msg msg_size : Z) : T Z :=
  broadcast_body tbx msg_size (fun wakedup =>
    send_body tbx (tbx_smx_wait tbx (sndsmx tbx)) (tbx_wait_room tbx tbx_frbs (pack_size msg_size))
      0 (_ ← tbxput tbx msg msg_size TYPE_BROADCAST; mret wakedup)).

Definition rt_tbx_broadcast_if (tbx msg msg_size : Z) : T Z :=
  broadcast_body tbx msg_size (fun wakedup =>
    room ← tbx_check_room tbx tbx_frbs (pack_size msg_size);
    if nz room then
      _ ← tbxput tbx msg msg_size TYPE_BROADCAST;
      tbx_signal tbx;;
      tbx_smx_signal tbx (sndsmx tbx);;
      mret wakedup
    else mret 0).

Definition rt_tbx_broadcast_until (tbx msg msg_size time : Z) : T Z :=
  broadcast_body tbx msg_size (fun wakedup =>
    send_body tbx (tbx_smx_wait_until tbx (sndsmx tbx) time)
      (tbx_wait_room_until tbx tbx_frbs (pack_size msg_size) time)
      0 (_ ← tbxput tbx msg msg_size TYPE_BROADCAST; mret wakedup)).

Definition rt_tbx_broadcast_timed (tbx msg msg_size delay : Z) : T Z :=
  s ← get;
  rt_tbx_broadcast_until tbx msg msg_size (i64 (rt_get_time (sched s) + delay)).

(** * Urgent messages *)

Definition rt_tbx_urgent (tbx msg msg_size : Z) : T Z :=
  CHK_TBX_MAGIC tbx (- EINVAL)
    (s ← get;
     if too_big s tbx msg_size then mret (- EMSGSIZE)
     else
       send_body tbx (tbx_smx_wait tbx (sndsmx tbx)) (tbx_wait_room tbx tbx_frbs (pack_size msg_size))
         msg_size (tbxbackput tbx msg msg_size TYPE_URGENT)).

Definition rt_tbx_urgent_if (tbx msg msg_size : Z) : T Z :=
  CHK_TBX_MAGIC tbx (- EINVAL)
    (s ← get;
     if too_big s tbx msg_size then mret (- EMSGSIZE)
     else
       room ← tbx_check_room tbx tbx_frbs (pack_size msg_size);
       if nz room then
         _ ← tbxbackput tbx msg msg_size TYPE_URGENT;
         tbx_signal tbx;;
         tbx_smx_signal tbx (sndsmx tbx);;
         mret 0
       else mret msg_size).

Definition rt_tbx_urgent_until (tbx msg msg_size time : Z) : T Z :=
  CHK_TBX_MAGIC tbx (- EINVAL)
    (s ← get;
     if too_big s tbx msg_size then mret (- EMSGSIZE)
     else
       send_body tbx (tbx_smx_wait_until tbx (sndsmx tbx) time)
         (tbx_wait_room_until tbx tbx_frbs (pack_size msg_size) time)
         msg_size (tbxbackput tbx msg msg_size TYPE_URGENT)).

Definition rt_tbx_urgent_timed (tbx msg msg_size delay : Z) : T Z :=
  s ← get;
  rt_tbx_urgent_until tbx msg msg_size (i64 (rt_get_time (sched s) + delay)).
