(* ===== verification/TbxSpec.v ===== *)
(** TbxSpec: what the typed mailboxes of [Tbx] promise.

    The buffer as a ring of bytes; a mailbox as a queue of messages of one
    size, to which urgent messages are added at the front; the waiting
    variants of the services; creation; what the code does wrong. *)

From S2P Require Import Prelude Memory Resume DList SchedState SchedQueues Schedule SchedTask SchedSem MemMgr Tbx.

(** * Rings of bytes

    The [n] bytes from the index [f] of a ring of [size] bytes at [b]. *)

Definition ring_load (m : Z -> Z) (b size f n : Z) : list Z :=
  (fun i => m (b + (f + i) mod size)) <$> seqZ 0 n.

Section Ring.
Context (b size : Z) (Hsize : 0 < size).
Implicit Types (m : Z -> Z) (f n k d e i p v : Z) (bs : list Z).

Lemma ring_load_app m f n1 n2 :
  0 <= n1 -> 0 <= n2 -> ring_load m b size f (n1 + n2) = ring_load m b size f n1 ++ ring_load m b size (f + n1) n2.
Proof.
  intros H1 H2. unfold ring_load. rewrite seqZ_app, fmap_app by lia. f_equal.
  replace (0 + n1) with (n1 + 0) by lia. rewrite <- fmap_add_seqZ, <- list_fmap_compose.
  apply list_fmap_ext. intros _ i _. cbn. do 3 f_equal. lia.
Qed.

Lemma ring_load_ext m m' f f' n :
  (forall i, 0 <= i < n -> m' (b + (f' + i) mod size) = m (b + (f + i) mod size)) ->
  ring_load m' b size f' n = ring_load m b size f n.
Proof. intros H. apply list_fmap_ext. intros k i Hi. apply H. apply lookup_seqZ in Hi. lia. Qed.

Lemma ring_load_mod m f f' n : f mod size = f' mod size -> ring_load m b size f n = ring_load m b size f' n.
Proof. intros E. apply ring_load_ext. intros i _. by rewrite <- Zplus_mod_idemp_l, E, Zplus_mod_idemp_l. Qed.

Lemma length_ring_load m f n : 0 <= n -> Z.of_nat (length (ring_load m b size f n)) = n.
Proof. intros Hn. unfold ring_load. rewrite length_fmap, length_seqZ. lia. Qed.

Lemma ring_load_flat m f n : 0 <= f -> f + n <= size -> ring_load m b size f n = load m (b + f) n.
Proof.
  intros Hf Hn. apply list_fmap_ext. intros k i Hi. apply lookup_seqZ in Hi. rewrite Z.mod_small by lia.
  f_equal. lia.
Qed.

Lemma mod_inj f x y : 0 <= x < size -> 0 <= y < size -> (f + x) mod size = (f + y) mod size -> x = y.
Proof.
  intros Hx Hy E. pose proof (Z.div_mod (f + x) size). pose proof (Z.div_mod (f + y) size).
  assert (size * ((f + x) / size - (f + y) / size) = x - y) by lia.
  assert ((f + x) / size - (f + y) / size = 0) by nia. lia.
Qed.

(** A write of [k] bytes at the index [p], which is [d] after [f], does not
    reach the other bytes of the ring. *)
Lemma ring_untouched f d k p i :
  p = (f + d) mod size -> p + k <= size -> 0 <= d -> d + k <= size -> 0 <= i < size -> i < d \/ d + k <= i ->
  ~ p <= (f + i) mod size < p + k.
Proof.
  intros Hp Hpk Hd Hdk Hi Hout Hin. set (j := (f + i) mod size - p).
  assert (E : (f + i) mod size = (f + (d + j)) mod size).
  { rewrite Z.add_assoc, <- (Zplus_mod_idemp_l (f + d)), <- Hp.
    rewrite (Z.mod_small (p + j)); unfold j; [lia|]. pose proof (Z.mod_pos_bound (f + i) size). lia. }
  apply mod_inj in E; unfold j in *; lia.
Qed.

Lemma ring_same m m' f d k p e n :
  p = (f + d) mod size -> p + k <= size -> 0 <= d -> d + k <= size ->
  0 <= e -> e + n <= size -> e + n <= d \/ d + k <= e ->
  (forall x, ~ b + p <= x < b + p + k -> m' x = m x) ->
  ring_load m' b size (f + e) n = ring_load m b size (f + e) n.
Proof.
  intros Hp Hpk Hd Hdk He Hen Hout Hm. apply ring_load_ext. intros i Hi. apply Hm.
  pose proof (ring_untouched f d k p (e + i) Hp Hpk Hd Hdk) as H. rewrite Z.add_assoc in H.
  specialize (H ltac:(lia) ltac:(lia)). lia.
Qed.

(** What is written is there. *)
Lemma ring_new m f d k p : p = (f + d) mod size -> 0 <= p -> p + k <= size ->
  ring_load m b size (f + d) k = load m (b + p) k.
Proof.
  intros Hp Hp0 Hk. rewrite (ring_load_mod m (f + d) p); [by apply ring_load_flat|].
  rewrite Hp. by rewrite Zmod_mod.
Qed.
End Ring.

Lemma load_app m a n1 n2 : 0 <= n1 -> 0 <= n2 -> load m a (n1 + n2) = load m a n1 ++ load m (a + n1) n2.
Proof.
  intros H1 H2. unfold load. rewrite seqZ_app, fmap_app by lia. f_equal.
  replace (0 + n1) with (n1 + 0) by lia. rewrite <- fmap_add_seqZ, <- list_fmap_compose.
  apply list_fmap_ext. intros _ i _. cbn. f_equal. lia.
Qed.

(** * The buffer of a mailbox *)

Section Buffer.
Implicit Types (s : TBXS) (tbx n k p a : Z) (bs new : list Z).

(** The bytes in the buffer are [bs]. *)
Record tbx_holds s tbx bs : Prop := {
  th_size : 0 < tbx_size s tbx < 1073741824;
  th_fbyte : 0 <= tbx_fbyte s tbx < tbx_size s tbx;
  th_avbs : tbx_avbs s tbx = Z.of_nat (length bs);
  th_frbs : tbx_frbs s tbx = tbx_size s tbx - Z.of_nat (length bs);
  th_room : Z.of_nat (length bs) <= tbx_size s tbx;
  th_bytes : ring_load (bytes s) (tbx_bufadr s tbx) (tbx_size s tbx) (tbx_fbyte s tbx)
               (Z.of_nat (length bs)) = bs
}.

(** The addresses of the buffer, and of a range. *)
Definition in_buf s tbx (x : Z) : Prop := tbx_bufadr s tbx <= x < tbx_bufadr s tbx + tbx_size s tbx.
Definition in_range a n (x : Z) : Prop := a <= x < a + n.

(** Only the counters of the buffer of [tbx] and the bytes in [W] differ. *)
Definition only_buf tbx (W : Z -> Prop) s s' : Prop :=
  exists f1 f2 f3 m, s' = s <| tbx_fbyte := f1 |> <| tbx_frbs := f2 |> <| tbx_avbs := f3 |> <| bytes := m |> /\
    (forall t, t <> tbx -> f1 t = tbx_fbyte s t /\ f2 t = tbx_frbs s t /\ f3 t = tbx_avbs s t) /\
    (forall x, ~ W x -> m x = bytes s x).

Lemma only_buf_refl tbx W s : only_buf tbx W s s.
Proof.
  exists (tbx_fbyte s), (tbx_frbs s), (tbx_avbs s), (bytes s). split; [by destruct s|]. done.
Qed.

Lemma only_buf_trans tbx (W W' : Z -> Prop) s s1 s2 :
  only_buf tbx W s s1 -> only_buf tbx W' s1 s2 -> (forall x, W' x -> W x) -> only_buf tbx W s s2.
Proof.
  intros (f1 & f2 & f3 & m & -> & Hf & Hm) (g1 & g2 & g3 & m' & -> & Hg & Hm') HW.
  exists g1, g2, g3, m'. state_simpl_in Hg. state_simpl_in Hm'. split; [by destruct s|]. split.
  - intros t Ht. destruct (Hg t Ht) as (-> & -> & ->). by apply Hf.
  - intros x Hx. rewrite Hm' by (intros ?; by apply Hx, HW). by apply Hm.
Qed.

(** A sum that is wrapped round the ring once. *)
Lemma wrap_once n indx : 0 <= indx < 2 * n -> (if indx <? n then indx else indx - n) = indx mod n.
Proof.
  intros H. destruct (Z.ltb_spec indx n); [by rewrite Z.mod_small by lia|].
  rewrite <- (Z_mod_plus_full indx (-1) n). rewrite Z.mod_small; lia.
Qed.

Lemma i32_small z : - 2147483648 <= z < 2147483648 -> i32 z = z.
Proof. intros H. apply i32_id. unfold in_i32, INT_MIN, INT_MAX. lia. Qed.

(** Bytes written after the others. *)
Lemma holds_put s s' tbx bs new p :
  let k := Z.of_nat (length new) in
  tbx_holds s tbx bs -> Z.of_nat (length bs) + k <= tbx_size s tbx ->
  p = (tbx_fbyte s tbx + Z.of_nat (length bs)) mod tbx_size s tbx -> p + k <= tbx_size s tbx ->
  tbx_size s' tbx = tbx_size s tbx -> tbx_bufadr s' tbx = tbx_bufadr s tbx -> tbx_fbyte s' tbx = tbx_fbyte s tbx ->
  tbx_avbs s' tbx = tbx_avbs s tbx + k -> tbx_frbs s' tbx = tbx_frbs s tbx - k ->
  load (bytes s') (tbx_bufadr s tbx + p) k = new ->
  (forall x, ~ in_range (tbx_bufadr s tbx + p) k x -> bytes s' x = bytes s x) ->
  tbx_holds s' tbx (bs ++ new).
Proof.
  intros k [Hsz Hf Ha Hfr Hr Hb] Hlen Hp Hpk Es Eb Ef Ea Er Hnew Hout.
  pose proof (Z.mod_pos_bound (tbx_fbyte s tbx + Z.of_nat (length bs)) (tbx_size s tbx)) as Hm.
  split; rewrite ?Es, ?Ef, ?Ea, ?Er, ?length_app, ?Nat2Z.inj_add; fold k; [lia..|].
  rewrite Eb, ring_load_app by lia. f_equal.
  - rewrite <- Hb at 2. rewrite <- (Z.add_0_r (tbx_fbyte s tbx)).
    apply (ring_same _ _ (proj1 Hsz)) with (d := Z.of_nat (length bs)) (k := k) (p := p); [done|lia..|exact Hout].
  - etransitivity; [|exact Hnew]. apply ring_new; [done|lia|done].
Qed.

(** A turn of [tbxput]. *)
Lemma put_last s tbx bs :
  tbx_holds s tbx bs -> Z.of_nat (length bs) < tbx_size s tbx ->
  let p := (tbx_fbyte s tbx + Z.of_nat (length bs)) mod tbx_size s tbx in
  TBX_MOD_SIZE s tbx (i32 (tbx_fbyte s tbx + tbx_avbs s tbx)) = p /\ 0 <= p < tbx_size s tbx.
Proof.
  intros [Hsz Hf Ha Hfr Hr Hb] Hl p. unfold TBX_MOD_SIZE. rewrite Ha, i32_small by lia.
  rewrite wrap_once by lia. split; [done|]. apply Z.mod_pos_bound. lia.
Qed.

Lemma piece_eq s tbx p n :
  0 <= p < tbx_size s tbx -> tbx_size s tbx < 1073741824 -> piece s tbx p n = Z.min (tbx_size s tbx - p) n.
Proof. intros Hp Hs. unfold piece. rewrite i32_small by lia. destruct (Z.gtb_spec (tbx_size s tbx - p) n); lia. Qed.

Lemma count_put_eq s tbx k :
  0 <= k -> 0 <= tbx_avbs s tbx -> tbx_avbs s tbx + k < 2147483648 -> - 2147483648 < tbx_frbs s tbx - k < 2147483648 ->
  count_put tbx k s =
    Done tt (s <| tbx_frbs ::= <[tbx := tbx_frbs s tbx - k]> |> <| tbx_avbs ::= <[tbx := tbx_avbs s tbx + k]> |>).
Proof. intros H1 H2 H3 H4. unfold count_put. run_m. rewrite !i32_small by lia. done. Qed.

(** What a turn leaves. *)
Lemma put_turn s tbx bs new (g : (Z -> Z) -> Z -> Z) p :
  let k := Z.of_nat (length new) in let m := g (bytes s) in
  tbx_holds s tbx bs -> Z.of_nat (length bs) + k <= tbx_size s tbx ->
  p = (tbx_fbyte s tbx + Z.of_nat (length bs)) mod tbx_size s tbx -> 0 <= p -> p + k <= tbx_size s tbx ->
  load m (tbx_bufadr s tbx + p) k = new ->
  (forall x, ~ in_range (tbx_bufadr s tbx + p) k x -> m x = bytes s x) ->
  let s' := s <| bytes ::= g |> <| tbx_frbs ::= <[tbx := tbx_frbs s tbx - k]> |>
              <| tbx_avbs ::= <[tbx := tbx_avbs s tbx + k]> |> in
  tbx_holds s' tbx (bs ++ new) /\ only_buf tbx (in_buf s tbx) s s'.
Proof.
  intros k m Hh Hl Hp Hp0 Hpk Hnew Hout s'. split.
  - apply (holds_put s _ tbx bs new p); unfold s'; state_simpl; rewrite ?upd_eq; done.
  - exists (tbx_fbyte s), (<[tbx := tbx_frbs s tbx - k]> (tbx_frbs s)), (<[tbx := tbx_avbs s tbx + k]> (tbx_avbs s)), m.
    split; [by destruct s|]. split; [intros t Ht; by rewrite !upd_ne by done|].
    intros x Hx. apply Hout. unfold in_buf, in_range in *. lia.
Qed.

Lemma put_bytes fuel s tbx bs msg n :
  tbx_holds s tbx bs -> 0 <= n <= Z.of_nat fuel -> Z.of_nat (length bs) + n <= tbx_size s tbx ->
  apart_mem msg n (tbx_bufadr s tbx) (tbx_size s tbx) ->
  exists s', tbxput_loop fuel tbx msg n TYPE_NONE s = Done 0 s' /\
    tbx_holds s' tbx (bs ++ load (bytes s) msg n) /\ only_buf tbx (in_buf s tbx) s s'.
Proof.
  revert s bs msg n. induction fuel as [|fuel IH]; intros s bs msg n Hh Hn Hl Hap; cbn [tbxput_loop]; run_m.
  - replace n with 0 by lia. rewrite andb_false_r. run_m. exists s. rewrite app_nil_r.
    split_and!; [done|done|apply only_buf_refl].
  - destruct (Z.gtb_spec n 0) as [Hn0|Hn0].
    2:{ replace n with 0 by lia. rewrite andb_false_r. run_m. exists s. rewrite app_nil_r.
        split_and!; [done|done|apply only_buf_refl]. }
    rewrite (proj2 (nz_true _)) by (rewrite (th_frbs _ _ _ Hh); lia). run_m.
    destruct (put_last s tbx bs Hh) as [Ep Hp]; [lia|]. rewrite Ep. set (p := _ mod _) in *.
    rewrite piece_eq by (done || apply Hh). set (k := Z.min _ _).
    unfold put_piece, memcpy. cbn [TYPE_NONE Z.eqb]. run_m. rewrite (proj2 (Z.ltb_ge k 0)) by lia. run_m.
    pose proof Hh as [? ? Ea Ef ? ?].
    rewrite count_put_eq by (state_simpl; rewrite ?Ea, ?Ef; lia). state_simpl. cbn [bind_out].
    set (new := load (bytes s) msg k). assert (Ek : Z.of_nat (length new) = k) by (apply length_load; lia).
    edestruct (put_turn s tbx bs new (fun m => copied m (tbx_bufadr s tbx + p) msg k) p) as [Hh1 Ho1];
      rewrite ?Ek; [done|lia|done|lia|lia|by apply load_copied|intros x Hx; by apply copied_outside|].
    rewrite Ek in Hh1, Ho1.
    match type of Hh1 with tbx_holds ?st _ _ => set (s1 := st) in * end.
    destruct (IH s1 (bs ++ new) (msg + k) (n - k)) as (s' & -> & Hh' & Ho');
      [done|lia|unfold s1; state_simpl; rewrite length_app, Nat2Z.inj_add, Ek; lia|unfold s1, apart_mem in *; state_simpl; lia|].
    exists s'. split_and!; [done| |apply (only_buf_trans _ _ _ _ _ _ Ho1 Ho'); unfold in_buf, s1; by state_simpl].
    rewrite <- app_assoc in Hh'. rewrite <- (Zplus_minus k n), load_app by lia. fold new.
    rewrite <- (load_ext (bytes s) (bytes s1) (msg + k) (msg + k) (n - k)); [exact Hh'|]. intros i Hi. unfold s1. state_simpl.
    apply copied_outside. unfold apart_mem in Hap. lia.
Qed.

Lemma load_1 (m : Z -> Z) a : load m a 1 = [m a].
Proof. change (load m a 1) with [m (a + 0)]. by rewrite Z.add_0_r. Qed.

Lemma tbxput_spec s tbx bs msg n type :
  tbx_holds s tbx bs -> 0 <= n -> Z.of_nat (length bs) + n + 1 <= tbx_size s tbx -> type <> TYPE_NONE ->
  apart_mem msg n (tbx_bufadr s tbx) (tbx_size s tbx) ->
  exists s', tbxput tbx msg n type s = Done 0 s' /\
    tbx_holds s' tbx (bs ++ type :: load (bytes s) msg n) /\ only_buf tbx (in_buf s tbx) s s'.
Proof.
  intros Hh Hn Hl Ht Hap. pose proof Hh as [Hsz Hf Ea Ef Hr Hb].
  unfold tbxput. rewrite i32_small by lia. replace (Z.to_nat (n + 1)) with (S (Z.to_nat n)) by lia.
  cbn [tbxput_loop]. run_m. rewrite (proj2 (nz_true _)) by lia. rewrite (proj2 (Z.gtb_lt _ _)) by lia. run_m.
  destruct (put_last s tbx bs Hh) as [Ep Hp]; [lia|]. rewrite Ep. set (p := _ mod _) in *.
  unfold put_piece, poke. rewrite (proj2 (Z.eqb_neq _ _)) by done. run_m.
  rewrite count_put_eq by (state_simpl; rewrite ?Ea, ?Ef; lia). state_simpl. cbn [bind_out].
  edestruct (put_turn s tbx bs [type] (fun m => <[tbx_bufadr s tbx + p := type]> m) p) as [Hh1 Ho1];
    [done|cbn; lia|done|lia|cbn; lia|cbn; by rewrite load_1, upd_eq| |].
  { intros x Hx. apply upd_ne. unfold in_range in Hx. cbn in Hx. lia. }
  cbn [length Z.of_nat] in Hh1, Ho1. change (Z.of_nat 1) with 1 in *. 
  match type of Hh1 with tbx_holds ?st _ _ => set (s1 := st) in * end.
  rewrite Z.add_simpl_r.
  destruct (put_bytes (Z.to_nat n) s1 tbx (bs ++ [type]) msg n) as (s' & -> & Hh' & Ho');
    [done|lia|unfold s1; state_simpl; rewrite length_app; cbn; lia|unfold s1; by state_simpl|].
  exists s'. split_and!; [done| |apply (only_buf_trans _ _ _ _ _ _ Ho1 Ho'); unfold in_buf, s1; by state_simpl].
  rewrite <- app_assoc in Hh'. cbn [app] in Hh'.
  rewrite <- (load_ext (bytes s) (bytes s1) msg msg n); [exact Hh'|]. intros i Hi. unfold s1. state_simpl.
  apply upd_ne. unfold apart_mem in Hap. lia.
Qed.

(** A turn of [tbxget]. *)
Lemma get_turn s tbx bs k (g : (Z -> Z) -> Z -> Z) :
  tbx_holds s tbx bs -> 0 <= k <= Z.of_nat (length bs) -> 
  (forall x, in_buf s tbx x -> g (bytes s) x = bytes s x) ->
  let s' := s <| bytes ::= g |> <| tbx_fbyte ::= <[tbx := (tbx_fbyte s tbx + k) mod tbx_size s tbx]> |>
              <| tbx_frbs ::= <[tbx := tbx_frbs s tbx + k]> |> <| tbx_avbs ::= <[tbx := tbx_avbs s tbx - k]> |> in
  tbx_holds s' tbx (drop (Z.to_nat k) bs).
Proof.
  intros [Hsz Hf Ea Ef Hr Hb] Hk Hg s'.
  assert (El : Z.of_nat (length (drop (Z.to_nat k) bs)) = Z.of_nat (length bs) - k) by (rewrite length_drop; lia).
  split; rewrite ?El; unfold s'; state_simpl; rewrite ?upd_eq; [done|apply Z.mod_pos_bound; lia|lia..|].
  rewrite <- (Zplus_minus k (Z.of_nat (length bs))), ring_load_app in Hb by lia.
  assert (Et : length (ring_load (bytes s) (tbx_bufadr s tbx) (tbx_size s tbx) (tbx_fbyte s tbx) k) = Z.to_nat k).
  { pose proof (length_ring_load (tbx_bufadr s tbx) (tbx_size s tbx) (bytes s) (tbx_fbyte s tbx) k). lia. }
  apply (f_equal (drop (Z.to_nat k))) in Hb. rewrite drop_app_length' in Hb by done.
  rewrite <- Hb. etransitivity; [|apply (ring_load_mod _ (tbx_size s tbx) _ ((tbx_fbyte s tbx + k) mod tbx_size s tbx)); by rewrite Zmod_mod].
  apply ring_load_ext. intros i Hi. apply Hg. unfold in_buf.
  pose proof (Z.mod_pos_bound ((tbx_fbyte s tbx + k) mod tbx_size s tbx + i) (tbx_size s tbx)). lia.
Qed.

(** The first bytes, as far as they are not wrapped round. *)
Lemma first_bytes s tbx bs k :
  tbx_holds s tbx bs -> 0 <= k <= Z.of_nat (length bs) -> k <= tbx_size s tbx - tbx_fbyte s tbx ->
  load (bytes s) (tbx_bufadr s tbx + tbx_fbyte s tbx) k = take (Z.to_nat k) bs.
Proof.
  intros [Hsz Hf Ea Ef Hr Hb] Hk Hk'. rewrite <- (ring_load_flat _ (tbx_size s tbx)) by lia.
  rewrite <- (Zplus_minus k (Z.of_nat (length bs))), ring_load_app in Hb by lia. rewrite <- Hb.
  pose proof (length_ring_load (tbx_bufadr s tbx) (tbx_size s tbx) (bytes s) (tbx_fbyte s tbx) k).
  rewrite take_app_length' by lia. done.
Qed.

Lemma TBX_MOD_SIZE_eq s tbx i :
  0 <= i < 2 * tbx_size s tbx -> tbx_size s tbx < 1073741824 -> TBX_MOD_SIZE s tbx (i32 i) = i mod tbx_size s tbx.
Proof. intros Hi Hs. unfold TBX_MOD_SIZE. rewrite i32_small by lia. by apply wrap_once. Qed.

(** [tbxget] takes the first bytes. *)
Lemma get_bytes fuel s tbx bs msg n :
  tbx_holds s tbx bs -> 0 <= n <= Z.of_nat fuel -> n <= Z.of_nat (length bs) ->
  apart_mem msg n (tbx_bufadr s tbx) (tbx_size s tbx) ->
  exists s', tbxget_loop fuel tbx msg n s = Done 0 s' /\
    tbx_holds s' tbx (drop (Z.to_nat n) bs) /\ load (bytes s') msg n = take (Z.to_nat n) bs /\
    only_buf tbx (in_range msg n) s s'.
Proof.
  revert s bs msg n. induction fuel as [|fuel IH]; intros s bs msg n Hh Hn Hl Hap; cbn [tbxget_loop]; run_m.
  - replace n with 0 by lia. rewrite andb_false_r. run_m. exists s.
    split_and!; [done|done|done|apply only_buf_refl].
  - destruct (Z.gtb_spec n 0) as [Hn0|Hn0].
    2:{ replace n with 0 by lia. rewrite andb_false_r. run_m. exists s.
        split_and!; [done|done|done|apply only_buf_refl]. }
    pose proof Hh as [Hsz Hf Ea Ef Hr Hb]. rewrite (proj2 (nz_true _)) by lia. run_m.
    rewrite piece_eq by (done || apply Hh). set (f := tbx_fbyte s tbx) in *.
    replace (if _ >? _ then _ else _) with (Z.min (tbx_size s tbx - f) n)
      by (destruct (Z.gtb_spec (Z.min (tbx_size s tbx - f) n) (tbx_avbs s tbx)); lia).
    set (k := Z.min _ _). unfold memcpy. rewrite (proj2 (Z.ltb_ge k 0)) by lia. run_m.
    rewrite TBX_MOD_SIZE_eq, Ea, Ef, !i32_small by lia. rewrite <- Ef, <- Ea.
    match goal with |- context [tbxget_loop fuel tbx _ _ ?st] => set (s1 := st) end.
    assert (Hh1 : tbx_holds s1 tbx (drop (Z.to_nat k) bs)).
    { apply (get_turn s tbx bs k (fun m => copied m msg (tbx_bufadr s tbx + f) k) Hh); [lia|].
      intros x Hx. apply copied_outside. unfold in_buf, apart_mem in *. lia. }
    assert (Ho1 : only_buf tbx (in_range msg n) s s1).
    { eexists _, _, _, _. split; [unfold s1; by destruct s|]. split.
      - intros t Ht. state_simpl. by rewrite !upd_ne by done.
      - intros x Hx. apply copied_outside. unfold in_range in Hx. lia. }
    destruct (IH s1 (drop (Z.to_nat k) bs) (msg + k) (n - k)) as (s' & -> & Hh' & El & Ho');
      [done|lia|rewrite length_drop; lia|unfold s1, apart_mem in *; state_simpl; lia|].
    exists s'. rewrite drop_drop in Hh'. replace (Z.to_nat k + Z.to_nat (n - k))%nat with (Z.to_nat n) in Hh' by lia.
    split_and!; [done|done| |apply (only_buf_trans _ _ _ _ _ _ Ho1 Ho'); unfold in_range; lia].
    destruct Ho' as (g1 & g2 & g3 & m' & -> & _ & Hm').
    rewrite <- (Zplus_minus k n) at 1. rewrite load_app by lia. state_simpl. state_simpl_in El. rewrite El.
    replace (Z.to_nat n) with (Z.to_nat k + Z.to_nat (n - k))%nat by lia. rewrite <- take_take_drop. f_equal.
    rewrite <- (first_bytes s tbx bs k Hh) by lia. apply load_ext. intros i Hi. rewrite Hm' by (unfold in_range; lia).
    unfold s1. state_simpl. by apply copied_inside.
Qed.

Lemma tbxget_spec s tbx bs msg n :
  tbx_holds s tbx bs -> 0 <= n <= Z.of_nat (length bs) -> apart_mem msg n (tbx_bufadr s tbx) (tbx_size s tbx) ->
  exists s', tbxget tbx msg n s = Done 0 s' /\
    tbx_holds s' tbx (drop (Z.to_nat n) bs) /\ load (bytes s') msg n = take (Z.to_nat n) bs /\
    only_buf tbx (in_range msg n) s s'.
Proof. intros Hh Hn Hap. by apply get_bytes; [|lia|lia|]. Qed.

(** While a message is put before the others: [pre] is there, [r] bytes are
    to come, then [bs]. *)
Record back_ok s tbx (pre : list Z) (r : Z) bs : Prop := {
  bk_size : 0 < tbx_size s tbx < 1073741824;
  bk_fbyte : 0 <= tbx_fbyte s tbx < tbx_size s tbx;
  bk_avbs : tbx_avbs s tbx = Z.of_nat (length pre) + Z.of_nat (length bs);
  bk_frbs : tbx_frbs s tbx = tbx_size s tbx - tbx_avbs s tbx;
  bk_room : 0 <= r /\ Z.of_nat (length pre) + r + Z.of_nat (length bs) <= tbx_size s tbx;
  bk_pre : ring_load (bytes s) (tbx_bufadr s tbx) (tbx_size s tbx) (tbx_fbyte s tbx) (Z.of_nat (length pre)) = pre;
  bk_bytes : ring_load (bytes s) (tbx_bufadr s tbx) (tbx_size s tbx)
               (tbx_fbyte s tbx + (Z.of_nat (length pre) + r)) (Z.of_nat (length bs)) = bs
}.

Lemma back_done s tbx pre bs : back_ok s tbx pre 0 bs -> tbx_holds s tbx (pre ++ bs).
Proof.
  intros [Hsz Hf Ea Ef Hr Hp Hb]. rewrite Z.add_0_r in Hb.
  split; rewrite ?length_app, ?Nat2Z.inj_add; try lia. rewrite ring_load_app by lia. by rewrite Hp, Hb.
Qed.

(** A turn of [tbxbackput]. *)
Lemma back_turn s tbx pre r bs new (g : (Z -> Z) -> Z -> Z) p :
  let k := Z.of_nat (length new) in let m := g (bytes s) in
  back_ok s tbx pre r bs -> k <= r ->
  p = (tbx_fbyte s tbx + Z.of_nat (length pre)) mod tbx_size s tbx -> 0 <= p -> p + k <= tbx_size s tbx ->
  load m (tbx_bufadr s tbx + p) k = new ->
  (forall x, ~ in_range (tbx_bufadr s tbx + p) k x -> m x = bytes s x) ->
  let s' := s <| bytes ::= g |> <| tbx_frbs ::= <[tbx := tbx_frbs s tbx - k]> |>
              <| tbx_avbs ::= <[tbx := tbx_avbs s tbx + k]> |> in
  back_ok s' tbx (pre ++ new) (r - k) bs /\ only_buf tbx (in_buf s tbx) s s'.
Proof.
  intros k m [Hsz Hf Ea Ef Hr Hp Hb] Hk Ep Hp0 Hpk Hnew Hout s'. split.
  - split; unfold s'; state_simpl; rewrite ?upd_eq, ?length_app, ?Nat2Z.inj_add; fold k; [lia..| |].
    + rewrite ring_load_app by lia. f_equal.
      * rewrite <- Hp at 2. rewrite <- (Z.add_0_r (tbx_fbyte s tbx)).
        apply (ring_same _ _ (proj1 Hsz)) with (d := Z.of_nat (length pre)) (k := k) (p := p); [done|lia..|exact Hout].
      * etransitivity; [|exact Hnew]. apply ring_new; [done|lia|done].
    + rewrite <- Hb at 2. replace (Z.of_nat (length pre) + k + (r - k)) with (Z.of_nat (length pre) + r) by lia.
      apply (ring_same _ _ (proj1 Hsz)) with (d := Z.of_nat (length pre)) (k := k) (p := p); [done|lia..|exact Hout].
  - exists (tbx_fbyte s), (<[tbx := tbx_frbs s tbx - k]> (tbx_frbs s)), (<[tbx := tbx_avbs s tbx + k]> (tbx_avbs s)), m.
    split; [by destruct s|]. split; [intros t Ht; by rewrite !upd_ne by done|].
    intros x Hx. apply Hout. unfold in_buf, in_range in *. lia.
Qed.

Lemma back_bytes fuel s tbx pre bs msg n fb t :
  back_ok s tbx pre n bs -> n <= Z.of_nat fuel -> fb <> -1 -> 0 <= fb + t < 2 * tbx_size s tbx ->
  (fb + t) mod tbx_size s tbx = (tbx_fbyte s tbx + Z.of_nat (length pre)) mod tbx_size s tbx ->
  apart_mem msg n (tbx_bufadr s tbx) (tbx_size s tbx) ->
  exists s', tbxbackput_loop fuel tbx msg n TYPE_NONE fb t s = Done 0 s' /\
    tbx_holds s' tbx (pre ++ load (bytes s) msg n ++ bs) /\ only_buf tbx (in_buf s tbx) s s'.
Proof.
  revert s pre msg n fb t. induction fuel as [|fuel IH]; intros s pre msg n fb t Hk Hn Hfb Hft Hm Hap;
    cbn [tbxbackput_loop]; run_m; pose proof Hk as [Hsz Hf Ea Ef Hr Hp Hb].
  - replace n with 0 in * by lia. rewrite andb_false_r. run_m. exists s.
    split_and!; [done|by apply back_done|apply only_buf_refl].
  - destruct (Z.gtb_spec n 0) as [Hn0|Hn0].
    2:{ replace n with 0 in * by lia. rewrite andb_false_r. run_m. exists s.
        split_and!; [done|by apply back_done|apply only_buf_refl]. }
    rewrite (proj2 (nz_true _)) by lia. run_m. rewrite (proj2 (Z.eqb_neq _ _)) by done. run_m.
    rewrite TBX_MOD_SIZE_eq, Hm by lia.
    pose proof (Z.mod_pos_bound (tbx_fbyte s tbx + Z.of_nat (length pre)) (tbx_size s tbx)) as Hpb.
    set (p := (tbx_fbyte s tbx + Z.of_nat (length pre)) mod tbx_size s tbx) in *. rewrite piece_eq by lia. set (k := Z.min _ _).
    unfold put_piece, memcpy. cbn [TYPE_NONE Z.eqb]. run_m. rewrite (proj2 (Z.ltb_ge k 0)) by lia. run_m.
    rewrite count_put_eq by (state_simpl; lia). state_simpl. cbn [bind_out].
    set (new := load (bytes s) msg k). assert (Ek : Z.of_nat (length new) = k) by (apply length_load; lia).
    edestruct (back_turn s tbx pre n bs new (fun m => copied m (tbx_bufadr s tbx + p) msg k) p) as [Hk1 Ho1];
      rewrite ?Ek; [done|lia|done|lia|lia|by apply load_copied|intros x Hx; by apply copied_outside|].
    rewrite Ek in Hk1, Ho1.
    match type of Hk1 with back_ok ?st _ _ _ _ => set (s1 := st) in * end.
    destruct (IH s1 (pre ++ new) (msg + k) (n - k) p k) as (s' & -> & Hh' & Ho');
      [done|lia|lia|unfold s1; state_simpl; lia| |unfold s1, apart_mem in *; state_simpl; lia|].
    { unfold s1. state_simpl. rewrite length_app, Nat2Z.inj_add, Ek. unfold p.
      rewrite Zplus_mod_idemp_l. f_equal. lia. }
    exists s'. split_and!; [done| |apply (only_buf_trans _ _ _ _ _ _ Ho1 Ho'); unfold in_buf, s1; by state_simpl].
    rewrite <- app_assoc in Hh'. rewrite <- (Zplus_minus k n), load_app by lia. fold new. rewrite <- app_assoc.
    rewrite <- (load_ext (bytes s) (bytes s1) (msg + k) (msg + k) (n - k)); [exact Hh'|]. intros i Hi. unfold s1. state_simpl.
    apply copied_outside. unfold apart_mem in Hap. lia.
Qed.

(** [tbxbackput] puts a message before the others. *)
Lemma tbxbackput_spec s tbx bs msg n type :
  tbx_holds s tbx bs -> 0 <= n -> Z.of_nat (length bs) + n + 1 <= tbx_size s tbx -> type <> TYPE_NONE ->
  apart_mem msg n (tbx_bufadr s tbx) (tbx_size s tbx) ->
  exists s', tbxbackput tbx msg n type s = Done 0 s' /\
    tbx_holds s' tbx (type :: load (bytes s) msg n ++ bs) /\ only_buf tbx (in_buf s tbx) s s'.
Proof.
  intros Hh Hn Hl Ht Hap. pose proof Hh as [Hsz Hf Ea Ef Hr Hb].
  unfold tbxbackput. rewrite i32_small by lia. replace (Z.to_nat (n + 1)) with (S (Z.to_nat n)) by lia.
  cbn [tbxbackput_loop]. run_m. rewrite (proj2 (nz_true _)) by lia. rewrite (proj2 (Z.gtb_lt _ _)) by lia. run_m.
  change (-1 =? -1) with true. run_m. unfold TBX_REVERSE_MOD_SIZE. rewrite i32_small by lia.
  set (f := if _ >=? _ then _ else _).
  assert (Hfr : 0 <= f < tbx_size s tbx /\ (f + (1 + n)) mod tbx_size s tbx = tbx_fbyte s tbx mod tbx_size s tbx).
  { unfold f. destruct (Z.geb_spec (tbx_fbyte s tbx - (n + 1)) 0); (split; [lia|]).
    - f_equal. lia.
    - rewrite <- (Z_mod_plus_full (tbx_fbyte s tbx) 1). f_equal. lia. }
  clearbody f. destruct Hfr as [Hfr Hfm].
  unfold put_piece, poke. rewrite (proj2 (Z.eqb_neq _ _)) by done. run_m.
  rewrite count_put_eq by (state_simpl; lia). state_simpl. cbn [bind_out].
  set (s0 := s <| tbx_fbyte ::= <[tbx := f]> |>).
  assert (Hk0 : back_ok s0 tbx [] (n + 1) bs).
  { split; unfold s0; state_simpl; rewrite ?upd_eq; cbn [length Z.of_nat]; [lia|done|lia|lia|lia|done|].
    rewrite <- Hb at 2. apply ring_load_mod. rewrite <- Hfm. f_equal. lia. }
  assert (Ho0 : only_buf tbx (in_buf s tbx) s s0).
  { exists (<[tbx := f]> (tbx_fbyte s)), (tbx_frbs s), (tbx_avbs s), (bytes s). split; [unfold s0; by destruct s|].
    split; [|done]. intros t Hne. by rewrite upd_ne. }
  edestruct (back_turn s0 tbx [] (n + 1) bs [type] (fun m => <[tbx_bufadr s tbx + f := type]> m) f) as [Hk1 Ho1];
    [done|cbn; lia|unfold s0; state_simpl; cbn; rewrite upd_eq, Z.add_0_r; by rewrite Z.mod_small|lia
    |unfold s0; state_simpl; cbn; lia|unfold s0; state_simpl; cbn; by rewrite load_1, upd_eq| |].
  { intros x Hx. apply upd_ne. unfold in_range, s0 in Hx. state_simpl_in Hx. cbn in Hx. lia. }
  change (Z.of_nat (length [type])) with 1 in *. rewrite Z.add_simpl_r in *. cbn [app] in Hk1.
  match type of Hk1 with back_ok ?st _ _ _ _ => set (s1 := st) in * end.
  destruct (back_bytes (Z.to_nat n) s1 tbx [type] bs msg n f 1) as (s' & E & Hh' & Ho');
    [done|lia|lia|unfold s1, s0; state_simpl; lia|unfold s1, s0; state_simpl; by rewrite upd_eq|unfold s1, s0; by state_simpl|].
  exists s'. split_and!; [exact E| |].
  - cbn [app] in Hh'. rewrite <- (load_ext (bytes s) (bytes s1) msg msg n); [exact Hh'|].
    intros i Hi. unfold s1, s0. state_simpl. apply upd_ne. unfold apart_mem in Hap. lia.
  - apply (only_buf_trans _ _ (in_buf s1 tbx) _ s1); [|exact Ho'|unfold in_buf, s1, s0; by state_simpl].
    apply (only_buf_trans _ _ (in_buf s0 tbx) _ s0); [done|exact Ho1|unfold in_buf, s0; by state_simpl].
Qed.
End Buffer.

(** * Services of a mailbox for which no task waits *)

Section Idle.
Implicit Types (s : TBXS) (tbx c n : Z) (smx : semp) (L : list (Z * list Z)).

Definition free_smx (σ : RTAI) smx : Prop :=
  q_next σ (SemQueue smx) = SemQueue smx /\ q_task σ (SemQueue smx) = 0 /\ sem_count σ smx = 1.

(** The running task [c] is not blocked, and no other uses the mailbox; no
    broadcast goes on. *)
Record idle s tbx c : Prop := {
  id_magic : tbx_magic s tbx = RT_TBX_MAGIC;
  id_task : tbx_waiting_task s tbx = 0;
  id_cur : rt_smp_current (sched s) = c /\ blocked_on (sched s) c = QNull;
  id_snd : free_smx (sched s) (TbxSnd tbx);
  id_rcv : free_smx (sched s) (TbxRcv tbx);
  id_bcb : bcb_type s tbx <> TYPE_BROADCAST
}.

(** The state with the count [v] of [smx]. *)
Definition taken s smx (v : Z) : TBXS := s <| sched := sched s <| sem_count ::= <[smx := v]> |> |>.

Lemma take_eq s smx v :
  schd (fun σ => Done tt (σ <| sem_count ::= <[smx := v]> |>)) s = Done tt (taken s smx v).
Proof. done. Qed.

(** What a service leaves as it was. *)
Definition same_box s s' : Prop :=
  tbx_bufadr s' = tbx_bufadr s /\ tbx_bcbadr s' = tbx_bcbadr s /\ tbx_size s' = tbx_size s /\
  tbx_waiting_nr s' = tbx_waiting_nr s /\ heap s' = heap s /\
  exists f, sched s' = sched s <| sem_count := f |> /\ forall x, f x = sem_count (sched s) x.

Lemma same_box_refl s : same_box s s.
Proof. split_and!; try done. exists (sem_count (sched s)). split; [by destruct s as [? ? ? ? ? ? ? ? ? ? ? []]|done]. Qed.

Lemma same_box_trans s s1 s2 : same_box s s1 -> same_box s1 s2 -> same_box s s2.
Proof.
  intros (A1 & A2 & A3 & A4 & A5 & f & A6 & A7) (B1 & B2 & B3 & B4 & B5 & g & B6 & B7).
  split_and!; [by rewrite B1|by rewrite B2|by rewrite B3|by rewrite B4|by rewrite B5|].
  exists g. rewrite B6, A6. split; [done|]. intros x. rewrite B7, A6. apply A7.
Qed.

Lemma holds_sched s tbx bs smx v : tbx_holds s tbx bs -> tbx_holds (taken s smx v) tbx bs.
Proof. intros [H1 H2 H3 H4 H5 H6]. by split. Qed.

(** The end of a service that had its turn. *)
Lemma turn_ends s s1 tbx c smx (W : Z -> Prop) :
  idle s tbx c -> smx = TbxSnd tbx \/ smx = TbxRcv tbx -> only_buf tbx W (taken s smx 0) s1 ->
  ~ W (tbx_bcbadr s tbx) ->
  tbx_signal tbx s1 = Done tt s1 /\ tbx_smx_signal tbx smx s1 = Done tt (taken s1 smx 1) /\
  idle (taken s1 smx 1) tbx c /\ same_box s (taken s1 smx 1).
Proof.
  intros [Hm Ht [Hc Hb] Hs Hr Hbc] Hx (f1 & f2 & f3 & m & -> & _ & Hout) HW.
  assert (Hsm : free_smx (sched s) smx) by (by destruct Hx as [->| ->]). destruct Hsm as (Q1 & Q2 & Q3).
  assert (Hcnt : forall x, <[smx := 1]> (<[smx := 0]> (sem_count (sched s))) x = sem_count (sched s) x).
  { intros x. rewrite !upd_dec. case_decide as E; [|done]. by rewrite <- Q3; f_equal. }
  split_and!.
  - unfold tbx_signal. run_m. unfold taken. state_simpl. by rewrite Ht.
  - unfold tbx_smx_signal. run_m. unfold taken. state_simpl. by rewrite Q1, Q2.
  - unfold taken. split; state_simpl; [done|done|done| | |].
    + unfold free_smx in *. state_simpl. by rewrite Hcnt.
    + unfold free_smx in *. state_simpl. by rewrite Hcnt.
    + unfold bcb_type, taken in *. state_simpl. state_simpl_in Hout. by rewrite Hout.
  - unfold taken. split_and!; state_simpl; [done..|]. eexists. split; [reflexivity|]. exact Hcnt.
Qed.
End Idle.

(** * A queue of messages of one size *)

Section Messages.
Implicit Types (s : TBXS) (tbx c n a : Z) (smx : semp) (L : list (Z * list Z)).

(** The messages as they are in the buffer: each a type and its bytes. *)
Definition packed L : list Z := concat ((fun m => m.1 :: m.2) <$> L).

Definition msg_ok n (m : Z * list Z) : Prop :=
  (m.1 = TYPE_NORMAL \/ m.1 = TYPE_URGENT) /\ Z.of_nat (length m.2) = n.

(** The mailbox has the messages [L], all of [n] bytes, and no task waits. *)
Record tbx_ready s tbx c n L : Prop := {
  tr_idle : idle s tbx c;
  tr_holds : tbx_holds s tbx (packed L);
  tr_msgs : Forall (msg_ok n) L;
  tr_bcb : ~ in_buf s tbx (tbx_bcbadr s tbx);
  tr_size : 0 <= n /\ n + 1 <= tbx_size s tbx
}.

(** A buffer of a task: apart from those of the mailbox. *)
Definition user_buf s tbx a n : Prop :=
  apart_mem a n (tbx_bufadr s tbx) (tbx_size s tbx) /\ ~ in_range a n (tbx_bcbadr s tbx).

Lemma packed_app L L' : packed (L ++ L') = packed L ++ packed L'.
Proof. unfold packed. by rewrite fmap_app, concat_app. Qed.

Lemma packed_length n L : Forall (msg_ok n) L -> Z.of_nat (length (packed L)) = (n + 1) * Z.of_nat (length L).
Proof.
  induction 1 as [|[t m] L [_ Hm] _ IH]; [cbn; lia|]. cbn [snd] in Hm.
  change (packed ((t, m) :: L)) with ((t :: m) ++ packed L). rewrite length_app. cbn [length]. lia.
Qed.

Lemma ready_fits s tbx c n L : tbx_ready s tbx c n L -> (n + 1) * Z.of_nat (length L) <= tbx_size s tbx.
Proof. intros [_ Hh Hm _ _]. rewrite <- (packed_length n L Hm). apply Hh. Qed.

Lemma not_too_big s tbx c n L : tbx_ready s tbx c n L -> too_big s tbx n = false /\ pack_size n = n + 1.
Proof.
  intros [_ [Hs _ _ _ _ _] _ _ Hn]. unfold too_big, pack_size, u32. rewrite !Z.mod_small, i32_small by lia.
  split; [|done]. rewrite Z.gtb_ltb. apply Z.ltb_ge. lia.
Qed.

Lemma ready_step s s' tbx c n L L' :
  tbx_ready s tbx c n L -> idle s' tbx c -> same_box s s' -> tbx_holds s' tbx (packed L') ->
  Forall (msg_ok n) L' -> tbx_ready s' tbx c n L'.
Proof.
  intros [_ _ _ Hb Hn] Hi (E1 & E2 & E3 & _) Hh Hm. split; [done|done|done| |by rewrite E3].
  unfold in_buf. by rewrite E1, E2, E3.
Qed.

(** [rt_tbx_send_if] and [rt_tbx_urgent_if] after the checks. *)
Definition put_if tbx n (put : T Z) : T Z :=
  room ← tbx_check_room tbx tbx_frbs (pack_size n);
  if nz room then _ ← put; tbx_signal tbx;; tbx_smx_signal tbx (sndsmx tbx);; mret 0 else mret n.

Lemma put_if_spec s tbx c n L L' (put : T Z) :
  tbx_ready s tbx c n L -> (n + 1) * (Z.of_nat (length L) + 1) <= tbx_size s tbx -> Forall (msg_ok n) L' ->
  (forall s1, s1 = taken s (TbxSnd tbx) 0 ->
     exists s2, put s1 = Done 0 s2 /\ tbx_holds s2 tbx (packed L') /\ only_buf tbx (in_buf s tbx) s1 s2) ->
  exists s', put_if tbx n put s = Done 0 s' /\ tbx_ready s' tbx c n L' /\ same_box s s' /\
    (forall x, ~ in_buf s tbx x -> bytes s' x = bytes s x).
Proof.
  intros Hr Hroom Hm' Hput. pose proof Hr as [Hi Hh Hm Hb Hn]. destruct (not_too_big _ _ _ _ _ Hr) as [_ Ep].
  unfold put_if, tbx_check_room. rewrite Ep. run_m.
  pose proof Hh as [Hs _ _ Hf _ _]. rewrite (packed_length n L Hm) in Hf.
  rewrite (proj2 (Z.ltb_ge _ _)) by lia. destruct (id_snd _ _ _ Hi) as (_ & _ & Hc).
  change (sem_count (sched s) (sndsmx tbx)) with (sem_count (sched s) (TbxSnd tbx)). rewrite Hc.
  change (nz 1) with true. cbn [negb orb]. change (sndsmx tbx) with (TbxSnd tbx). rewrite take_eq. cbn [bind_out].
  rewrite (proj2 (nz_true (n + 1))) by lia. destruct (Hput _ eq_refl) as (s2 & -> & Hh2 & Ho). cbn [bind_out].
  destruct (turn_ends s s2 tbx c (TbxSnd tbx) (in_buf s tbx) Hi) as (-> & E & Hi' & Hbox); [by left|done|done|].
  cbn [bind_out]. rewrite E. cbn [bind_out]. eexists. split; [reflexivity|]. split_and!; [|done|].
  - apply (ready_step s _ tbx c n L); [done..|by apply holds_sched|done].
  - intros x Hx. destruct Ho as (f1 & f2 & f3 & m & -> & _ & Hout). unfold taken in *. state_simpl. by apply Hout.
Qed.

Lemma put_if_full s tbx c n L (put : T Z) :
  tbx_ready s tbx c n L -> tbx_size s tbx < (n + 1) * (Z.of_nat (length L) + 1) -> put_if tbx n put s = Done n s.
Proof.
  intros Hr Hroom. pose proof Hr as [Hi Hh Hm Hb Hn]. destruct (not_too_big _ _ _ _ _ Hr) as [_ Ep].
  unfold put_if, tbx_check_room. rewrite Ep. run_m. pose proof Hh as [Hs _ _ Hf _ _].
  rewrite (packed_length n L Hm) in Hf. rewrite (proj2 (Z.ltb_lt _ _)) by lia. cbn [orb]. by run_m.
Qed.

(** What the services do to the messages; [None] if there is nothing to
    receive. *)
Definition spec_put (size n : Z) (urgent : bool) (bs : list Z) L : Z * list (Z * list Z) :=
  if (n + 1) * (Z.of_nat (length L) + 1) <=? size
  then (0, if urgent then (TYPE_URGENT, bs) :: L else L ++ [(TYPE_NORMAL, bs)]) else (n, L).

Definition spec_get n L : Z * option (list Z) * list (Z * list Z) :=
  match L with [] => (n, None, []) | m :: L => (0, Some m.2, L) end.

Lemma send_if_spec s tbx c n L (urgent : bool) a :
  tbx_ready s tbx c n L -> user_buf s tbx a n ->
  let '(r, L') := spec_put (tbx_size s tbx) n urgent (load (bytes s) a n) L in
  exists s', (if urgent then rt_tbx_urgent_if tbx a n else rt_tbx_send_if tbx a n) s = Done r s' /\
    tbx_ready s' tbx c n L' /\ same_box s s' /\ (forall x, ~ in_buf s tbx x -> bytes s' x = bytes s x).
Proof.
  intros Hr [Hap _]. pose proof Hr as [Hi Hh Hm Hb Hn]. destruct (not_too_big _ _ _ _ _ Hr) as [Et _].
  set (put := if urgent then tbxbackput tbx a n TYPE_URGENT else tbxput tbx a n TYPE_NORMAL).
  assert (E : (if urgent then rt_tbx_urgent_if tbx a n else rt_tbx_send_if tbx a n) s = put_if tbx n put s).
  { destruct urgent; unfold rt_tbx_urgent_if, rt_tbx_send_if, CHK_TBX_MAGIC; run_m;
      rewrite (id_magic _ _ _ Hi), Z.eqb_refl; cbn [negb]; by rewrite Et. }
  rewrite E. unfold spec_put. destruct (Z.leb_spec ((n + 1) * (Z.of_nat (length L) + 1)) (tbx_size s tbx)) as [Hl|Hl].
  - apply (put_if_spec s tbx c n L); [done|done| |].
    + destruct urgent; [constructor; [|done]|apply Forall_app; split; [done|]; constructor; [|done]];
        (split; [by (left + right)|]; cbn [snd]; apply length_load; lia).
    + intros s1 ->. pose proof (packed_length n L Hm) as El.
      assert (Hap1 : apart_mem a n (tbx_bufadr (taken s (TbxSnd tbx) 0) tbx) (tbx_size (taken s (TbxSnd tbx) 0) tbx)) by done.
      assert (Hlen : Z.of_nat (length (packed L)) + n + 1 <= tbx_size (taken s (TbxSnd tbx) 0) tbx)
        by (rewrite El; unfold taken; state_simpl; lia).
      unfold put. destruct urgent.
      * destruct (tbxbackput_spec (taken s (TbxSnd tbx) 0) tbx (packed L) a n TYPE_URGENT) as (s2 & E2 & Hh2 & Ho);
          [by apply holds_sched|lia|done|done|done|]. exists s2. done.
      * destruct (tbxput_spec (taken s (TbxSnd tbx) 0) tbx (packed L) a n TYPE_NORMAL) as (s2 & E2 & Hh2 & Ho);
          [by apply holds_sched|lia|done|done|done|]. exists s2. split_and!; [done| |done].
        rewrite packed_app. unfold packed at 2. cbn. by rewrite app_nil_r.
  - exists s. rewrite (put_if_full s tbx c n L) by done. split_and!; [done|done|apply same_box_refl|done].
Qed.

Lemma skip_type_spec s tbx t bs :
  tbx_holds s tbx (t :: bs) -> first_type s tbx = t /\
  exists s', skip_type tbx s = Done tt s' /\ tbx_holds s' tbx bs /\ only_buf tbx (fun _ => False) s s'.
Proof.
  intros Hh. pose proof Hh as [Hs Hf Ea Ef Hr Hb]. cbn [length] in *. split.
  - assert (E : [first_type s tbx] = [t]); [|congruence].
    change [t] with (take (Z.to_nat 1) (t :: bs)). rewrite <- (first_bytes s tbx (t :: bs) 1 Hh) by (cbn [length]; lia).
    by rewrite load_1.
  - unfold skip_type. run_m.
    assert (E : i32 (if u32 (tbx_fbyte s tbx + 1) <? u32 (tbx_size s tbx) then u32 (tbx_fbyte s tbx + 1)
                     else u32 (tbx_fbyte s tbx + 1) - u32 (tbx_size s tbx)) = (tbx_fbyte s tbx + 1) mod tbx_size s tbx).
    { unfold u32. rewrite !(Z.mod_small _ 4294967296) by lia. rewrite wrap_once by lia.
      pose proof (Z.mod_pos_bound (tbx_fbyte s tbx + 1) (tbx_size s tbx)). apply i32_small. lia. }
    rewrite E, Ea, Ef, !i32_small by lia. rewrite <- Ef, <- Ea.
    eexists. split; [reflexivity|]. split.
    + pose proof (get_turn s tbx (t :: bs) 1 (fun m => m) Hh) as H. cbn [length] in H.
      specialize (H ltac:(lia) ltac:(done)). replace (s <| bytes ::= fun m => m |>) with s in H by (by destruct s). exact H.
    + exists (<[tbx := (tbx_fbyte s tbx + 1) mod tbx_size s tbx]> (tbx_fbyte s)),
        (<[tbx := tbx_frbs s tbx + 1]> (tbx_frbs s)), (<[tbx := tbx_avbs s tbx - 1]> (tbx_avbs s)), (bytes s).
      split; [by destruct s|]. split; [intros x Hx; by rewrite !upd_ne by done|done].
Qed.

Lemma receive_if_spec s tbx c n L a :
  tbx_ready s tbx c n L -> user_buf s tbx a n ->
  let '(r, m, L') := spec_get n L in
  exists s', rt_tbx_receive_if tbx a n s = Done r s' /\ tbx_ready s' tbx c n L' /\ same_box s s' /\
    (forall x, ~ in_range a n x -> bytes s' x = bytes s x) /\ (forall bs, m = Some bs -> load (bytes s') a n = bs).
Proof.
  intros Hr [Hap Hnb]. pose proof Hr as [Hi Hh Hm Hb Hn]. destruct (not_too_big _ _ _ _ _ Hr) as [Et Ep].
  unfold rt_tbx_receive_if, CHK_TBX_MAGIC, tbx_check_msg. run_m.
  rewrite (id_magic _ _ _ Hi), Z.eqb_refl. cbn [negb]. rewrite Et, Ep. run_m.
  pose proof Hh as [Hs _ Ha _ _ _]. rewrite (packed_length n L Hm) in Ha.
  destruct (id_rcv _ _ _ Hi) as (_ & _ & Hc). change (rcvsmx tbx) with (TbxRcv tbx). rewrite Hc. cbn [Z.eqb orb].
  destruct L as [|[t m] L]; cbn [spec_get length] in *.
  - rewrite (proj2 (Z.ltb_lt _ _)) by lia. run_m. exists s. split_and!; [done|done|apply same_box_refl|done|done].
  - rewrite (proj2 (Z.ltb_ge _ _)) by lia. run_m. rewrite take_eq. cbn [bind_out].
    rewrite (proj2 (Z.eqb_neq _ _)) by apply Hi. apply Forall_cons in Hm as [[Htt Hml] Hm]. cbn [fst snd] in *.
    destruct (skip_type_spec (taken s (TbxRcv tbx) 0) tbx t (m ++ packed L)) as [Eft (s2 & E2 & Hh2 & Ho2)];
      [by apply holds_sched|]. change (first_type (taken s (TbxRcv tbx) 0) tbx) with (first_type s tbx) in Eft.
    rewrite Eft, E2. cbn [bind_out].
    assert (Hnz : nz t = true /\ t =? TYPE_BROADCAST = false) by (destruct Htt as [->| ->]; by split).
    destruct Hnz as [-> Htb]. unfold receive_end, tbx_receive_core. rewrite Htb. run_m.
    assert (Hbuf2 : tbx_bufadr s2 tbx = tbx_bufadr s tbx /\ tbx_size s2 tbx = tbx_size s tbx)
      by (destruct Ho2 as (? & ? & ? & ? & -> & _); done).
    destruct Hbuf2 as [Eb2 Es2].
    destruct (tbxget_spec s2 tbx (m ++ packed L) a n) as (s3 & -> & Hh3 & El & Ho3);
      [done|rewrite length_app; lia|by rewrite Eb2, Es2|]. cbn [bind_out].
    assert (Ho : only_buf tbx (in_range a n) (taken s (TbxRcv tbx) 0) s3).
    { apply (only_buf_trans _ _ (in_range a n) _ s2); [|done|done].
      destruct Ho2 as (f1 & f2 & f3 & m' & E & Hne & Hout). exists f1, f2, f3, m'. split_and!; [done|done|].
      intros x _. apply Hout. tauto. }
    destruct (turn_ends s s3 tbx c (TbxRcv tbx) (in_range a n) Hi) as (-> & E & Hi' & Hbox); [by right|done|done|].
    cbn [bind_out]. change (rcvsmx tbx) with (TbxRcv tbx). rewrite E. run_m. eexists. split; [reflexivity|].
    replace (Z.to_nat n) with (length m) in Hh3, El by lia. rewrite drop_app_length in Hh3. rewrite take_app_length in El.
    split_and!; [|done| |].
    + apply (ready_step s _ tbx c n ((t, m) :: L)); [done..|by apply holds_sched|done].
    + intros x Hx. destruct Ho as (f1 & f2 & f3 & m' & -> & _ & Hout). unfold taken in *. state_simpl. by apply Hout.
    + intros bs [= <-]. exact El.
Qed.
End Messages.

(** ** Sequences of calls *)

Section Calls.
Implicit Types (s : TBXS) (tbx c n a : Z) (L : list (Z * list Z)).

(** A message is sent from, or received in, the buffer [a]. *)
Inductive tbx_call : Type := Put (urgent : bool) (a : Z) | Get (a : Z).

(** What the task sees: the message and the result of a call to send; the
    result of a call to receive, and the message, if it gets one. *)
Inductive tbx_obs : Type := Sent (urgent : bool) (bs : list Z) (r : Z) | Got (r : Z) (m : option (list Z)).

Definition call_buf (call : tbx_call) : Z := match call with Put _ a => a | Get a => a end.

Definition do_call tbx n (call : tbx_call) : T tbx_obs :=
  s ← get;
  match call with
  | Put urgent a =>
      r ← (if urgent then rt_tbx_urgent_if tbx a n else rt_tbx_send_if tbx a n);
      mret (Sent urgent (load (bytes s) a n) r)
  | Get a =>
      r ← rt_tbx_receive_if tbx a n;
      s ← get;
      mret (Got r (if r =? 0 then Some (load (bytes s) a n) else None))
  end.

Fixpoint do_calls tbx n (calls : list tbx_call) : T (list tbx_obs) :=
  match calls with
  | [] => mret []
  | call :: calls => o ← do_call tbx n call; os ← do_calls tbx n calls; mret (o :: os)
  end.

(** The observations are those of the abstract queue [L], which becomes
    [L']. *)
Fixpoint explains (size n : Z) L (os : list tbx_obs) L' : Prop :=
  match os with
  | [] => L' = L
  | Sent urgent bs r :: os =>
      let '(r1, L1) := spec_put size n urgent bs L in r = r1 /\ explains size n L1 os L'
  | Got r m :: os =>
      let '(r1, m1, L1) := spec_get n L in r = r1 /\ m = m1 /\ explains size n L1 os L'
  end.

Lemma tbx_do_call_spec s tbx c n L call :
  tbx_ready s tbx c n L -> 0 < n -> user_buf s tbx (call_buf call) n ->
  exists o s' L', do_call tbx n call s = Done o s' /\ explains (tbx_size s tbx) n L [o] L' /\
    tbx_ready s' tbx c n L' /\ same_box s s'.
Proof.
  intros Hr Hn Hb. destruct call as [urgent a|a]; unfold do_call; run_m; cbn [call_buf] in Hb.
  - pose proof (send_if_spec s tbx c n L urgent a Hr Hb) as H.
    destruct (spec_put _ _ _ _ _) as [r L'] eqn:E. destruct H as (s' & Es & Hr' & Hbox & _).
    destruct urgent; rewrite Es; cbn [bind_out]; eexists _, s', L'; (split; [reflexivity|]);
      cbn [explains]; by rewrite E.
  - pose proof (receive_if_spec s tbx c n L a Hr Hb) as H.
    destruct (spec_get n L) as [[r m] L'] eqn:E. destruct H as (s' & -> & Hr' & Hbox & _ & Hm).
    cbn [bind_out]. eexists _, s', L'. split; [reflexivity|]. cbn [explains]. rewrite E. split_and!; try done.
    destruct L as [|x L]; cbn [spec_get] in E; injection E as <- <- <-; [by rewrite (proj2 (Z.eqb_neq n 0)) by lia|].
    cbn [Z.eqb]. f_equal. by apply Hm.
Qed.

Lemma user_buf_same s s' tbx a n : same_box s s' -> user_buf s tbx a n -> user_buf s' tbx a n.
Proof. intros (E1 & E2 & E3 & _). unfold user_buf. by rewrite E1, E2, E3. Qed.
End Calls.

(** * Properties *)

(** C6: a typed mailbox is a queue of messages: over any sequence of calls
    that do not wait, with messages of one size, it takes as many as fit with
    their types, gives them back unchanged, in the order they were sent, but
    the urgent ones before all others and the last of these first, and refuses
    to send when it is full and to receive when it is empty. *)
Theorem tbx_refines s tbx c n L calls :
  tbx_ready s tbx c n L -> 0 < n -> Forall (fun call => user_buf s tbx (call_buf call) n) calls ->
  exists os s' L', do_calls tbx n calls s = Done os s' /\ explains (tbx_size s tbx) n L os L' /\
    tbx_ready s' tbx c n L'.
Proof.
  intros Hr Hn. revert s L Hr. induction calls as [|call calls IH]; intros s L Hr HF.
  - exists [], s, L. by split_and!.
  - apply Forall_cons in HF as [Hb HF].
    destruct (tbx_do_call_spec s tbx c n L call Hr Hn Hb) as (o & s1 & L1 & E & Hex & Hr1 & Hbox).
    destruct (IH s1 L1 Hr1) as (os & s2 & L2 & E2 & Hex2 & Hr2).
    { eapply Forall_impl; [exact HF|]. intros call'. by apply user_buf_same. }
    exists (o :: os), s2, L2. split_and!; [|clear E E2|done].
    + cbn [do_calls]. unfold mbind, M_bind. rewrite E. cbn [bind_out]. by rewrite E2.
    + destruct Hbox as (_ & _ & E3 & _). rewrite E3 in Hex2. destruct o as [u bs r|r m]; cbn [explains] in *.
      * destruct (spec_put _ _ _ _ _) as [r1 L']. destruct Hex as [-> ->]. done.
      * destruct (spec_get _ _) as [[r1 m1] L']. destruct Hex as (-> & -> & ->). done.
Qed.

(** ** Services that need not wait *)

Section NoWait.
Implicit Types (s : TBXS) (tbx c n a : Z) (smx : semp) (L : list (Z * list Z)).

Lemma idle_not_blocked s tbx c smx v : idle s tbx c -> is_blocked (taken s smx v) c = false.
Proof.
  intros H. change (is_blocked s c = false). unfold is_blocked. by destruct (id_cur _ _ _ H) as [_ ->].
Qed.

Lemma smx_wait_free s tbx c smx :
  idle s tbx c -> smx = TbxSnd tbx \/ smx = TbxRcv tbx ->
  tbx_smx_wait tbx smx c s = Done false (taken s smx 0) /\
  forall time, tbx_smx_wait_until tbx smx time c s = Done false (taken s smx 0).
Proof.
  intros Hi Hx. assert (Hs : sem_count (sched s) smx = 1) by (destruct Hx as [->| ->]; apply Hi).
  split; [|intros time]; unfold tbx_smx_wait, tbx_smx_wait_until; run_m; rewrite Hs; change (nz 1) with true;
    cbn [negb]; rewrite take_eq; cbn [bind_out]; [|done]. by rewrite (idle_not_blocked _ tbx).
Qed.

Lemma send_body_put_if s tbx c n L (put : T Z) wait_turn wait_room s2 :
  tbx_ready s tbx c n L -> (n + 1) * (Z.of_nat (length L) + 1) <= tbx_size s tbx ->
  wait_turn c s = Done false (taken s (TbxSnd tbx) 0) ->
  wait_room c (taken s (TbxSnd tbx) 0) = Done false (taken s (TbxSnd tbx) 0) ->
  put (taken s (TbxSnd tbx) 0) = Done 0 s2 ->
  send_body tbx wait_turn wait_room n put s = put_if tbx n put s.
Proof.
  intros Hr Hl Ht Hw Hp. pose proof Hr as [Hi Hh Hm _ Hn]. destruct (not_too_big _ _ _ _ _ Hr) as [_ Ep].
  destruct (id_cur _ _ _ Hi) as [Hc _]. unfold send_body, put_if, tbx_check_room. run_m.
  unfold rt_whoami. rewrite Hc, Ht. cbn [bind_out]. rewrite Hw. cbn [bind_out]. unfold send_rest. run_m. rewrite Hp, Ep. cbn [bind_out].
  pose proof (th_frbs _ _ _ Hh) as Hf. rewrite (packed_length n L Hm) in Hf. rewrite (proj2 (Z.ltb_ge _ _)) by lia.
  destruct (id_snd _ _ _ Hi) as (_ & _ & Hcn). change (sndsmx tbx) with (TbxSnd tbx). rewrite Hcn.
  change (nz 1) with true. cbn [negb orb]. rewrite take_eq. cbn [bind_out].
  rewrite (proj2 (nz_true (n + 1))) by lia. by rewrite Hp.
Qed.

Lemma room_free s tbx c n L :
  tbx_ready s tbx c n L -> (n + 1) * (Z.of_nat (length L) + 1) <= tbx_size s tbx ->
  let s1 := taken s (TbxSnd tbx) 0 in
  tbx_wait_room tbx tbx_frbs (n + 1) c s1 = Done false s1 /\
  forall time, tbx_wait_room_until tbx tbx_frbs (n + 1) time c s1 = Done false s1.
Proof.
  intros Hr Hl s1. pose proof Hr as [Hi Hh Hm _ Hn]. pose proof (th_frbs _ _ _ Hh) as Hf.
  rewrite (packed_length n L Hm) in Hf. change (tbx_frbs s tbx) with (tbx_frbs s1 tbx) in Hf.
  split; [|intros time]; unfold tbx_wait_room, tbx_wait_room_until; run_m; rewrite (proj2 (Z.ltb_ge _ _)) by lia;
    cbn [bind_out]; [|done]. unfold s1. by rewrite (idle_not_blocked _ tbx).
Qed.

Lemma put_free s tbx c n L (urgent : bool) a :
  tbx_ready s tbx c n L -> (n + 1) * (Z.of_nat (length L) + 1) <= tbx_size s tbx -> user_buf s tbx a n ->
  exists s2, (if urgent then tbxbackput tbx a n TYPE_URGENT else tbxput tbx a n TYPE_NORMAL)
               (taken s (TbxSnd tbx) 0) = Done 0 s2.
Proof.
  intros Hr Hl [Hap _]. pose proof Hr as [Hi Hh Hm _ Hn]. pose proof (packed_length n L Hm) as El.
  assert (Hlen : Z.of_nat (length (packed L)) + n + 1 <= tbx_size (taken s (TbxSnd tbx) 0) tbx)
    by (rewrite El; unfold taken; state_simpl; lia).
  destruct urgent;
    [destruct (tbxbackput_spec (taken s (TbxSnd tbx) 0) tbx (packed L) a n TYPE_URGENT) as (s2 & E2 & _)
    |destruct (tbxput_spec (taken s (TbxSnd tbx) 0) tbx (packed L) a n TYPE_NORMAL) as (s2 & E2 & _)];
    try done; try lia; try (by apply holds_sched); by exists s2.
Qed.

Lemma msg_there s tbx c n L :
  tbx_ready s tbx c n L -> L <> [] ->
  let s1 := taken s (TbxRcv tbx) 0 in
  exists t s2, nz t = true /\ skip_type tbx s1 = Done tt s2 /\ first_type s1 tbx = t /\ is_blocked s2 c = false /\
    tbx_check_msg tbx tbx_avbs (n + 1) s = Done t s2.
Proof.
  intros Hr HL s1. pose proof Hr as [Hi Hh Hm _ Hn]. destruct L as [|[t m] L]; [done|].
  pose proof (th_avbs _ _ _ Hh) as Ha. rewrite (packed_length n _ Hm) in Ha. cbn [length] in Ha.
  apply Forall_cons in Hm as [[Htt _] _]. cbn [fst] in Htt.
  destruct (skip_type_spec s1 tbx t (m ++ packed L)) as [Et (s2 & E2 & _ & Ho)]; [by apply holds_sched|].
  exists t, s2. split_and!; [by destruct Htt as [->| ->]|done|done| |].
  - destruct Ho as (f1 & f2 & f3 & m' & -> & _). apply (idle_not_blocked s tbx c (TbxRcv tbx) 0 Hi).
  - unfold tbx_check_msg. run_m. destruct (id_rcv _ _ _ Hi) as (_ & _ & Hc).
    change (rcvsmx tbx) with (TbxRcv tbx). rewrite Hc. cbn [Z.eqb orb]. rewrite (proj2 (Z.ltb_ge _ _)) by lia. run_m.
    rewrite take_eq. cbn [bind_out]. rewrite (proj2 (Z.eqb_neq _ _)) by apply Hi. fold s1. rewrite E2. cbn [bind_out].
    by rewrite <- Et.
Qed.

Lemma msg_waits_not s tbx c n L t s2 :
  tbx_ready s tbx c n L -> L <> [] ->
  let s1 := taken s (TbxRcv tbx) 0 in
  skip_type tbx s1 = Done tt s2 -> first_type s1 tbx = t -> is_blocked s2 c = false ->
  tbx_wait_msg tbx tbx_avbs (n + 1) c s1 = Done (false, t) s2 /\
  forall time, tbx_wait_msg_until tbx tbx_avbs (n + 1) time c s1 = Done (false, t) s2.
Proof.
  intros Hr HL s1 Es Et Hnb. pose proof Hr as [Hi Hh Hm _ Hn]. destruct L as [|m L]; [done|].
  pose proof (th_avbs _ _ _ Hh) as Ha. rewrite (packed_length n _ Hm) in Ha. cbn [length] in Ha.
  assert (Hb1 : (bcb_type s1 tbx =? TYPE_BROADCAST) = false) by (apply Z.eqb_neq, Hi).
  change (tbx_avbs s tbx) with (tbx_avbs s1 tbx) in Ha.
  assert (Hlt : (tbx_avbs s1 tbx <? n + 1) = false) by (apply Z.ltb_ge; lia).
  split; [|intros time]; unfold tbx_wait_msg, tbx_wait_msg_until; run_m; rewrite Hb1; run_m; rewrite Hlt; run_m;
    rewrite Es; cbn [bind_out]; rewrite Et; [by rewrite Hnb|done].
Qed.
End NoWait.

(** When there is room, or a message, the services that wait, with or
    without a time, do exactly what those do that do not wait. *)
Theorem tbx_variants_agree s tbx c n L a time delay :
  tbx_ready s tbx c n L -> user_buf s tbx a n ->
  ((n + 1) * (Z.of_nat (length L) + 1) <= tbx_size s tbx ->
     rt_tbx_send tbx a n s = rt_tbx_send_if tbx a n s /\
     rt_tbx_send_until tbx a n time s = rt_tbx_send_if tbx a n s /\
     rt_tbx_send_timed tbx a n delay s = rt_tbx_send_if tbx a n s /\
     rt_tbx_urgent tbx a n s = rt_tbx_urgent_if tbx a n s /\
     rt_tbx_urgent_until tbx a n time s = rt_tbx_urgent_if tbx a n s /\
     rt_tbx_urgent_timed tbx a n delay s = rt_tbx_urgent_if tbx a n s) /\
  (L <> [] ->
     rt_tbx_receive tbx a n s = rt_tbx_receive_if tbx a n s /\
     rt_tbx_receive_until tbx a n time s = rt_tbx_receive_if tbx a n s /\
     rt_tbx_receive_timed tbx a n delay s = rt_tbx_receive_if tbx a n s).
Proof.
  intros Hr Hb. pose proof Hr as [Hi _ _ _ _]. destruct (not_too_big _ _ _ _ _ Hr) as [Et Ep].
  assert (HC : forall (m : T Z), CHK_TBX_MAGIC tbx (- EINVAL) (s0 ← get; if too_big s0 tbx n then mret (- EMSGSIZE) else m) s = m s).
  { intros m. unfold CHK_TBX_MAGIC. run_m. rewrite (id_magic _ _ _ Hi), Z.eqb_refl. cbn [negb]. by rewrite Et. }
  split.
  - intros Hl. destruct (smx_wait_free s tbx c (TbxSnd tbx) Hi) as [W1 W2]; [by left|].
    destruct (room_free s tbx c n L Hr Hl) as [R1 R2]. rewrite <- Ep in R1, R2.
    destruct (put_free s tbx c n L false a Hr Hl Hb) as (s2 & P1).
    destruct (put_free s tbx c n L true a Hr Hl Hb) as (s3 & P2).
    assert (Hs : forall wt wr, wt c s = Done false (taken s (TbxSnd tbx) 0) ->
              wr c (taken s (TbxSnd tbx) 0) = Done false (taken s (TbxSnd tbx) 0) ->
              send_body tbx wt wr n (tbxput tbx a n TYPE_NORMAL) s = put_if tbx n (tbxput tbx a n TYPE_NORMAL) s /\
              send_body tbx wt wr n (tbxbackput tbx a n TYPE_URGENT) s = put_if tbx n (tbxbackput tbx a n TYPE_URGENT) s)
      by (intros wt wr H1 H2; split; by eapply send_body_put_if).
    assert (Hu : forall tm, rt_tbx_send_until tbx a n tm s = rt_tbx_send_if tbx a n s /\
                            rt_tbx_urgent_until tbx a n tm s = rt_tbx_urgent_if tbx a n s).
    { intros tm. unfold rt_tbx_send_until, rt_tbx_send_if, rt_tbx_urgent_until, rt_tbx_urgent_if.
      rewrite !HC. exact (Hs _ _ (W2 tm) (R2 tm)). }
    assert (Hw : rt_tbx_send tbx a n s = rt_tbx_send_if tbx a n s /\ rt_tbx_urgent tbx a n s = rt_tbx_urgent_if tbx a n s).
    { unfold rt_tbx_send, rt_tbx_send_if, rt_tbx_urgent, rt_tbx_urgent_if. rewrite !HC. exact (Hs _ _ W1 R1). }
    unfold rt_tbx_send_timed, rt_tbx_urgent_timed. run_m. destruct Hw as [-> ->].
    rewrite !(fun tm => proj1 (Hu tm)), !(fun tm => proj2 (Hu tm)). done.
  - intros HL. destruct (smx_wait_free s tbx c (TbxRcv tbx) Hi) as [W1 W2]; [by right|].
    destruct (msg_there s tbx c n L Hr HL) as (t & s2 & Ht & Es & Ef & Hnb & Ec).
    assert (Hs : forall wt wm, wt c s = Done false (taken s (TbxRcv tbx) 0) ->
              wm c (taken s (TbxRcv tbx) 0) = Done (false, t) s2 ->
              receive_body tbx wt wm a n s = rt_tbx_receive_if tbx a n s).
    { intros wt wm H1 H2. unfold rt_tbx_receive_if. rewrite HC, Ep. unfold receive_body, receive_turn, rt_whoami. run_m.
      destruct (id_cur _ _ _ Hi) as [-> _]. rewrite H1. cbn [bind_out]. rewrite H2, Ec. cbn [bind_out]. by rewrite Ht. }
    destruct (msg_waits_not s tbx c n L t s2 Hr HL Es Ef Hnb) as [M1 M2].
    assert (Hu : forall tm, rt_tbx_receive_until tbx a n tm s = rt_tbx_receive_if tbx a n s).
    { intros tm. unfold rt_tbx_receive_until. rewrite HC, Ep. apply Hs; [apply W2|apply M2]. }
    assert (Hw : rt_tbx_receive tbx a n s = rt_tbx_receive_if tbx a n s).
    { unfold rt_tbx_receive. rewrite HC, Ep. by apply Hs. }
    unfold rt_tbx_receive_timed. run_m. rewrite Hw, !Hu. done.
Qed.

(** ** Waiting for room *)

Section Waiting.
Implicit Types (s : TBXS) (σ : RTAI) (tbx c n a t : Z) (smx : semp) (bs l W : list Z).

Lemma schd_done {A} (m : K A) s (r : A) σ : m (sched s) = Done r σ -> schd m s = Done r (s <| sched := σ |>).
Proof. intros E. unfold schd. by rewrite (lift_done _ _ _ _ _ E). Qed.

Lemma sched_sched s σ σ' : s <| sched := σ |> <| sched := σ' |> = s <| sched := σ' |>.
Proof. by destruct s. Qed.

(** The running task [c] waits for room: it is suspended, has left the ready
    list, and is the task that the next signal wakes. *)
Definition waits_for_room s tbx c l s' : Prop :=
  tbx_waiting_task s' tbx = c /\ tbx_waiting_nr s' tbx = i32 (tbx_waiting_nr s tbx + 1) /\
  suspdepth (sched s') c = 1 /\ state (sched s') c = Z.lor (state (sched s) c) SUSPENDED /\
  blocked_on (sched s') c = QSomething /\ ready_list (sched s') l /\ sem_count (sched s') = sem_count (sched s) /\
  (forall bs, tbx_holds s tbx bs -> tbx_holds s' tbx bs).

Lemma tbx_wait_room_blocks s tbx c n l1 l2 :
  tbx_frbs s tbx < n -> ready_list (sched s) (l1 ++ c :: l2) -> is_hard (sched s) c <> 0 ->
  exists s', tbx_wait_room tbx tbx_frbs n c s ≡ bind_out (schd rt_schedule s') (fun _ s2 => Done (is_blocked s2 c) s2) /\
    waits_for_room s tbx c (l1 ++ l2) s'.
Proof.
  intros Hf Hr Hh. unfold tbx_wait_room. run_m. rewrite (proj2 (Z.ltb_lt _ _) Hf). unfold count_waiting. run_m.
  erewrite schd_done by reflexivity. cbn [bind_out]. erewrite schd_done by reflexivity. cbn [bind_out].
  match goal with |- context [schd (rem_ready_current c) ?st] => set (s1 := st) end.
  destruct (rem_ready_current_spec (sched s1) c l1 l2) as (σ & E & (P & N & ->) & R);
    [unfold s1, ready_list; state_simpl; exact Hr|unfold s1; by state_simpl|].
  erewrite schd_done by exact E. cbn [bind_out]. erewrite schd_done by reflexivity. cbn [bind_out].
  match goal with |- context [schd rt_schedule ?st] => set (s2 := st) end.
  exists s2. split; [reflexivity|]. unfold s2, s1. unfold waits_for_room. state_simpl. rewrite !upd_eq.
  split_and!; try done. intros bs [H1 H2 H3 H4 H5 H6]. by split.
Qed.

(** A task that waits, and can be put in the ready list [l]. *)
Record wakeable σ t l : Prop := {
  wk_task : t <> 0 /\ t ∉ rt_linux_task :: l /\ is_hard σ t <> 0;
  wk_list : ready_list σ l /\ fits l /\ lock_first (priority σ) l;
  wk_prio : priority σ t < RT_LINUX_PRIORITY /\ priority σ rt_linux_task = RT_LINUX_PRIORITY
}.

(** The ready list with the task behind those of its priority. *)
Definition made_ready σ t l : list Z := insert_after (fun y => priority σ y <=? priority σ t) t l.

Lemma enq_schedules s t l :
  wakeable (sched s) t l ->
  exists P N, let σ := sched s <| rprev := P |> <| rnext := N |> in
    schd (enq_ready_task t) s = Done tt (s <| sched := σ |>) /\ ready_list σ (made_ready (sched s) t l).
Proof.
  intros [(H1 & H2 & H3) (H4 & H5 & H6) (H7 & H8)].
  destruct (enq_ready_task_at (sched s) t l) as (σ & E & (P & N & ->) & R); [done..|].
  exists P, N. split; [by apply schd_done|done].
Qed.

(** A signal wakes the task that waits for room or for a message. *)
Lemma tbx_signal_wakes s tbx t l :
  tbx_waiting_task s tbx = t -> state (sched s) t = Z.lor READY SUSPENDED -> wakeable (sched s) t l ->
  exists s', tbx_signal tbx s = schd rt_schedule s' /\
    tbx_waiting_task s' tbx = 0 /\ tbx_waiting_nr s' tbx = i32 (tbx_waiting_nr s tbx - 1) /\
    state (sched s') t = READY /\ blocked_on (sched s') t = QNull /\ suspdepth (sched s') = suspdepth (sched s) /\
    owndres (sched s') = owndres (sched s) /\ magic (sched s') = magic (sched s) /\
    ready_list (sched s') (made_ready (sched s) t l).
Proof.
  intros Ht Hst Hw. pose proof Hw as [(H1 & _) _ _]. unfold tbx_signal. run_m. rewrite Ht, (proj2 (nz_true _) H1).
  unfold count_waiting. run_m.
  erewrite schd_done by (apply rem_timed_task_not_delayed; state_simpl; by rewrite Hst). cbn [bind_out].
  erewrite schd_done by reflexivity. cbn [bind_out]. state_simpl. rewrite Hst.
  erewrite schd_done by reflexivity. cbn [bind_out]. state_simpl.
  change (clr _ _) with READY. rewrite upd_eq. cbn [Z.eqb READY Pos.eqb].
  match goal with |- context [schd (enq_ready_task t) ?st] => set (s1 := st) end.
  destruct (enq_schedules s1 t l) as (P & N & -> & R).
  { destruct Hw as [A B C]. split; unfold s1; by state_simpl. }
  cbn [bind_out]. eexists. split; [reflexivity|]. unfold s1 in *. state_simpl. rewrite !upd_eq.
  split_and!; try done.
Qed.
End Waiting.

(** A task that waits for room sets [suspdepth] to 1, and the signal that
    wakes it leaves it there: when the task runs again, the first call to
    suspend it counts, but does not suspend it. *)
Theorem tbx_waiter_not_suspended s tbx c n l1 l2 :
  tbx_frbs s tbx < n -> ready_list (sched s) (l1 ++ c :: l2) -> is_hard (sched s) c <> 0 ->
  state (sched s) c = READY ->
  exists s1, tbx_wait_room tbx tbx_frbs n c s ≡ bind_out (schd rt_schedule s1) (fun _ s2 => Done (is_blocked s2 c) s2) /\
    tbx_waiting_task s1 tbx = c /\
    forall s2 l, tbx_waiting_task s2 tbx = c -> state (sched s2) c = state (sched s1) c ->
      suspdepth (sched s2) c = suspdepth (sched s1) c -> magic (sched s2) c = RT_TASK_MAGIC ->
      wakeable (sched s2) c l ->
      exists s3, tbx_signal tbx s2 = schd rt_schedule s3 /\
        state (sched s3) c = READY /\ ready_list (sched s3) (made_ready (sched s2) c l) /\
        rt_task_suspend c (sched s3) = Done 0 (sched s3 <| suspdepth ::= <[c := 2]> |>).
Proof.
  intros Hf Hr Hh Hst. destruct (tbx_wait_room_blocks s tbx c n l1 l2 Hf Hr Hh) as (s1 & E & Hw).
  exists s1. split; [exact E|]. destruct Hw as (Ht & _ & Hd & Hs & _). split; [done|].
  intros s2 l Ht2 Hs2 Hd2 Hm2 Hw2.
  destruct (tbx_signal_wakes s2 tbx c l Ht2) as (s3 & E3 & _ & _ & Hst3 & _ & Hd3 & _ & Hm3 & R3);
    [by rewrite Hs2, Hs, Hst|done|].
  exists s3. split_and!; [done|done|done|]. unfold rt_task_suspend. step_m.
  destruct Hw2 as [(Hc & _) _ _]. rewrite (proj2 (nz_true _) Hc), Hm3, Hm2, Z.eqb_refl. cbn [negb andb]. step_m.
  rewrite Hd3, Hd2, Hd. change (nz 1) with true. cbn [negb andb]. step_m. done.
Qed.

(** * Sending into a buffer without room *)

Section Overrun.
Implicit Types (s : TBXS) (tbx c n a A : Z) (bs : list Z).

(** The copy does not look at the room there is: what is written, from the
    index [A] on, goes once round the ring, whatever is there. *)
Lemma overrun_bytes fuel s tbx msg n A :
  0 < tbx_size s tbx < 1073741824 -> 0 < tbx_fbyte s tbx < tbx_size s tbx ->
  tbx_avbs s tbx = A -> tbx_frbs s tbx = tbx_size s tbx - A -> 0 <= A -> n = 0 \/ A < tbx_size s tbx ->
  0 <= n <= Z.of_nat fuel -> n <= tbx_size s tbx -> tbx_fbyte s tbx + A + n <= 2 * tbx_size s tbx ->
  apart_mem msg n (tbx_bufadr s tbx) (tbx_size s tbx) ->
  exists s', tbxput_loop fuel tbx msg n TYPE_NONE s = Done 0 s' /\
    tbx_fbyte s' = tbx_fbyte s /\ tbx_avbs s' tbx = A + n /\ tbx_frbs s' tbx = tbx_size s tbx - (A + n) /\
    (forall i, 0 <= i < tbx_size s tbx -> bytes s' (tbx_bufadr s tbx + (tbx_fbyte s tbx + A + i) mod tbx_size s tbx) =
       if i <? n then bytes s (msg + i) else bytes s (tbx_bufadr s tbx + (tbx_fbyte s tbx + A + i) mod tbx_size s tbx)) /\
    only_buf tbx (in_buf s tbx) s s'.
Proof.
  revert s msg n A. induction fuel as [|fuel IH]; intros s msg n A Hs Hf Ha Hfr HA HAs Hn Hns Hend Hap;
    cbn [tbxput_loop]; run_m.
  - replace n with 0 in * by lia. rewrite andb_false_r. run_m. exists s. split_and!; [done|done|lia|lia| |apply only_buf_refl].
    intros i Hi. by rewrite (proj2 (Z.ltb_ge i 0)) by lia.
  - destruct (Z.gtb_spec n 0) as [Hn0|Hn0].
    2:{ replace n with 0 in * by lia. rewrite andb_false_r. run_m. exists s.
        split_and!; [done|done|lia|lia| |apply only_buf_refl]. intros i Hi. by rewrite (proj2 (Z.ltb_ge i 0)) by lia. }
    rewrite (proj2 (nz_true _)) by lia. run_m. rewrite Ha, TBX_MOD_SIZE_eq by lia.
    set (sz := tbx_size s tbx) in *. set (f := tbx_fbyte s tbx) in *. set (b := tbx_bufadr s tbx) in *.
    set (p := (f + A) mod sz). assert (Hp : (p = f + A /\ f + A < sz \/ p = f + A - sz /\ sz <= f + A) /\ 0 <= p < sz).
    { unfold p. rewrite <- wrap_once by lia. destruct (Z.ltb_spec (f + A) sz); lia. }
    rewrite piece_eq by lia. fold sz. set (k := Z.min _ _).
    unfold put_piece, memcpy. cbn [TYPE_NONE Z.eqb]. run_m. rewrite (proj2 (Z.ltb_ge k 0)) by lia. run_m.
    rewrite count_put_eq by (state_simpl; lia). state_simpl. cbn [bind_out].
    match goal with |- context [tbxput_loop fuel tbx _ _ _ ?st] => set (s1 := st) end.
    destruct (IH s1 (msg + k) (n - k) (A + k)) as (s' & -> & Ey' & Ea' & Ef' & Hb' & Ho'); unfold s1; state_simpl; rewrite ?upd_eq;
      fold sz f b; try (done || lia); [unfold apart_mem in *; fold sz b; lia|].
    unfold s1 in Ea', Ef', Hb'. state_simpl_in Hb'. state_simpl_in Ef'. fold sz f b in Ef', Hb'.
    exists s'. split_and!; [done|done|lia|lia| |].
    + intros i Hi.
      assert (Hpi : forall j, 0 <= j < k -> (f + A + j) mod sz = p + j).
      { intros j Hj. rewrite <- Zplus_mod_idemp_l. fold p. apply Z.mod_small. lia. }
      destruct (Z.ltb_spec i k) as [Hik|Hik].
      * rewrite (proj2 (Z.ltb_lt i n)) by lia. specialize (Hb' (i - k + sz) ltac:(lia)).
        replace (f + (A + k) + (i - k + sz)) with (f + A + i + 1 * sz) in Hb' by lia. rewrite Z_mod_plus_full in Hb'.
        rewrite Hb', (proj2 (Z.ltb_ge _ _)), Hpi by lia. rewrite Z.add_assoc. apply copied_inside. lia.
      * specialize (Hb' (i - k) ltac:(lia)). replace (f + (A + k) + (i - k)) with (f + A + i) in Hb' by lia. rewrite Hb'.
        replace (i - k <? n - k) with (i <? n) by (destruct (Z.ltb_spec i n), (Z.ltb_spec (i - k) (n - k)); lia).
        destruct (Z.ltb_spec i n).
        -- replace (msg + k + (i - k)) with (msg + i) by lia. apply copied_outside. unfold apart_mem in Hap. lia.
        -- apply copied_outside. pose proof (ring_untouched sz (proj1 Hs) (f + A) 0 k p i) as Hu.
           rewrite Z.add_0_r in Hu. specialize (Hu eq_refl ltac:(lia) ltac:(lia) ltac:(lia) ltac:(lia) ltac:(lia)). lia.
    + apply (only_buf_trans _ _ (in_buf s1 tbx) _ s1); [|exact Ho'|unfold in_buf, s1; by state_simpl].
      exists (tbx_fbyte s), (<[tbx := tbx_frbs s tbx - k]> (tbx_frbs s)), (<[tbx := tbx_avbs s tbx + k]> (tbx_avbs s)),
        (copied (bytes s) (b + p) msg k).
      split; [unfold s1; by destruct s|]. split; [intros t Ht; by rewrite !upd_ne by done|].
      intros x Hx. apply copied_outside. unfold in_buf in Hx. fold sz b in Hx. lia.
Qed.
End Overrun.

Lemma overrun_put s tbx bs a n r :
  tbx_holds s tbx bs -> tbx_frbs s tbx = r -> 1 < r < n + 1 -> n + 1 <= tbx_size s tbx ->
  0 < tbx_fbyte s tbx -> tbx_fbyte s tbx + Z.of_nat (length bs) + (n + 1) <= 2 * tbx_size s tbx ->
  apart_mem a n (tbx_bufadr s tbx) (tbx_size s tbx) ->
  exists s', tbxput tbx a n TYPE_NORMAL s = Done 0 s' /\ tbx_frbs s' tbx = r - (n + 1) /\
    tbx_avbs s' tbx = Z.of_nat (length bs) + (n + 1) /\ first_type s' tbx = bytes s (a + (r - 1)) /\
    only_buf tbx (in_buf s tbx) s s'.
Proof.
  intros Hh Er Hrn Hsz Hf0 Hend Hap. pose proof Hh as [Hs Hf Ea Ef Hr Hb].
  unfold tbxput. rewrite i32_small by lia. replace (Z.to_nat (n + 1)) with (S (Z.to_nat n)) by lia.
  cbn [tbxput_loop]. run_m. rewrite (proj2 (nz_true _)) by lia. rewrite (proj2 (Z.gtb_lt _ _)) by lia. run_m.
  destruct (put_last s tbx bs Hh) as [Ep Hp]; [lia|]. rewrite Ep. set (p := _ mod _) in *.
  unfold put_piece, poke. change (TYPE_NORMAL =? TYPE_NONE) with false. run_m.
  rewrite count_put_eq by (state_simpl; rewrite ?Ea, ?Ef; lia). state_simpl. cbn [bind_out].
  match goal with |- context [tbxput_loop _ tbx a _ _ ?st] => set (s1 := st) end. rewrite Z.add_simpl_r.
  destruct (overrun_bytes (Z.to_nat n) s1 tbx a n (Z.of_nat (length bs) + 1)) as (s' & -> & Ey' & Ea' & Ef' & Hb' & Ho');
    unfold s1; state_simpl; rewrite ?upd_eq; try (done || lia).
  unfold s1 in Ef', Hb'. state_simpl_in Ef'. state_simpl_in Hb'.
  assert (Ho : only_buf tbx (in_buf s tbx) s s').
  { apply (only_buf_trans _ _ (in_buf s1 tbx) _ s1); [|exact Ho'|unfold in_buf, s1; by state_simpl].
    eexists _, _, _, _. split; [unfold s1; by destruct s|].
    split; [intros t Ht; state_simpl; by rewrite ?upd_ne by done|]. intros x Hx. apply upd_ne. unfold in_buf in Hx. lia. }
  exists s'. split_and!; [done|lia|lia| |done].
  unfold first_type. rewrite Ey'. assert (Ebuf : tbx_bufadr s' = tbx_bufadr s) by (by destruct Ho as (? & ? & ? & ? & -> & _)).
  rewrite Ebuf. specialize (Hb' (r - 1) ltac:(lia)). rewrite (proj2 (Z.ltb_lt _ _)) in Hb' by lia.
  replace (tbx_fbyte s tbx + (Z.of_nat (length bs) + 1) + (r - 1)) with (tbx_fbyte s tbx + 1 * tbx_size s tbx) in Hb' by lia.
  rewrite Z_mod_plus_full, Z.mod_small in Hb' by lia. change (tbx_fbyte s1) with (tbx_fbyte s). rewrite Hb'.
  apply upd_ne. unfold apart_mem in Hap. lia.
Qed.

(** A task that waits for room goes on as soon as any room was made, and
    copies its message whether there is enough or not: the number of free bytes
    becomes negative, and the type of the oldest message that was not received
    is now a byte of the new one. *)
Theorem tbx_send_overruns s tbx c n a L l1 l2 :
  tbx_ready s tbx c n L -> tbx_frbs s tbx < n + 1 ->
  ready_list (sched s) (l1 ++ c :: l2) -> is_hard (sched s) c <> 0 ->
  exists s1 k, rt_tbx_send tbx a n s ≡ bind_out (schd rt_schedule s1) k /\ tbx_waiting_task s1 tbx = c /\
    forall s2 bs r, tbx_holds s2 tbx bs -> tbx_frbs s2 tbx = r -> 1 < r < n + 1 -> n + 1 <= tbx_size s2 tbx ->
      0 < tbx_fbyte s2 tbx -> tbx_fbyte s2 tbx + Z.of_nat (length bs) + (n + 1) <= 2 * tbx_size s2 tbx ->
      apart_mem a n (tbx_bufadr s2 tbx) (tbx_size s2 tbx) ->
      blocked_on (sched s2) c = QNull -> tbx_waiting_task s2 tbx = 0 ->
      q_task (sched s2) (q_next (sched s2) (SemQueue (TbxSnd tbx))) = 0 ->
      exists s3, k tt s2 = Done 0 s3 /\ tbx_frbs s3 tbx = r - (n + 1) /\ tbx_size s3 tbx < tbx_avbs s3 tbx /\
        first_type s3 tbx = bytes s2 (a + (r - 1)).
Proof.
  intros Hr Hf Hrl Hh. pose proof Hr as [Hi _ _ _ _]. destruct (not_too_big _ _ _ _ _ Hr) as [Et Ep].
  destruct (smx_wait_free s tbx c (TbxSnd tbx) Hi) as [W1 _]; [by left|].
  destruct (tbx_wait_room_blocks (taken s (TbxSnd tbx) 0) tbx c (n + 1) l1 l2) as (s1 & E & Hw); [done..|].
  exists s1, (fun _ s2 => send_rest tbx n (tbxput tbx a n TYPE_NORMAL) (is_blocked s2 c) s2).
  split; [|split; [apply Hw|]].
  - unfold rt_tbx_send, CHK_TBX_MAGIC. run_m. rewrite (id_magic _ _ _ Hi), Z.eqb_refl. cbn [negb]. rewrite Et, Ep.
    unfold send_body, rt_whoami. run_m. destruct (id_cur _ _ _ Hi) as [-> _].
    change (sndsmx tbx) with (TbxSnd tbx). rewrite W1. cbn [bind_out].
    etransitivity; [apply (bind_out_proper _ _ _ (send_rest tbx n (tbxput tbx a n TYPE_NORMAL)) E); reflexivity|].
    apply bind_out_assoc.
  - intros s2 bs r Hh2 Er Hrn Hsz Hf0 Hend Hap Hb Ht Hq. assert (Hnb : is_blocked s2 c = false) by (unfold is_blocked; by rewrite Hb).
    destruct (overrun_put s2 tbx bs a n r) as (s3 & Es3 & E1 & E2 & E3 & Ho); [done..|].
    destruct Ho as (f1 & f2 & f3 & m & -> & _). rewrite Hnb. unfold send_rest. run_m. rewrite Es3. cbn [bind_out].
    unfold tbx_signal. run_m. rewrite Ht. change (nz 0) with false. cbn iota. run_m.
    unfold tbx_smx_signal, sndsmx. run_m. rewrite Hq. change (nz 0) with false. cbn iota. rewrite take_eq. cbn [bind_out].
    eexists. split; [reflexivity|]. unfold taken. state_simpl. state_simpl_in E1. state_simpl_in E2.
    split_and!; [done| |exact E3]. rewrite E2. destruct Hh2 as [_ _ _ Hfr _ _]. lia.
Qed.

(** * Broadcasts *)

Section Broadcast.
Implicit Types (s : TBXS) (σ : RTAI) (tbx c n a t : Z) (smx : semp) (m bs l W : list Z).

(** A signal wakes the first task that waits for its turn. *)
Lemma tbx_smx_signal_wakes s tbx smx t W l :
  wait_queue (sched s) (SemQueue smx) (t :: W) -> q_task (sched s) (SemQueue smx) = 0 ->
  state (sched s) t = Z.lor READY SEMAPHORE -> wakeable (sched s) t l ->
  exists σ, tbx_smx_signal tbx smx s =
      schd rt_schedule (s <| tbx_waiting_nr ::= <[tbx := i32 (tbx_waiting_nr s tbx - 1)]> |> <| sched := σ |>) /\
    wait_queue σ (SemQueue smx) W /\ q_task σ = q_task (sched s) /\ state σ = <[t := READY]> (state (sched s)) /\
    blocked_on σ = <[t := QNull]> (blocked_on (sched s)) /\ ready_list σ (made_ready (sched s) t l).
Proof.
  intros Hq Hq0 Hst Hw. pose proof Hw as [(H1 & _) _ _]. unfold tbx_smx_signal. run_m.
  rewrite (wait_queue_head _ _ _ Hq Hq0). cbn [hd]. rewrite (proj2 (nz_true _) H1). unfold count_waiting. run_m.
  destruct (dequeue_blocked_eq (sched s) t (SemQueue smx) [] W Hq) as (σ1 & E1 & Hq1 & (QP & QN & F1 & _)).
  erewrite schd_done by (state_simpl; exact E1). cbn [bind_out].
  assert (Hst1 : state σ1 t = Z.lor READY SEMAPHORE) by (rewrite F1; state_simpl; exact Hst).
  erewrite schd_done by (apply rem_timed_task_not_delayed; state_simpl; by rewrite Hst1). cbn [bind_out]. state_simpl.
  rewrite Hst1. erewrite schd_done by reflexivity. cbn [bind_out]. state_simpl.
  change (clr _ _) with READY. rewrite upd_eq. cbn [Z.eqb READY Pos.eqb].
  match goal with |- context [schd (enq_ready_task t) ?st] => set (s1 := st) end.
  destruct (enq_schedules s1 t l) as (P & N & -> & R).
  { destruct Hw as [A B C]. split; unfold s1; rewrite F1; by state_simpl. }
  cbn [bind_out]. eexists. split; [unfold s1; rewrite !sched_sched; reflexivity|].
  unfold s1 in *. rewrite F1 in *. unfold wait_queue, ready_list, made_ready in *. state_simpl.
  state_simpl_in R. state_simpl_in Hq1.
  split; [exact Hq1|]. split; [reflexivity|]. split; [reflexivity|]. split; [reflexivity|exact R].
Qed.

(** A broadcast goes on: the message [m] of [n] bytes is in its buffer, and
    the tasks [W] wait for their turn. *)
Record casting s tbx n m W : Prop := {
  ca_type : bcb_type s tbx = TYPE_BROADCAST;
  ca_msg : load (bytes s) (tbx_bcbadr s tbx + 1) n = m;
  ca_task : tbx_waiting_task s tbx = 0;
  ca_queue : wait_queue (sched s) (SemQueue (TbxRcv tbx)) W /\ q_task (sched s) (SemQueue (TbxRcv tbx)) = 0;
  ca_nr : tbx_waiting_nr s tbx = Z.of_nat (length W)
}.

(** What a receiver does with its turn. *)
Definition takes_turn tbx a n c : T Z := receive_turn tbx (tbx_wait_msg tbx tbx_avbs (n + 1)) a n c.

(** The task [t] is ready again, behind those of its priority in [l]. *)
Definition resumed σ σ' t l : Prop :=
  state σ' t = READY /\ blocked_on σ' t = QNull /\ ready_list σ' (made_ready σ t l).

(** Receiving when it is known that the message is broadcast. *)
Lemma takes_cast s tbx n m W a c :
  casting s tbx n m W -> blocked_on (sched s) c = QNull ->
  takes_turn tbx a n c s = receive_end tbx a n TYPE_BROADCAST s.
Proof.
  intros Hc Hb. unfold takes_turn, receive_turn, tbx_wait_msg. run_m. rewrite (ca_type _ _ _ _ _ Hc), Z.eqb_refl. run_m.
  unfold is_blocked. by rewrite Hb.
Qed.

(** The end of the turn of a receiver that is not the last. *)
Lemma cast_passes s tbx n m t W l :
  casting s tbx n m (t :: W) -> Z.of_nat (length (t :: W)) < 2147483648 ->
  state (sched s) t = Z.lor READY SEMAPHORE -> wakeable (sched s) t l ->
  exists s', (tbx_signal tbx;; tbx_smx_signal tbx (rcvsmx tbx);; receive_over tbx true 0) s =
      bind_out (schd rt_schedule s') (fun _ => receive_over tbx true 0) /\
    casting s' tbx n m W /\ resumed (sched s) (sched s') t l /\ bytes s' = bytes s /\
    (forall bs, tbx_holds s tbx bs -> tbx_holds s' tbx bs).
Proof.
  intros [Hty Hm Ht [Hq Hq0] Hnr] Hl Hst Hw. unfold tbx_signal. run_m. rewrite Ht. change (nz 0) with false. cbn iota.
  run_m. destruct (tbx_smx_signal_wakes s tbx (TbxRcv tbx) t W l Hq Hq0 Hst Hw) as (σ & E & Hq' & Eq & Est & Ebl & Hr').
  change (rcvsmx tbx) with (TbxRcv tbx). rewrite E. eexists. split; [reflexivity|]. state_simpl. split_and!.
  - split; state_simpl; [exact Hty|exact Hm|exact Ht|by rewrite Eq|]. rewrite upd_eq, Hnr. cbn [length] in *.
    rewrite i32_small by lia. lia.
  - unfold resumed. rewrite Est, Ebl, !upd_eq. done.
  - done.
  - intros bs [H1 H2 H3 H4 H5 H6]. by split.
Qed.
(** The copy of the message that is in the second buffer. *)
Lemma cast_copied s tbx n m W a :
  casting s tbx n m W -> 0 <= n -> apart_mem a n (tbx_bcbadr s tbx) (n + 1) ->
  let s1 := s <| bytes ::= fun b => copied b a (tbx_bcbadr s tbx + 1) n |> in
  casting s1 tbx n m W /\ load (bytes s1) a n = m.
Proof.
  intros [H1 H2 H3 H4 H5] Hn Hap s1.
  assert (Hm : forall x, ~ in_range a n x -> bytes s1 x = bytes s x) by (intros x Hx; by apply copied_outside).
  split; [split; [| |done..]|].
  - unfold bcb_type. change (tbx_bcbadr s1) with (tbx_bcbadr s).
    rewrite Hm; [exact H1|]. unfold in_range, apart_mem in *. lia.
  - rewrite <- H2. apply load_ext. intros i Hi. apply Hm. change (tbx_bcbadr s1) with (tbx_bcbadr s).
    unfold in_range, apart_mem in *. lia.
  - rewrite <- H2. by apply load_copied.
Qed.

(** The turn of a receiver that is neither the first nor the last. *)
Lemma cast_goes_on s tbx c n a m W t l :
  casting s tbx n m (t :: W) -> 0 <= n -> blocked_on (sched s) c = QNull ->
  apart_mem a n (tbx_bcbadr s tbx) (n + 1) ->
  Z.of_nat (length (t :: W)) < 2147483648 -> state (sched s) t = Z.lor READY SEMAPHORE -> wakeable (sched s) t l ->
  exists s', takes_turn tbx a n c s = bind_out (schd rt_schedule s') (fun _ => receive_over tbx true 0) /\
    load (bytes s') a n = m /\ casting s' tbx n m W /\ resumed (sched s) (sched s') t l.
Proof.
  intros Hc Hn Hb Hab Hl Hst Hw. rewrite (takes_cast s tbx n m (t :: W)) by done.
  unfold receive_end, tbx_receive_core. rewrite Z.eqb_refl. run_m.
  rewrite (ca_type _ _ _ _ _ Hc). change (TYPE_BROADCAST =? TYPE_NONE) with false.
  cbn iota. unfold memcpy. rewrite (proj2 (Z.ltb_ge n 0)) by lia. run_m. rewrite (ca_nr _ _ _ _ _ Hc).
  cbn [length]. rewrite (proj2 (Z.eqb_neq _ 0)) by lia. run_m.
  destruct (cast_copied s tbx n m (t :: W) a Hc Hn Hab) as [Hc1 Hm1].
  destruct (cast_passes _ tbx n m t W l Hc1 Hl Hst Hw) as (s' & E & Hc' & Hr' & Eb & _).
  exists s'. split_and!; [exact E|by rewrite Eb|done|done].
Qed.

(** The turn of the last receiver. *)
Lemma cast_ends s tbx c n a m :
  casting s tbx n m [] -> 0 <= n -> blocked_on (sched s) c = QNull -> apart_mem a n (tbx_bcbadr s tbx) (n + 1) ->
  exists s', takes_turn tbx a n c s ≡
      (_ ← schd (rt_sem_broadcast (bcbsmx tbx)); tbx_signal tbx;; tbx_smx_signal tbx (rcvsmx tbx);; mret 0) s' /\
    load (bytes s') a n = m /\ bcb_type s' tbx = TYPE_NONE.
Proof.
  intros Hc Hn Hb Hab. rewrite (takes_cast s tbx n m []) by done.
  unfold receive_end, tbx_receive_core. rewrite Z.eqb_refl. run_m.
  rewrite (ca_type _ _ _ _ _ Hc). change (TYPE_BROADCAST =? TYPE_NONE) with false.
  cbn iota. unfold memcpy. rewrite (proj2 (Z.ltb_ge n 0)) by lia. run_m. rewrite (ca_nr _ _ _ _ _ Hc).
  change (Z.of_nat (length []) =? 0) with true. unfold poke. run_m.
  destruct (cast_copied s tbx n m [] a Hc Hn Hab) as [Hc1 Hm1].
  match goal with |- context [schd (rt_sem_broadcast _) ?st] => set (s1 := st); exists s1 end. split_and!.
  - etransitivity; [apply bind_out_assoc|done].
  - rewrite <- Hm1. apply load_ext. intros i Hi. unfold s1. state_simpl. apply upd_ne. unfold apart_mem in Hab. lia.
  - unfold bcb_type, s1. state_simpl. by rewrite upd_eq.
Qed.

(** The buffer is the same if its bytes are. *)
Lemma holds_bytes s (g : (Z -> Z) -> Z -> Z) tbx bs :
  tbx_holds s tbx bs -> (forall x, in_buf s tbx x -> g (bytes s) x = bytes s x) ->
  tbx_holds (s <| bytes ::= g |>) tbx bs.
Proof.
  intros [Hs Hf Ha Hfr Hr Hb] Hg. split; state_simpl; [done..|]. rewrite <- Hb at 2.
  apply ring_load_ext. intros i Hi. apply Hg. unfold in_buf.
  pose proof (Z.mod_pos_bound (tbx_fbyte s tbx + i) (tbx_size s tbx)). lia.
Qed.

(** The turn of the first receiver, which takes the message from the buffer. *)
Lemma cast_begins s tbx c n a m bs W t l :
  tbx_holds s tbx (TYPE_BROADCAST :: m ++ bs) -> bcb_type s tbx = TYPE_NONE -> tbx_waiting_task s tbx = 0 ->
  wait_queue (sched s) (SemQueue (TbxRcv tbx)) (t :: W) -> q_task (sched s) (SemQueue (TbxRcv tbx)) = 0 ->
  tbx_waiting_nr s tbx = Z.of_nat (length (t :: W)) ->
  0 <= n -> blocked_on (sched s) c = QNull -> Z.of_nat (length m) = n ->
  apart_mem a n (tbx_bcbadr s tbx) (n + 1) -> apart_mem a n (tbx_bufadr s tbx) (tbx_size s tbx) ->
  apart_mem (tbx_bufadr s tbx) (tbx_size s tbx) (tbx_bcbadr s tbx) (n + 1) ->
  Z.of_nat (length (t :: W)) < 2147483648 -> state (sched s) t = Z.lor READY SEMAPHORE -> wakeable (sched s) t l ->
  exists s', takes_turn tbx a n c s = bind_out (schd rt_schedule s') (fun _ => receive_over tbx true 0) /\
    load (bytes s') a n = m /\ casting s' tbx n m W /\ resumed (sched s) (sched s') t l /\ tbx_holds s' tbx bs.
Proof.
  intros Hh Hty Ht Hq Hq0 Hnr Hn Hb Hlm Hab Haf Hfb Hl Hst Hw. pose proof (th_avbs _ _ _ Hh) as Ha. cbn [length] in Ha.
  rewrite length_app in Ha.
  unfold takes_turn, receive_turn, tbx_wait_msg. run_m. rewrite Hty. change (TYPE_NONE =? TYPE_BROADCAST) with false.
  run_m. rewrite (proj2 (Z.ltb_ge _ _)) by lia. run_m.
  destruct (skip_type_spec s tbx _ _ Hh) as [-> (s1 & E1 & Hh1 & Ho1)]. rewrite E1. cbn [bind_out].
  destruct Ho1 as (f1 & f2 & f3 & m1 & -> & _ & Hm1). unfold is_blocked. rewrite bool_decide_true by exact Hb.
  cbn [negb]. unfold receive_end, tbx_receive_core. rewrite Z.eqb_refl. run_m.
  unfold bcb_type in *. state_simpl. rewrite Hm1, Hty by (intros []). change (TYPE_NONE =? TYPE_NONE) with true. run_m.
  match goal with |- context [tbxget tbx a n ?st] => set (s1 := st) in * end.
  destruct (tbxget_spec s1 tbx (m ++ bs) a n Hh1) as (s2 & E2 & Hh2 & Hl2 & Ho2); [rewrite length_app; lia|done|].
  rewrite drop_app_length' in Hh2 by lia. rewrite take_app_length' in Hl2 by lia.
  rewrite E2. cbn [bind_out]. destruct Ho2 as (g1 & g2 & g3 & m2 & -> & _ & Hm2). unfold s1. state_simpl.
  rewrite Hnr. cbn [length]. rewrite (proj2 (Z.gtb_lt _ _)) by lia. unfold memcpy, poke.
  rewrite (proj2 (Z.ltb_ge n 0)) by lia. run_m.
  match goal with |- context [tbx_signal tbx ?st] => set (s3 := st) end.
  assert (Hc : casting s3 tbx n m (t :: W)).
  { split; unfold s3, bcb_type; state_simpl; [by rewrite upd_eq| |done..]. rewrite <- Hl2. unfold s1. state_simpl.
    etransitivity; [|by apply (load_copied m2 (copied m2 (tbx_bcbadr s tbx + 1) a n))].
    apply load_ext. intros i Hi. apply upd_ne. lia. }
  destruct (cast_passes s3 tbx n m t W l Hc Hl Hst Hw) as (s' & E & Hc' & Hr' & Eb & Hh').
  exists s'. split_and!; [exact E| |done|exact Hr'|].
  - rewrite Eb, <- Hl2. apply load_ext. intros i Hi. unfold s3, s1. state_simpl. rewrite upd_ne by (unfold apart_mem in Hab; lia).
    apply copied_outside. unfold apart_mem in Hab. lia.
  - apply Hh'. unfold s3. apply holds_bytes; [apply holds_bytes; [exact Hh2|]|]; unfold in_buf, s1; state_simpl; intros x Hx.
    + apply copied_outside. unfold apart_mem in Hfb. lia.
    + apply upd_ne. unfold apart_mem in Hfb. lia.
Qed.
End Broadcast.

(** C27: a message that is broadcast reaches every task that waits for its
    turn to receive: the first receiver copies it to the second buffer and lets
    the next take its turn, each of these gets a copy of it and does the same,
    and the last one ends the broadcast. *)
Theorem tbx_broadcast_reaches s tbx c n a m W t l :
  0 <= n -> blocked_on (sched s) c = QNull -> Z.of_nat (length m) = n ->
  apart_mem a n (tbx_bcbadr s tbx) (n + 1) -> apart_mem a n (tbx_bufadr s tbx) (tbx_size s tbx) ->
  apart_mem (tbx_bufadr s tbx) (tbx_size s tbx) (tbx_bcbadr s tbx) (n + 1) ->
  Z.of_nat (length (t :: W)) < 2147483648 -> state (sched s) t = Z.lor READY SEMAPHORE -> wakeable (sched s) t l ->
  (forall bs, tbx_holds s tbx (TYPE_BROADCAST :: m ++ bs) -> bcb_type s tbx = TYPE_NONE ->
     tbx_waiting_task s tbx = 0 -> wait_queue (sched s) (SemQueue (TbxRcv tbx)) (t :: W) ->
     q_task (sched s) (SemQueue (TbxRcv tbx)) = 0 -> tbx_waiting_nr s tbx = Z.of_nat (length (t :: W)) ->
     exists s', takes_turn tbx a n c s = bind_out (schd rt_schedule s') (fun _ => receive_over tbx true 0) /\
       load (bytes s') a n = m /\ casting s' tbx n m W /\ resumed (sched s) (sched s') t l /\ tbx_holds s' tbx bs) /\
  (casting s tbx n m (t :: W) ->
     exists s', takes_turn tbx a n c s = bind_out (schd rt_schedule s') (fun _ => receive_over tbx true 0) /\
       load (bytes s') a n = m /\ casting s' tbx n m W /\ resumed (sched s) (sched s') t l) /\
  (casting s tbx n m [] ->
     exists s', takes_turn tbx a n c s ≡
         (_ ← schd (rt_sem_broadcast (bcbsmx tbx)); tbx_signal tbx;; tbx_smx_signal tbx (rcvsmx tbx);; mret 0) s' /\
       load (bytes s') a n = m /\ bcb_type s' tbx = TYPE_NONE).
Proof.
  intros Hn Hb Hlm Hab Haf Hfb Hl Hst Hw. split_and!.
  - intros bs Hh Hty Ht Hq Hq0 Hnr. by apply cast_begins.
  - intros Hc. by apply (cast_goes_on s tbx c n a m W t l).
  - intros Hc. by apply cast_ends.
Qed.

(** * Examples *)

(** A mailbox of 8 bytes; the task at 48 runs, that at 64 waits. *)
Definition demo_tbx_sched : RTAI :=
  rtai_zero <| rt_smp_current := 48 |> <| q_next := fun q => q |> <| q_prev := fun q => q |>
    <| q_task := fun q => match q with Queue t => t | _ => 0 end |> <| sem_count := fun _ => 1 |>
    <| rnext := fun t => if t =? 16 then 48 else 16 |> <| rprev := fun t => if t =? 16 then 48 else 16 |>
    <| is_hard := fun _ => 1 |> <| magic := fun _ => RT_TASK_MAGIC |>
    <| priority ::= <[rt_linux_task := RT_LINUX_PRIORITY]> |> <| state ::= <[48 := READY]> |>.

Definition demo_tbx (heap_ : MEM) : TBXS :=
  tbxs_zero heap_ demo_tbx_sched <| tbx_magic ::= <[1 := RT_TBX_MAGIC]> |> <| tbx_size ::= <[1 := 8]> |>
    <| tbx_bufadr ::= <[1 := 4096]> |> <| tbx_bcbadr ::= <[1 := 8192]> |> <| tbx_frbs ::= <[1 := 8]> |>
    <| bytes := fun x => x mod 256 |>.

(** The same with a message of 2 bytes. *)
Definition demo_tbx1 (heap_ : MEM) : TBXS :=
  demo_tbx heap_ <| bytes ::= <[4096 := TYPE_NORMAL]> |> <| tbx_avbs ::= <[1 := 3]> |> <| tbx_frbs ::= <[1 := 5]> |>.

Lemma demo_tbx_ready h : tbx_ready (demo_tbx h) 1 48 2 [].
Proof.
  split; [|by split; vm_compute|done|by intros [_ H]; vm_compute in H|by split; vm_compute].
  by split.
Defined.

Lemma demo_tbx1_ready h : tbx_ready (demo_tbx1 h) 1 48 2 [(TYPE_NORMAL, [1; 2])].
Proof.
  split; [|by split; vm_compute|repeat constructor; by left|by intros [_ H]; vm_compute in H|by split; vm_compute].
  by split.
Defined.

Definition demo_tbx_calls : list tbx_call := [Put false 300; Put true 400; Put false 300; Get 500; Get 500; Get 500].

Lemma tbx_refines_witness :
  exists os s' L', do_calls 1 2 demo_tbx_calls (demo_tbx heap_ex0) = Done os s' /\ explains 8 2 [] os L' /\
    tbx_ready s' 1 48 2 L'.
Proof.
  apply (tbx_refines (demo_tbx heap_ex0) 1 48 2 [] demo_tbx_calls); [apply demo_tbx_ready|lia|].
  unfold demo_tbx_calls, user_buf, apart_mem, in_range. change (tbx_bufadr _ _) with 4096.
  change (tbx_bcbadr _ _) with 8192. change (tbx_size _ _) with 8.
  repeat (apply Forall_cons; split; [cbn; lia|]). by apply Forall_nil.
Defined.

Lemma tbx_variants_agree_witness :
  let s := demo_tbx1 heap_ex0 in
  (rt_tbx_send 1 300 2 s = rt_tbx_send_if 1 300 2 s /\
     rt_tbx_send_until 1 300 2 100 s = rt_tbx_send_if 1 300 2 s /\
     rt_tbx_send_timed 1 300 2 10 s = rt_tbx_send_if 1 300 2 s /\
     rt_tbx_urgent 1 300 2 s = rt_tbx_urgent_if 1 300 2 s /\
     rt_tbx_urgent_until 1 300 2 100 s = rt_tbx_urgent_if 1 300 2 s /\
     rt_tbx_urgent_timed 1 300 2 10 s = rt_tbx_urgent_if 1 300 2 s) /\
  (rt_tbx_receive 1 300 2 s = rt_tbx_receive_if 1 300 2 s /\
     rt_tbx_receive_until 1 300 2 100 s = rt_tbx_receive_if 1 300 2 s /\
     rt_tbx_receive_timed 1 300 2 10 s = rt_tbx_receive_if 1 300 2 s).
Proof.
  destruct (tbx_variants_agree (demo_tbx1 heap_ex0) 1 48 2 [(TYPE_NORMAL, [1; 2])] 300 100 10) as [H1 H2];
    [apply demo_tbx1_ready| |split; [exact (H1 ltac:(by vm_compute))|exact (H2 ltac:(done))]].
  unfold user_buf, apart_mem, in_range. change (tbx_bufadr _ _) with 4096.
  change (tbx_bcbadr _ _) with 8192. change (tbx_size _ _) with 8. lia.
Defined.

Lemma demo_tbx_ring : ready_list demo_tbx_sched ([] ++ 48 :: []).
Proof. split_and!; try done; repeat constructor; set_solver. Defined.

Lemma tbx_waiter_not_suspended_witness :
  exists s1, tbx_wait_room 1 tbx_frbs 9 48 (demo_tbx heap_ex0) ≡
      bind_out (schd rt_schedule s1) (fun _ s2 => Done (is_blocked s2 48) s2) /\
    tbx_waiting_task s1 1 = 48 /\
    forall s2 l, tbx_waiting_task s2 1 = 48 -> state (sched s2) 48 = state (sched s1) 48 ->
      suspdepth (sched s2) 48 = suspdepth (sched s1) 48 -> magic (sched s2) 48 = RT_TASK_MAGIC ->
      wakeable (sched s2) 48 l ->
      exists s3, tbx_signal 1 s2 = schd rt_schedule s3 /\
        state (sched s3) 48 = READY /\ ready_list (sched s3) (made_ready (sched s2) 48 l) /\
        rt_task_suspend 48 (sched s3) = Done 0 (sched s3 <| suspdepth ::= <[48 := 2]> |>).
Proof.
  apply (tbx_waiter_not_suspended (demo_tbx heap_ex0) 1 48 9 [] []);
    [by vm_compute|apply demo_tbx_ring|by vm_compute|by vm_compute].
Defined.

(** The same with two messages of 2 bytes. *)
Definition demo_tbx2 (heap_ : MEM) : TBXS :=
  demo_tbx1 heap_ <| bytes ::= <[4099 := TYPE_NORMAL]> |> <| tbx_avbs ::= <[1 := 6]> |> <| tbx_frbs ::= <[1 := 2]> |>.

Lemma demo_tbx2_ready h : tbx_ready (demo_tbx2 h) 1 48 2 [(TYPE_NORMAL, [1; 2]); (TYPE_NORMAL, [4; 5])].
Proof.
  split; [|by split; vm_compute|repeat constructor; by left|by intros [_ H]; vm_compute in H|by split; vm_compute].
  by split.
Defined.

Lemma tbx_send_overruns_witness :
  exists s1 k, rt_tbx_send 1 300 2 (demo_tbx2 heap_ex0) ≡ bind_out (schd rt_schedule s1) k /\ tbx_waiting_task s1 1 = 48 /\
    forall s2 bs r, tbx_holds s2 1 bs -> tbx_frbs s2 1 = r -> 1 < r < 2 + 1 -> 2 + 1 <= tbx_size s2 1 ->
      0 < tbx_fbyte s2 1 -> tbx_fbyte s2 1 + Z.of_nat (length bs) + (2 + 1) <= 2 * tbx_size s2 1 ->
      apart_mem 300 2 (tbx_bufadr s2 1) (tbx_size s2 1) ->
      blocked_on (sched s2) 48 = QNull -> tbx_waiting_task s2 1 = 0 ->
      q_task (sched s2) (q_next (sched s2) (SemQueue (TbxSnd 1))) = 0 ->
      exists s3, k tt s2 = Done 0 s3 /\ tbx_frbs s3 1 = r - (2 + 1) /\ tbx_size s3 1 < tbx_avbs s3 1 /\
        first_type s3 1 = bytes s2 (300 + (r - 1)).
Proof.
  apply (tbx_send_overruns (demo_tbx2 heap_ex0) 1 48 2 300 [(TYPE_NORMAL, [1; 2]); (TYPE_NORMAL, [4; 5])] [] []);
    [exact (demo_tbx2_ready heap_ex0)|reflexivity|change (sched (demo_tbx2 heap_ex0)) with demo_tbx_sched; exact demo_tbx_ring|done].
Defined.

(** The task at 64 waits for its turn to receive. *)
Definition demo_cast_sched : RTAI :=
  demo_tbx_sched <| state ::= <[64 := Z.lor READY SEMAPHORE]> |>
    <| q_next := fun q => if bool_decide (q = SemQueue (TbxRcv 1)) then Queue 64
                          else if bool_decide (q = Queue 64) then SemQueue (TbxRcv 1) else q |>
    <| q_prev := fun q => if bool_decide (q = SemQueue (TbxRcv 1)) then Queue 64
                          else if bool_decide (q = Queue 64) then SemQueue (TbxRcv 1) else q |>.

Definition demo_cast (heap_ : MEM) : TBXS :=
  demo_tbx heap_ <| bytes ::= <[8192 := TYPE_BROADCAST]> |> <| tbx_waiting_nr ::= <[1 := 1]> |>
    <| sched := demo_cast_sched |>.

Lemma demo_wakeable : wakeable demo_cast_sched 64 [48].
Proof.
  split.
  - by split_and!; [|set_solver|].
  - split_and!; [unfold ready_list, demo_cast_sched; state_simpl; exact demo_tbx_ring|unfold fits; apply Nat.ltb_lt; by vm_compute|].
    by intros x ?%elem_of_nil.
  - by split; vm_compute.
Defined.

Lemma demo_casting h : casting (demo_cast h) 1 2 [1; 2] [64].
Proof.
  split; [by vm_compute..| |by vm_compute]. split; [|by vm_compute].
  split; [|by intros t ->%list_elem_of_singleton].
  split_and!; try (by vm_compute). repeat constructor; set_solver.
Defined.

Lemma tbx_broadcast_reaches_witness :
  casting (demo_cast heap_ex0) 1 2 [1; 2] [64] /\
  exists s', takes_turn 1 300 2 48 (demo_cast heap_ex0) = bind_out (schd rt_schedule s') (fun _ => receive_over 1 true 0) /\
    load (bytes s') 300 2 = [1; 2] /\ casting s' 1 2 [1; 2] [] /\ resumed demo_cast_sched (sched s') 64 [48].
Proof.
  split; [apply demo_casting|].
  destruct (tbx_broadcast_reaches (demo_cast heap_ex0) 1 48 2 300 [1; 2] [] 64 [48]) as (_ & H & _);
    [done|done|done|unfold apart_mem; vm_compute; by left|unfold apart_mem; vm_compute; by left|
     unfold apart_mem; vm_compute; by left|done|by vm_compute|exact demo_wakeable|].
  apply H, demo_casting.
Defined.
