(* ===== verification/Watchdog.v ===== *)
(** Watchdog: the module that looks for tasks that overrun.

    [watchdog/rtai_watchdog.c]: a periodic task of the highest priority walks
    over all tasks, looks for periodic ones that are ready but should have ended
    a turn long ago, and treats them as the policy says; of each that was found
    it keeps a record in a list.  The records are entries of a pool.

    The state contains that of the scheduler.  On one processor there is one
    watchdog; the arrays by processor are kept.  Messages are left out, and so
    is the proc file system. *)

From S2P Require Import Prelude Resume DList SchedState SchedQueues Schedule SchedTask SchedTimer.

(** [struct bad_rt_task] by address, the variables and the parameters of the
    module, the scheduler. *)
Record WDOG : Type := mkWDOG {
  bt_task : Z -> Z;
  bt_in_use : Z -> Z;
  bt_slipping : Z -> Z;
  bt_countdown : Z -> Z;
  bt_count : Z -> Z;
  bt_valid : Z -> Z;
  bt_forced : Z -> Z;
  bt_orig_period : Z -> Z;
  bt_policy : Z -> Z;
  bt_next : Z -> Z;
  num_wdogs : Z;
  tlists : Z -> Z;
  smp_current : Z;
  bad_tl : Z -> Z;
  sched_type : Z;
  TickPeriod : Z;
  OneShot : Z;
  Grace : Z;
  GraceDiv : Z;
  Safety : Z;
  Policy : Z;
  Stretch : Z;
  Slip : Z;
  Limit : Z;
  sched : RTAI
}.

#[export] Instance WDOG_eta : Eta WDOG := fun s =>
  mkWDOG (bt_task s) (bt_in_use s) (bt_slipping s) (bt_countdown s) (bt_count s) (bt_valid s)
    (bt_forced s) (bt_orig_period s) (bt_policy s) (bt_next s) (num_wdogs s) (tlists s)
    (smp_current s) (bad_tl s) (sched_type s) (TickPeriod s) (OneShot s) (Grace s) (GraceDiv s)
    (Safety s) (Policy s) (Stretch s) (Slip s) (Limit s) (sched s).

#[export] Instance set_bt_task : Setter bt_task := ltac:(mk_setter).
#[export] Instance set_bt_in_use : Setter bt_in_use := ltac:(mk_setter).
#[export] Instance set_bt_slipping : Setter bt_slipping := ltac:(mk_setter).
#[export] Instance set_bt_countdown : Setter bt_countdown := ltac:(mk_setter).
#[export] Instance set_bt_count : Setter bt_count := ltac:(mk_setter).
#[export] Instance set_bt_valid : Setter bt_valid := ltac:(mk_setter).
#[export] Instance set_bt_forced : Setter bt_forced := ltac:(mk_setter).
#[export] Instance set_bt_orig_period : Setter bt_orig_period := ltac:(mk_setter).
#[export] Instance set_bt_policy : Setter bt_policy := ltac:(mk_setter).
#[export] Instance set_bt_next : Setter bt_next := ltac:(mk_setter).
#[export] Instance set_num_wdogs : Setter num_wdogs := ltac:(mk_setter).
#[export] Instance set_tlists : Setter tlists := ltac:(mk_setter).
#[export] Instance set_smp_current : Setter smp_current := ltac:(mk_setter).
#[export] Instance set_bad_tl : Setter bad_tl := ltac:(mk_setter).
#[export] Instance set_sched_type : Setter sched_type := ltac:(mk_setter).
#[export] Instance set_TickPeriod : Setter TickPeriod := ltac:(mk_setter).
#[export] Instance set_OneShot : Setter OneShot := ltac:(mk_setter).
#[export] Instance set_Grace : Setter Grace := ltac:(mk_setter).
#[export] Instance set_GraceDiv : Setter GraceDiv := ltac:(mk_setter).
#[export] Instance set_Safety : Setter Safety := ltac:(mk_setter).
#[export] Instance set_Policy : Setter Policy := ltac:(mk_setter).
#[export] Instance set_Stretch : Setter Stretch := ltac:(mk_setter).
#[export] Instance set_Slip : Setter Slip := ltac:(mk_setter).
#[export] Instance set_Limit : Setter Limit := ltac:(mk_setter).
#[export] Instance set_wdog_sched : Setter sched := ltac:(mk_setter).

Abbreviation W A := (M WDOG A).

Definition schd {A} (m : K A) : W A := lift sched m.

(** [enum watchdog_policy] *)
Definition NOTHING : Z := 0.
Definition RESYNC : Z := 1.
Definition DEBUG : Z := 2.
Definition STRETCH : Z := 3.
Definition SLIP : Z := 4.
Definition SUSPEND : Z := 5.
Definition KILL : Z := 6.

Definition UP_SCHED : Z := 1.
Definition SMP_SCHED : Z := 2.
Definition MUP_SCHED : Z := 3.

Definition NR_RT_CPUS : Z := 1.
Definition hard_cpu_id : Z := 0.

(** [&wdog[dog]], [&bad_task_pool[bt]] *)
Definition wdog (dog : Z) : Z := 12288 + dog.
Definition BAD_TASK_MAX : Z := 100.
Definition bad_task_pool (bt : Z) : Z := 20480 + bt.

(** The values of the data segment, and what the policy forces. *)
Definition wdog_zero (sched_ : RTAI) : WDOG :=
  mkWDOG (fun _ => 0) (fun _ => 0) (fun _ => 0) (fun _ => 0) (fun _ => 0) (fun _ => 0) (fun _ => 0)
    (fun _ => 0) (fun _ => 0) (fun _ => 0) 0 (fun _ => 0) 0 (fun _ => 0) 0
    10000000 1 3 1 100 SUSPEND 10 10 100 sched_.

(** * Parameters *)

Definition rt_wdset_grace (new : Z) : W Z :=
  s ← get;
  let old := Grace s in
  if (Policy s <=? STRETCH) && negb (new =? 1) then mret (- EINVAL)
  else if new <? 1 then mret (- EINVAL)
  else wg Grace new;; mret old.

Definition rt_wdset_gracediv (new : Z) : W Z :=
  s ← get;
  let old := GraceDiv s in
  if (Policy s <=? STRETCH) && negb (new =? 1) then mret (- EINVAL)
  else if new <? 1 then mret (- EINVAL)
  else wg GraceDiv new;; mret old.

Definition rt_wdset_safety (new : Z) : W Z :=
  s ← get;
  let old := Safety s in
  if (new >=? 0) && (new <? Grace s) then mret (- EINVAL)
  else wg Safety new;; mret old.

Definition rt_wdset_policy (new : Z) : W Z :=
  s ← get;
  let old := Policy s in
  if (new <? NOTHING) || (new >? KILL) then mret (- EINVAL)
  else
    when (new <=? STRETCH) (wg GraceDiv 1;; wg Grace 1);;
    when (new =? DEBUG) (wg Limit (-1);; wg Safety (-1));;
    wg Policy new;;
    mret old.

Definition rt_wdset_slip (new : Z) : W Z :=
  s ← get;
  let old := Slip s in
  if new <? 0 then mret (- EINVAL) else wg Slip new;; mret old.

Definition rt_wdset_stretch (new : Z) : W Z :=
  s ← get;
  let old := Stretch s in
  if new <? 0 then mret (- EINVAL) else wg Stretch new;; mret old.

Definition rt_wdset_limit (new : Z) : W Z :=
  s ← get;
  let old := Limit s in
  wg Limit new;; mret old.

(** * Records *)

(** The first entry of the pool from [bt] on that is not in use. *)
Fixpoint new_bad_task_from (fuel : nat) (s : WDOG) (bt : Z) : option Z :=
  match fuel with
  | O => None
  | S fuel' =>
      if negb (nz (bt_in_use s (bad_task_pool bt))) then Some (bad_task_pool bt)
      else new_bad_task_from fuel' s (bt + 1)
  end.

Definition new_bad_task : W Z :=
  s ← get;
  match new_bad_task_from (Z.to_nat BAD_TASK_MAX) s 0 with
  | Some bt => wr bt_in_use bt 1;; mret bt
  | None => mret 0
  end.

Definition free_bad_task (bt : Z) : W unit := wr bt_in_use bt 0.

(** [while (end->next) end = end->next;] *)
Fixpoint last_bad (fuel : nat) (s : WDOG) (end_ : Z) : option Z :=
  if negb (nz (bt_next s end_)) then Some end_
  else match fuel with O => None | S fuel' => last_bad fuel' s (bt_next s end_) end.

(** The list is [bad_tl[wd]]. *)
Definition append_bad_task (wd new : Z) : W unit :=
  s ← get;
  let end_ := bad_tl s wd in
  if negb (nz end_) then wr bad_tl wd new
  else
    end_ ← of_option (last_bad LIST_FUEL s end_);
    wr bt_next end_ new.

(** [while (bt->next != del) bt = bt->next;], which reads through a null
    pointer if [del] is not in the list. *)
Fixpoint before_bad (fuel : nat) (s : WDOG) (bt del : Z) : option Z :=
  if negb (nz bt) then None
  else if bt_next s bt =? del then Some bt
  else match fuel with O => None | S fuel' => before_bad fuel' s (bt_next s bt) del end.

Definition delete_bad_task (wd del : Z) : W Z :=
  s ← get;
  rtn ←
    (if bad_tl s wd =? del then wr bad_tl wd 0;; mret 0
     else
       bt ← of_option (before_bad LIST_FUEL s (bad_tl s wd) del);
       wr bt_next bt (bt_next s del);;
       mret (bt_next s del));
  free_bad_task del;;
  mret rtn.

Fixpoint find_bad_from (fuel : nat) (s : WDOG) (bt t : Z) : option Z :=
  if negb (nz bt) then Some 0
  else if bt_task s bt =? t then Some bt
  else match fuel with O => None | S fuel' => find_bad_from fuel' s (bt_next s bt) t end.

Definition find_bad_task (list t : Z) : W Z := s ← get; of_option (find_bad_from LIST_FUEL s list t).

(** * Suspending and deleting *)

(** The pointers that [smp_current] points to are [running]; the scheduler
    modelled here is not [SMP_SCHED]. *)
Definition which_cpu (s : WDOG) (running : Z -> Z) (t : Z) : Z :=
  if sched_type s =? UP_SCHED then 0
  else if sched_type s =? MUP_SCHED then hard_cpu_id
  else if sched_type s =? SMP_SCHED then if t =? running 0 then 0 else hard_cpu_id
  else -1.

Definition running (s : WDOG) (cpuid : Z) : Z := rt_smp_current (sched s).

Definition smpproof_task_suspend (t : Z) : W unit :=
  _ ← schd (rt_task_suspend t);
  s ← get;
  let cpuid := which_cpu s (running s) t in
  when (cpuid >=? num_wdogs s) (_ ← schd (rt_task_resume (wdog cpuid)); mret tt).

Definition smpproof_task_delete (t : Z) : W unit :=
  _ ← schd (rt_task_delete t);
  s ← get;
  let cpuid := which_cpu s (running s) t in
  when (cpuid >=? num_wdogs s) (_ ← schd (rt_task_resume (wdog cpuid)); mret tt).

(** * Policies *)

Definition stretch_badtask (t bt : Z) : W unit :=
  s ← get;
  schd (wr period t (i64 (period (sched s) t + llimd (bt_orig_period s bt) (Stretch s) 100)));;
  schd (wr resync_frame t 1).

(** The number of ticks of the watchdog that a task slips. *)
Definition slip_ticks (s : WDOG) (t : Z) : Z :=
  i32 (llimd (llimd (count2nano_cpuid (sched s) (period (sched s) t)) (Slip s) 100) 1 (TickPeriod s)).

Definition start_slipping_badtask (t bt : Z) : W unit :=
  s ← get;
  wr bt_slipping bt 1;;
  wr bt_countdown bt (slip_ticks s t);;
  smpproof_task_suspend t.

Definition check_slipping_badtask (bt : Z) : W unit :=
  s ← get;
  wr bt_countdown bt (i32 (bt_countdown s bt - 1));;
  s ← get;
  when (bt_countdown s bt <=? 0)
    (wr bt_slipping bt 0;;
     _ ← schd (rt_task_resume (bt_task s bt));
     mret tt).

(** The record of a task found for the first time, 0 if the pool is
    exhausted. *)
Definition new_record (wd t : Z) : W Z :=
  bt ← new_bad_task;
  if negb (nz bt) then mret 0
  else
    wr bt_task bt t;;
    wr bt_next bt 0;;
    wr bt_slipping bt 0;;
    wr bt_count bt 0;;
    wr bt_countdown bt 0;;
    wr bt_valid bt 1;;
    wr bt_forced bt 0;;
    s ← get;
    wr bt_orig_period bt (period (sched s) t);;
    append_bad_task wd bt;;
    mret bt.

(** The [switch] of [handle_badtask]. *)
Definition apply_policy (t bt : Z) : W unit :=
  s ← get;
  let p := Policy s in
  if p =? NOTHING then mret tt
  else if (p =? RESYNC) || (p =? DEBUG) then schd (wr resync_frame t 1)
  else if p =? STRETCH then stretch_badtask t bt
  else if p =? SLIP then start_slipping_badtask t bt
  else if p =? SUSPEND then smpproof_task_suspend t
  else if p =? KILL then smpproof_task_delete t
  else mret tt.

Definition force_suspension (t bt : Z) : W unit := wr bt_forced bt 1;; smpproof_task_suspend t.

(** After the record is there. *)
Definition punish (t bt overrun : Z) : W unit :=
  s ← get;
  wr bt_count bt (i32 (bt_count s bt + 1));;
  wr bt_policy bt (Policy s);;
  s ← get;
  if (overrun >=? i64 (Safety s * bt_orig_period s bt)) && (Safety s >=? 0) then force_suspension t bt
  else if (bt_count s bt >=? Limit s) && (Limit s >=? 0) then force_suspension t bt
  else apply_policy t bt.

Definition handle_badtask (wd t bt overrun : Z) : W unit :=
  bt ← (if nz bt then mret bt else new_record wd t);
  if negb (nz bt) then mret tt else punish t bt overrun.

(** * The watchdog *)

(** [for (bt = bad_tl[wd]; bt; bt->valid = 0, bt = bt->next);] *)
Fixpoint invalidate (fuel : nat) (bt : Z) : W unit :=
  if negb (nz bt) then mret tt
  else match fuel with
       | O => stuck
       | S fuel' => wr bt_valid bt 0;; s ← get; invalidate fuel' (bt_next s bt)
       end.

(** 1 and the number of the watchdog that [task] is, else 0. *)
Fixpoint another_dog (fuel : nat) (s : WDOG) (task dog : Z) : Z :=
  if negb (dog <? num_wdogs s) then 0
  else if task =? wdog dog then 1 + dog
  else match fuel with O => 0 | S fuel' => another_dog fuel' s task (dog + 1) end.

Definition BLOCKED_STATES : Z :=
  Z.lor SUSPENDED (Z.lor DELAYED (Z.lor SEMAPHORE (Z.lor SEND (Z.lor RECEIVE (Z.lor RPC RETURN))))).

(** Whether a task is not to be looked at: no period, about to be
    resynchronised, or not ready. *)
Definition ignored (s : WDOG) (task : Z) : bool :=
  negb (nz (period (sched s) task)) || nz (resync_frame (sched s) task) ||
  has (state (sched s) task) BLOCKED_STATES.

(** [now - task->resume_time], and how much of it is allowed. *)
Definition overrun_of (s : WDOG) (now task : Z) : Z := i64 (now - resume_time (sched s) task).
Definition allowance (s : WDOG) (task : Z) : Z := llimd (period (sched s) task) (Grace s) (GraceDiv s).

(** A task with the record [bt] that does not slip. *)
Definition judge (wd now task bt : Z) : W unit :=
  s ← get;
  let another := another_dog (Z.to_nat (num_wdogs s)) s task 0 in
  if ignored s task then mret tt
  else if overrun_of s now task >=? allowance s task then
    if nz another then mret tt else handle_badtask wd task bt (overrun_of s now task)
  else mret tt.

(** What the walk does with a task. *)
Definition look_at (wd self now task : Z) : W unit :=
  if task =? self then mret tt
  else
    s ← get;
    bt ← find_bad_task (bad_tl s wd) task;
    if nz bt then
      wr bt_valid bt 1;;
      if nz (bt_slipping s bt) then check_slipping_badtask bt else judge wd now task bt
    else judge wd now task bt.

(** [while ((task = task->next)) ...] *)
Fixpoint walk_tasks (fuel : nat) (wd self now task : Z) : W unit :=
  s ← get;
  let task := next (sched s) task in
  if negb (nz task) then mret tt
  else match fuel with
       | O => stuck
       | S fuel' => look_at wd self now task;; walk_tasks fuel' wd self now task
       end.

(** The records of the tasks that have gone are deleted. *)
Fixpoint clean_up (fuel : nat) (wd bt : Z) : W unit :=
  if negb (nz bt) then mret tt
  else match fuel with
       | O => stuck
       | S fuel' =>
           s ← get;
           bt ← (if negb (nz (bt_valid s bt)) then delete_bad_task wd bt else mret (bt_next s bt));
           clean_up fuel' wd bt
       end.

(** A turn of the endless loop. *)
Definition watchdog_turn (wd : Z) : W unit :=
  s ← get;
  let self := rt_whoami (sched s) in
  let now := rt_get_time_cpuid (sched s) in
  if i64 (now - resume_time (sched s) self) >=? period (sched s) self then
    schd (wr resync_frame self 1);;
    schd rt_task_wait_period
  else
    invalidate LIST_FUEL (bad_tl s wd);;
    walk_tasks LIST_FUEL wd self now (tlists s wd);;
    s ← get;
    clean_up LIST_FUEL wd (bad_tl s wd);;
    schd rt_task_wait_period.

(** A turn of the watchdog of a processor without one. *)
Definition dummy_turn (wd : Z) : W unit := _ ← schd (rt_task_suspend (wdog wd)); mret tt.

(** * The module *)

(** [rt_sched_type], [rt_get_base_linux_task] of the scheduler. *)
Definition rt_sched_type : Z := MUP_SCHED.
Definition rt_get_base_linux_task : W Z := wr tlists 0 rt_linux_task;; mret rt_linux_task.

Section Module.
Context (LATCH : Z) (request : Z -> TIMES).

(** [for (dog--; dog >= 0; dog--) rt_deregister_watchdog(&wdog[dog], dog);] *)
Fixpoint deregister_down (fuel : nat) (dog : Z) : W unit :=
  if dog <? 0 then mret tt
  else match fuel with
       | O => stuck
       | S fuel' => schd (rt_deregister_watchdog (wdog dog));; deregister_down fuel' (dog - 1)
       end.

(** Whether all are registered.  The result of [rt_register_watchdog] is a
    pointer, and the comparison [< 0] is one of addresses. *)
Fixpoint register_up (fuel : nat) (dog : Z) : W bool :=
  if negb (dog <? NR_RT_CPUS) then mret true
  else match fuel with
       | O => stuck
       | S fuel' =>
           r ← schd (rt_register_watchdog (wdog dog));
           wg smp_current (u32 r);;
           if u32 r <? 0 then deregister_down (Z.to_nat NR_RT_CPUS) (dog - 1);; mret false
           else register_up fuel' (dog + 1)
       end.

(** The timer, by the type of the scheduler. *)
Definition start_timer : W unit :=
  s ← get;
  if sched_type s =? MUP_SCHED then
    when (nz (OneShot s)) (schd (rt_preempt_always 1));;
    schd (start_rt_apic_timers LATCH request (if nz (OneShot s) then 0 else 1) (TickPeriod s))
  else
    (if nz (OneShot s) then schd rt_set_oneshot_mode;; schd (rt_preempt_always 1)
     else schd rt_set_periodic_mode);;
    s ← get;
    _ ← schd (start_rt_timer LATCH request (i32 (nano2count (sched s) (TickPeriod s))));
    mret tt.

(** [st dog] is the stack that Linux gives for the watchdog [dog]. *)
Fixpoint init_dogs (fuel : nat) (st : Z -> Z) (dog : Z) : W unit :=
  if negb (dog <? NR_RT_CPUS) then mret tt
  else match fuel with
       | O => stuck
       | S fuel' =>
           _ ← schd (rt_task_init_cpuid (st dog) (wdog dog) RT_HIGHEST_PRIORITY 0 0 dog);
           init_dogs fuel' st (dog + 1)
       end.

Fixpoint start_dogs (fuel : nat) (dog : Z) : W unit :=
  s ← get;
  if negb (dog <? num_wdogs s) then mret tt
  else match fuel with
       | O => stuck
       | S fuel' =>
           let period := nano2count_cpuid (sched s) (TickPeriod s) in
           _ ← schd (rt_task_make_periodic (wdog dog) (i64 (rt_get_time_cpuid (sched s) + period)) period);
           start_dogs fuel' (dog + 1)
       end.

Definition init_module (st : Z -> Z) : W Z :=
  s ← get;
  when (Policy s <=? STRETCH) (wg GraceDiv 1;; wg Grace 1);;
  when (Policy s =? DEBUG) (wg Limit (-1);; wg Safety (-1));;
  wg sched_type rt_sched_type;;
  s ← get;
  (if (sched_type s =? UP_SCHED) || (sched_type s =? SMP_SCHED) then wg num_wdogs 1
   else if sched_type s =? MUP_SCHED then wg num_wdogs NR_RT_CPUS
   else mret tt);;
  _ ← rt_get_base_linux_task;
  registered ← register_up (Z.to_nat NR_RT_CPUS) 0;
  if negb registered then mret (- EBUSY)
  else
    start_timer;;
    init_dogs (Z.to_nat NR_RT_CPUS) st 0;;
    start_dogs (Z.to_nat NR_RT_CPUS) 0;;
    mret 0.

(** [for (bt = bad_tl[dog]; bt;) bt = delete_bad_task(&bad_tl[dog], bt);] *)
Fixpoint delete_all (fuel : nat) (dog bt : Z) : W unit :=
  if negb (nz bt) then mret tt
  else match fuel with
       | O => stuck
       | S fuel' => bt ← delete_bad_task dog bt; delete_all fuel' dog bt
       end.

Fixpoint delete_dogs (fuel : nat) (dog : Z) : W unit :=
  if negb (dog <? NR_RT_CPUS) then mret tt
  else match fuel with
       | O => stuck
       | S fuel' =>
           _ ← schd (rt_task_delete (wdog dog));
           s ← get;
           when (dog <? num_wdogs s) (delete_all LIST_FUEL dog (bad_tl s dog));;
           delete_dogs fuel' (dog + 1)
       end.

Fixpoint deregister_up (fuel : nat) (dog : Z) : W unit :=
  if negb (dog <? NR_RT_CPUS) then mret tt
  else match fuel with
       | O => stuck
       | S fuel' => schd (rt_deregister_watchdog (wdog dog));; deregister_up fuel' (dog + 1)
       end.

Definition cleanup_module : W unit :=
  deregister_up (Z.to_nat NR_RT_CPUS) 0;;
  schd stop_rt_timer;;
  s ← get;
  schd (rt_busy_sleep (TickPeriod s));;
  delete_dogs (Z.to_nat NR_RT_CPUS) 0.
End Module.
