(* ===== verification/WatchdogSpec.v ===== *)
(** WatchdogSpec: what the watchdog of [Watchdog] does.

    The lists of records as lists; the walk over the tasks under a policy;
    slipping; the parameters; what the code does wrong. *)

From S2P Require Import Prelude Resume DList SchedState SchedQueues Schedule SchedTask SchedTimer Watchdog.

(** * Chains

    The lists of records, and that of all the tasks. *)

Section Chain.
Implicit Types (nx : Z -> Z) (a x y : Z) (l : list Z).

Lemma chain_app nx a l1 x l2 : chain nx a (l1 ++ x :: l2) -> chain nx x (x :: l2).
Proof. revert a. induction l1 as [|y l1 IH]; intros a; cbn; [by intros (-> & H)|]. intros (_ & _ & H). by eapply IH. Qed.

(** An element at the end. *)
Lemma chain_append nx nx' a l x y :
  chain nx a (l ++ [x]) -> NoDup (l ++ [x; y]) -> y <> 0 -> nx' x = y -> nx' y = 0 ->
  (forall z, z ∈ l -> nx' z = nx z) -> chain nx' a (l ++ [x; y]).
Proof.
  revert a. induction l as [|z l IH]; intros a; cbn.
  - intros (-> & H0 & _) _ Hy Hx Hy0 _. by split_and!.
  - intros (-> & H0 & Hc) [_ Hnd]%NoDup_cons Hy Hx Hy0 Hz. split_and!; [done|done|].
    rewrite Hz by set_solver. apply IH; [done|done|done|done|done|set_solver].
Qed.

(** An element inside. *)
Lemma chain_bypass nx nx' a l1 x y l2 :
  chain nx a (l1 ++ x :: y :: l2) -> NoDup (l1 ++ x :: y :: l2) -> nx' x = nx y ->
  (forall z, z <> x -> nx' z = nx z) -> chain nx' a (l1 ++ x :: l2).
Proof.
  revert a. induction l1 as [|z l1 IH]; intros a; cbn.
  - intros (-> & H0 & _ & _ & Hc) [Hx Hnd]%NoDup_cons Ex Ez. split_and!; [done|done|]. rewrite Ex.
    apply (chain_ext nx); [|done]. intros z Hz. symmetry. apply Ez. set_solver.
  - intros (-> & H0 & Hc) [Hz Hnd]%NoDup_cons Ex Ez. split_and!; [done|done|]. rewrite Ez by set_solver. by apply IH.
Qed.

Lemma chain_nz nx a x l : chain nx a (x :: l) -> nz a = true.
Proof. intros (-> & H & _). by apply nz_true. Qed.
End Chain.

(** * Records *)

(** The records of the watchdog [wd] are [L], and no other entry of the pool
    is in use. *)
Record has_records (s : WDOG) (wd : Z) (L : list Z) : Prop := {
  hr_chain : chain (bt_next s) (bad_tl s wd) L;
  hr_nodup : NoDup L;
  hr_pool : forall b, b ∈ L -> exists i, 0 <= i < BAD_TASK_MAX /\ b = bad_task_pool i;
  hr_used : forall i, 0 <= i < BAD_TASK_MAX -> bt_in_use s (bad_task_pool i) <> 0 <-> bad_task_pool i ∈ L
}.

Section Records.
Implicit Types (s : WDOG) (wd t b x : Z) (L : list Z).

Lemma records_max s wd L : has_records s wd L -> (length L <= 100)%nat.
Proof.
  intros [_ Hnd Hp _]. change 100%nat with (length (bad_task_pool <$> seqZ 0 BAD_TASK_MAX)).
  apply submseteq_length. apply NoDup_submseteq; [done|]. intros b Hb. destruct (Hp b Hb) as (i & Hi & ->).
  apply list_elem_of_fmap. exists i. split; [done|]. apply elem_of_seqZ. lia.
Qed.

(** [find_bad_task] is the first record of the task. *)
Definition record_of s L t : Z :=
  match List.find (fun b => bt_task s b =? t) L with Some b => b | None => 0 end.

Lemma find_bad_from_eq fuel s a L t :
  chain (bt_next s) a L -> (length L < fuel)%nat -> find_bad_from fuel s a t = Some (record_of s L t).
Proof.
  revert a L. induction fuel as [|fuel IH]; intros a L Hc Hf; [lia|].
  destruct L as [|x L]; cbn [chain length] in *.
  - subst a. done.
  - destruct Hc as (-> & H0 & Hc). cbn [find_bad_from]. rewrite (proj2 (nz_true _) H0). cbn [negb].
    unfold record_of. cbn [List.find]. destruct (bt_task s x =? t); [done|]. apply IH; [done|lia].
Qed.

Lemma find_bad_task_eq s wd L t :
  has_records s wd L -> find_bad_task (bad_tl s wd) t s = Done (record_of s L t) s.
Proof.
  intros H. unfold find_bad_task. run_m. rewrite (find_bad_from_eq _ s _ L); [done|apply H|].
  pose proof (records_max s wd L H). unfold LIST_FUEL. lia.
Qed.

Lemma record_of_in s L t : record_of s L t <> 0 -> record_of s L t ∈ L /\ bt_task s (record_of s L t) = t.
Proof.
  unfold record_of. destruct (List.find _ L) as [b|] eqn:E; [|done]. intros _.
  apply List.find_some in E as [H1 H2%Z.eqb_eq]. split; [by apply list_elem_of_In|done].
Qed.
End Records.

(** The parameters of the module. *)
Record same_setup (s s' : WDOG) : Prop := {
  ss_dogs : num_wdogs s' = num_wdogs s /\ tlists s' = tlists s /\ sched_type s' = sched_type s;
  ss_time : TickPeriod s' = TickPeriod s /\ OneShot s' = OneShot s;
  ss_grace : Grace s' = Grace s /\ GraceDiv s' = GraceDiv s /\ Safety s' = Safety s;
  ss_policy : Policy s' = Policy s /\ Stretch s' = Stretch s /\ Slip s' = Slip s /\ Limit s' = Limit s
}.

#[export] Instance same_setup_preorder : PreOrder same_setup.
Proof.
  split; [intros s; by split|]. intros s1 s2 s3 [(A1 & A2 & A3) (A4 & A5) (A6 & A7 & A8) (A9 & B1 & B2 & B3)]
    [(C1 & C2 & C3) (C4 & C5) (C6 & C7 & C8) (C9 & D1 & D2 & D3)].
  split; split_and!; by etransitivity.
Qed.

Section NewRecord.
Implicit Types (s : WDOG) (wd t b x : Z) (L : list Z).

Lemma new_bad_some fuel s k b :
  new_bad_task_from fuel s k = Some b -> exists i, k <= i < k + Z.of_nat fuel /\ b = bad_task_pool i /\ bt_in_use s b = 0.
Proof.
  revert k. induction fuel as [|fuel IH]; intros k; cbn [new_bad_task_from]; [done|].
  destruct (nz (bt_in_use s (bad_task_pool k))) eqn:E; cbn [negb].
  - intros (i & Hi & H)%IH. exists i. split; [lia|done].
  - intros [= <-]. exists k. apply nz_false in E. split; [lia|done].
Qed.

Lemma new_bad_none fuel s k i :
  new_bad_task_from fuel s k = None -> k <= i < k + Z.of_nat fuel -> bt_in_use s (bad_task_pool i) <> 0.
Proof.
  revert k. induction fuel as [|fuel IH]; intros k; cbn [new_bad_task_from]; [lia|].
  destruct (nz (bt_in_use s (bad_task_pool k))) eqn:E; cbn [negb]; [|done].
  intros H Hi. destruct (Z.eq_dec i k) as [->|]; [by apply nz_true in E|]. apply (IH (k + 1) H). lia.
Qed.

Lemma pool_full s wd L : has_records s wd L -> new_bad_task_from (Z.to_nat BAD_TASK_MAX) s 0 = None -> length L = 100%nat.
Proof.
  intros H E. pose proof (records_max s wd L H).
  cut (length (bad_task_pool <$> seqZ 0 BAD_TASK_MAX) <= length L)%nat; [change (length (_ <$> _)) with 100%nat; lia|].
  apply submseteq_length, NoDup_submseteq.
  - apply NoDup_fmap_2; [intros i j; unfold bad_task_pool; lia|apply NoDup_seqZ].
  - intros b (i & -> & Hi)%list_elem_of_fmap. apply elem_of_seqZ in Hi. apply (hr_used s wd L H); [lia|].
    apply (new_bad_none _ _ _ i E). unfold BAD_TASK_MAX in *. lia.
Qed.

Lemma last_bad_eq fuel s a L x :
  chain (bt_next s) a (L ++ [x]) -> (length L < fuel)%nat -> last_bad fuel s a = Some x.
Proof.
  revert a L. induction fuel as [|fuel IH]; intros a L Hc Hf; [lia|]. cbn [last_bad].
  destruct L as [|y L]; cbn [chain app length] in *.
  - destruct Hc as (-> & _ & E). by rewrite E.
  - destruct Hc as (-> & _ & Hc). destruct (L ++ [x]) as [|z l] eqn:E; [by destruct L|].
    rewrite (chain_nz _ _ _ _ Hc). cbn [negb]. rewrite <- E in Hc. by apply (IH _ L); [|lia].
Qed.

(** A record at the end of the list. *)
Lemma append_bad_task_spec s wd L b :
  chain (bt_next s) (bad_tl s wd) L -> NoDup (L ++ [b]) -> (length L <= 100)%nat -> b <> 0 -> bt_next s b = 0 ->
  exists f g, append_bad_task wd b s = Done tt (s <| bad_tl := g |> <| bt_next := f |>) /\ chain f (g wd) (L ++ [b]) /\
    (forall w, w <> wd -> g w = bad_tl s w).
Proof.
  intros Hc Hnd Hl Hb0 Hb. unfold append_bad_task. run_m. destruct L as [|x L' _] using rev_ind.
  - cbn in Hc. rewrite Hc. run_m. exists (bt_next s), (<[wd := b]> (bad_tl s)).
    split_and!; [by destruct s|by rewrite upd_eq|]. intros w Hw. by rewrite upd_ne.
  - assert (Hn : nz (bad_tl s wd) = true).
    { destruct (L' ++ [x]) as [|y l] eqn:E; [by destruct L'|]. by eapply chain_nz. }
    rewrite Hn. cbn [negb]. rewrite (last_bad_eq _ _ _ L' x Hc) by (rewrite length_app in Hl; unfold LIST_FUEL; cbn in *; lia).
    run_m. exists (<[x := b]> (bt_next s)), (bad_tl s). split_and!; [by destruct s| |done].
    rewrite <- app_assoc in *. cbn [app] in *. eapply chain_append; [exact Hc|exact Hnd|done|by rewrite upd_eq| |].
    + rewrite upd_ne; [done|]. intros ->. apply NoDup_app in Hnd as (_ & _ & Hnd). apply NoDup_cons in Hnd. set_solver.
    + intros z Hz. rewrite upd_ne; [done|]. intros <-. apply NoDup_app in Hnd as (_ & Hd & _). set_solver.
Qed.

(** What a new record holds, and that the others are as they were. *)
Record fresh_record s s' b t : Prop := {
  fr_task : bt_task s' b = t /\ bt_orig_period s' b = period (sched s) t;
  fr_zero : bt_slipping s' b = 0 /\ bt_count s' b = 0 /\ bt_forced s' b = 0 /\ bt_valid s' b = 1;
  fr_other : forall x, x <> b -> bt_task s' x = bt_task s x /\ bt_slipping s' x = bt_slipping s x /\
    bt_count s' x = bt_count s x /\ bt_forced s' x = bt_forced s x /\ bt_valid s' x = bt_valid s x /\
    bt_orig_period s' x = bt_orig_period s x /\ bt_countdown s' x = bt_countdown s x;
  fr_sched : sched s' = sched s;
  fr_setup : same_setup s s'
}.

Lemma new_record_spec s wd L t :
  has_records s wd L -> (length L < 100)%nat ->
  exists b s', new_record wd t s = Done b s' /\ b <> 0 /\ b ∉ L /\ has_records s' wd (L ++ [b]) /\ fresh_record s s' b t.
Proof.
  intros H Hl. unfold new_record, new_bad_task. run_m.
  destruct (new_bad_task_from _ s 0) as [b|] eqn:E; [|pose proof (pool_full s wd L H E); lia].
  apply new_bad_some in E as (i & Hi & Eb & Hu). assert (Hb : b <> 0) by (rewrite Eb; unfold bad_task_pool; lia).
  assert (HbL : b ∉ L).
  { rewrite Eb. intros Hin. apply (hr_used s wd L H) in Hin; [by rewrite Eb in Hu|]. unfold BAD_TASK_MAX in *. lia. }
  run_m. rewrite (proj2 (nz_true _) Hb). cbn [negb]. run_m.
  match goal with |- context [append_bad_task wd b ?st] => set (s1 := st) end.
  assert (Hnd : NoDup (L ++ [b])).
  { apply NoDup_app. split_and!; [apply H|intros x Hx; set_solver|apply NoDup_singleton]. }
  destruct (append_bad_task_spec s1 wd L b) as (f & g & -> & Hc & _); [|done|lia|done|unfold s1; state_simpl; by rewrite upd_eq|].
  { apply (chain_ext (bt_next s)); [|apply H]. intros x Hx. unfold s1. state_simpl. rewrite upd_ne; [done|set_solver]. }
  cbn [bind_out]. eexists b, _. split; [reflexivity|]. split_and!; [done|done| |].
  - split; state_simpl; [done|done| |].
    + intros x [Hx| ->%list_elem_of_singleton]%elem_of_app; [by apply H|]. exists i. unfold BAD_TASK_MAX in *. split; [lia|done].
    + intros j Hj. unfold s1. state_simpl. rewrite elem_of_app, list_elem_of_singleton, upd_dec.
      case_decide as Ej; [split; [by right|done]|]. rewrite (hr_used s wd L H j Hj). naive_solver.
  - unfold s1. split; state_simpl; rewrite ?upd_eq; [done|done| |done|by split].
    intros x Hx. by rewrite !upd_ne by done.
Qed.

Lemma new_record_full s wd L t : has_records s wd L -> length L = 100%nat -> new_record wd t s = Done 0 s.
Proof.
  intros H Hl. unfold new_record, new_bad_task. run_m.
  destruct (new_bad_task_from _ s 0) as [b|] eqn:E; [|by run_m].
  apply new_bad_some in E as (i & Hi & -> & Hu). exfalso.
  assert (Hin : bad_task_pool i ∉ L) by (intros Hin; apply (hr_used s wd L H) in Hin; [done|unfold BAD_TASK_MAX in *; lia]).
  cut (length (bad_task_pool i :: L) <= 100)%nat; [cbn; lia|]. change 100%nat with (length (bad_task_pool <$> seqZ 0 BAD_TASK_MAX)).
  apply submseteq_length, NoDup_submseteq; [constructor; [done|apply H]|].
  intros b [->|Hb]%elem_of_cons; apply list_elem_of_fmap.
  - exists i. split; [done|]. apply elem_of_seqZ. unfold BAD_TASK_MAX in *. lia.
  - destruct (hr_pool s wd L H b Hb) as (j & Hj & ->). exists j. split; [done|]. apply elem_of_seqZ. lia.
Qed.
End NewRecord.

(** * Suspending a task *)

(** One watchdog, which is the running task. *)
Definition alone (s : WDOG) : Prop := num_wdogs s = 1 /\ sched_type s = MUP_SCHED.

(** A ready task that does not run, as a periodic task that was preempted. *)
Record suspendable (σ : RTAI) (t : Z) : Prop := {
  su_task : t <> 0 /\ magic σ t = RT_TASK_MAGIC /\ is_hard σ t <> 0;
  su_ready : state σ t = READY;
  su_free : suspdepth σ t = 0 /\ owndres σ t = 0;
  su_other : t <> rt_smp_current σ
}.

Definition preempted (σ : RTAI) (t : Z) (l1 l2 : list Z) : Prop := suspendable σ t /\ ready_list σ (l1 ++ t :: l2).

(** It was suspended: it has left the ready list. *)
Definition suspended (σ σ' : RTAI) (t : Z) : Prop :=
  exists P N, σ' = σ <| suspdepth ::= <[t := 1]> |> <| rprev := P |> <| rnext := N |>
                     <| state ::= <[t := Z.lor READY SUSPENDED]> |>.

Section Suspend.
Implicit Types (s : WDOG) (σ : RTAI) (wd t b now overrun : Z) (L l : list Z).

Lemma wd_done {A} (m : K A) s (r : A) σ : m (sched s) = Done r σ -> schd m s = Done r (s <| sched := σ |>).
Proof. intros E. unfold schd. by rewrite (lift_done _ _ _ _ _ E). Qed.

Lemma smpproof_task_suspend_spec s t l1 l2 :
  alone s -> preempted (sched s) t l1 l2 ->
  exists σ, smpproof_task_suspend t s = Done tt (s <| sched := σ |>) /\ suspended (sched s) σ t /\ ready_list σ (l1 ++ l2).
Proof.
  intros [Hn Hty] [[(H0 & Hm & Hh) Hst (Hd & Ho) Hc] Hr].
  destruct (rt_task_suspend_spec (sched s) t l1 l2) as (P & N & R & E & _); [done..|].
  eexists. unfold smpproof_task_suspend. run_m. rewrite (wd_done _ _ _ _ (E Hc)). cbn [bind_out]. run_m.
  unfold which_cpu. state_simpl. rewrite Hty, Hn. cbn [Z.eqb Pos.eqb MUP_SCHED UP_SCHED]. run_m.
  split; [reflexivity|]. split; [by exists P, N|exact R].
Qed.

(** The cases in which [punish] suspends the task. *)
Definition too_late s b overrun : Prop := 0 <= Safety s /\ i64 (Safety s * bt_orig_period s b) <= overrun.
Definition too_often s b : Prop := 0 <= Limit s /\ Limit s <= i32 (bt_count s b + 1).

(** It was counted, and [t] suspended. *)
Definition punished s s' t b : Prop :=
  exists c p f σ, s' = s <| bt_count := c |> <| bt_policy := p |> <| bt_forced := f |> <| sched := σ |> /\
    suspended (sched s) σ t /\ c b = i32 (bt_count s b + 1).

Lemma force_suspension_spec s t b l1 l2 :
  alone s -> preempted (sched s) t l1 l2 ->
  exists σ, force_suspension t b s = Done tt (s <| bt_forced ::= <[b := 1]> |> <| sched := σ |>) /\
    suspended (sched s) σ t /\ ready_list σ (l1 ++ l2).
Proof.
  intros Ha Hp. unfold force_suspension. run_m.
  destruct (smpproof_task_suspend_spec (s <| bt_forced ::= <[b := 1]> |>) t l1 l2) as (σ & E & H); [done|done|].
  exists σ. split; [exact E|exact H].
Qed.

Lemma punish_suspends s t b overrun l1 l2 :
  alone s -> preempted (sched s) t l1 l2 -> Policy s = SUSPEND \/ too_late s b overrun \/ too_often s b ->
  exists s', punish t b overrun s = Done tt s' /\ punished s s' t b /\ ready_list (sched s') (l1 ++ l2) /\
    (too_late s b overrun \/ too_often s b -> bt_forced s' b = 1).
Proof.
  intros Ha Hp Hcase. unfold punish. run_m. rewrite upd_eq.
  match goal with |- context [force_suspension t b ?st] => idtac | |- context [apply_policy t b] => idtac end.
  set (s1 := s <| bt_count ::= _ |> <| bt_policy ::= _ |>).
  destruct (force_suspension_spec s1 t b l1 l2) as (σ & Ef & Hs & Hr); [done|done|].
  assert (Hpd : forall g, punished s (s1 <| bt_forced := g |> <| sched := σ |>) t b).
  { intros g. eexists _, _, g, σ. split; [unfold s1; by destruct s|]. split; [exact Hs|by rewrite upd_eq]. }
  destruct ((overrun >=? i64 (Safety s * bt_orig_period s b)) && (Safety s >=? 0)) eqn:E1.
  { rewrite Ef. eexists. split; [reflexivity|]. split; [apply Hpd|]. split; [exact Hr|]. intros _. state_simpl. by rewrite upd_eq. }
  destruct ((i32 (bt_count s b + 1) >=? Limit s) && (Limit s >=? 0)) eqn:E2.
  { rewrite Ef. eexists. split; [reflexivity|]. split; [apply Hpd|]. split; [exact Hr|]. intros _. state_simpl. by rewrite upd_eq. }
  assert (N1 : ~ too_late s b overrun) by (unfold too_late; intros []; lia).
  assert (N2 : ~ too_often s b) by (unfold too_often; intros []; lia).
  destruct Hcase as [Hpol|[?|?]]; [|done..].
  destruct (smpproof_task_suspend_spec s1 t l1 l2) as (σ2 & E3 & Hs2 & Hr2); [done|done|].
  unfold apply_policy. run_m. unfold s1 at 1 2 3 4 5 6 7. state_simpl. rewrite Hpol. cbn [Z.eqb Pos.eqb SUSPEND NOTHING RESYNC DEBUG STRETCH SLIP orb].
  rewrite E3. eexists. split; [reflexivity|]. split; [|split; [exact Hr2|tauto]].
  eexists _, _, (bt_forced s), σ2. split; [unfold s1; by destruct s|]. split; [exact Hs2|by rewrite upd_eq].
Qed.
End Suspend.

(** * A walk over the tasks

    [bad]: the task overruns. *)

Definition bad (s : WDOG) (self now t : Z) : bool :=
  negb (t =? self) && negb (ignored s t) && (overrun_of s now t >=? allowance s t).

Section Look.
Implicit Types (s : WDOG) (σ : RTAI) (wd t b now self overrun : Z) (L l : list Z).

Lemma another_one s t : num_wdogs s = 1 -> t <> wdog 0 -> another_dog (Z.to_nat (num_wdogs s)) s t 0 = 0.
Proof.
  intros Hn Ht. rewrite Hn. change (Z.to_nat 1) with 1%nat. cbn [another_dog]. rewrite Hn. cbn [Z.ltb Z.compare negb].
  by rewrite (proj2 (Z.eqb_neq _ _) Ht).
Qed.

(** What the walk relies on: one record for each task, none of which slips. *)
Record calm s wd self L : Prop := {
  ca_alone : alone s /\ self = wdog 0;
  ca_records : has_records s wd L;
  ca_one : NoDup (bt_task s <$> L);
  ca_slip : forall b, b ∈ L -> bt_slipping s b = 0
}.

Lemma record_of_unique s L b : NoDup (bt_task s <$> L) -> b ∈ L -> record_of s L (bt_task s b) = b.
Proof.
  intros Hnd Hb. unfold record_of. induction L as [|x L IH]; [by apply not_elem_of_nil in Hb|].
  cbn [fmap list_fmap] in Hnd. apply NoDup_cons in Hnd as [Hx Hnd]. cbn [List.find].
  destruct (Z.eqb_spec (bt_task s x) (bt_task s b)) as [E|E].
  - apply elem_of_cons in Hb as [->|Hb]; [done|]. exfalso. apply Hx. rewrite E. by apply list_elem_of_fmap_2.
  - apply IH; [done|]. by apply elem_of_cons in Hb as [->|Hb].
Qed.

Lemma record_of_none s L t : (forall b, b ∈ L -> b <> 0) -> record_of s L t = 0 -> t ∉ bt_task s <$> L.
Proof.
  unfold record_of. intros Hn. destruct (List.find _ L) as [b|] eqn:E.
  - apply List.find_some in E as [Hb _]. intros ->. exfalso. apply (Hn 0); [by apply list_elem_of_In|done].
  - intros _ (b & -> & Hb)%list_elem_of_fmap. apply list_elem_of_In in Hb.
    apply (List.find_none _ _ E) in Hb. by rewrite Z.eqb_refl in Hb.
Qed.

Lemma records_nz s wd L b : has_records s wd L -> b ∈ L -> b <> 0.
Proof. intros H Hb. destruct (hr_pool _ _ _ H b Hb) as (i & Hi & ->). unfold bad_task_pool. lia. Qed.

(** Marking the record of a task as valid. *)
Definition mark s L t : WDOG := if nz (record_of s L t) then s <| bt_valid ::= <[record_of s L t := 1]> |> else s.

Lemma look_at_judges s wd self now t L :
  calm s wd self L -> t <> self -> look_at wd self now t s = judge wd now t (record_of s L t) (mark s L t).
Proof.
  intros [_ Hr _ Hs] Ht. unfold look_at, mark. rewrite (proj2 (Z.eqb_neq _ _) Ht). run_m.
  rewrite (find_bad_task_eq s wd L t Hr). cbn [bind_out]. destruct (nz (record_of s L t)) eqn:E; [|done]. run_m.
  rewrite Hs by (apply record_of_in; by apply nz_true). change (nz 0) with false. done.
Qed.

Lemma mark_same s L t : sched (mark s L t) = sched s /\ same_setup s (mark s L t).
Proof. unfold mark. by destruct (nz _). Qed.

Lemma mark_calm s wd self L t : calm s wd self L -> calm (mark s L t) wd self L.
Proof. intros [H1 [A B C D] H3 H4]. unfold mark. by destruct (nz _). Qed.

Lemma judge_good s wd self now t b L :
  calm s wd self L -> t <> self -> bad s self now t = false -> judge wd now t b s = Done tt s.
Proof.
  intros _ Ht Hb. unfold judge. run_m. unfold bad in Hb. rewrite (proj2 (Z.eqb_neq _ _) Ht) in Hb. cbn [negb andb] in Hb.
  destruct (ignored s t); [done|]. cbn [negb andb] in Hb. by rewrite Hb.
Qed.

Lemma judge_bad s wd self now t b L :
  calm s wd self L -> bad s self now t = true -> judge wd now t b s = handle_badtask wd t b (overrun_of s now t) s.
Proof.
  intros [[[Hn _] ->] _ _ _] Hb. unfold bad in Hb. apply andb_true_iff in Hb as [[Ht Hi]%andb_true_iff Ho].
  apply negb_true_iff in Ht, Hi. apply Z.eqb_neq in Ht. unfold judge. run_m. rewrite Hi, Ho.
  rewrite (another_one s t Hn Ht). done.
Qed.

(** A task that is found is recorded, and suspended if [punish] does so. *)
Definition has_room s L t : Prop := record_of s L t <> 0 \/ (length L < 100)%nat.

Lemma handle_suspends s wd self t L overrun l1 l2 :
  calm s wd self L -> has_room s L t -> preempted (sched s) t l1 l2 ->
  (forall s1 b, sched s1 = sched s -> same_setup s s1 ->
     (if nz (record_of s L t) then b = record_of s L t /\ s1 = s
      else bt_orig_period s1 b = period (sched s) t /\ bt_count s1 b = 0) ->
     Policy s1 = SUSPEND \/ too_late s1 b overrun \/ too_often s1 b) ->
  exists s' b L', handle_badtask wd t (record_of s L t) overrun s = Done tt s' /\ calm s' wd self L' /\
    b ∈ L' /\ bt_task s' b = t /\ L' = (if nz (record_of s L t) then L else L ++ [b]) /\
    (exists s1, punished s1 s' t b /\ sched s1 = sched s /\ same_setup s s1 /\
       (too_late s1 b overrun \/ too_often s1 b -> bt_forced s' b = 1) /\
       (if nz (record_of s L t) then s1 = s else bt_orig_period s1 b = period (sched s) t)) /\
    ready_list (sched s') (l1 ++ l2) /\
    (forall x, x ∈ L -> bt_task s' x = bt_task s x /\ bt_valid s' x = bt_valid s x) /\
    (record_of s L t = 0 -> bt_valid s' b = 1).
Proof.
  intros Hc Hroom Hp Hcase. pose proof Hc as [Ha Hr H1 Hsl]. unfold handle_badtask. run_m.
  destruct (nz (record_of s L t)) eqn:E.
  - pose proof E as E'. apply nz_true in E'. run_m. rewrite E. cbn [negb].
    set (b := record_of s L t) in *. apply record_of_in in E' as [Hb Ebt]. fold b in Hb, Ebt.
    destruct (punish_suspends s t b overrun l1 l2) as (s' & -> & Hpd & Hrl & Hf); [apply Ha|done|by apply Hcase|].
    exists s', b, L. split; [done|]. pose proof Hpd as (c & p & f & σ & -> & _ & _). split_and!; try done.
    + destruct Hr as [A B C D]. by split.
    + exists s. by split_and!.
    + intros Hb0. by rewrite Hb0 in E.
  - apply nz_false in E. destruct Hroom as [?|Hlen]; [done|]. run_m.
    destruct (new_record_spec s wd L t Hr Hlen) as (b & s1 & -> & Hb0 & HbL & Hr1 & [[F1 F2] (F3 & F4 & F5 & F6) F7 F8 F9]).
    cbn [bind_out]. rewrite (proj2 (nz_true _) Hb0). cbn [negb].
    destruct (punish_suspends s1 t b overrun l1 l2) as (s' & -> & Hpd & Hrl & Hf).
    { destruct Ha as [[Ha1 Ha2] _]. destruct F9 as [(E1 & _ & E3) _ _ _]. split; [by rewrite E1|by rewrite E3]. }
    { by rewrite F8. }
    { apply Hcase; [done|done|]. by rewrite F2, F4. }
    exists s', b, (L ++ [b]). split; [done|]. pose proof Hpd as (c & p & f & σ & -> & _ & _). split_and!; try done.
    + assert (Hsame : bt_task s1 <$> L = bt_task s <$> L).
      { apply list_fmap_ext. intros i x Hx%list_elem_of_lookup_2. apply F7. by intros ->. }
      split; state_simpl.
      * destruct Ha as [[Ha1 Ha2] Hself], F9 as [(E1 & _ & E3) _ _ _]. split; [|done].
        unfold alone. state_simpl. by rewrite E1, E3.
      * destruct Hr1 as [A B C D]. by split.
      * rewrite fmap_app. cbn. rewrite Hsame, F1. apply NoDup_app. split_and!; [done| |apply NoDup_singleton].
        intros x Hx ->%list_elem_of_singleton. revert Hx. apply record_of_none; [|done]. intros x. by apply (records_nz s wd).
      * intros x [Hx| ->%list_elem_of_singleton]%elem_of_app; [|done]. rewrite (proj1 (proj2 (F7 x ltac:(by intros ->)))). by apply Hsl.
    + set_solver.
    + by exists s1.
    + intros x Hx. assert (Hne : x <> b) by (by intros ->). destruct (F7 x Hne) as (A & _ & _ & _ & B & _). by split.
Qed.
End Look.

(** The tasks [B] were suspended, and nothing else of the scheduler changed. *)
Definition suspended_all (σ σ' : RTAI) (B : list Z) : Prop :=
  exists D P N S, σ' = σ <| suspdepth := D |> <| rprev := P |> <| rnext := N |> <| state := S |> /\
    (forall t, D t = if bool_decide (t ∈ B) then 1 else suspdepth σ t) /\
    (forall t, S t = if bool_decide (t ∈ B) then Z.lor READY SUSPENDED else state σ t).

(** A list without the tasks [B]. *)
Definition without (B l : list Z) : list Z := List.filter (fun t => negb (bool_decide (t ∈ B))) l.

Section Walk.
Implicit Types (s : WDOG) (σ : RTAI) (wd t b now self : Z) (L l T B : list Z).

Lemma suspended_all_nil σ : suspended_all σ σ [].
Proof. exists (suspdepth σ), (rprev σ), (rnext σ), (state σ). split; [by destruct σ|done]. Qed.

Lemma suspended_all_cons σ σ1 σ2 t B : suspended σ σ1 t -> suspended_all σ1 σ2 B -> suspended_all σ σ2 (t :: B).
Proof.
  intros (P1 & N1 & ->) (D & P & N & S & -> & HD & HS). exists D, P, N, S. split; [by destruct σ|].
  state_simpl_in HD. state_simpl_in HS.
  split; intros x; [rewrite HD|rewrite HS]; rewrite (upd_dec _ t); repeat case_bool_decide; repeat case_decide; set_solver.
Qed.

Lemma bad_ext s s1 self now t : sched s1 = sched s -> same_setup s s1 -> bad s1 self now t = bad s self now t.
Proof. intros E [_ _ (G & D & _) _]. unfold bad, ignored, overrun_of, allowance. by rewrite E, G, D. Qed.

Lemma bad_suspended s s1 self now t x :
  suspended (sched s) (sched s1) t -> same_setup s s1 -> x <> t -> bad s1 self now x = bad s self now x.
Proof.
  intros (P & N & E) [_ _ (G & D & _) _] Hx. unfold bad, ignored, overrun_of, allowance. rewrite E, G, D. state_simpl.
  by rewrite upd_ne.
Qed.

(** What the walk over [T] leaves. *)
Record walked s s' wd self now T L l : Prop := {
  wk_setup : same_setup s s';
  wk_sched : suspended_all (sched s) (sched s') (List.filter (bad s self now) T);
  wk_ready : ready_list (sched s') (without (List.filter (bad s self now) T) l);
  wk_records : exists L', calm s' wd self (L ++ L') /\ (forall b, b ∈ L' -> bt_valid s' b = 1) /\
    forall t, t ∈ T -> bad s self now t = true -> t ∈ bt_task s' <$> L ++ L';
  wk_old : forall b, b ∈ L -> bt_task s' b = bt_task s b /\
    (bt_valid s b = 1 \/ (bt_task s b ∈ T /\ bt_task s b <> self) -> bt_valid s' b = 1)
}.

Definition can_walk s wd self now T L l : Prop :=
  calm s wd self L /\ Policy s = SUSPEND /\ (length L + length (List.filter (bad s self now) T) <= 100)%nat /\
  (forall t, t ∈ T -> bad s self now t = true -> suspendable (sched s) t /\ t ∈ l) /\ ready_list (sched s) l.

Lemma without_nil l : without [] l = l.
Proof. induction l as [|x l IH]; [done|]. unfold without in *. cbn [List.filter]. by rewrite IH. Qed.

Lemma without_cons t B l1 l2 : t ∉ l1 ++ l2 -> without (t :: B) (l1 ++ t :: l2) = without B (l1 ++ l2).
Proof.
  intros Ht. unfold without. rewrite !List.filter_app. cbn [List.filter]. rewrite bool_decide_true by set_solver.
  cbn [negb]. f_equal; apply List.filter_ext_in; intros x Hx%list_elem_of_In; f_equal; apply bool_decide_ext;
    rewrite elem_of_cons; (split; [|by right]); (intros [->|]; [|done]); set_solver.
Qed.

Lemma walked_nil s wd self now L l :
  can_walk s wd self now [] L l -> walked s s wd self now [] L l.
Proof.
  intros (Hc & _ & _ & _ & Hr). split.
  - reflexivity.
  - apply suspended_all_nil.
  - by rewrite without_nil.
  - exists []. rewrite app_nil_r. split_and!; [done|set_solver|set_solver].
  - intros b Hb. split; [done|]. intros [?|[? _]]; [done|set_solver].
Qed.

(** A task that is not bad. *)
Lemma walked_good s s1 s' wd self now t T L l :
  bad s self now t = false -> sched s1 = sched s -> same_setup s s1 ->
  (forall b, b ∈ L -> bt_task s1 b = bt_task s b /\
     (bt_valid s b = 1 \/ (bt_task s b = t /\ t <> self) -> bt_valid s1 b = 1)) ->
  walked s1 s' wd self now T L l -> walked s s' wd self now (t :: T) L l.
Proof.
  intros Hb Es Hss Hold [A B C (L' & D1 & D2 & D3) E].
  assert (Ef : List.filter (bad s self now) (t :: T) = List.filter (bad s1 self now) T).
  { cbn [List.filter]. rewrite Hb. apply List.filter_ext. intros x. symmetry. by apply bad_ext. }
  split; rewrite ?Ef, <- ?Es; [by etransitivity|done|done| |].
  - exists L'. split_and!; [done|done|]. intros x [->|Hx]%elem_of_cons Hbx; [congruence|].
    apply D3; [done|]. by rewrite (bad_ext s).
  - intros b Hbl. destruct (E b Hbl) as [E1 E2], (Hold b Hbl) as [O1 O2]. split; [by rewrite E1|].
    intros [H1|[[Ht|Ht]%elem_of_cons Hne]]; apply E2; [left; by apply O2; left|left; apply O2; right; by rewrite <- Ht|].
    right. by rewrite O1.
Qed.

(** A bad task. *)
Lemma walked_bad s s1 s' wd self now t T L L1 l1 l2 :
  bad s self now t = true -> t ∉ T -> t ∉ l1 ++ l2 -> suspended (sched s) (sched s1) t -> same_setup s s1 ->
  (exists L2, L1 = L ++ L2 /\ forall b, b ∈ L2 -> bt_valid s1 b = 1) -> t ∈ bt_task s1 <$> L1 ->
  (forall b, b ∈ L -> bt_task s1 b = bt_task s b /\
     (bt_valid s b = 1 \/ (bt_task s b = t /\ t <> self) -> bt_valid s1 b = 1)) ->
  walked s1 s' wd self now T L1 (l1 ++ l2) -> walked s s' wd self now (t :: T) L (l1 ++ t :: l2).
Proof.
  intros Hb HtT Htl Hs Hss (L2 & -> & HL2) Hrec Hold [A B C (L' & D1 & D2 & D3) E].
  assert (Ef : List.filter (bad s self now) (t :: T) = t :: List.filter (bad s1 self now) T).
  { cbn [List.filter]. rewrite Hb. f_equal. apply List.filter_ext_in. intros x Hx%list_elem_of_In. symmetry.
    apply (bad_suspended s s1 self now t); [done|done|]. by intros ->. }
  split; rewrite ?Ef.
  - by etransitivity.
  - by eapply suspended_all_cons.
  - by rewrite without_cons.
  - exists (L2 ++ L'). rewrite app_assoc. split_and!; [done| |].
    + intros b [Hb2|Hb2]%elem_of_app; [|by apply D2]. apply E; [set_solver|]. left. by apply HL2.
    + intros x [->|Hx]%elem_of_cons Hbx.
      * apply list_elem_of_fmap in Hrec as (b & -> & Hbl). rewrite fmap_app, elem_of_app. left.
        apply list_elem_of_fmap. exists b. split; [|done]. symmetry. by apply E.
      * apply D3; [done|]. rewrite (bad_suspended s s1 self now t); [done..|]. by intros ->.
  - intros b Hbl. destruct (E b) as [E1 E2]; [set_solver|]. destruct (Hold b Hbl) as [O1 O2]. split; [by rewrite E1|].
    intros [H1|[[Ht|Ht]%elem_of_cons Hne]]; apply E2; [left; by apply O2; left|left; apply O2; right; by rewrite <- Ht|].
    right. by rewrite O1.
Qed.
End Walk.

Section WalkSpec.
Implicit Types (s : WDOG) (σ : RTAI) (wd t b now self : Z) (L l T B : list Z).

Lemma mark_valid s wd self t L b :
  calm s wd self L -> b ∈ L ->
  bt_task (mark s L t) b = bt_task s b /\ (bt_valid s b = 1 \/ bt_task s b = t -> bt_valid (mark s L t) b = 1).
Proof.
  intros [_ Hr H1 _] Hb. unfold mark. destruct (nz (record_of s L t)) eqn:E; state_simpl.
  - split; [done|]. rewrite upd_dec. case_decide as Eb; [done|]. intros [?|Et]; [done|].
    exfalso. apply Eb. rewrite <- Et. by apply record_of_unique.
  - split; [done|]. intros [?|Et]; [done|]. exfalso. apply nz_false in E. rewrite <- Et, record_of_unique in E by done.
    by apply (records_nz s wd L b Hr).
Qed.

Lemma ready_nodup σ l1 t l2 : ready_list σ (l1 ++ t :: l2) -> t ∉ l1 ++ l2.
Proof.
  intros [_ Hnd]. apply NoDup_cons in Hnd as [_ Hnd]. by apply nodup_middle in Hnd as [H _].
Qed.

Lemma can_walk_good s s1 wd self now t T L l :
  can_walk s wd self now (t :: T) L l -> bad s self now t = false -> calm s1 wd self L -> sched s1 = sched s ->
  same_setup s s1 -> can_walk s1 wd self now T L l.
Proof.
  intros (_ & Hp & Hlen & Hbad & Hr) Hb Hc Es Hss. cbn [List.filter] in Hlen. rewrite Hb in Hlen.
  split_and!; [done| | | |by rewrite Es].
  - destruct Hss as [_ _ _ (-> & _)]. done.
  - rewrite (List.filter_ext _ (bad s self now)); [done|]. intros x. by apply bad_ext.
  - intros x Hx. rewrite (bad_ext s) by done. rewrite Es. apply Hbad. set_solver.
Qed.

Lemma can_walk_bad s s1 wd self now t T L b l1 l2 :
  can_walk s wd self now (t :: T) L (l1 ++ t :: l2) -> bad s self now t = true -> t ∉ T ->
  forall L1, calm s1 wd self L1 -> L1 = L \/ L1 = L ++ [b] ->
  suspended (sched s) (sched s1) t -> same_setup s s1 -> ready_list (sched s1) (l1 ++ l2) ->
  can_walk s1 wd self now T L1 (l1 ++ l2).
Proof.
  intros (_ & Hp & Hlen & Hbad & Hr) Hb HtT L1 Hc HL Hs Hss Hr1. cbn [List.filter] in Hlen. rewrite Hb in Hlen. cbn in Hlen.
  assert (Hx : forall x, x ∈ T -> bad s1 self now x = bad s self now x).
  { intros x Hx. apply (bad_suspended s s1 self now t); [done|done|]. by intros ->. }
  split_and!; [done| | | |done].
  - destruct Hss as [_ _ _ (-> & _)]. done.
  - rewrite (List.filter_ext_in _ (bad s self now)) by (intros x Hx'%list_elem_of_In; by apply Hx).
    destruct HL as [->| ->]; rewrite ?length_app; cbn; lia.
  - intros x HxT Hbx. assert (Hne : x <> t) by (by intros ->). rewrite Hx in Hbx by done.
    destruct (Hbad x) as [[Ht Hst Hf Ho] Hl]; [set_solver|done|]. destruct Hs as (P & N & E). split; [|set_solver].
    split; rewrite E; state_simpl; rewrite ?upd_ne by done; done.
Qed.

(** The walk goes on from [s2] as it was to go on from [s]. *)
Definition goes_on s s2 wd self now t T L l : Prop :=
  next (sched s2) = next (sched s) /\ exists L2 l2, can_walk s2 wd self now T L2 l2 /\
    forall s', walked s2 s' wd self now T L2 l2 -> walked s s' wd self now (t :: T) L l.

Lemma look_at_good s wd self now t T L l :
  can_walk s wd self now (t :: T) L l -> bad s self now t = false ->
  exists s2, look_at wd self now t s = Done tt s2 /\ goes_on s s2 wd self now t T L l.
Proof.
  intros Hw Hb. pose proof Hw as (Hc & _). destruct (Z.eq_dec t self) as [->|Hts].
  - exists s. unfold look_at. rewrite Z.eqb_refl. split; [done|]. split; [done|]. exists L, l.
    split; [by eapply can_walk_good|]. intros s' Hwd. eapply walked_good; [done..|reflexivity| |done].
    intros b _. split; [done|]. by intros [?|[]].
  - rewrite (look_at_judges s wd self now _ L Hc Hts). destruct (mark_same s L t) as [Em Hm].
    pose proof (mark_calm s wd self L t Hc) as Hcm. exists (mark s L t).
    split; [apply (judge_good _ wd self now t _ L Hcm Hts); by rewrite (bad_ext s)|]. split; [by rewrite Em|].
    exists L, l. split; [by eapply can_walk_good|]. intros s' Hwd. eapply walked_good; [done|exact Em|exact Hm| |done].
    intros b Hbl. destruct (mark_valid s wd self t L b Hc Hbl) as [-> Hv]. split; [done|]. intros [?|[? _]]; apply Hv; tauto.
Qed.

Lemma look_at_bad s wd self now t T L l :
  can_walk s wd self now (t :: T) L l -> t ∉ T -> bad s self now t = true ->
  exists s2, look_at wd self now t s = Done tt s2 /\ goes_on s s2 wd self now t T L l.
Proof.
  intros Hw HtT Hb. pose proof Hw as (Hc & Hp & Hlen & Hbad & Hr).
  assert (Hts : t <> self) by (intros ->; unfold bad in Hb; by rewrite Z.eqb_refl in Hb).
  destruct (mark_same s L t) as [Em Hm]. pose proof (mark_calm s wd self L t Hc) as Hcm.
  rewrite (look_at_judges s wd self now _ L Hc Hts), (judge_bad _ wd self now t _ L Hcm) by (by rewrite (bad_ext s)).
  assert (Hrec : record_of s L t = record_of (mark s L t) L t) by (unfold mark; by destruct (nz _)).
  assert (Hmv := fun b => mark_valid s wd self t L b Hc). set (s1 := mark s L t) in *.
  destruct (Hbad t) as [Hsus Hl]; [set_solver|done|]. apply list_elem_of_split in Hl as (l1 & l2 & ->).
  destruct (handle_suspends s1 wd self t L (overrun_of s1 now t) l1 l2 Hcm) as
    (s2 & b & L1 & E & Hc2 & Hb2 & Hbt & HL1 & (s3 & (c & p & f & σ & E2 & Hsu & _) & Es3 & Hss3 & _) & Hr2 & Hold & Hnew).
  { destruct (Z.eq_dec (record_of s1 L t) 0); [right|by left]. cbn [List.filter] in Hlen. rewrite Hb in Hlen. cbn in Hlen. lia. }
  { split; by rewrite Em. }
  { intros s4 b4 _ [_ _ _ (Hp4 & _)] _. left. rewrite Hp4. destruct Hm as [_ _ _ (Hpm & _)]. by rewrite Hpm. }
  assert (Hsu' : suspended (sched s) (sched s2) t) by (rewrite E2; state_simpl; rewrite <- Em, <- Es3; exact Hsu).
  assert (Hss2 : same_setup s s2) by (transitivity s1; [done|]; transitivity s3; [done|]; rewrite E2; by split).
  assert (HL : L1 = L \/ L1 = L ++ [b]) by (rewrite HL1; destruct (nz _); [by left|by right]).
  exists s2. rewrite Hrec, E. split; [done|]. split; [by destruct Hsu' as (P & N & ->)|].
  exists L1, (l1 ++ l2). split; [eapply can_walk_bad; [exact Hw|done|done|done|exact HL|done..]|].
  intros s' Hwd. eapply walked_bad; [done|done|by eapply ready_nodup|exact Hsu'|exact Hss2| | | |exact Hwd].
  - destruct (nz (record_of s1 L t)) eqn:En; rewrite HL1; [exists []; rewrite app_nil_r; split; [done|set_solver]|].
    exists [b]. split; [done|]. intros b' ->%list_elem_of_singleton. apply Hnew. by apply nz_false.
  - rewrite <- Hbt. by apply list_elem_of_fmap_2.
  - intros b' Hb'. destruct (Hold b' Hb') as [-> ->], (Hmv b' Hb') as [-> Hv]. split; [done|]. intros [?|[? _]]; apply Hv; tauto.
Qed.

Lemma walk_tasks_spec fuel s wd self now a T L l :
  chain (next (sched s)) (next (sched s) a) T -> (length T < fuel)%nat -> NoDup T -> can_walk s wd self now T L l ->
  exists s', walk_tasks fuel wd self now a s = Done tt s' /\ walked s s' wd self now T L l.
Proof.
  revert s a T L l. induction fuel as [|fuel IH]; intros s a T L l Hch Hf Hnd Hw; [lia|].
  cbn [walk_tasks]. run_m. destruct T as [|t T].
  - cbn in Hch. rewrite Hch. run_m. exists s. split; [done|]. by apply walked_nil.
  - cbn [chain length] in *. destruct Hch as (-> & Ht0 & Hch). apply NoDup_cons in Hnd as [HtT Hnd].
    rewrite (proj2 (nz_true _) Ht0). cbn [negb]. run_m.
    assert (exists s2, look_at wd self now t s = Done tt s2 /\ goes_on s s2 wd self now t T L l)
      as (s2 & -> & En & L2 & l2 & Hw2 & Hgo).
    { destruct (bad s self now t) eqn:Hb; [by apply look_at_bad|by apply look_at_good]. }
    destruct (IH s2 t T L2 l2) as (s' & E & Hwd); [by rewrite En|lia|done|done|].
    exists s'. split; [exact E|]. by apply Hgo.
Qed.
End WalkSpec.

Section Turn.
Implicit Types (s : WDOG) (wd t b now self : Z) (L l T B : list Z).

Lemma invalidate_eq fuel s a L :
  chain (bt_next s) a L -> (length L < fuel)%nat ->
  exists f, invalidate fuel a s = Done tt (s <| bt_valid := f |>).
Proof.
  revert s a L. induction fuel as [|fuel IH]; intros s a L Hc Hf; [lia|]. destruct L as [|b L]; cbn [chain length] in *.
  - subst a. exists (bt_valid s). cbn [invalidate nz Z.eqb negb]. by destruct s.
  - destruct Hc as (-> & H0 & Hc). cbn [invalidate]. rewrite (proj2 (nz_true _) H0). cbn [negb]. run_m.
    destruct (IH (s <| bt_valid ::= <[b := 0]> |>) (bt_next s b) L) as (f & E); [done|lia|]. exists f. exact E.
Qed.

Lemma clean_up_valid fuel s wd a L :
  chain (bt_next s) a L -> (length L < fuel)%nat -> (forall b, b ∈ L -> bt_valid s b = 1) -> clean_up fuel wd a s = Done tt s.
Proof.
  revert a L. induction fuel as [|fuel IH]; intros a L Hc Hf Hv; [lia|]. destruct L as [|b L]; cbn [chain length] in *.
  - by subst a.
  - destruct Hc as (-> & H0 & Hc). cbn [clean_up]. rewrite (proj2 (nz_true _) H0). cbn [negb]. run_m.
    rewrite Hv by set_solver. change (nz 1) with true. run_m. apply (IH _ L); [done|lia|set_solver].
Qed.

Lemma calm_valid s f wd self L : calm s wd self L -> calm (s <| bt_valid := f |>) wd self L.
Proof. intros [H1 [A B C D] H3 H4]. done. Qed.
End Turn.

(** * Properties *)

(** C16: under the policy [SUSPEND] a turn of the watchdog suspends exactly the
    tasks that overrun: they leave the ready list, all others keep their order
    and are not touched; each of them has a record; then the watchdog waits for
    its next period. *)
Theorem watchdog_suspends s wd self T L l :
  let now := rt_get_time_cpuid (sched s) in
  let B := List.filter (bad s self now) T in
  calm s wd self L -> Policy s = SUSPEND -> rt_smp_current (sched s) = self ->
  tlists s wd = rt_linux_task -> chain (next (sched s)) (next (sched s) rt_linux_task) T -> NoDup T -> fits T ->
  i64 (now - resume_time (sched s) self) < period (sched s) self ->
  (length L + length B <= 100)%nat -> (forall t, t ∈ B -> suspendable (sched s) t /\ t ∈ l) -> ready_list (sched s) l ->
  (forall b, b ∈ L -> bt_task s b ∈ T /\ bt_task s b <> self) ->
  exists s' L', watchdog_turn wd s = schd rt_task_wait_period s' /\
    suspended_all (sched s) (sched s') B /\ ready_list (sched s') (without B l) /\
    calm s' wd self (L ++ L') /\ forall t, t ∈ B -> t ∈ bt_task s' <$> L ++ L'.
Proof.
  intros now B Hc Hp Hcur Htl Hch Hnd HT Hown Hroom Hsus Hr Hrec. pose proof (ca_records _ _ _ _ Hc) as Hhr.
  pose proof (records_max s wd L Hhr) as Hmax. unfold watchdog_turn, rt_whoami. run_m. rewrite Hcur. fold now.
  destruct (Z.geb_spec (i64 (now - resume_time (sched s) self)) (period (sched s) self)) as [|_]; [lia|].
  destruct (invalidate_eq LIST_FUEL s (bad_tl s wd) L) as (f & E); [apply Hhr|unfold LIST_FUEL; lia|].
  rewrite E. cbn [bind_out]. set (s1 := s <| bt_valid := f |>).
  destruct (walk_tasks_spec LIST_FUEL s1 wd self now rt_linux_task T L l) as (s' & E' & [Hss Hsa Hrl (L' & Hc' & HvL & HB) Hold]);
    [done|exact HT|done| |].
  { split_and!; [by apply calm_valid|exact Hp|exact Hroom| |exact Hr].
    intros t Ht Hb. apply Hsus. apply list_elem_of_In, List.filter_In. split; [by apply list_elem_of_In|exact Hb]. }
  rewrite Htl, E'. cbn [bind_out]. pose proof (records_max s' wd _ (ca_records _ _ _ _ Hc')) as Hmax'.
  rewrite (clean_up_valid LIST_FUEL s' wd (bad_tl s' wd) (L ++ L')).
  - exists s', L'. cbn [bind_out]. split_and!; [done|exact Hsa|exact Hrl|done|].
    intros t Ht%list_elem_of_In. apply List.filter_In in Ht as [Ht Hb]. apply HB; [by apply list_elem_of_In|exact Hb].
  - apply Hc'.
  - unfold LIST_FUEL. lia.
  - intros b [Hb|Hb]%elem_of_app; [|by apply HvL]. apply (Hold b Hb). right. by apply Hrec.
Qed.

(** C22: whatever the policy, a task that overran by [Safety] of its original periods
    is suspended and marked, unless there are already as many records as the
    pool has room for and none is its own: then nothing happens to it. *)
Theorem watchdog_safety_net s wd self t L overrun l1 l2 :
  let orig := if nz (record_of s L t) then bt_orig_period s (record_of s L t) else period (sched s) t in
  calm s wd self L -> preempted (sched s) t l1 l2 -> 0 <= Safety s -> i64 (Safety s * orig) <= overrun ->
  (has_room s L t ->
     exists s' b L', handle_badtask wd t (record_of s L t) overrun s = Done tt s' /\
       state (sched s') t = Z.lor READY SUSPENDED /\ ready_list (sched s') (l1 ++ l2) /\
       calm s' wd self L' /\ b ∈ L' /\ bt_task s' b = t /\ bt_forced s' b = 1) /\
  (~ has_room s L t -> handle_badtask wd t (record_of s L t) overrun s = Done tt s).
Proof.
  intros orig Hc Hp HS Ho. split.
  - intros Hroom.
    assert (Hcase : forall s1 b, sched s1 = sched s -> same_setup s s1 ->
      (if nz (record_of s L t) then b = record_of s L t /\ s1 = s
       else bt_orig_period s1 b = period (sched s) t) -> too_late s1 b overrun).
    { intros s1 b Es [_ _ (_ & _ & E) _] H. unfold too_late. rewrite E. unfold orig in Ho.
      destruct (nz (record_of s L t)); [by destruct H as [-> ->]|by rewrite H]. }
    destruct (handle_suspends s wd self t L overrun l1 l2 Hc Hroom Hp) as
      (s' & b & L' & E & Hc' & Hb & Hbt & HL' & (s1 & Hpd & Es1 & Hss & Hf & Hor) & Hr & Hold & _).
    { intros s1 b Es Hss H. right. left. apply Hcase; [done|done|]. by destruct (nz _); [|destruct H]. }
    exists s', b, L'. split_and!; try done.
    + destruct Hpd as (c & p & f & σ & -> & (P & N & ->) & _). state_simpl. apply upd_eq.
    + apply Hf. left. destruct Hpd as (c & p & f & σ & E' & _). apply Hcase; [done|done|].
      destruct (nz (record_of s L t)) eqn:En; [|done]. split; [|done]. rewrite HL' in Hb.
      destruct (Hold b Hb) as [Et _]. rewrite <- Hbt, Et. symmetry. apply record_of_unique; [apply Hc|done].
  - intros Hno. unfold has_room in Hno. destruct (Z.eq_dec (record_of s L t) 0) as [E|E]; [|tauto].
    unfold handle_badtask. run_m. rewrite E. change (nz 0) with false. cbn iota.
    rewrite (new_record_full s wd L t); [done|apply Hc|]. pose proof (records_max s wd L (ca_records _ _ _ _ Hc)).
    destruct (Nat.lt_ge_cases (length L) 100); [tauto|lia].
Qed.

(** ** Slipping *)

Section Slip.
Implicit Types (s : WDOG) (σ : RTAI) (t b : Z) (l : list Z).

Lemma lift_schedules (o : Out RTAI unit) s (a : Z) :
  lift_out sched s (bind_out o (fun _ σ => Done a σ)) ≡ bind_out (lift_out sched s o) (fun _ s => Done a s).
Proof. revert s. induction o as [|σ k IH|]; intros st; cbn; constructor. intros s'. apply IH. Qed.

Lemma schd_schedules (m : K Z) s σ a :
  schedules (m (sched s)) σ a -> schd m s ≡ bind_out (schd rt_schedule (s <| sched := σ |>)) (fun _ s => Done a s).
Proof.
  unfold schedules, schd, lift. intros ->. rewrite lift_schedules. apply bind_out_proper; [|done].
  change (sched (s <| sched := σ |>)) with σ. by destruct (rt_schedule σ), s.
Qed.

(** [n] turns of the watchdog that find the record of a slipping task. *)
Fixpoint slip_turns (n : nat) (b : Z) : W unit :=
  match n with O => mret tt | S n => check_slipping_badtask b;; slip_turns n b end.

Lemma slip_turns_eq n s b :
  Z.of_nat n < bt_countdown s b < 2147483648 ->
  exists f, slip_turns n b s = Done tt (s <| bt_countdown := f |>) /\ f b = bt_countdown s b - Z.of_nat n.
Proof.
  revert s. induction n as [|n IH]; intros s Hn.
  - exists (bt_countdown s). cbn [slip_turns]. split; [by destruct s|lia].
  - cbn [slip_turns]. unfold check_slipping_badtask. run_m. rewrite upd_eq.
    rewrite i32_id by (unfold in_i32, INT_MIN, INT_MAX; lia).
    rewrite (proj2 (Z.leb_gt _ _)) by lia. run_m.
    set (s1 := s <| bt_countdown ::= _ |>). assert (E1 : bt_countdown s1 b = bt_countdown s b - 1) by (unfold s1; state_simpl; apply upd_eq).
    destruct (IH s1) as (f & E & Ef); [lia|]. exists f. split; [exact E|lia].
Qed.
End Slip.

(** C30: a task that slips is suspended for as many ticks of the watchdog as its
    slip takes, and at least for one: while they are counted nothing happens to
    it, and with the last it is ready again, behind the tasks of its
    priority. *)
Theorem slip_lasts s t b l1 l2 :
  let k := Z.max 1 (slip_ticks s t) in
  alone s -> preempted (sched s) t l1 l2 -> bt_task s b = t -> 0 <= slip_ticks s t ->
  exists s1, (start_slipping_badtask t b;; slip_turns (Z.to_nat (k - 1)) b) s = Done tt s1 /\
    bt_slipping s1 b = 1 /\ state (sched s1) t = Z.lor READY SUSPENDED /\ ready_list (sched s1) (l1 ++ l2) /\
    (fits (l1 ++ l2) -> t ∉ rt_linux_task :: l1 ++ l2 -> priority (sched s) t < RT_LINUX_PRIORITY ->
     priority (sched s) rt_linux_task = RT_LINUX_PRIORITY -> lock_first (priority (sched s)) (l1 ++ l2) ->
     exists s2, check_slipping_badtask b s1 ≡ bind_out (schd rt_schedule s2) (fun _ s => Done tt s) /\
       bt_slipping s2 b = 0 /\ state (sched s2) t = READY /\ suspdepth (sched s2) t = 0 /\
       ready_list (sched s2) (insert_after (fun y => priority (sched s) y <=? priority (sched s) t) t (l1 ++ l2))).
Proof.
  intros k Ha Hp Hbt Hk0. unfold start_slipping_badtask. run_m.
  match goal with |- context [smpproof_task_suspend t ?st] => set (s0 := st) end.
  destruct (smpproof_task_suspend_spec s0 t l1 l2) as (σ & -> & (P & N & Hσ) & Hr); [done|done|]. cbn [bind_out].
  change (sched s0) with (sched s) in Hσ. set (s1 := s0 <| sched := σ |>).
  assert (Hk : in_i32 (slip_ticks s t)) by apply i32_range. unfold in_i32, INT_MIN, INT_MAX in Hk.
  assert (Ec : bt_countdown s1 b = slip_ticks s t) by (unfold s1, s0; state_simpl; apply upd_eq).
  assert (exists f, slip_turns (Z.to_nat (k - 1)) b s1 = Done tt (s1 <| bt_countdown := f |>) /\ f b <= 1 /\ in_i32 (f b - 1))
    as (f & -> & Hf & Hf').
  { destruct (Z.le_gt_cases (slip_ticks s t) 1).
    - exists (bt_countdown s1). replace (Z.to_nat (k - 1)) with 0%nat by lia. split; [by destruct s1|].
      rewrite Ec. unfold in_i32, INT_MIN, INT_MAX. lia.
    - destruct (slip_turns_eq (Z.to_nat (k - 1)) s1 b) as (f & E & Ef); [lia|]. exists f. split; [done|].
      unfold in_i32, INT_MIN, INT_MAX. lia. }
  exists (s1 <| bt_countdown := f |>). split; [done|].
  split; [unfold s1, s0; state_simpl; apply upd_eq|]. split; [unfold s1; state_simpl; rewrite Hσ; state_simpl; apply upd_eq|].
  split; [exact Hr|]. intros Hfit Ht Hpt Hpl Hlf. unfold check_slipping_badtask. run_m. rewrite upd_eq, i32_id by done.
  rewrite (proj2 (Z.leb_le _ _)) by lia. run_m.
  match goal with |- context [schd (rt_task_resume (bt_task ?st b)) ?st'] => set (s2 := st') end.
  destruct Hp as [[(_ & Hm & Hh) _ _ _] _].
  destruct (rt_task_resume_spec σ t (l1 ++ l2) 0) as (σ2 & E2 & Est & Esd & Hr2 & _);
    [by rewrite Hσ|done|done|done|rewrite Hσ; state_simpl; by rewrite upd_eq|by left|by rewrite Hσ
    |rewrite Hσ; state_simpl; by rewrite upd_eq|by rewrite Hσ|by rewrite Hσ|by rewrite Hσ|].
  exists (s2 <| sched := σ2 |>). split; [|split_and!].
  - unfold s1, s0. state_simpl. rewrite Hbt.
    transitivity (bind_out (bind_out (schd rt_schedule (s2 <| sched := σ2 |>)) (fun _ s => Done 0 s)) (fun _ s => Done tt s)).
    + apply bind_out_proper; [|done]. by apply schd_schedules.
    + apply bind_out_assoc.
  - unfold s2, s1, s0. state_simpl. apply upd_eq.
  - state_simpl. rewrite Est. apply upd_eq.
  - state_simpl. rewrite Esd. apply upd_eq.
  - rewrite Hσ in Hr2. exact Hr2.
Qed.

(** ** Records that are lost *)

Section Delete.
Implicit Types (s : WDOG) (wd t b x y : Z) (L : list Z).

Lemma before_bad_eq fuel s a L1 x y L2 :
  chain (bt_next s) a (L1 ++ x :: y :: L2) -> NoDup (L1 ++ x :: y :: L2) -> (length L1 < fuel)%nat ->
  before_bad fuel s a y = Some x.
Proof.
  revert a L1. induction fuel as [|fuel IH]; intros a L1 Hc Hnd Hf; [lia|]. destruct L1 as [|z L1]; cbn [app chain length] in *.
  - destruct Hc as (-> & H0 & E & _). cbn [before_bad]. rewrite (proj2 (nz_true _) H0). cbn [negb].
    by rewrite E, Z.eqb_refl.
  - destruct Hc as (-> & H0 & Hc). cbn [before_bad]. rewrite (proj2 (nz_true _) H0). cbn [negb].
    apply NoDup_cons in Hnd as [_ Hnd]. assert (Hne : bt_next s z <> y).
    { destruct L1 as [|w L1]; cbn [app chain] in Hc; destruct Hc as (-> & _ & _); intros ->; cbn [app] in Hnd;
        apply NoDup_cons in Hnd as [Hnd _]; set_solver. }
    rewrite (proj2 (Z.eqb_neq _ _) Hne). by apply (IH _ L1); [| |lia].
Qed.

Lemma in_use_deleted s wd L L' y :
  has_records s wd L -> y ∈ L -> (forall b, b ∈ L' <-> b ∈ L /\ b <> y) ->
  forall i, 0 <= i < BAD_TASK_MAX ->
    (<[y := 0]> (bt_in_use s)) (bad_task_pool i) <> 0 <-> bad_task_pool i ∈ L'.
Proof.
  intros H Hy HL i Hi. rewrite HL, <- (hr_used s wd L H i Hi), upd_dec. case_decide as E; [|naive_solver].
  split; [done|]. by intros [_ Hne].
Qed.

(** A record that is not the first. *)
Lemma delete_later s wd L1 x y L2 :
  has_records s wd (L1 ++ x :: y :: L2) ->
  exists s', delete_bad_task wd y s = Done (bt_next s y) s' /\ has_records s' wd (L1 ++ x :: L2) /\ sched s' = sched s.
Proof.
  intros H. pose proof (records_max _ _ _ H) as Hmax. pose proof H as [Hc Hnd Hp Hu].
  assert (Hy : bad_tl s wd <> y).
  { destruct L1 as [|w L1]; cbn [app chain] in Hc; destruct Hc as (-> & _ & _); intros ->; cbn [app] in Hnd;
      apply NoDup_cons in Hnd as [Hnd _]; set_solver. }
  unfold delete_bad_task, free_bad_task. run_m. rewrite (proj2 (Z.eqb_neq _ _) Hy).
  rewrite (before_bad_eq LIST_FUEL s _ L1 x y L2 Hc Hnd) by (rewrite length_app in Hmax; unfold LIST_FUEL; lia).
  run_m. eexists. split; [reflexivity|]. split; [|done].
  pose proof Hnd as Hnd'. rewrite (cons_middle x L1), app_assoc in Hnd'. apply nodup_middle in Hnd' as [Hny Hnd'].
  rewrite <- app_assoc in Hny, Hnd'. cbn [app] in Hny, Hnd'.
  assert (Hiff : forall b, b ∈ L1 ++ x :: L2 <-> b ∈ L1 ++ x :: y :: L2 /\ b <> y).
  { intros b. split; [|set_solver]. intros Hb. split; [set_solver|]. by intros ->. }
  split; state_simpl.
  - eapply chain_bypass; [exact Hc|exact Hnd|by rewrite upd_eq|]. intros z Hz. by rewrite upd_ne.
  - exact Hnd'.
  - intros b [Hb _]%Hiff. by apply Hp.
  - apply (in_use_deleted s wd (L1 ++ x :: y :: L2)); [done|set_solver|exact Hiff].
Qed.
End Delete.

(** A record that is deleted takes those behind it along if it is the first:
    the list is empty, but their entries of the pool remain in use, and a task
    that slipped is never looked at again, so that it is suspended for ever.
    Any other record is deleted alone. *)
Theorem clean_up_loses_records s wd x L :
  has_records s wd (x :: L) -> bt_valid s x = 0 ->
  (exists s', clean_up LIST_FUEL wd (bad_tl s wd) s = Done tt s' /\ bad_tl s' wd = 0 /\ sched s' = sched s /\
     (forall b, b ∈ L -> bt_in_use s' b <> 0) /\
     forall self now t, t <> self -> num_wdogs s = 1 -> t <> wdog 0 ->
       state (sched s) t = Z.lor READY SUSPENDED -> look_at wd self now t s' = Done tt s') /\
  (forall L1 x' y L2, x :: L = L1 ++ x' :: y :: L2 ->
     exists s', delete_bad_task wd y s = Done (bt_next s y) s' /\ has_records s' wd (L1 ++ x' :: L2) /\ sched s' = sched s).
Proof.
  intros H Hv. pose proof H as [(Ex & Hx0 & Hc) Hnd _ Hu]. split.
  - rewrite Ex. change LIST_FUEL with (S 1023) at 1. cbn [clean_up]. rewrite (proj2 (nz_true _) Hx0). cbn [negb]. run_m. rewrite Hv.
    change (nz 0) with false. cbn [negb]. unfold delete_bad_task, free_bad_task. run_m. rewrite Ex, Z.eqb_refl. run_m.
    change (nz 0) with false. cbn [negb]. eexists. split; [reflexivity|]. state_simpl. split_and!; [apply upd_eq|done| |].
    + intros b Hb. apply NoDup_cons in Hnd as [Hnd _]. rewrite upd_ne by (by intros ->).
      destruct (hr_pool _ _ _ H b) as (i & Hi & ->); [set_solver|]. apply Hu; [done|set_solver].
    + intros self now t Ht Hn Hw Hst. unfold look_at. rewrite (proj2 (Z.eqb_neq _ _) Ht). run_m. rewrite upd_eq.
      unfold find_bad_task. run_m. rewrite (find_bad_from_eq LIST_FUEL _ 0 []) by (done || (unfold LIST_FUEL; cbn; lia)).
      change (record_of _ [] t) with 0. run_m. change (nz 0) with false. unfold judge, ignored. run_m. rewrite Hst.
      change (has (Z.lor READY SUSPENDED) BLOCKED_STATES) with true. by rewrite orb_true_r.
  - intros L1 x' y L2 EL. rewrite EL in H. by apply delete_later.
Qed.

(** ** Parameters *)

Inductive wd_call : Type :=
  | SetGrace (n : Z) | SetGraceDiv (n : Z) | SetSafety (n : Z) | SetPolicy (n : Z) | SetSlip (n : Z)
  | SetStretch (n : Z) | SetLimit (n : Z).

Definition do_set (c : wd_call) : W Z :=
  match c with
  | SetGrace n => rt_wdset_grace n | SetGraceDiv n => rt_wdset_gracediv n | SetSafety n => rt_wdset_safety n
  | SetPolicy n => rt_wdset_policy n | SetSlip n => rt_wdset_slip n | SetStretch n => rt_wdset_stretch n
  | SetLimit n => rt_wdset_limit n
  end.

Fixpoint do_sets (cs : list wd_call) : W (list Z) :=
  match cs with [] => mret [] | c :: cs => r ← do_set c; rs ← do_sets cs; mret (r :: rs) end.

Definition wd_arg (c : wd_call) : Z :=
  match c with
  | SetGrace n | SetGraceDiv n | SetSafety n | SetPolicy n | SetSlip n | SetStretch n | SetLimit n => n
  end.

(** The parameters are values of their types and ranges. *)
Record params_ok (s : WDOG) : Prop := {
  po_grace : 1 <= Grace s <= INT_MAX /\ 1 <= GraceDiv s <= INT_MAX;
  po_policy : NOTHING <= Policy s <= KILL;
  po_forced : Policy s <= STRETCH -> Grace s = 1 /\ GraceDiv s = 1;
  po_percent : 0 <= Slip s <= INT_MAX /\ 0 <= Stretch s <= INT_MAX;
  po_ints : in_i32 (Safety s) /\ in_i32 (Limit s)
}.

(** The parameter of a call. *)
Definition wd_param (c : wd_call) (s : WDOG) : Z :=
  match c with
  | SetGrace _ => Grace s | SetGraceDiv _ => GraceDiv s | SetSafety _ => Safety s | SetPolicy _ => Policy s
  | SetSlip _ => Slip s | SetStretch _ => Stretch s | SetLimit _ => Limit s
  end.

(** The values that are accepted: a grace of at least 1, and of 1 under the
    policies up to [STRETCH]; a safety limit that is disabled (negative) or not
    below the grace; a policy that exists; percentages. *)
Definition accepts (c : wd_call) (s : WDOG) : Prop :=
  match c with
  | SetGrace n | SetGraceDiv n => 1 <= n /\ (Policy s <= STRETCH -> n = 1)
  | SetSafety n => n < 0 \/ Grace s <= n
  | SetPolicy n => NOTHING <= n <= KILL
  | SetSlip n | SetStretch n => 0 <= n
  | SetLimit n => True
  end.

(** The state after a call that is accepted: a policy up to [STRETCH] also sets
    the grace to 1, and [DEBUG] disables the two limits. *)
Definition after_set (c : wd_call) (s : WDOG) : WDOG :=
  match c with
  | SetGrace n => s <| Grace := n |>
  | SetGraceDiv n => s <| GraceDiv := n |>
  | SetSafety n => s <| Safety := n |>
  | SetPolicy n =>
      let forced := bool_decide (n <= STRETCH) in let off := bool_decide (n = DEBUG) in
      s <| Policy := n |> <| Grace := if forced then 1 else Grace s |> <| GraceDiv := if forced then 1 else GraceDiv s |>
        <| Safety := if off then -1 else Safety s |> <| Limit := if off then -1 else Limit s |>
  | SetSlip n => s <| Slip := n |>
  | SetStretch n => s <| Stretch := n |>
  | SetLimit n => s <| Limit := n |>
  end.

(** A call sets the parameter and returns the value before, if it accepts the
    argument; else it is refused and changes nothing. *)
Definition set_or_refused c s r s' : Prop :=
  (accepts c s -> r = wd_param c s /\ s' = after_set c s) /\ (~ accepts c s -> r = - EINVAL /\ s' = s).

Lemma do_set_accepts c s : accepts c s -> do_set c s = Done (wd_param c s) (after_set c s).
Proof.
  intros H. destruct c as [n|n|n|n|n|n|n]; cbn [do_set accepts wd_param after_set] in *;
    [unfold rt_wdset_grace|unfold rt_wdset_gracediv|unfold rt_wdset_safety|unfold rt_wdset_policy|unfold rt_wdset_slip
    |unfold rt_wdset_stretch|reflexivity]; run_m.
  - destruct (Z.leb_spec (Policy s) STRETCH), (Z.eqb_spec n 1), (Z.ltb_spec n 1); cbn [negb andb]; (reflexivity || lia).
  - destruct (Z.leb_spec (Policy s) STRETCH), (Z.eqb_spec n 1), (Z.ltb_spec n 1); cbn [negb andb]; (reflexivity || lia).
  - rewrite Z.geb_leb. destruct (Z.leb_spec 0 n), (Z.ltb_spec n (Grace s)); cbn [andb]; (reflexivity || lia).
  - rewrite Z.gtb_ltb, (proj2 (Z.ltb_ge n NOTHING)), (proj2 (Z.ltb_ge KILL n)) by lia. cbn [orb].
    destruct (Z.leb_spec n STRETCH) as [H1|H1]; run_m;
      [rewrite (bool_decide_eq_true_2 (n <= STRETCH)) by done|rewrite (bool_decide_eq_false_2 (n <= STRETCH)) by lia];
      (destruct (Z.eqb_spec n DEBUG) as [H2|H2]; run_m;
       [rewrite (bool_decide_eq_true_2 (n = DEBUG)) by done|rewrite (bool_decide_eq_false_2 (n = DEBUG)) by done]);
      by destruct s.
  - destruct (Z.ltb_spec n 0); [lia|reflexivity].
  - destruct (Z.ltb_spec n 0); [lia|reflexivity].
Qed.

Lemma do_set_refuses c s : ~ accepts c s -> do_set c s = Done (- EINVAL) s.
Proof.
  intros H. destruct c as [n|n|n|n|n|n|n]; cbn [do_set accepts] in *;
    [unfold rt_wdset_grace|unfold rt_wdset_gracediv|unfold rt_wdset_safety|unfold rt_wdset_policy|unfold rt_wdset_slip
    |unfold rt_wdset_stretch|by destruct H]; run_m.
  - destruct (Z.leb_spec (Policy s) STRETCH), (Z.eqb_spec n 1), (Z.ltb_spec n 1); cbn [negb andb]; (reflexivity || lia).
  - destruct (Z.leb_spec (Policy s) STRETCH), (Z.eqb_spec n 1), (Z.ltb_spec n 1); cbn [negb andb]; (reflexivity || lia).
  - rewrite Z.geb_leb. destruct (Z.leb_spec 0 n), (Z.ltb_spec n (Grace s)); cbn [andb]; (reflexivity || lia).
  - rewrite Z.gtb_ltb. destruct (Z.ltb_spec n NOTHING), (Z.ltb_spec KILL n); cbn [orb]; (reflexivity || lia).
  - destruct (Z.ltb_spec n 0); [reflexivity|lia].
  - destruct (Z.ltb_spec n 0); [reflexivity|lia].
Qed.

#[export] Instance accepts_dec c s : Decision (accepts c s).
Proof. destruct c; cbn [accepts]; apply _. Defined.

Lemma after_set_ok c s : params_ok s -> in_i32 (wd_arg c) -> accepts c s -> params_ok (after_set c s).
Proof.
  intros [[Hg Hd] Hp Hf [Hl Hr] [Ha Hi]] Harg Hacc. unfold in_i32, INT_MIN, INT_MAX, NOTHING, STRETCH, KILL in *.
  destruct c as [n|n|n|n|n|n|n]; cbn [wd_arg accepts after_set] in *; cbv zeta;
    (split; unfold in_i32, INT_MIN, INT_MAX, NOTHING, STRETCH, KILL, DEBUG in *; state_simpl; repeat case_bool_decide; lia).
Qed.

Lemma do_set_ok c s :
  params_ok s -> in_i32 (wd_arg c) ->
  exists r s', do_set c s = Done r s' /\ params_ok s' /\ set_or_refused c s r s'.
Proof.
  intros Hs Hc. destruct (decide (accepts c s)) as [H|H].
  - exists (wd_param c s), (after_set c s). split; [by apply do_set_accepts|]. split; [by apply after_set_ok|].
    split; [done|intros Hn; by destruct Hn].
  - exists (- EINVAL), s. split; [by apply do_set_refuses|]. split; [done|].
    split; [intros Ha; by destruct H|done].
Qed.

Fixpoint sets_or_refuses (cs : list wd_call) s (rs : list Z) s' : Prop :=
  match cs, rs with
  | [], [] => s' = s
  | c :: cs, r :: rs => exists s1, set_or_refused c s r s1 /\ params_ok s1 /\ sets_or_refuses cs s1 rs s'
  | _, _ => False
  end.

(** C31: the parameters stay in their ranges whatever is set, in any order: the
    grace is a positive fraction, and 1 under the policies that ask for it; the
    limits are any [int].  Each call with a value that [accepts] names sets its
    parameter to it, with what the policy forces, and returns the value before;
    every other is refused and changes nothing. *)
Theorem wdset_in_range cs s :
  params_ok s -> Forall (fun c => in_i32 (wd_arg c)) cs ->
  exists rs s', do_sets cs s = Done rs s' /\ sets_or_refuses cs s rs s' /\ params_ok s'.
Proof.
  intros Hs HF. revert s Hs. induction HF as [|c cs Hc HF IH]; intros s Hs; [by exists [], s|].
  destruct (do_set_ok c s Hs Hc) as (r & s1 & E & Hs1 & Hr).
  destruct (IH s1 Hs1) as (rs & s2 & E2 & Hrs & Hs2). exists (r :: rs), s2.
  cbn [do_sets]. unfold mbind, M_bind. rewrite E. cbn [bind_out]. rewrite E2. cbn [bind_out].
  split_and!; [done| |done]. by exists s1.
Qed.

(** ** Registration *)

(** [init_module] does not see that the watchdog was not registered. *)
Theorem register_not_checked s :
  wdog_task (sched s) <> 0 ->
  register_up (Z.to_nat NR_RT_CPUS) 0 s = Done true (s <| smp_current := u32 (- EBUSY) |>) /\ u32 (- EBUSY) <> 0.
Proof.
  intros H. change (Z.to_nat NR_RT_CPUS) with 1%nat. cbn [register_up]. change (negb (0 <? NR_RT_CPUS)) with false. cbn iota.
  unfold mbind, M_bind. rewrite (wd_done _ s (- EBUSY) (sched s)).
  - cbn [bind_out]. run_m. replace (s <| sched := sched s |>) with s by (by destruct s).
    unfold u32. rewrite (proj2 (Z.ltb_ge _ _)) by (pose proof (Z.mod_pos_bound (- EBUSY) 4294967296); lia). run_m.
    change (negb (0 + 1 <? NR_RT_CPUS)) with true. done.
  - unfold rt_register_watchdog. step_m. by rewrite (proj2 (nz_true _) H).
Qed.

(** A watchdog that overran itself does not look at the tasks: its next period
    begins now. *)
Theorem watchdog_catches_up s wd self :
  rt_smp_current (sched s) = self -> oneshot_timer (sched s) <> 0 ->
  period (sched s) self <= i64 (tsc (sched s) - resume_time (sched s) self) ->
  watchdog_turn wd s = Done tt (s <| sched ::= fun σ => σ <| resync_frame ::= <[self := 1]> |>
    <| resync_frame ::= <[self := 0]> |> <| resume_time ::= <[self := tsc σ]> |> |>).
Proof.
  intros Hc Ho Hp. apply nz_true in Ho. unfold watchdog_turn, rt_whoami, rt_get_time_cpuid. run_m. rewrite Hc, Ho.
  destruct (Z.geb_spec (i64 (tsc (sched s) - resume_time (sched s) self)) (period (sched s) self)); [|lia]. run_m.
  erewrite wd_done by reflexivity. cbn [bind_out]. erewrite wd_done; [by destruct s|].
  unfold rt_task_wait_period. step_m. rewrite Hc, upd_eq. change (nz 1) with true. step_m.
  unfold rt_get_time, get_time. state_simpl. by rewrite Ho.
Qed.

(** * Examples *)

(** The watchdog runs at 100; the task at 64 should have begun at 0, that at 80
    at 95; both have a period of 10. *)
Definition demo_wd_sched : RTAI :=
  rtai_zero <| rt_smp_current := wdog 0 |> <| oneshot_timer := 1 |> <| tsc := 100 |>
    <| next := fun t => if t =? 16 then wdog 0 else if t =? wdog 0 then 64 else if t =? 64 then 80 else 0 |>
    <| rnext := fun t => if t =? 16 then wdog 0 else if t =? wdog 0 then 64 else if t =? 64 then 80 else 16 |>
    <| rprev := fun t => if t =? 16 then 80 else if t =? 80 then 64 else if t =? 64 then wdog 0 else 16 |>
    <| magic := fun _ => RT_TASK_MAGIC |> <| is_hard := fun _ => 1 |> <| state := fun _ => READY |>
    <| period := fun _ => 10 |> <| resume_time := fun t => if t =? 64 then 0 else 95 |>
    <| priority := fun t => if t =? 16 then RT_LINUX_PRIORITY else if t =? wdog 0 then 0 else 1 |>.

Definition demo_wd : WDOG :=
  wdog_zero demo_wd_sched <| num_wdogs := 1 |> <| sched_type := MUP_SCHED |> <| tlists := fun _ => rt_linux_task |>.

Lemma demo_calm : calm demo_wd 0 (wdog 0) [].
Proof.
  split; [done| |constructor|by intros b ?%elem_of_nil]. split; [done|constructor|by intros b ?%elem_of_nil|].
  intros i Hi. split; [done|by intros ?%elem_of_nil].
Defined.

Lemma demo_preempted : suspendable demo_wd_sched 64.
Proof. by split; split_and?. Defined.

Lemma demo_wd_ready : ready_list demo_wd_sched ([wdog 0] ++ 64 :: [80]).
Proof. split; [by split_and!|]. repeat constructor; set_solver. Defined.

Lemma demo_bad : List.filter (bad demo_wd (wdog 0) (rt_get_time_cpuid (sched demo_wd))) [wdog 0; 64; 80] = [64].
Proof. vm_compute. reflexivity. Defined.

Lemma watchdog_suspends_witness :
  exists s' L', watchdog_turn 0 demo_wd = schd rt_task_wait_period s' /\
    suspended_all demo_wd_sched (sched s') [64] /\ ready_list (sched s') [wdog 0; 80] /\
    calm s' 0 (wdog 0) ([] ++ L') /\ forall t, t ∈ [64] -> t ∈ bt_task s' <$> [] ++ L'.
Proof.
  pose proof (watchdog_suspends demo_wd 0 (wdog 0) [wdog 0; 64; 80] [] [wdog 0; 64; 80]) as H. cbv zeta in H.
  rewrite demo_bad in H. change (without [64] [wdog 0; 64; 80]) with [wdog 0; 80] in H. apply H; clear H.
  - exact demo_calm.
  - reflexivity.
  - reflexivity.
  - reflexivity.
  - by split_and!.
  - repeat constructor; set_solver.
  - unfold fits, LIST_FUEL. cbn. lia.
  - by vm_compute.
  - cbn. lia.
  - intros t Ht. assert (t = 64) as -> by (by apply list_elem_of_singleton). split; [exact demo_preempted|set_solver].
  - exact demo_wd_ready.
  - by intros b ?%elem_of_nil.
Defined.

Lemma watchdog_safety_net_witness :
  exists s' b L', handle_badtask 0 64 0 1000 demo_wd = Done tt s' /\
    state (sched s') 64 = Z.lor READY SUSPENDED /\ ready_list (sched s') ([wdog 0] ++ [80]) /\
    calm s' 0 (wdog 0) L' /\ b ∈ L' /\ bt_task s' b = 64 /\ bt_forced s' b = 1.
Proof.
  apply (watchdog_safety_net demo_wd 0 (wdog 0) 64 [] 1000 [wdog 0] [80]);
    [exact demo_calm|exact (conj demo_preempted demo_wd_ready)|by vm_compute|by vm_compute|right; cbn; lia].
Defined.

(** The task at 64 has a record. *)
Definition demo_slip : WDOG := demo_wd <| bt_task ::= <[20480 := 64]> |>.

Lemma demo_ticks : slip_ticks demo_slip 64 = 0.
Proof. vm_compute. reflexivity. Defined.

Lemma slip_lasts_witness :
  exists s1, (start_slipping_badtask 64 20480;; slip_turns (Z.to_nat (Z.max 1 (slip_ticks demo_slip 64) - 1)) 20480) demo_slip = Done tt s1 /\
    bt_slipping s1 20480 = 1 /\ state (sched s1) 64 = Z.lor READY SUSPENDED /\ ready_list (sched s1) ([wdog 0] ++ [80]).
Proof.
  destruct (slip_lasts demo_slip 64 20480 [wdog 0] [80]) as (s1 & E & H1 & H2 & H3 & _);
    [done|exact (conj demo_preempted demo_wd_ready)|done|by rewrite demo_ticks|].
  exists s1. split; [exact E|]. split; [exact H1|]. split; [exact H2|exact H3].
Defined.

(** The first task with a record has gone; the second slips. *)
Definition demo_lost : WDOG :=
  demo_wd <| bad_tl := fun _ => 20480 |> <| bt_next ::= <[20480 := 20481]> |>
    <| bt_in_use ::= <[20480 := 1]> |> <| bt_in_use ::= <[20481 := 1]> |>
    <| bt_task ::= <[20480 := 96]> |> <| bt_task ::= <[20481 := 64]> |> <| bt_slipping ::= <[20481 := 1]> |>
    <| bt_valid ::= <[20481 := 1]> |>.

Lemma clean_up_loses_records_witness :
  exists s', clean_up LIST_FUEL 0 (bad_tl demo_lost 0) demo_lost = Done tt s' /\ bad_tl s' 0 = 0 /\
    (forall b, b ∈ [20481] -> bt_in_use s' b <> 0).
Proof.
  destruct (clean_up_loses_records demo_lost 0 20480 [20481]) as [(s' & H1 & H2 & _ & H3 & _) _].
  - split.
    + by split_and!.
    + repeat constructor; set_solver.
    + intros b [->|[->|[]%elem_of_nil]%elem_of_cons]%elem_of_cons; [exists 0|exists 1]; by vm_compute.
    + intros i Hi. unfold demo_lost, demo_wd, bad_task_pool. state_simpl. rewrite !upd_dec.
      repeat case_decide; [set_solver..|]. split; [done|]. intros [?|[?|[]%elem_of_nil]%elem_of_cons]%elem_of_cons; lia.
  - reflexivity.
  - exists s'. by split_and!.
Defined.

Lemma wdset_in_range_witness :
  exists rs s', do_sets [SetPolicy DEBUG; SetGrace 5; SetSafety 0; SetPolicy KILL; SetGrace 5] demo_wd = Done rs s' /\
    sets_or_refuses [SetPolicy DEBUG; SetGrace 5; SetSafety 0; SetPolicy KILL; SetGrace 5] demo_wd rs s' /\ params_ok s'.
Proof.
  apply (wdset_in_range [SetPolicy DEBUG; SetGrace 5; SetSafety 0; SetPolicy KILL; SetGrace 5] demo_wd).
  - split; by vm_compute.
  - repeat constructor; by vm_compute.
Defined.
