(* ===== verification/Lxrt.v ===== *)
(** Lxrt: Linux processes as real time tasks.

    The section "support for Linux tasks and kernel threads" of
    [newlxrt/scheduler/rtai_sched.c] and the calls of [newlxrt/newlxrt.c] that
    lead to it.  A process is soft ([is_hard] 0) when Linux schedules it, hard
    (1) when RTAI does, and forced soft (2) after a trap, until its next
    call.  [kthread_b] runs a process that becomes hard, [kthread_m] keeps a
    reservoir of threads for new tasks, [wake_up_srq_handler] wakes processes
    that become soft.

    The state contains that of the scheduler.  On one processor the arrays by
    processor are variables.  [schedule()] of Linux is a loss of the processor;
    waking a process, making and reaping a thread are events. *)

From S2P Require Import Prelude Resume DList SchedState SchedQueues Schedule SchedTask.

Inductive xevent : Type :=
  | WakeUpProcess (p : Z) | KernelThread | WaitPid (p : Z) | ScheduleTimeout (ticks : Z)
  | InitXfpu | RequestSrq | FreeSrq.

Record LXRT : Type := mkLXRT {
  (* struct task_struct of Linux *)
  p_policy : Z -> Z;
  cpus_allowed : Z -> Z;
  used_math : Z -> Z;
  this_rt_task0 : Z -> Z;
  this_rt_task1 : Z -> Z;
  (* struct rt_task_struct *)
  max_msg_size0 : Z -> Z;
  max_msg_size1 : Z -> Z;
  task_trap_handler : Z -> Z -> Z;
  (* klistb, klistm *)
  kb_in : Z;
  kb_out : Z;
  kb_task : Z -> Z;
  km_in : Z;
  km_out : Z;
  km_task : Z -> Z;
  kthreadb : Z;
  kthreadm : Z;
  resem : Z;
  endkthread : Z;
  rsvr_cnt : Z;
  Reservoir : Z;
  taskidx : Z;
  taskav : Z -> Z;
  htrp7 : Z;
  rt : RTAI;
  xlog : list xevent
}.

#[export] Instance LXRT_eta : Eta LXRT := fun s =>
  mkLXRT (p_policy s) (cpus_allowed s) (used_math s) (this_rt_task0 s) (this_rt_task1 s)
    (max_msg_size0 s) (max_msg_size1 s) (task_trap_handler s) (kb_in s) (kb_out s) (kb_task s)
    (km_in s) (km_out s) (km_task s) (kthreadb s) (kthreadm s) (resem s) (endkthread s)
    (rsvr_cnt s) (Reservoir s) (taskidx s) (taskav s) (htrp7 s) (rt s) (xlog s).

#[export] Instance set_p_policy : Setter p_policy := ltac:(mk_setter).
#[export] Instance set_cpus_allowed : Setter cpus_allowed := ltac:(mk_setter).
#[export] Instance set_used_math : Setter used_math := ltac:(mk_setter).
#[export] Instance set_this_rt_task0 : Setter this_rt_task0 := ltac:(mk_setter).
#[export] Instance set_this_rt_task1 : Setter this_rt_task1 := ltac:(mk_setter).
#[export] Instance set_max_msg_size0 : Setter max_msg_size0 := ltac:(mk_setter).
#[export] Instance set_max_msg_size1 : Setter max_msg_size1 := ltac:(mk_setter).
#[export] Instance set_task_trap_handler : Setter task_trap_handler := ltac:(mk_setter).
#[export] Instance set_kb_in : Setter kb_in := ltac:(mk_setter).
#[export] Instance set_kb_out : Setter kb_out := ltac:(mk_setter).
#[export] Instance set_kb_task : Setter kb_task := ltac:(mk_setter).
#[export] Instance set_km_in : Setter km_in := ltac:(mk_setter).
#[export] Instance set_km_out : Setter km_out := ltac:(mk_setter).
#[export] Instance set_km_task : Setter km_task := ltac:(mk_setter).
#[export] Instance set_kthreadb : Setter kthreadb := ltac:(mk_setter).
#[export] Instance set_kthreadm : Setter kthreadm := ltac:(mk_setter).
#[export] Instance set_resem : Setter resem := ltac:(mk_setter).
#[export] Instance set_endkthread : Setter endkthread := ltac:(mk_setter).
#[export] Instance set_rsvr_cnt : Setter rsvr_cnt := ltac:(mk_setter).
#[export] Instance set_Reservoir : Setter Reservoir := ltac:(mk_setter).
#[export] Instance set_taskidx : Setter taskidx := ltac:(mk_setter).
#[export] Instance set_taskav : Setter taskav := ltac:(mk_setter).
#[export] Instance set_htrp7 : Setter htrp7 := ltac:(mk_setter).
#[export] Instance set_rt : Setter rt := ltac:(mk_setter).
#[export] Instance set_xlog : Setter xlog := ltac:(mk_setter).

Abbreviation X A := (M LXRT A).

Definition rts {A} (m : K A) : X A := lift rt m.
Definition xemit (e : xevent) : X unit := modify (fun s => s <| xlog ::= cons e |>).

(** The values of the data segment. *)
Definition lxrt_zero (rt_ : RTAI) : LXRT :=
  mkLXRT (fun _ => 0) (fun _ => 0) (fun _ => 0) (fun _ => 0) (fun _ => 0) (fun _ => 0) (fun _ => 0)
    (fun _ _ => 0) 0 0 (fun _ => 0) 0 0 (fun _ => 0) 0 0 0 0 0 4 0 (fun _ => 0) 0 rt_ [].

(** Constants of Linux, and [&thread_task[0]]. *)
Definition SCHED_FIFO : Z := 1.
Definition TASK_INTERRUPTIBLE : Z := 1.
Definition TASK_UNINTERRUPTIBLE : Z := 2.
Definition TASK_ZOMBIE : Z := 4.
Definition thread_task : Z := 28672.

(** [schedule()] of Linux; [schedule_timeout(1)]. *)
Definition linux_schedule : X unit :=
  rts (switch (fun s => s <| log ::= cons ScheduleLinux |>)).
Definition linux_nap : X unit :=
  s ← get;
  rts (wr p_state (current (rt s)) TASK_INTERRUPTIBLE);;
  xemit (ScheduleTimeout 1);;
  linux_schedule.

(** [current->cpus_allowed = 1 << cpuid;]: the one processor is the right one. *)
Definition put_current_on_cpu (cpuid : Z) : X unit :=
  s ← get; wr cpus_allowed (current (rt s)) (Z.shiftl 1 cpuid).

(** [up] and [down] of the semaphore of Linux [resem]: who finds no unit sleeps
    until there is one. *)
Definition up : X unit := s ← get; wg resem (resem s + 1).
Fixpoint down (fuel : nat) : X unit :=
  s ← get;
  if resem s >? 0 then wg resem (resem s - 1)
  else match fuel with
       | O => stuck
       | S fuel' => linux_schedule;; down fuel'
       end.

(** [klistp->task[klistp->in] = x; klistp->in = (klistp->in + 1) & (MAX_SRQ - 1);] *)
Definition kb_put (x : Z) : X unit :=
  s ← get; wr kb_task (kb_in s) x;; wg kb_in (Z.land (kb_in s + 1) (MAX_SRQ - 1)).
Definition km_put (x : Z) : X unit :=
  s ← get; wr km_task (km_in s) x;; wg km_in (Z.land (km_in s + 1) (MAX_SRQ - 1)).

(** [while (wake_up_srq.out != wake_up_srq.in) { wake_up_process(...); ... }] *)
Fixpoint wake_up_all (fuel : nat) : X unit :=
  s ← get;
  if wus_out (rt s) =? wus_in (rt s) then mret tt
  else match fuel with
       | O => stuck
       | S fuel' =>
           xemit (WakeUpProcess (wus_task (rt s) (wus_out (rt s))));;
           rts (wg wus_out (Z.land (wus_out (rt s) + 1) (MAX_SRQ - 1)));;
           wake_up_all fuel'
       end.

(** [need_resched], which has Linux choose again, is not part of the state. *)
Definition wake_up_srq_handler : X unit := wake_up_all LIST_FUEL.

(** * Soft calls *)

(** Between [rt_global_cli] and the service: the task joins the ready list, as
    the running task. *)
Definition soft_enter (rt_task : Z) : K unit :=
  soft_wait SCHED_FUEL rt_task;;
  LOCK_LINUX;;
  enq_ready_task rt_task;;
  wg rt_smp_current rt_task.

Definition soft_leave (rt_task : Z) : K unit :=
  s ← get;
  when (p_rt_priority s (current s) =? BASE_SOFT_PRIORITY) (runlink rt_task);;
  wr state rt_task 0;;
  s ← get;
  when (rt_smp_current s =? rt_task) (wg rt_smp_current rt_linux_task;; rt_schedule);;
  UNLOCK_LINUX.

(** [fun_] is the service, with its arguments. *)
Definition rt_schedule_soft (fun_ : X Z) (rt_task : Z) : X unit :=
  s ← get;
  let priority_ := priority (rt s) rt_task in
  when (priority_ <? BASE_SOFT_PRIORITY) (rts (wr priority rt_task (i32 (priority_ + BASE_SOFT_PRIORITY))));;
  let rt_priority := p_rt_priority (rt s) (current (rt s)) in
  rts (wr p_rt_priority (current (rt s)) BASE_SOFT_PRIORITY);;
  let policy_ := p_policy s (current (rt s)) in
  wr p_policy (current (rt s)) SCHED_FIFO;;
  rts (soft_enter rt_task);;
  r ← fun_;
  rts (wr retval rt_task r);;
  rts (soft_leave rt_task);;
  rts (wr priority rt_task priority_);;
  s ← get;
  rts (wr p_rt_priority (current (rt s)) rt_priority);;
  wr p_policy (current (rt s)) policy_;;
  linux_schedule.

(** * Becoming hard and soft *)

Definition fast_schedule (new_task : Z) : K unit :=
  s ← get;
  wr state new_task (Z.lor (state s new_task) READY);;
  s ← get;
  when (state s new_task =? READY)
    (enq_ready_task new_task;;
     LOCK_LINUX;;
     s ← get;
     let prev := current s in
     wr lnxtsk rt_linux_task prev;;
     UEXECTIME (rt_smp_current s);;
     wg rt_smp_current new_task;;
     switch (fun s => s <| log ::= cons (TaskSwitch prev (lnxtsk s new_task)) |>);;
     emit (RestoreFpu prev);;
     UNLOCK_LINUX).

(** [while (klistp->out != klistp->in) { ... fast_schedule(rt_task); ... }] *)
Fixpoint kthread_b_drain (fuel : nat) : X unit :=
  s ← get;
  if kb_out s =? kb_in s then mret tt
  else match fuel with
       | O => stuck
       | S fuel' =>
           let rt_task := kb_task s (kb_out s) in
           wg kb_out (Z.land (kb_out s + 1) (MAX_SRQ - 1));;
           rts (fast_schedule rt_task);;
           kthread_b_drain fuel'
       end.

(** [turns] turns of [while (!endkthread)]. *)
Fixpoint kthread_b_turns (turns : nat) : X unit :=
  s ← get;
  if nz (endkthread s) then wg kthreadb 0
  else match turns with
       | O => stuck
       | S turns' =>
           rts (wr p_state (current (rt s)) TASK_UNINTERRUPTIBLE);;
           linux_schedule;;
           kthread_b_drain LIST_FUEL;;
           kthread_b_turns turns'
       end.

(** What [kthread_b] and [kthread_m] begin with, up to the announcement. *)
Definition kthread_start (rt_priority : Z) : X unit :=
  s ← get;
  rts (wr p_rt_priority (current (rt s)) rt_priority);;
  wr p_policy (current (rt s)) SCHED_FIFO;;
  up.

Definition kthread_b (turns : nat) (cpuid : Z) : X unit :=
  put_current_on_cpu cpuid;;
  s ← get;
  wg kthreadb (current (rt s));;
  kthread_start 100;;
  kthread_b_turns turns.

(** [if (current->used_math) restore_fpu(current);] *)
Definition restore_current_fpu : X unit :=
  s ← get;
  when (nz (used_math s (current (rt s)))) (rts (emit (RestoreFpu (current (rt s))))).

Definition steal_from_linux (rt_task : Z) : X unit :=
  s ← get;
  put_current_on_cpu (runnable_on_cpus (rt s) rt_task);;
  kb_put rt_task;;
  rts (wr p_state (current (rt s)) (i32 (Z.lor TASK_HARDREALTIME 2147483648)));;
  xemit (WakeUpProcess (kthreadb s));;
  linux_schedule;;
  rts (wr is_hard rt_task 1);;
  s ← get;
  rts (wr exectime1 rt_task (tsc (rt s)));;
  rts (wr p_state (current (rt s)) TASK_HARDREALTIME);;
  restore_current_fpu.

Definition give_back_to_linux (rt_task : Z) : K unit :=
  s ← get;
  wake_up_srq_put (lnxtsk s rt_task);;
  runlink rt_task;;
  wr state rt_task 0;;
  rt_schedule;;
  wr is_hard rt_task 0.

(** * The reservoir of threads *)

Definition get_from_reservoir : X Z :=
  s ← get;
  if taskidx s >? 0 then wg taskidx (taskidx s - 1);; s ← get; mret (taskav s (taskidx s))
  else mret 0.

(** [init_fpu] *)
Definition init_fpu (tsk : Z) : X unit := xemit InitXfpu;; wr used_math tsk 1.

(** The thread made by [kthread_m]: it becomes hard as [thread_task] and
    waits; the task that takes it resumes it.  [call thread data] is the
    function of that task. *)
Definition thread_fun (call : Z -> Z -> X unit) (cpuid : Z) : X unit :=
  s ← get;
  let current_ := current (rt s) in
  rts (wr p_rt_priority current_ 100);;
  wr p_policy current_ SCHED_FIFO;;
  wg rsvr_cnt (rsvr_cnt s + 1);;
  wr this_rt_task0 current_ thread_task;;
  rts (wr lnxtsk thread_task current_);;
  wr this_rt_task1 current_ current_;;
  put_current_on_cpu cpuid;;
  steal_from_linux thread_task;;
  init_fpu current_;;
  _ ← rts (rt_task_suspend thread_task);
  s ← get;
  let task := this_rt_task0 s current_ in
  rts (wr exectime1 task (tsc (rt s)));;
  call (max_msg_size0 s task) (max_msg_size1 s task);;
  _ ← rts (rt_task_suspend task);
  mret tt.

(** [while (task->state != (READY | SUSPENDED)) { ... schedule_timeout(1); }] *)
Fixpoint await_thread (fuel : nat) : X unit :=
  s ← get;
  if state (rt s) thread_task =? Z.lor READY SUSPENDED then mret tt
  else match fuel with
       | O => stuck
       | S fuel' => linux_nap;; await_thread fuel'
       end.

Definition make_thread : X unit :=
  rts (wr state thread_task 0);;
  rts (wr suspdepth thread_task 0);;
  xemit KernelThread;;
  await_thread SCHED_FUEL;;
  s ← get;
  wr taskav (taskidx s) (lnxtsk (rt s) thread_task);;
  wg taskidx (taskidx s + 1).

(** One request: the death of a thread, or a new one for a task that waits,
    hard or soft. *)
Definition serve_request : X unit :=
  s ← get;
  let lnxtsk_ := km_task s (km_out s) in
  let hard := u32 lnxtsk_ in
  (if hard >? 1 then
     rts (wr p_state lnxtsk_ TASK_ZOMBIE);;
     xemit (WaitPid lnxtsk_)
   else
     when (taskidx s <? Reservoir s) make_thread;;
     s ← get;
     wg km_out (Z.land (km_out s + 1) (MAX_SRQ - 1));;
     s ← get;
     if nz hard then _ ← rts (rt_task_resume (km_task s (km_out s))); mret tt else up);;
  s ← get;
  wg km_out (Z.land (km_out s + 1) (MAX_SRQ - 1)).

Fixpoint kthread_m_drain (fuel : nat) : X unit :=
  s ← get;
  if km_out s =? km_in s then mret tt
  else match fuel with
       | O => stuck
       | S fuel' => serve_request;; kthread_m_drain fuel'
       end.

Fixpoint kthread_m_turns (turns : nat) : X unit :=
  s ← get;
  if nz (endkthread s) then wg kthreadm 0
  else match turns with
       | O => stuck
       | S turns' =>
           rts (wr p_state (current (rt s)) TASK_UNINTERRUPTIBLE);;
           linux_schedule;;
           kthread_m_drain LIST_FUEL;;
           kthread_m_turns turns'
       end.

Definition kthread_m (turns : nat) (cpuid : Z) : X unit :=
  rts (wr magic thread_task RT_TASK_MAGIC);;
  rts (wr runnable_on_cpus thread_task cpuid);;
  put_current_on_cpu cpuid;;
  s ← get;
  wg kthreadm (current (rt s));;
  kthread_start 101;;
  kthread_m_turns turns.

(** [wake_up_srq.task[wake_up_srq.in] = kthreadm[cpuid]; ...] *)
Definition wake_kthread_m : X unit := s ← get; rts (wake_up_srq_put (kthreadm s)).

(** A request for a thread, of the task [this_task], and the wait. *)
Definition request_thread : X unit :=
  s ← get;
  let this_task := rt_smp_current (rt s) in
  let hard := b2z (is_hard (rt s) this_task >? 0) in
  km_put hard;;
  km_put this_task;;
  wake_kthread_m;;
  if nz hard then _ ← rts (rt_task_suspend this_task); mret tt else down SCHED_FUEL.

Fixpoint take_thread (fuel : nat) : X Z :=
  kthread ← get_from_reservoir;
  if nz kthread then mret kthread
  else match fuel with
       | O => stuck
       | S fuel' => request_thread;; take_thread fuel'
       end.

Definition get_kthread (get_ lnxtsk_ : Z) : X Z :=
  kthread ←
    (if nz get_ then
       kthread ← take_thread LIST_FUEL;
       km_put 0;; km_put 0;; mret kthread
     else km_put lnxtsk_;; mret 0);
  wake_kthread_m;;
  mret kthread.

(** [set_rtext] with the processes' pointers to their tasks. *)
Definition set_rtext_of (task priority_ uses_fpu_ signal_ cpuid relink : Z) : X Z :=
  r ← rts (set_rtext task priority_ uses_fpu_ signal_ cpuid relink);
  when (r =? 0)
    (if nz relink then wr this_rt_task0 relink task
     else
       s ← get;
       wr this_rt_task0 (current (rt s)) task;;
       wr this_rt_task1 (current (rt s)) (current (rt s));;
       put_current_on_cpu cpuid);;
  mret r.

Definition start_stop_kthread (task rt_thread data priority_ uses_fpu_ signal_ cpuid : Z) : X unit :=
  if nz rt_thread then
    kthread ← get_kthread 1 0;
    r ← set_rtext_of task priority_ uses_fpu_ signal_ cpuid kthread;
    rts (wr retval task r);;
    wr max_msg_size0 task (i32 rt_thread);;
    wr max_msg_size1 task data
  else
    s ← get;
    _ ← get_kthread 0 (lnxtsk (rt s) task);
    mret tt.

Definition rt_kthread_init_cpuid (task rt_thread data stack_size priority_ uses_fpu_ signal_ cpuid : Z) : X Z :=
  start_stop_kthread task rt_thread data priority_ uses_fpu_ signal_ cpuid;;
  s ← get;
  mret (i32 (retval (rt s) task)).

Definition rt_kthread_init (task rt_thread data stack_size priority_ uses_fpu_ signal_ : Z) : X Z :=
  s ← get;
  rt_kthread_init_cpuid task rt_thread data stack_size priority_ uses_fpu_ signal_
    (Z.of_nat (get_min_tasks_cpuid [tasks_per_cpu (rt s)])).

(** * Traps and signals *)

(** A trap forces a hard process soft until its next call. *)
Definition force_soft_now (task : Z) : X unit :=
  rts (give_back_to_linux task);; rts (wr is_hard task 2).

Definition inhrtp : X Z :=
  s ← get;
  when (nz (lxrt_hrt_flags (rt s))) (force_soft_now (this_rt_task0 s (current (rt s))));;
  mret 0.

(** [user handler vec task] is the trap handler of a kernel task. *)
Definition rtai_trap_handler (user : Z -> Z -> Z -> X Z) (vec : Z) : X Z :=
  s ← get;
  let rt_current := rt_smp_current (rt s) in
  if negb (nz (lnxtsk (rt s) rt_current)) then
    if negb (nz rt_current) then mret 0
    else if nz (task_trap_handler s rt_current vec) then
      user (task_trap_handler s rt_current vec) vec rt_current
    else
      rts (emit Printk);;
      _ ← rts (rt_task_suspend rt_current);
      _ ← rts (rt_task_delete rt_current);
      mret 1
  else if vec =? 7 then
    (if nz (used_math s (current (rt s))) then rts (emit (RestoreFpu (current (rt s))))
     else init_fpu (current (rt s)));;
    wg htrp7 (i32 (htrp7 s + 1));;
    mret 1
  else
    let rt_task := this_rt_task0 s (current (rt s)) in
    when (nz rt_task && (is_hard (rt s) rt_task >? 0)) (force_soft_now rt_task);;
    mret 0.

Definition linux_signal_handler (lnxtsk_ : Z) : X Z :=
  s ← get;
  let task := this_rt_task0 s lnxtsk_ in
  rts (wr force_soft task (b2z (is_hard (rt s) task >? 0)));;
  if is_hard (rt s) task >? 0 then
    when (negb (state (rt s) task =? READY))
      (rts (wr state task (clr (state (rt s) task) READY));;
       rts (enq_ready_task task);;
       rts rt_schedule);;
    mret 0
  else
    when (nz (state (rt s) task)) (rts (wr p_state lnxtsk_ TASK_INTERRUPTIBLE));;
    mret 1.

(** * Calls of a process *)

(** [MAKE_HARD_RT] and [MAKE_SOFT_RT] of [lxrt_handler]. *)
Definition make_hard_rt : X Z :=
  s ← get;
  let task := this_rt_task0 s (current (rt s)) in
  if negb (nz task) || (is_hard (rt s) task >? 0) then mret 0
  else steal_from_linux task;; mret 0.

Definition make_soft_rt : X Z :=
  s ← get;
  let task := this_rt_task0 s (current (rt s)) in
  if negb (nz task) || (is_hard (rt s) task <=? 0) then mret 0
  else
    (if is_hard (rt s) task >? 1 then rts (wr is_hard task 0) else rts (give_back_to_linux task));;
    mret 0.

(** A service that can block, called by a process: the branch of
    [lxrt_handler] for functions with a type, and the end of [lxrt_resume].
    The copies of arguments and messages are left out. *)
Definition lxrt_call (fun_ : X Z) : X Z :=
  s ← get;
  let task := this_rt_task0 s (current (rt s)) in
  when (is_hard (rt s) task >? 1) (rts (wr is_hard task 1);; steal_from_linux task);;
  s ← get;
  (if is_hard (rt s) task >? 0 then r ← fun_; rts (wr retval task r)
   else rt_schedule_soft fun_ task);;
  s ← get;
  mret (retval (rt s) task).

(** * The module *)

(** [srq] is the result of [rt_request_srq]; the handlers of traps, signals and
    system calls, which are registered too, and the memory for [taskav] are
    not part of the state. *)
Definition usp_init_module (srq : Z) : X Z :=
  xemit RequestSrq;;
  if srq <? 0 then mret srq
  else
    s ← get;
    when (Reservoir s <=? 0) (wg Reservoir 1);;
    wg resem 0;;
    xemit KernelThread;; xemit KernelThread;;
    down SCHED_FUEL;; down SCHED_FUEL;;
    s ← get;
    wg km_in (Z.land (2 * Reservoir s) (MAX_SRQ - 1));;
    xemit (WakeUpProcess (kthreadm s));;
    mret 0.

(** [while ((kthread = __get_kthread(cpuid))) { klistp->task[klistp->in] = kthread; ... }] *)
Fixpoint discard_all (fuel : nat) : X unit :=
  kthread ← get_from_reservoir;
  if negb (nz kthread) then mret tt
  else match fuel with
       | O => stuck
       | S fuel' => km_put kthread;; discard_all fuel'
       end.

(** [while (cond) { current->state = TASK_INTERRUPTIBLE; schedule_timeout(1); }] *)
Fixpoint nap_while (fuel : nat) (cond : LXRT -> bool) : X unit :=
  s ← get;
  if negb (cond s) then mret tt
  else match fuel with
       | O => stuck
       | S fuel' => linux_nap;; nap_while fuel' cond
       end.

Definition usp_cleanup_module : X unit :=
  discard_all LIST_FUEL;;
  s ← get;
  xemit (WakeUpProcess (kthreadm s));;
  nap_while LIST_FUEL (fun s => negb (p_state (rt s) (kthreadm s) =? TASK_UNINTERRUPTIBLE));;
  wg endkthread 1;;
  s ← get;
  xemit (WakeUpProcess (kthreadb s));;
  xemit (WakeUpProcess (kthreadm s));;
  nap_while LIST_FUEL (fun s => nz (kthreadb s) || nz (kthreadm s));;
  xemit FreeSrq;;
  s ← get;
  when (nz (htrp7 s)) (rts (emit Printk)).
