(* ===== verification/LxrtSpec.v ===== *)
(** LxrtSpec: what the switching of [Lxrt] promises.

    The rings of pointers as lists; wake-ups that get lost; soft calls; a process
    that becomes hard, and soft again; the reservoir of threads. *)

From S2P Require Import Prelude Resume DList SchedState SchedQueues Schedule SchedTask Lxrt.

(** * Rings of pointers

    [klist_t]: a ring of [MAX_SRQ] pointers is a list, to which [in] adds and
    from which [out] takes; one that is filled is empty. *)

Definition klist (in_ out : Z) (task : Z -> Z) : list Z :=
  (fun k => task ((out + k) mod MAX_SRQ)) <$> seqZ 0 ((in_ - out) mod MAX_SRQ).

Definition ring_put (l : list Z) (x : Z) : list Z := if (length l =? 127)%nat then [] else l ++ [x].

Section Rings.
Implicit Types (i o x : Z) (f : Z -> Z) (l : list Z).

Lemma ring_next_index x : Z.land (x + 1) (MAX_SRQ - 1) = (x + 1) mod MAX_SRQ.
Proof. change (MAX_SRQ - 1) with (Z.ones 7). by rewrite Z.land_ones. Qed.

Lemma ring_index_range x : 0 <= x mod MAX_SRQ < MAX_SRQ.
Proof. by apply Z.mod_pos_bound. Qed.

Lemma klist_length i o f : Z.of_nat (length (klist i o f)) = (i - o) mod MAX_SRQ.
Proof. unfold klist. rewrite length_fmap, length_seqZ. pose proof (ring_index_range (i - o)). lia. Qed.

Lemma klist_nil o f : klist o o f = [].
Proof. unfold klist. by rewrite Z.sub_diag. Qed.

Lemma klist_put i o f x : 0 <= i < MAX_SRQ -> 0 <= o < MAX_SRQ ->
  klist ((i + 1) mod MAX_SRQ) o (<[i := x]> f) = ring_put (klist i o f) x.
Proof.
  intros Hi Ho. unfold ring_put. pose proof (klist_length i o f) as Hl. pose proof (ring_index_range (i - o)).
  assert (E : ((i + 1) mod MAX_SRQ - o) mod MAX_SRQ = ((i - o) mod MAX_SRQ + 1) mod MAX_SRQ).
  { rewrite Zminus_mod_idemp_l, Zplus_mod_idemp_l. f_equal. lia. }
  destruct (Nat.eqb_spec (length (klist i o f)) 127) as [E1|E1].
  - unfold klist. rewrite E, <- Hl, E1. done.
  - unfold MAX_SRQ in *. rewrite (Z.mod_small ((i - o) mod 128 + 1)) in E by lia.
    unfold klist, MAX_SRQ. rewrite E. set (n := (i - o) mod 128) in *.
    replace (n + 1) with (Z.of_nat (S (Z.to_nat n))) by lia. rewrite seqZ_S, fmap_app. f_equal.
    + replace (Z.of_nat (Z.to_nat n)) with n by lia. apply list_fmap_ext. intros k y Hk.
      apply lookup_seqZ in Hk as [-> Hk]. apply upd_ne.
      intros E2. apply (f_equal (fun z => (z - o) mod 128)) in E2.
      rewrite Zminus_mod_idemp_l in E2. replace (o + (0 + Z.of_nat k) - o) with (Z.of_nat k) in E2 by lia.
      fold n in E2. rewrite Z.mod_small in E2 by lia. lia.
    + cbn. f_equal. replace (o + (0 + Z.of_nat (Z.to_nat n))) with (o + n) by lia.
      assert (En : (o + n) mod 128 = i).
      { unfold n. rewrite Zplus_mod_idemp_r. replace (o + (i - o)) with i by lia. by rewrite Z.mod_small. }
      rewrite En. apply upd_eq.
Qed.

Lemma klist_get i o f x l : 0 <= i < MAX_SRQ -> 0 <= o < MAX_SRQ ->
  klist i o f = x :: l -> o <> i /\ f o = x /\ klist i ((o + 1) mod MAX_SRQ) f = l.
Proof.
  intros Hi Ho E. pose proof (klist_length i o f) as Hl. pose proof (ring_index_range (i - o)) as Hr.
  rewrite E in Hl. cbn [length] in Hl. unfold MAX_SRQ in *.
  assert (E1 : (i - (o + 1) mod 128) mod 128 = (i - o) mod 128 - 1).
  { rewrite Zminus_mod_idemp_r. replace (i - (o + 1)) with (i - o - 1) by lia.
    rewrite <- (Zminus_mod_idemp_l (i - o) 1). apply Z.mod_small. lia. }
  split; [intros ->; rewrite Z.sub_diag in Hl; change (0 mod 128) with 0 in Hl; lia|].
  unfold klist, MAX_SRQ in *. rewrite E1. rewrite seqZ_cons in E by lia. cbn [fmap list_fmap] in E.
  injection E as E2 E3. rewrite Z.add_0_r, Z.mod_small in E2 by lia. split; [done|]. rewrite <- E3.
  change (Z.succ 0) with (1 + 0). rewrite <- fmap_add_seqZ, <- list_fmap_compose.
  replace (Z.pred ((i - o) mod 128)) with ((i - o) mod 128 - 1) by lia. apply list_fmap_ext. intros k y _. cbn.
  f_equal. rewrite Zplus_mod_idemp_l. f_equal. lia.
Qed.

Lemma klist_empty i o f : 0 <= i < MAX_SRQ -> 0 <= o < MAX_SRQ -> klist i o f = [] -> o = i.
Proof.
  intros Hi Ho E. pose proof (klist_length i o f) as Hl. rewrite E in Hl. cbn in Hl. symmetry in Hl.
  unfold MAX_SRQ in *. apply Z.mod_divide in Hl as [q Hq]; lia.
Qed.

(** After any number of entries since the ring was empty, all but the last
    [n mod 128] are lost. *)
Lemma ring_puts l : foldl ring_put [] l = drop (128 * (length l / 128)) l.
Proof.
  induction l as [|x l IH] using rev_ind; [done|]. rewrite foldl_app. cbn [foldl]. rewrite IH.
  unfold ring_put. rewrite length_drop, length_app. cbn [length].
  pose proof (Nat.div_mod_eq (length l) 128) as D.
  pose proof (Nat.mod_upper_bound (length l) 128) as B.
  destruct (Nat.eqb_spec (length l - 128 * (length l / 128)) 127) as [E|E].
  - replace ((length l + 1) / 128)%nat with (S (length l / 128)).
    + symmetry. apply drop_ge. rewrite length_app. cbn [length]. lia.
    + apply (Nat.div_unique _ _ _ 0); lia.
  - replace ((length l + 1) / 128)%nat with (length l / 128)%nat.
    + rewrite drop_app_le by lia. done.
    + apply (Nat.div_unique _ _ _ (S (length l mod 128))); lia.
Qed.
End Rings.

(** * Lifting *)

Ltac step_x := cbv beta delta [rts lift xemit emit]; run_m; cbn [lift_out]; run_m.

Lemma rts_done {A} (m : K A) s (r : A) σ : m (rt s) = Done r σ -> rts m s = Done r (s <| rt := σ |>).
Proof. intros E. unfold rts. by rewrite (lift_done _ _ _ _ _ E). Qed.

(** * Waking processes *)

Definition wake_ups (ts : list Z) : K unit :=
  foldr (fun t m => wake_up_srq_put t;; m) (mret tt) ts.

(** The ring of processes to be woken. *)
Definition to_wake (s : RTAI) : list Z := klist (wus_in s) (wus_out s) (wus_task s).

Definition wus_ok (s : RTAI) : Prop := 0 <= wus_in s < MAX_SRQ /\ 0 <= wus_out s < MAX_SRQ.

Definition wus_frame (s s' : RTAI) : Prop :=
  exists i f g, s' = s <| wus_in := i |> <| wus_task := f |> <| log := g |>.

Section Wake.
Implicit Types (s : RTAI) (ts : list Z).

Lemma wake_up_srq_put_spec s t : wus_ok s ->
  exists s', wake_up_srq_put t s = Done tt s' /\ wus_ok s' /\ to_wake s' = ring_put (to_wake s) t /\ wus_frame s s'.
Proof.
  intros [Hi Ho]. eexists. split; [reflexivity|]. unfold wus_ok, to_wake. state_simpl. rewrite ring_next_index.
  split; [split; [apply ring_index_range|exact Ho]|]. split; [by apply klist_put|].
  do 3 eexists. reflexivity.
Qed.

Lemma wake_ups_spec s ts : wus_ok s ->
  exists s', wake_ups ts s = Done tt s' /\ wus_ok s' /\ to_wake s' = foldl ring_put (to_wake s) ts /\
    wus_out s' = wus_out s.
Proof.
  revert s. induction ts as [|t ts IH]; intros s Hs; cbn [wake_ups foldr].
  - exists s. by split_and!.
  - destruct (wake_up_srq_put_spec s t Hs) as (s1 & E & H1 & Hw & (i & f & g & ->)).
    destruct (IH _ H1) as (s2 & E2 & H2 & Hw2 & Ho). exists s2. rewrite (bind_done _ _ _ _ _ E). split; [exact E2|].
    split; [exact H2|]. split; [by rewrite Hw2, Hw|]. by rewrite Ho.
Qed.
End Wake.

Lemma wake_up_all_spec fuel s ts :
  wus_ok (rt s) -> to_wake (rt s) = ts -> (length ts < fuel)%nat ->
  exists s', wake_up_all fuel s = Done tt s' /\ to_wake (rt s') = [] /\
    xlog s' = rev (WakeUpProcess <$> ts) ++ xlog s.
Proof.
  revert s fuel. induction ts as [|t ts IH]; intros s fuel [Hi Ho] Hw Hf; (destruct fuel as [|fuel]; [cbn in Hf; lia|]); cbn [wake_up_all].
  - apply klist_empty in Hw as Hw'; [|done..]. step_x. rewrite Hw', Z.eqb_refl. run_m. exists s. by split_and!.
  - destruct (klist_get _ _ _ _ _ Hi Ho Hw) as (Hne & Ht & Hl). step_x.
    rewrite (proj2 (Z.eqb_neq _ _) Hne). step_x. rewrite ring_next_index. cbn [length] in Hf.
    match goal with |- exists _, wake_up_all _ ?x = _ /\ _ => set (s1 := x) end.
    destruct (IH s1 fuel) as (s' & E & H1 & H2); [..|lia|].
    + unfold wus_ok, s1. state_simpl. split; [exact Hi|apply ring_index_range].
    + unfold to_wake, s1. state_simpl. exact Hl.
    + exists s'. split; [exact E|]. split; [exact H1|]. rewrite H2. unfold s1. state_simpl. rewrite Ht.
      cbn [fmap list_fmap rev]. by rewrite <- app_assoc.
Qed.

(** C28: The processes that were put in the ring since it was empty are woken in
    order, but of [n] of them only the last [n mod 128]: one more than 127
    empties the ring, and nobody is woken. *)
Theorem wake_ups_delivered s ts :
  wus_ok (rt s) -> to_wake (rt s) = [] ->
  exists s1 s2, rts (wake_ups ts) s = Done tt s1 /\ wake_up_srq_handler s1 = Done tt s2 /\
    xlog s2 = rev (WakeUpProcess <$> drop (128 * (length ts / 128)) ts) ++ xlog s /\
    to_wake (rt s2) = [].
Proof.
  intros Hs Hw. destruct (wake_ups_spec (rt s) ts Hs) as (σ & E & H1 & H2 & _). rewrite Hw, ring_puts in H2.
  exists (s <| rt := σ |>). destruct (wake_up_all_spec LIST_FUEL (s <| rt := σ |>) (drop (128 * (length ts / 128)) ts)) as (s2 & E2 & H3 & H4);
    [state_simpl; exact H1|state_simpl; exact H2| |].
  { rewrite length_drop. pose proof (Nat.div_mod_eq (length ts) 128). pose proof (Nat.mod_upper_bound (length ts) 128).
    unfold LIST_FUEL. lia. }
  exists s2. split; [by apply rts_done|]. split; [exact E2|]. split; [exact H4|exact H3].
Qed.

(** * Becoming hard *)

(** The tasks that are to become hard. *)
Definition hardening (s : LXRT) : list Z := klist (kb_in s) (kb_out s) (kb_task s).
Definition kb_ok (s : LXRT) : Prop := 0 <= kb_in s < MAX_SRQ /\ 0 <= kb_out s < MAX_SRQ.

(** The task [t] can be put in the ready list [l]. *)
Record joins (s : RTAI) (t : Z) (l : list Z) : Prop := {
  jn_list : ready_list s l;
  jn_fits : fits l;
  jn_out : t ∉ rt_linux_task :: l;
  jn_awake : is_hard s t <> 0 \/ p_state s (lnxtsk s t) <> TASK_HARDREALTIME;
  jn_prio : priority s t < RT_LINUX_PRIORITY;
  jn_linux : priority s rt_linux_task = RT_LINUX_PRIORITY
}.

Section Hard.
Implicit Types (s : RTAI) (t : Z) (l : list Z).

Lemma enq_joins s t l : joins s t l ->
  exists P N, enq_ready_task t s = Done tt (s <| rprev := P |> <| rnext := N |>) /\
    ready_list (s <| rprev := P |> <| rnext := N |>) (insert_ready (priority s) (priority s t) t l).
Proof.
  intros [Hr Hf Ht Hh Hp Hlx]. destruct (enq_ready_walk_spec s (priority s t) t rt_linux_task l
    LIST_FUEL) as (l1 & l2 & -> & -> & Hw); [apply Hr|by rewrite Hlx|by rewrite Hlx|done|].
  assert (E : nz (is_hard s t) || negb (p_state s (lnxtsk s t) =? TASK_HARDREALTIME) = true).
  { destruct Hh as [Hh|Hh]; [by rewrite (proj2 (nz_true _) Hh)|].
    rewrite (proj2 (Z.eqb_neq _ _) Hh). by destruct (nz _). }
  unfold enq_ready_task. step_m. rewrite E, Hw. step_m.
  destruct (rlink_spec s t l1 l2 Hr Ht) as (s' & E' & (P & N & ->) & R). by exists P, N.
Qed.

(** The processor goes to [t], which Linux scheduled until now. *)
Record taken_over (s s' : RTAI) t l : Prop := {
  tk_list : ready_list s' (insert_ready (priority s) (priority s t) t l);
  tk_current : rt_smp_current s' = t;
  tk_linux : lnxtsk s' rt_linux_task = current s;
  tk_switch : exists lg, log s' = TaskSwitch (current s) (lnxtsk s' t) :: lg;
  tk_depth : to_linux_depth s' = i32 (to_linux_depth s + 1)
}.

Lemma fast_schedule_spec s t l :
  joins s t l -> Z.lor (state s t) READY = READY ->
  exists s' k, fast_schedule t s = Switch s' k /\ taken_over s s' t l.
Proof.
  intros Hj Hst. unfold fast_schedule. step_m. rewrite upd_eq, Hst. cbn [Z.eqb Pos.eqb READY]. step_m.
  set (σ := s <| state ::= <[t := READY]> |>).
  destruct (enq_joins σ t l) as (P & N & E & R); [destruct Hj; by split|]. rewrite E. step_m.
  destruct (LOCK_LINUX_eq (σ <| rprev := P |> <| rnext := N |>)) as (f & lg & E2). rewrite E2. step_m.
  match goal with |- context [UEXECTIME ?c ?x] => destruct (UEXECTIME_eq x c) as (e & w & E3) end.
  rewrite E3. step_m. eexists _, _. split; [reflexivity|]. split; state_simpl; [exact R|done| |by eexists|done].
  apply upd_eq.
Qed.

End Hard.

Section Steal.
Implicit Types (s : LXRT) (t p : Z) (l : list Z).

Lemma kthread_b_drain_serves fuel s t ts l :
  kb_ok s -> hardening s = t :: ts -> joins (rt s) t l -> Z.lor (state (rt s) t) READY = READY ->
  exists s' k, kthread_b_drain (S fuel) s = Switch s' k /\ hardening s' = ts /\ taken_over (rt s) (rt s') t l.
Proof.
  intros [Hi Ho] Hk Hj Hst. destruct (klist_get _ _ _ _ _ Hi Ho Hk) as (Hne & Ht & Hl).
  cbn [kthread_b_drain]. step_x. rewrite (proj2 (Z.eqb_neq _ _) Hne).
  rewrite Ht, ring_next_index. destruct (fast_schedule_spec (rt s) t l Hj Hst) as (σ & k & E & Hk').
  step_x. rewrite E. cbn [lift_out bind_out]. eexists _, _. split; [reflexivity|].
  unfold hardening. state_simpl. split; [exact Hl|exact Hk'].
Qed.

(** C8: A process that asks to be hard leaves Linux, in a state of its own, as
    the last of those that [kthread_b] serves, which is woken; [kthread_b]
    puts the first of them in the ready list by priority and gives it the
    processor; the process that gets it back is hard. *)
Theorem process_becomes_hard s t p :
  current (rt s) = p -> this_rt_task0 s p = t -> t <> 0 -> is_hard (rt s) t <= 0 ->
  kb_ok s -> (length (hardening s) < 127)%nat ->
  exists s1 k1, make_hard_rt s = Switch s1 k1 /\
    hardening s1 = hardening s ++ [t] /\ kb_ok s1 /\ p_state (rt s1) p <> TASK_HARDREALTIME /\
    xlog s1 = WakeUpProcess (kthreadb s) :: xlog s /\ is_hard (rt s1) = is_hard (rt s) /\
    (forall s2 u us l, kb_ok s2 -> hardening s2 = u :: us -> joins (rt s2) u l -> Z.lor (state (rt s2) u) READY = READY ->
       exists s3 k3, kthread_b_drain LIST_FUEL s2 = Switch s3 k3 /\ hardening s3 = us /\
         taken_over (rt s2) (rt s3) u l) /\
    (forall s4, current (rt s4) = p ->
       exists s5, k1 s4 = Done 0 s5 /\ is_hard (rt s5) t = 1 /\ p_state (rt s5) p = TASK_HARDREALTIME /\
         rnext (rt s5) = rnext (rt s4) /\ state (rt s5) = state (rt s4)).
Proof.
  intros Hp Ht Ht0 Hh [Hi Ho] Hlen.
  assert (E1 : nz t = true) by by apply nz_true.
  assert (E2 : is_hard (rt s) t >? 0 = false) by (rewrite Z.gtb_ltb; apply Z.ltb_ge; lia).
  unfold make_hard_rt. step_x. rewrite Hp, Ht, E1, E2. cbn [negb orb].
  unfold steal_from_linux, put_current_on_cpu, kb_put, linux_schedule. step_x. rewrite ring_next_index, Hp.
  eexists _, _. split; [reflexivity|]. unfold hardening, kb_ok. state_simpl.
  split; [|split; [split; [apply ring_index_range|exact Ho]|split; [|split; [done|split; [done|split]]]]].
  - rewrite klist_put by done. unfold ring_put. by rewrite (proj2 (Nat.eqb_neq _ _)) by (unfold hardening in Hlen; lia).
  - rewrite upd_eq. by vm_compute.
  - intros s2 u us l. apply (kthread_b_drain_serves 1023).
  - intros s4 H4. unfold restore_current_fpu. step_x. rewrite H4. destruct (nz (used_math s4 p)); step_x;
      (eexists; split; [reflexivity|]); state_simpl; (split; [by rewrite upd_eq|]); (split; [by rewrite upd_eq|done]).
Qed.
End Steal.

(** * Becoming soft *)

(** The process that becomes soft as the task [t] gets the processor back with
    [k]: it returns, soft. *)
Definition returns_soft t (s : RTAI) (o : Out RTAI unit) : Prop :=
  exists s', o = Done tt s' /\ is_hard s' = <[t := 0]> (is_hard s) /\ state s' = state s /\ rnext s' = rnext s.

(** It does so after a switch to another process; after a switch to a kernel
    task it does so if [prevp] names it, and else gives the processor to the
    process that [prevp] names, and returns when it gets it back. *)
Definition soft_after_process t (k : RTAI -> Out RTAI unit) : Prop :=
  forall s, is_hard s t <> 0 -> force_soft s t = 0 -> returns_soft t s (k s).

Definition soft_after_kernel t (k : RTAI -> Out RTAI unit) : Prop :=
  forall s, let p := prevp s rt_linux_task in
    is_hard s t <> 0 -> lnxtsk s t <> 0 ->
    (p = t -> returns_soft t s (k s)) /\
    (p <> t -> exists s' k', k s = Switch s' k' /\ rt_smp_current s' = p /\ soft_after_process t k').

Section Soft.
Implicit Types (s : RTAI) (t x c : Z) (l : list Z).

Lemma softens_done t s o :
  (exists s', o = Done tt s' /\ sched_frame s s') ->
  returns_soft t s (bind_out o (fun _ s => wr is_hard t 0 s)).
Proof.
  intros (s' & -> & [[(_ & _ & K) _ _ _ _] (F & _) _ S]). cbn [bind_out]. step_m. eexists. split; [reflexivity|].
  state_simpl. by rewrite K, F, S.
Qed.

Lemma soft_after_process_intro t k :
  hard_resumes t k -> soft_after_process t (fun s => bind_out (k s) (fun _ s => wr is_hard t 0 s)).
Proof.
  intros H s Hh Hf. apply softens_done, H. by rewrite (proj2 (Z.eqb_neq _ _) Hh).
Qed.

Lemma soft_after_kernel_intro t k :
  kernel_resumes t k -> soft_after_kernel t (fun s => bind_out (k s) (fun _ s => wr is_hard t 0 s)).
Proof.
  intros H s p Hh Hl. destruct (H s) as [H1 H2]. split.
  - intros Hp. apply softens_done, H1. by right.
  - intros Hp. destruct (H2 Hl Hp) as (s' & k' & E & _ & C & R). rewrite E. cbn [bind_out].
    eexists _, _. split; [reflexivity|]. split; [exact C|]. apply soft_after_process_intro, R. by left.
Qed.

(** Without [t], which is not ready any more, the scheduler can be called. *)
Lemma can_schedule_without s tl l t P N :
  let s' := s <| rprev := P |> <| rnext := N |> <| state ::= <[t := 0]> |> in
  can_schedule s tl (t :: l) -> rt_smp_current s = t -> ready_list s' l -> can_schedule s' tl l.
Proof.
  intros s' [C1 C2 C3 C4] Hc Hr. split; [exact Hr|..].
  - unfold fits in *. rewrite length_app in *. cbn [length] in C2. lia.
  - intros _ Hst. change (rt_smp_current s') with (rt_smp_current s) in Hst. unfold s' in Hst. state_simpl_in Hst.
    rewrite Hc, upd_eq in Hst. done.
  - intros Ho. destruct (C4 Ho) as (H1 & H2 & H3 & H4 & H5). split; [exact H1|]. split; [|split; [exact H3|split; [exact H4|exact H5]]].
    by apply nodup_middle in H2 as [_ H2].
Qed.

(** [t] is neither woken nor the task that follows. *)
Lemma successor_apart s tl l t :
  can_schedule s tl (t :: l) ->
  let l' := wake_list s (due s tl) l in t ∉ due s tl /\ t ∉ l' /\ hd rt_linux_task l' <> t.
Proof.
  intros Hs l'. pose proof (cs_ready _ _ _ Hs) as Hr.
  assert (Hd : t ∉ due s tl).
  { intros Hin. unfold due in Hin. destruct (nz (oneshot_running s)) eqn:Ho; [|by apply not_elem_of_nil in Hin].
    apply nz_true in Ho. destruct (cs_timed _ _ _ Hs Ho) as (_ & Hnd & _). apply nodup_middle in Hnd as [Hnd _].
    apply Hnd. rewrite <- (take_drop_while (fun x => resume_time s x <=? sched_now s) tl). list_in. }
  assert (Hl : t ∉ l') by (unfold l'; rewrite wake_list_perm, elem_of_app, list_elem_of_filter;
    pose proof (ring_NoDup _ _ _ _ Hr) as Hn; apply NoDup_cons in Hn as [Hn _]; tauto).
  split; [exact Hd|]. split; [exact Hl|]. intros E. destruct l' as [|y l'']; cbn in E.
  - apply (ring_not_head _ _ _ _ t Hr); [by left|done].
  - apply Hl. rewrite E. by left.
Qed.

(** The hard process [t], which is not ready any more, calls the scheduler. *)
Lemma schedule_without s tl l t P N :
  let σ := s <| rprev := P |> <| rnext := N |> <| state ::= <[t := 0]> |> in
  let l' := wake_list s (due s tl) l in let x := hd rt_linux_task l' in
  can_schedule s tl (t :: l) -> rt_smp_current s = t -> ready_list σ l -> is_hard s t <> 0 -> lnxtsk s t <> 0 ->
  exists s' k, rt_schedule σ = Switch s' k /\ ready_list s' l' /\ t ∉ l' /\ state s' t = 0 /\
    rt_smp_current s' = x /\ is_hard s' = is_hard s /\
    (wus_in s' = wus_in s /\ wus_out s' = wus_out s /\ wus_task s' = wus_task s) /\ (forall e, e ∈ log s -> e ∈ log s') /\
    if lnxtsk s x =? 0 then nextp s' rt_linux_task = t /\ kernel_resumes t k
    else head (log s') = Some (TaskSwitch (current s) (lnxtsk s x)) /\ hard_resumes t k.
Proof.
  intros σ l' x Hs Hc HR Hh Hp. pose proof (cs_ready _ _ _ Hs) as Hr.
  pose proof (can_schedule_without _ _ _ _ _ _ Hs Hc HR) as Hσ.
  destruct (successor_apart s tl l t Hs) as (Hd & Hl & Hx). fold l' x in Hl, Hx.
  destruct (rt_schedule_spec σ tl l Hσ) as (s' & l0 & (_ & _ & Rot) & R & _ & S & _ & H & W & G & Giv).
  assert (El0 : l0 = l) by (apply Rot; right; right; unfold σ; state_simpl; by rewrite Hc, upd_eq).
  rewrite El0 in *. change (due σ tl) with (due s tl) in *.
  assert (Hws : wake_list σ (due s tl) l = l').
  { apply wake_list_ext; [|done..]. intros y Hy. unfold σ. state_simpl. apply upd_ne. by intros <-. }
  rewrite Hws in *. change (rt_smp_current σ) with (rt_smp_current s) in Giv. rewrite Hc in Giv. fold x in Giv.
  unfold given in Giv. rewrite (proj2 (Z.eqb_neq _ _) Hx) in Giv. destruct Giv as (k & E & Giv).
  change (lnxtsk σ) with (lnxtsk s) in Giv. change (is_hard σ) with (is_hard s) in *.
  change (current σ) with (current s) in Giv. rewrite (proj2 (Z.eqb_neq _ _) Hp), (proj2 (Z.eqb_neq _ _) Hh), andb_false_r in Giv.
  destruct Giv as [C Giv]. exists s', k. split; [exact E|]. split; [exact R|]. split; [exact Hl|].
  split; [rewrite S, woken_out by done; unfold σ; state_simpl; apply upd_eq|].
  split; [exact C|]. split; [exact H|]. split; [exact W|]. split; [exact G|].
  destruct (lnxtsk s x =? 0); [tauto|]. unfold processes in Giv. change (is_hard σ) with (is_hard s) in Giv.
  rewrite (proj2 (Z.eqb_neq _ _) Hh) in Giv. tauto.
Qed.

(** C9: A hard process that asks to be soft, in both modes of the timer: it is
    put among the processes that Linux is to wake and leaves the ready list;
    tasks whose time has come enter the list, and its first task gets the
    processor.  From a process it gets it by a switch of Linux tasks; from a
    kernel task the process is the one through which the processor will come
    back to Linux.  In both cases it returns from the scheduler, soft, when it
    gets the processor back, in the second after it has handed it on if it was
    meant for another process. *)
Theorem process_becomes_soft s t tl l :
  can_schedule s tl (t :: l) -> rt_smp_current s = t -> is_hard s t <> 0 -> lnxtsk s t <> 0 ->
  wus_ok s -> (length (to_wake s) < 127)%nat ->
  let l' := wake_list s (due s tl) l in let x := hd rt_linux_task l' in
  exists s' k, give_back_to_linux t s = Switch s' k /\
    to_wake s' = to_wake s ++ [lnxtsk s t] /\ PendLinuxSrq 0 ∈ log s' /\
    ready_list s' l' /\ t ∉ l' /\ state s' t = 0 /\ rt_smp_current s' = x /\ is_hard s' = is_hard s /\
    if lnxtsk s x =? 0 then nextp s' rt_linux_task = t /\ soft_after_kernel t k
    else head (log s') = Some (TaskSwitch (current s) (lnxtsk s x)) /\ soft_after_process t k.
Proof.
  intros Hs Hc Hh Hp Hw Hlen l' x. pose proof (cs_ready _ _ _ Hs) as Hr. unfold give_back_to_linux. step_m.
  destruct (wake_up_srq_put_spec s (lnxtsk s t) Hw) as (s1 & E1 & Hw1 & Ht1 & (i & f & g & F1)).
  assert (Hg : PendLinuxSrq 0 ∈ log s1).
  { unfold wake_up_srq_put, emit in E1. run_m. injection E1 as <-. state_simpl. set_solver. }
  rewrite E1. step_m.
  assert (Hr1 : ready_list s1 ([] ++ t :: l)) by (subst s1; exact Hr).
  destruct (runlink_spec s1 t [] l Hr1) as (s2 & E2 & (P & N & F2) & R2). rewrite E2. step_m.
  destruct (schedule_without s1 tl l t P N) as (s' & k & E3 & R & Hl & S & C & H & (W1 & W2 & W3) & G & Giv);
    [subst s1; destruct Hs; by split|subst s1; exact Hc|subst s2; exact R2|subst s1; exact Hh|subst s1; exact Hp|].
  assert (Ed : wake_list s1 (due s1 tl) l = l').
  { assert (Hd : due s1 tl = due s tl) by (subst s1; reflexivity). rewrite Hd. apply wake_list_ext; subst s1; reflexivity. }
  rewrite Ed in *. fold x in C, Giv. rewrite F2. step_m. rewrite E3. step_m. eexists _, _. split; [reflexivity|].
  assert (El : lnxtsk s1 = lnxtsk s) by (subst s1; reflexivity).
  assert (Eu : current s1 = current s) by (subst s1; reflexivity).
  assert (Eh : is_hard s1 = is_hard s) by (subst s1; reflexivity).
  split.
  { unfold to_wake in *. rewrite W1, W2, W3, Ht1. unfold ring_put. by rewrite (proj2 (Nat.eqb_neq _ _)) by lia. }
  split; [apply G, Hg|]. split; [exact R|]. split; [exact Hl|]. split; [exact S|]. split; [exact C|]. split; [by rewrite H|].
  rewrite El, Eu in Giv. destruct (lnxtsk s x =? 0); (split; [apply Giv|]).
  - exact (soft_after_kernel_intro t k (proj2 Giv)).
  - exact (soft_after_process_intro t k (proj2 Giv)).
Qed.
End Soft.

(** * Soft calls *)

(** The process [p] runs a service as the task [t]; [d] is the depth of the
    lock of Linux before. *)
Record in_call (s : LXRT) (t p d : Z) : Prop := {
  ic_current : current (rt s) = p;
  ic_running : rt_smp_current (rt s) = t;
  ic_ready : ready_list (rt s) [t];
  ic_prio : p_rt_priority (rt s) p = BASE_SOFT_PRIORITY;
  ic_linux : policy (rt s) rt_linux_task <= 0;
  ic_periodic : oneshot_running (rt s) = 0;
  ic_depth : to_linux_depth (rt s) = d + 1
}.

Section SoftCall.
Implicit Types (s : RTAI) (t p d : Z).

Lemma soft_wait_ready fuel s t :
  Z.lor (state s t) READY = READY -> soft_wait fuel t s = Done tt (s <| state ::= <[t := READY]> |>).
Proof.
  intros H. destruct fuel; cbn [soft_wait]; step_m; rewrite upd_eq, H; done.
Qed.

(** What a service may not see: how Linux is kept out. *)
Lemma soft_enter_spec s t d :
  joins s t [] -> Z.lor (state s t) READY = READY -> to_linux_depth s = d -> 0 <= d < INT_MAX ->
  exists f lg P N, let s' := s <| state ::= <[t := READY]> |> <| lxrt_hrt_flags := f |> <| log := (lg ++ log s) |>
      <| to_linux_depth := d + 1 |> <| rprev := P |> <| rnext := N |> <| rt_smp_current := t |> in
    soft_enter t s = Done tt s' /\ ready_list s' [t].
Proof.
  intros Hj Hst Hd Hr. unfold soft_enter. unfold mbind at 1, M_bind at 1. rewrite (soft_wait_ready _ _ _ Hst). cbn [bind_out]. step_m.
  destruct (LOCK_LINUX_eq (s <| state ::= <[t := READY]> |>)) as (f & lg & E2). rewrite E2. step_m. state_simpl_in E2.
  rewrite Hd, i32_id by (unfold in_i32, INT_MIN, INT_MAX in *; lia).
  match goal with |- context [enq_ready_task t ?x] => destruct (enq_joins x t []) as (P & N & E & R) end.
  { destruct Hj. by split. }
  rewrite E. step_m. exists f, lg, P, N. split; [reflexivity|]. state_simpl_in R. unfold ready_list in *. state_simpl.
  state_simpl_in R. exact R.
Qed.

Lemma rt_schedule_idle s :
  ready_list s [] -> rt_smp_current s = rt_linux_task -> policy s rt_linux_task <= 0 -> oneshot_running s = 0 ->
  exists y, rt_schedule s = Done tt (s <| sched_rqsted := 1 |> <| yield_time := y |>).
Proof. intros Hr Hc Hp Ho. apply (rt_schedule_stays s []); [exact Hr|by rewrite Hc|by rewrite Hc|exact Ho]. Qed.

Lemma soft_leave_spec s t p d :
  current s = p -> rt_smp_current s = t -> ready_list s [t] -> p_rt_priority s p = BASE_SOFT_PRIORITY ->
  policy s rt_linux_task <= 0 -> oneshot_running s = 0 -> to_linux_depth s = d + 1 -> 0 <= d < INT_MAX ->
  exists P N y f lg, soft_leave t s = Done tt (s <| rprev := P |> <| rnext := N |> <| state ::= <[t := 0]> |>
      <| rt_smp_current := rt_linux_task |> <| sched_rqsted := 1 |> <| yield_time := y |>
      <| to_linux_depth := d |> <| lxrt_hrt_flags := f |> <| log := lg |>) /\
    ready_list (s <| rprev := P |> <| rnext := N |>) [].
Proof.
  intros Hc Hr Hl Hp Hpol Ho Hd Hrange. unfold soft_leave. step_m. rewrite Hc, Hp. change (BASE_SOFT_PRIORITY =? BASE_SOFT_PRIORITY) with true.
  destruct (runlink_spec s t [] [] Hl) as (s2 & E2 & (P & N & ->) & R2). rewrite E2. step_m. rewrite Hr, Z.eqb_refl. step_m.
  match goal with |- context [rt_schedule ?x] => destruct (rt_schedule_idle x) as (y & E) end; [exact R2|done|done|done|].
  rewrite E. unfold UNLOCK_LINUX. step_m. rewrite Hd. rewrite (proj2 (nz_true (d + 1))) by lia. step_m.
  rewrite i32_id by (unfold in_i32, INT_MIN, INT_MAX in *; lia). replace (d + 1 - 1) with d by lia.
  exists P, N, y. destruct (nz d); step_m.
  - exists (lxrt_hrt_flags s), (log s). split; [|exact R2]. destruct s; reflexivity.
  - do 2 eexists. split; [|exact R2]. reflexivity.
Qed.
End SoftCall.

(** The process of the soft task [t] is to call a service. *)
Record may_call (s : LXRT) (t p d : Z) : Prop := {
  mc_joins : joins (rt s) t [];
  mc_ready : Z.lor (state (rt s) t) READY = READY;
  mc_current : current (rt s) = p;
  mc_lnxtsk : lnxtsk (rt s) t = p;
  mc_prio : 0 <= priority (rt s) t < RT_LINUX_PRIORITY;
  mc_linux : policy (rt s) rt_linux_task <= 0;
  mc_periodic : oneshot_running (rt s) = 0;
  mc_depth : to_linux_depth (rt s) = d /\ 0 <= d < INT_MAX
}.

(** C10: A soft call of a service that does not wait leaves no trace but the
    service's own: the process runs the service as the one ready task, at
    a priority below all hard tasks, and its priorities and policy are then those
    from before the call, whatever the service made of them; the lock of Linux
    is back where it was, the result is in the task, and Linux schedules. *)
Theorem soft_call_transparent s t p d (fun_ : X Z) :
  may_call s t p d ->
  (forall s1, in_call s1 t p d -> exists v s2, fun_ s1 = Done v s2 /\ in_call s2 t p d) ->
  exists s1 v s2 s3 k,
    in_call s1 t p d /\ BASE_SOFT_PRIORITY <= priority (rt s1) t /\ fun_ s1 = Done v s2 /\
    rt_schedule_soft fun_ t s = Switch s3 k /\ (forall s4, k s4 = Done tt s4) /\
    retval (rt s3) t = v /\ ready_list (rt s3) [] /\ rt_smp_current (rt s3) = rt_linux_task /\
    state (rt s3) t = 0 /\ to_linux_depth (rt s3) = d /\
    priority (rt s3) t = priority (rt s) t /\ p_rt_priority (rt s3) p = p_rt_priority (rt s) p /\
    p_policy s3 p = p_policy s p.
Proof.
  intros [Hj Hst Hc Hl Hp Hpol Ho [Hd Hr]] Hfun. unfold rt_schedule_soft. step_x. rewrite Hc.
  match goal with |- context [bind_out ?o _ = Switch _ _] =>
    assert (Hg : exists g, BASE_SOFT_PRIORITY <= g t < RT_LINUX_PRIORITY /\ g rt_linux_task = priority (rt s) rt_linux_task /\
      o = Done tt (s <| rt := rt s <| priority := g |> |>)) end.
  { destruct (Z.ltb_spec (priority (rt s) t) BASE_SOFT_PRIORITY) as [E|E].
    - eexists. split; [|split; [|reflexivity]].
      + rewrite upd_eq. unfold BASE_SOFT_PRIORITY, RT_LINUX_PRIORITY, INT_MAX in *. rewrite i32_id by (unfold in_i32, INT_MIN, INT_MAX; lia). lia.
      + apply upd_ne. intros Et. apply (jn_out _ _ _ Hj). rewrite Et. set_solver.
    - exists (priority (rt s)). split; [lia|]. split; [done|]. by destruct s as [? ? ? ? ? ? ? ? ? ? ? ? ? ? ? ? ? ? ? ? ? ? ? []]. }
  destruct Hg as (g & Hg1 & Hg2 & ->). cbn [bind_out]. state_simpl.
  match goal with |- context [soft_enter t ?x] => destruct (soft_enter_spec x t d) as (f & lg & P & N & E & R) end;
    [|exact Hst|exact Hd|exact Hr|].
  { destruct Hj as [J1 J2 J3 J4 J5 J6]. split; state_simpl; [exact J1|exact J2|exact J3| |lia|by rewrite Hg2].
    exact J4. }
  rewrite E. cbn [lift_out bind_out]. state_simpl_in R.
  match goal with |- context [bind_out (fun_ ?x)] => destruct (Hfun x) as (v & s2 & E2 & C2) end.
  { split; state_simpl; [exact Hc|done|exact R|apply upd_eq|exact Hpol|exact Ho|done]. }
  rewrite E2. cbn [bind_out]. destruct C2 as [C1 C2 C3 C4 C5 C6 C7].
  match goal with |- context [soft_leave t ?x] => destruct (soft_leave_spec x t p d) as (P2 & N2 & y & f2 & lg2 & E3 & R3) end;
    [exact C1|exact C2|exact C3|exact C4|exact C5|exact C6|exact C7|exact Hr|].
  rewrite E3. cbn [lift_out bind_out]. unfold linux_schedule. step_x. rewrite C1.
  eexists _, v, s2, _, _. split; [|split; [|split; [exact E2|split; [reflexivity|]]]].
  - split; state_simpl; [exact Hc|done|exact R|apply upd_eq|exact Hpol|exact Ho|done].
  - state_simpl. lia.
  - split; [intros s4; by destruct s4|]. state_simpl. state_simpl_in R3. unfold ready_list. state_simpl.
    split; [apply upd_eq|]. split; [exact R3|]. split; [done|]. split; [apply upd_eq|]. split; [done|].
    split; [apply upd_eq|]. split; apply upd_eq.
Qed.

(** * The reservoir *)

(** The requests to [kthread_m]. *)
Definition requests (s : LXRT) : list Z := klist (km_in s) (km_out s) (km_task s).
Definition km_ok (s : LXRT) : Prop := 0 <= km_in s < MAX_SRQ /\ 0 <= km_out s < MAX_SRQ.

(** What [kthread_m] and the takers of threads share. *)
Record same_pool (s s' : LXRT) : Prop := {
  sp_ring : km_in s' = km_in s /\ km_out s' = km_out s /\ km_task s' = km_task s;
  sp_pool : taskidx s' = taskidx s /\ Reservoir s' = Reservoir s /\ taskav s' = taskav s
}.

Section Reservoir.
Implicit Types (s : LXRT) (t p x : Z).

Lemma km_put_spec s x : km_ok s ->
  exists i f, km_put x s = Done tt (s <| km_task := f |> <| km_in := i |>) /\
    km_ok (s <| km_task := f |> <| km_in := i |>) /\
    requests (s <| km_task := f |> <| km_in := i |>) = ring_put (requests s) x.
Proof.
  intros [Hi Ho]. unfold km_put. step_x. rewrite ring_next_index. exists ((km_in s + 1) mod MAX_SRQ), (<[km_in s := x]> (km_task s)).
  split; [reflexivity|]. unfold km_ok, requests. state_simpl. split; [|by apply klist_put].
  split; [apply ring_index_range|exact Ho].
Qed.

Lemma wake_kthread_m_eq s : exists i f lg,
  wake_kthread_m s = Done tt (s <| rt := rt s <| wus_task := f |> <| wus_in := i |> <| log := lg |> |>).
Proof.
  exists (Z.land (wus_in (rt s) + 1) (MAX_SRQ - 1)), (<[wus_in (rt s) := kthreadm s]> (wus_task (rt s))), (PendLinuxSrq 0 :: log (rt s)).
  unfold wake_kthread_m, wake_up_srq_put. step_x. reflexivity.
Qed.

(** A thread taken from the reservoir leaves a request for another. *)
Lemma get_kthread_spec s :
  km_ok s -> requests s = [] -> 0 < taskidx s -> taskav s (taskidx s - 1) <> 0 ->
  exists i f i' f' lg,
    let s' := s <| taskidx := taskidx s - 1 |> <| km_task := f |> <| km_in := i |>
      <| rt := rt s <| wus_task := f' |> <| wus_in := i' |> <| log := lg |> |> in
    get_kthread 1 0 s = Done (taskav s (taskidx s - 1)) s' /\ km_ok s' /\ requests s' = [0; 0].
Proof.
  intros Hk Hr Ht Hp. unfold get_kthread. change LIST_FUEL with (S 1023). cbn [nz negb Z.eqb take_thread].
  unfold get_from_reservoir. step_x. rewrite (Z.gtb_ltb), (proj2 (Z.ltb_lt _ _) Ht). step_x.
  rewrite (proj2 (nz_true _) Hp). step_x.
  set (s0 := s <| taskidx := taskidx s - 1 |>).
  destruct (km_put_spec s0 0 Hk) as (i1 & f1 & E1 & K1 & R1). rewrite E1. step_x.
  destruct (km_put_spec _ 0 K1) as (i2 & f2 & E2 & K2 & R2). rewrite E2. step_x.
  match goal with |- context [wake_kthread_m ?x] => destruct (wake_kthread_m_eq x) as (i3 & f3 & lg & E3) end.
  rewrite E3. step_x. exists i2, f2, i3, f3, lg. split; [by destruct s|].
  unfold km_ok, requests in *. state_simpl. state_simpl_in K2. state_simpl_in R2. state_simpl_in R1. split; [exact K2|].
  rewrite R2, R1. subst s0. state_simpl. by rewrite Hr.
Qed.

Lemma await_here fuel s : state (rt s) thread_task = Z.lor READY SUSPENDED -> await_thread fuel s = Done tt s.
Proof. intros H. destruct fuel; cbn [await_thread]; step_x; by rewrite H, Z.eqb_refl. Qed.

Lemma await_absent fuel s : state (rt s) thread_task <> Z.lor READY SUSPENDED ->
  exists g lg k, await_thread (S fuel) s =
      Switch (s <| xlog ::= cons (ScheduleTimeout 1) |> <| rt := rt s <| p_state := g |> <| log := lg |> |>) k /\
    forall s', state (rt s') thread_task = Z.lor READY SUSPENDED -> k s' = Done tt s'.
Proof.
  intros H. cbn [await_thread]. step_x. rewrite (proj2 (Z.eqb_neq _ _) H). unfold linux_nap, linux_schedule. step_x.
  do 3 eexists. split; [reflexivity|]. intros s' H'. cbn [lift_out bind_out]. state_simpl.
  replace (s' <| rt := rt s' |>) with s' by (by destruct s'). by apply await_here.
Qed.

(** A request of a soft task: a thread is made, if there is room, and the semaphore
    raised. *)
Lemma serve_request_spec s x l :
  km_ok s -> requests s = 0 :: x :: l -> taskidx s < Reservoir s ->
  exists s' k, serve_request s = Switch s' k /\ same_pool s s' /\ KernelThread ∈ xlog s' /\ resem s' = resem s /\
    forall s3, same_pool s' s3 -> state (rt s3) thread_task = Z.lor READY SUSPENDED ->
      exists s4, k s3 = Done tt s4 /\ km_ok s4 /\ requests s4 = l /\ resem s4 = resem s3 + 1 /\
        taskidx s4 = taskidx s + 1 /\ taskav s4 = <[taskidx s := lnxtsk (rt s3) thread_task]> (taskav s).
Proof.
  intros [Hi Ho] Hr Ht. destruct (klist_get _ _ _ _ _ Hi Ho Hr) as (_ & Hx & Hl).
  destruct (klist_get _ _ _ _ _ Hi (ring_index_range _) Hl) as (_ & Hy & Hl').
  unfold serve_request. step_x. rewrite Hx. change (u32 0 >? 1) with false. change (nz (u32 0)) with false.
  rewrite (proj2 (Z.ltb_lt _ _) Ht). unfold make_thread. change SCHED_FUEL with (S 63). step_x.
  match goal with |- context [await_thread (S 63) ?z] => destruct (await_absent 63 z) as (g & lg & k & E & Hk) end.
  { state_simpl. by rewrite upd_eq. }
  rewrite E. step_x. eexists _, _. split; [reflexivity|]. split; [split; state_simpl; split_and!; done|].
  split; [state_simpl; right; left|]. split; [done|].
  intros s3 [(R1 & R2 & R3) (P1 & P2 & P3)] Hs. rewrite (Hk s3 Hs). unfold up. step_x. state_simpl_in R1. state_simpl_in R2.
  state_simpl_in R3. state_simpl_in P1. state_simpl_in P2. state_simpl_in P3. rewrite !ring_next_index.
  eexists. split; [reflexivity|]. unfold km_ok, requests in *. state_simpl. rewrite R1, R2, R3, P1, P3.
  split; [split; [exact Hi|apply ring_index_range]|]. split; [exact Hl'|]. split_and!; done.
Qed.

(** The reservoir of threads refills: who takes a thread gets the one made
    last and leaves a request; serving it, [kthread_m] makes a thread and puts it in the
    same place, so that nobody needs to wait; but each turn raises the semaphore
    of those that wait, of whom there is none, by one. *)
Theorem reservoir_refills s :
  km_ok s -> requests s = [] -> 0 < taskidx s <= Reservoir s -> taskav s (taskidx s - 1) <> 0 ->
  exists s1 s2 k,
    get_kthread 1 0 s = Done (taskav s (taskidx s - 1)) s1 /\ taskidx s1 = taskidx s - 1 /\ resem s1 = resem s /\
    kthread_m_drain LIST_FUEL s1 = Switch s2 k /\ KernelThread ∈ xlog s2 /\ resem s2 = resem s /\
    forall s3, same_pool s2 s3 -> state (rt s3) thread_task = Z.lor READY SUSPENDED ->
      exists s4, k s3 = Done tt s4 /\ requests s4 = [] /\ taskidx s4 = taskidx s /\
        taskav s4 = <[taskidx s - 1 := lnxtsk (rt s3) thread_task]> (taskav s) /\ resem s4 = resem s3 + 1.
Proof.
  intros Hk Hr [Ht Hmax] Hp. destruct (get_kthread_spec s Hk Hr Ht Hp) as (i & f & i' & f' & lg & E & K & R).
  set (s1 := s <| taskidx := _ |> <| km_task := _ |> <| km_in := _ |> <| rt := _ |>) in *.
  assert (Ht1 : taskidx s1 < Reservoir s1) by (subst s1; state_simpl; lia).
  destruct (serve_request_spec s1 0 [] K R Ht1) as (s2 & k & E2 & Hpool & Hx & Hsem & Hrest).
  exists s1, s2. eexists. split; [exact E|]. split; [done|]. split; [done|].
  assert (Hne : km_out s1 <> km_in s1) by (destruct K as [Ki Ko]; exact (proj1 (klist_get _ _ _ _ _ Ki Ko R))).
  assert (Ed : forall fuel, kthread_m_drain (S fuel) s1 = bind_out (serve_request s1) (fun _ => kthread_m_drain fuel)).
  { intros fuel. cbn [kthread_m_drain]. unfold mbind at 1, M_bind at 1, get. cbn [bind_out]. by rewrite (proj2 (Z.eqb_neq _ _) Hne). }
  change LIST_FUEL with (S 1023). rewrite Ed, E2. cbn [bind_out]. split; [reflexivity|]. split; [exact Hx|].
  split; [exact Hsem|]. intros s3 Hp3 Hs3. destruct (Hrest s3 Hp3 Hs3) as (s4 & -> & [Ki Ko] & R4 & S4 & T4 & V4).
  cbn [bind_out]. exists s4. pose proof (klist_empty _ _ _ Ki Ko R4) as He. split.
  - change 1023%nat with (S 1022). cbn [kthread_m_drain]. unfold mbind at 1, M_bind at 1, get. cbn [bind_out]. by rewrite He, Z.eqb_refl.
  - split; [exact R4|]. split; [rewrite T4; subst s1; state_simpl; lia|]. split; [exact V4|exact S4].
Qed.
End Reservoir.

(** The soft task [cur] runs and the reservoir is empty. *)
Record starved (s : LXRT) (cur : Z) : Prop := {
  sv_ok : km_ok s;
  sv_empty : taskidx s <= 0;
  sv_current : rt_smp_current (rt s) = cur;
  sv_soft : is_hard (rt s) cur <= 0
}.

Section Flood.
Implicit Types (s : LXRT) (cur x : Z) (n m : nat).

(** A request while the semaphore has a unit left. *)
Lemma request_thread_spec s cur :
  starved s cur -> 0 < resem s ->
  exists s', request_thread s = Done tt s' /\ starved s' cur /\ resem s' = resem s - 1 /\
    requests s' = ring_put (ring_put (requests s) 0) cur.
Proof.
  intros [Hk Hi Hc Hh] Hs. unfold request_thread. step_x. rewrite Hc, Z.gtb_ltb, (proj2 (Z.ltb_ge _ _) Hh). change (b2z false) with 0.
  destruct (km_put_spec s 0 Hk) as (i1 & f1 & E1 & K1 & R1). rewrite E1. step_x.
  destruct (km_put_spec _ cur K1) as (i2 & f2 & E2 & K2 & R2). rewrite E2. step_x.
  match goal with |- context [wake_kthread_m ?x] => destruct (wake_kthread_m_eq x) as (i3 & f3 & lg & E3) end.
  rewrite E3. change (nz 0) with false. change SCHED_FUEL with (S 63). cbn [down]. step_x.
  rewrite Z.gtb_ltb, (proj2 (Z.ltb_lt _ _) Hs). step_x. eexists. split; [reflexivity|].
  unfold km_ok, requests in *. state_simpl. split; [split; unfold km_ok; state_simpl; [exact K2|exact Hi|exact Hc|exact Hh]|].
  split; [done|]. state_simpl_in R2. state_simpl_in R1. by rewrite R2, R1.
Qed.

Lemma request_thread_waits s cur :
  starved s cur -> resem s <= 0 ->
  exists s' k, request_thread s = Switch s' k /\ starved s' cur /\ resem s' = resem s /\
    requests s' = ring_put (ring_put (requests s) 0) cur.
Proof.
  intros [Hk Hi Hc Hh] Hs. unfold request_thread. step_x. rewrite Hc, Z.gtb_ltb, (proj2 (Z.ltb_ge _ _) Hh). change (b2z false) with 0.
  destruct (km_put_spec s 0 Hk) as (i1 & f1 & E1 & K1 & R1). rewrite E1. step_x.
  destruct (km_put_spec _ cur K1) as (i2 & f2 & E2 & K2 & R2). rewrite E2. step_x.
  match goal with |- context [wake_kthread_m ?x] => destruct (wake_kthread_m_eq x) as (i3 & f3 & lg & E3) end.
  rewrite E3. change (nz 0) with false. change SCHED_FUEL with (S 63). cbn [down]. step_x.
  rewrite Z.gtb_ltb, (proj2 (Z.ltb_ge _ _) Hs). unfold linux_schedule. step_x. eexists _, _. split; [reflexivity|].
  unfold km_ok, requests in *. state_simpl. split; [split; unfold km_ok; state_simpl; [exact K2|exact Hi|exact Hc|exact Hh]|].
  split; [done|]. state_simpl_in R2. state_simpl_in R1. by rewrite R2, R1.
Qed.

(** The requests of [cur]. *)
Definition pairs n cur : list Z := concat (replicate n [0; cur]).

Lemma take_thread_floods n : forall s cur fuel,
  starved s cur -> resem s = Z.of_nat n -> (n < fuel)%nat ->
  exists s' k, take_thread fuel s = Switch s' k /\ starved s' cur /\ resem s' = 0 /\
    requests s' = foldl ring_put (requests s) (pairs (S n) cur).
Proof.
  induction n as [|n IH]; intros s cur fuel Hs Hn Hf; (destruct fuel as [|fuel]; [lia|]); cbn [take_thread];
    unfold get_from_reservoir; step_x; rewrite Z.gtb_ltb, (proj2 (Z.ltb_ge _ _) (sv_empty _ _ Hs)); step_x;
    change (nz 0) with false; step_x.
  - destruct (request_thread_waits s cur Hs) as (s' & k & E & H1 & H2 & H3); [lia|]. rewrite E. cbn [bind_out].
    eexists _, _. split; [reflexivity|]. split; [exact H1|]. split; [by rewrite H2|exact H3].
  - destruct (request_thread_spec s cur Hs) as (s1 & E & H1 & H2 & H3); [lia|]. rewrite E. cbn [bind_out].
    destruct (IH s1 cur fuel H1) as (s' & k & E2 & G1 & G2 & G3); [lia|lia|]. exists s', k. split; [exact E2|].
    split; [exact G1|]. split; [exact G2|]. by rewrite G3, H3.
Qed.

Lemma length_pairs n cur : length (pairs n cur) = (2 * n)%nat.
Proof. unfold pairs. induction n as [|n IH]; [done|]. cbn [replicate concat]. rewrite length_app, IH. cbn. lia. Qed.

Lemma drop_pairs m n cur : drop (2 * m) (pairs (m + n) cur) = pairs n cur.
Proof.
  induction m as [|m IH]; [done|]. rewrite <- IH. unfold pairs. cbn [Nat.add replicate concat app].
  by replace (2 * S m)%nat with (S (S (2 * m))) by lia.
Qed.

Lemma foldl_pairs n cur : foldl ring_put [] (pairs n cur) = pairs (n mod 64) cur.
Proof.
  rewrite ring_puts, length_pairs. replace (2 * n / 128)%nat with (n / 64)%nat.
  - rewrite (Nat.div_mod_eq n 64) at 2. replace (128 * (n / 64))%nat with (2 * (64 * (n / 64)))%nat by lia. apply drop_pairs.
  - change 128%nat with (2 * 64)%nat. rewrite Nat.Div0.div_mul_cancel_l; lia.
Qed.

(** Who takes a thread when there is none, and is soft, asks again for each
    unit the semaphore has been left with, and then waits: of the [n + 1]
    requests only [n + 1] modulo 64 remain in the ring.  After 63 units it is
    empty: [kthread_m] finds no request, and the task waits for ever. *)
Theorem get_kthread_floods s cur n :
  starved s cur -> requests s = [] -> resem s = Z.of_nat n -> (n < 1024)%nat ->
  exists s' k, get_kthread 1 0 s = Switch s' k /\ resem s' = 0 /\
    requests s' = pairs (S n mod 64) cur /\
    ((S n mod 64 = 0)%nat -> kthread_m_drain LIST_FUEL s' = Done tt s').
Proof.
  intros Hs Hr Hn Hf. destruct (take_thread_floods n s cur LIST_FUEL Hs Hn) as (s' & k & E & [H1 _ _ _] & H2 & H3).
  { unfold LIST_FUEL. lia. }
  unfold get_kthread. change (nz 1) with true. step_x. rewrite E. cbn [bind_out]. eexists _, _. split; [reflexivity|].
  split; [exact H2|]. rewrite Hr, foldl_pairs in H3. split; [exact H3|]. intros H0. rewrite H0 in H3.
  destruct H1 as [Ki Ko]. pose proof (klist_empty _ _ _ Ki Ko H3) as He.
  change LIST_FUEL with (S 1023). cbn [kthread_m_drain]. unfold mbind at 1, M_bind at 1, get. cbn [bind_out]. by rewrite He, Z.eqb_refl.
Qed.
End Flood.

(** A task that is refused loses a thread: [start_stop_kthread] takes it before
    [set_rtext] checks the arguments, and writes to the struct that may be that of
    another task. *)
Theorem start_kthread_leaks s task rt_thread data prio fpu sig :
  km_ok s -> requests s = [] -> 0 < taskidx s -> taskav s (taskidx s - 1) <> 0 -> rt_thread <> 0 ->
  magic (rt s) task = RT_TASK_MAGIC ->
  exists s', start_stop_kthread task rt_thread data prio fpu sig 0 s = Done tt s' /\
    retval (rt s') task = - EINVAL /\ taskidx s' = taskidx s - 1 /\ this_rt_task0 s' = this_rt_task0 s /\
    lnxtsk (rt s') = lnxtsk (rt s) /\ max_msg_size0 s' task = i32 rt_thread /\ max_msg_size1 s' task = data.
Proof.
  intros Hk Hr Ht Hp H0 Hm. destruct (get_kthread_spec s Hk Hr Ht Hp) as (i & f & i' & f' & lg & E & _ & _).
  unfold start_stop_kthread. rewrite (proj2 (nz_true _) H0). step_x. rewrite E. cbn [bind_out]. unfold set_rtext_of, set_rtext. step_x.
  rewrite Hm, Z.eqb_refl. step_x. change (- EINVAL =? 0) with false. step_x. eexists. split; [reflexivity|]. state_simpl.
  split; [apply upd_eq|]. do 3 (split; [done|]). split; apply upd_eq.
Qed.

(** * Witnesses *)

(** The process 900 is soft, as the task 64 of priority 2; Linux runs it, and two
    kernel tasks are ready. *)
Definition demo_proc : RTAI :=
  demo <| is_hard ::= <[64 := 0]> |> <| lnxtsk ::= <[64 := 900]> |> <| current := 900 |>.
Definition demo_soft : LXRT := lxrt_zero demo_proc <| this_rt_task0 ::= <[900 := 64]> |> <| kthreadb := 700 |>.

Lemma wake_ups_delivered_witness :
  exists s1 s2, rts (wake_ups (replicate 130 900)) demo_soft = Done tt s1 /\ wake_up_srq_handler s1 = Done tt s2 /\
    xlog s2 = rev (WakeUpProcess <$> drop (128 * (length (replicate 130 900) / 128)) (replicate 130 900)) ++ xlog demo_soft /\
    to_wake (rt s2) = [].
Proof. apply (wake_ups_delivered demo_soft); [split; split; by vm_compute|by vm_compute]. Defined.

Lemma process_becomes_hard_witness :
  exists s1 k1, make_hard_rt demo_soft = Switch s1 k1 /\
    hardening s1 = hardening demo_soft ++ [64] /\ kb_ok s1 /\ p_state (rt s1) 900 <> TASK_HARDREALTIME /\
    xlog s1 = WakeUpProcess (kthreadb demo_soft) :: xlog demo_soft /\ is_hard (rt s1) = is_hard (rt demo_soft) /\
    (forall s2 u us l, kb_ok s2 -> hardening s2 = u :: us -> joins (rt s2) u l -> Z.lor (state (rt s2) u) READY = READY ->
       exists s3 k3, kthread_b_drain LIST_FUEL s2 = Switch s3 k3 /\ hardening s3 = us /\
         taken_over (rt s2) (rt s3) u l) /\
    (forall s4, current (rt s4) = 900 ->
       exists s5, k1 s4 = Done 0 s5 /\ is_hard (rt s5) 64 = 1 /\ p_state (rt s5) 900 = TASK_HARDREALTIME /\
         rnext (rt s5) = rnext (rt s4) /\ state (rt s5) = state (rt s4)).
Proof.
  apply process_becomes_hard; [by vm_compute|by vm_compute|done|by vm_compute|split; split; by vm_compute|vm_compute; lia].
Defined.

(** The process 900 is hard, as the task 32, and runs. *)
Definition demo_hard : RTAI :=
  demo <| lnxtsk ::= <[32 := 900]> |> <| current := 900 |> <| rt_smp_current := 32 |>.

(** The other ready task, 48, is a kernel task here, and the hard process 901 in [demo_hard2]. *)
Definition demo_hard2 : RTAI := demo_hard <| lnxtsk ::= <[48 := 901]> |>.

Lemma process_becomes_soft_witness :
  (exists s' k, give_back_to_linux 32 demo_hard = Switch s' k /\
    to_wake s' = to_wake demo_hard ++ [900] /\ PendLinuxSrq 0 ∈ log s' /\
    ready_list s' [48] /\ 32 ∉ [48] /\ state s' 32 = 0 /\ rt_smp_current s' = 48 /\ is_hard s' = is_hard demo_hard /\
    nextp s' rt_linux_task = 32 /\ soft_after_kernel 32 k) /\
  exists s' k, give_back_to_linux 32 demo_hard2 = Switch s' k /\
    to_wake s' = to_wake demo_hard2 ++ [900] /\ PendLinuxSrq 0 ∈ log s' /\
    ready_list s' [48] /\ 32 ∉ [48] /\ state s' 32 = 0 /\ rt_smp_current s' = 48 /\ is_hard s' = is_hard demo_hard2 /\
    head (log s') = Some (TaskSwitch 900 901) /\ soft_after_process 32 k.
Proof.
  split.
  - apply (process_becomes_soft demo_hard 32 [] [48]);
      [split|by vm_compute|by_eval|by_eval|split; split; by vm_compute|vm_compute; lia];
      [solve_ring|fits_eval|intros H; by vm_compute in H|intros H; exfalso; apply H; by_eval].
  - apply (process_becomes_soft demo_hard2 32 [] [48]);
      [split|by vm_compute|by_eval|by_eval|split; split; by vm_compute|vm_compute; lia];
      [solve_ring|fits_eval|intros H; by vm_compute in H|intros H; exfalso; apply H; by_eval].
Defined.

(** The service changes the priority of its task: it is lost. *)
Definition demo_idle : LXRT :=
  lxrt_zero (run (runlink 32;; runlink 48) demo_proc) <| this_rt_task0 ::= <[900 := 64]> |>.

Lemma soft_call_transparent_witness :
  exists s1 v s2 s3 k,
    in_call s1 64 900 0 /\ BASE_SOFT_PRIORITY <= priority (rt s1) 64 /\ (rts (wr priority 64 1);; mret 42) s1 = Done v s2 /\
    rt_schedule_soft (rts (wr priority 64 1);; mret 42) 64 demo_idle = Switch s3 k /\ (forall s4, k s4 = Done tt s4) /\
    retval (rt s3) 64 = v /\ ready_list (rt s3) [] /\ rt_smp_current (rt s3) = rt_linux_task /\
    state (rt s3) 64 = 0 /\ to_linux_depth (rt s3) = 0 /\
    priority (rt s3) 64 = priority (rt demo_idle) 64 /\ p_rt_priority (rt s3) 900 = p_rt_priority (rt demo_idle) 900 /\
    p_policy s3 900 = p_policy demo_idle 900.
Proof.
  apply soft_call_transparent.
  - split; [|by vm_compute|by vm_compute|by vm_compute|split; by vm_compute|by vm_compute|by vm_compute|split; [by vm_compute|split; by vm_compute]].
    split; [solve_ring|fits_eval|not_in|right; by_eval|by vm_compute|by vm_compute].
  - intros s1 [C1 C2 C3 C4 C5 C6 C7]. eexists 42, _. split; [reflexivity|]. split; assumption.
Defined.

Definition demo_pool : LXRT :=
  lxrt_zero demo <| taskidx := 2 |> <| taskav ::= <[0 := 800]> |> <| taskav ::= <[1 := 801]> |> <| kthreadm := 701 |>.

Lemma reservoir_refills_witness :
  exists s1 s2 k,
    get_kthread 1 0 demo_pool = Done 801 s1 /\ taskidx s1 = 1 /\ resem s1 = 0 /\
    kthread_m_drain LIST_FUEL s1 = Switch s2 k /\ KernelThread ∈ xlog s2 /\ resem s2 = 0 /\
    forall s3, same_pool s2 s3 -> state (rt s3) thread_task = Z.lor READY SUSPENDED ->
      exists s4, k s3 = Done tt s4 /\ requests s4 = [] /\ taskidx s4 = 2 /\
        taskav s4 = <[1 := lnxtsk (rt s3) thread_task]> (taskav demo_pool) /\ resem s4 = resem s3 + 1.
Proof. apply (reservoir_refills demo_pool); [split; split; by vm_compute|by vm_compute|split; by vm_compute|by_eval]. Defined.

(** The semaphore has been left with 63 units. *)
Definition demo_starved : LXRT := lxrt_zero demo <| resem := 63 |> <| kthreadm := 701 |>.

Lemma get_kthread_floods_witness :
  exists s' k, get_kthread 1 0 demo_starved = Switch s' k /\ resem s' = 0 /\
    requests s' = pairs (64 mod 64) rt_linux_task /\
    ((64 mod 64 = 0)%nat -> kthread_m_drain LIST_FUEL s' = Done tt s').
Proof.
  apply (get_kthread_floods demo_starved rt_linux_task 63); [|by vm_compute|by vm_compute|lia].
  split; [split; split; by vm_compute|by vm_compute|by vm_compute|by vm_compute].
Defined.

Lemma start_kthread_leaks_witness :
  exists s', start_stop_kthread 32 4096 5 1 0 0 0 demo_pool = Done tt s' /\
    retval (rt s') 32 = - EINVAL /\ taskidx s' = 1 /\ this_rt_task0 s' = this_rt_task0 demo_pool /\
    lnxtsk (rt s') = lnxtsk (rt demo_pool) /\ max_msg_size0 s' 32 = i32 4096 /\ max_msg_size1 s' 32 = 5.
Proof.
  apply (start_kthread_leaks demo_pool); [split; split; by vm_compute|by vm_compute|by vm_compute|by_eval|done|by vm_compute].
Defined.
