(* ===== verification/Ulldiv.v ===== *)
(** Ulldiv: the division of 64 by 32 bits.

    [ulldiv] of [include/asm-i386/rtai-24.h], which the conversions to seconds and
    nanoseconds use: the high word is divided, and what is left of it is
    replaced by a multiple of the rest of 2^32, until the number is
    below the divisor. *)

From S2P Require Import Prelude Resume DList SchedState SchedQueues Schedule.

Definition u64 (z : Z) : Z := z mod 18446744073709551616.

(** The loop, with [qf] and [rf] the quotient and rest of 2^32, a rest of 0
    taken as the divisor: the quotient and the rest. *)
Fixpoint ulldiv_loop (fuel : nat) (uld qf rf p q : Z) : option (Z * Z) :=
  if p >=? uld then
    match fuel with
    | O => None
    | S fuel' =>
        let th := hi32 p / uld in
        let q := u64 (lo32 q + u32 (hi32 q + th) * 4294967296) in
        let rh := u32 (hi32 p - th * uld) in
        let tl := lo32 p / uld in
        let q := u64 (q + (rh * qf + tl)) in
        ulldiv_loop fuel' uld qf rf (u64 (rh * rf + u32 (lo32 p - tl * uld))) q
    end
  else Some (q, u32 p).

Definition ULLDIV_FUEL : nat := 64.

Definition ulldiv (ull uld : Z) : option (Z * Z) :=
  let qf := 4294967295 / uld in
  let rf := u64 (4294967296 - qf * uld) in
  ulldiv_loop ULLDIV_FUEL uld qf rf (u64 ull) 0.

(** * It divides *)

Lemma split_words p : 0 <= p < 18446744073709551616 ->
  p = hi32 p * 4294967296 + lo32 p /\ 0 <= hi32 p < 4294967296 /\ 0 <= lo32 p < 4294967296.
Proof. intros H. unfold hi32, lo32. Z.div_mod_to_equations. lia. Qed.

Section Division.
Variable uld : Z.
Hypothesis Huld : 0 < uld < 4294967296.

Let qf := 4294967295 / uld.
Let rf := 4294967296 - qf * uld.

Lemma qf_pos : 1 <= qf.
Proof. unfold qf. apply Z.div_le_lower_bound; lia. Qed.

Lemma rf_range : 1 <= rf <= uld /\ rf <= 4294967296 - uld.
Proof.
  pose proof qf_pos as H. unfold rf. pose proof (Z.div_mod 4294967295 uld ltac:(lia)) as D. fold qf in D.
  pose proof (Z.mod_pos_bound 4294967295 uld ltac:(lia)). nia.
Qed.

(** One turn, without the wrapping. *)
Definition rest (p : Z) : Z := (hi32 p mod uld) * rf + lo32 p mod uld.
Definition quot (p : Z) : Z := (hi32 p / uld) * 4294967296 + (hi32 p mod uld) * qf + lo32 p / uld.

Lemma turn_divides p : 0 <= p < 18446744073709551616 -> p = quot p * uld + rest p.
Proof.
  intros H. destruct (split_words p H) as (E & Hh & Hl). unfold quot, rest.
  pose proof (Z.div_mod (hi32 p) uld ltac:(lia)) as D1. pose proof (Z.div_mod (lo32 p) uld ltac:(lia)) as D2.
  set (h := hi32 p) in *. set (l := lo32 p) in *. set (a := h / uld) in *. set (b := h mod uld) in *.
  set (c := l / uld) in *. set (d := l mod uld) in *. rewrite E. unfold rf. nia.
Qed.

Lemma rest_nonneg p : 0 <= rest p.
Proof.
  pose proof rf_range. pose proof (Z.mod_pos_bound (hi32 p) uld ltac:(lia)). pose proof (Z.mod_pos_bound (lo32 p) uld ltac:(lia)).
  unfold rest. nia.
Qed.

Lemma quot_nonneg p : 0 <= p < 18446744073709551616 -> 0 <= quot p.
Proof.
  intros H. destruct (split_words p H) as (_ & Hh & Hl). pose proof qf_pos.
  pose proof (Z.mod_pos_bound (hi32 p) uld ltac:(lia)). pose proof (Z.div_pos (hi32 p) uld). pose proof (Z.div_pos (lo32 p) uld).
  unfold quot. nia.
Qed.

Lemma rest_le p : 0 <= p < 18446744073709551616 -> 0 <= rest p <= p /\ (0 < quot p -> rest p <= p - uld).
Proof.
  intros H. pose proof (turn_divides p H). pose proof (quot_nonneg p H). pose proof (rest_nonneg p). nia.
Qed.

(** Turns that are enough. *)
Fixpoint ends_in (k : nat) (p : Z) : Prop :=
  p < uld \/ match k with O => False | S k' => ends_in k' (rest p) end.

Lemma ends_mono k p : ends_in k p -> ends_in (S k) p.
Proof. revert p. induction k as [|k IH]; intros p; [intros [H|[]]; by left|]. intros [H|H]; [by left|]. right. by apply IH. Qed.

Lemma ends_low p : 0 <= p < 18446744073709551616 -> hi32 p = 0 -> ends_in 1 p.
Proof.
  intros H H0. right. left. unfold rest. rewrite H0, Z.mod_0_l by lia.
  pose proof (Z.mod_pos_bound (lo32 p) uld ltac:(lia)). lia.
Qed.

Lemma hi_rest p h : 0 <= p < 18446744073709551616 -> hi32 p <= h -> 0 <= h ->
  0 <= rest p < 18446744073709551616 /\ hi32 (rest p) * 4294967296 <= h * 2147483648 + uld - 1.
Proof.
  intros H Hh H0. destruct (split_words p H) as (_ & Hhi & _). pose proof rf_range as [R1 R2]. pose proof (rest_le p H) as [R3 _].
  destruct (split_words (rest p)) as (E & E1 & E2); [lia|]. split; [lia|].
  pose proof (Z.mod_pos_bound (hi32 p) uld ltac:(lia)). pose proof (Z.mod_pos_bound (lo32 p) uld ltac:(lia)).
  assert (B : hi32 p mod uld <= h) by (pose proof (Z.mod_le (hi32 p) uld); lia).
  assert (rf <= 2147483648) by lia. unfold rest in *. nia.
Qed.

Lemma ends_one p : 0 <= p < 18446744073709551616 -> hi32 p <= 1 -> ends_in 2 p.
Proof.
  intros H Hh. destruct (hi_rest p 1 H Hh) as [H1 _]; [lia|]. right. apply ends_low; [exact H1|].
  assert (rest p < 4294967296); [|unfold hi32; rewrite Z.div_small by lia; done].
  pose proof rf_range as [R1 R2]. pose proof (Z.mod_pos_bound (hi32 p) uld ltac:(lia)). pose proof (Z.mod_pos_bound (lo32 p) uld ltac:(lia)).
  destruct (split_words p H) as (_ & Hhi & _). assert (hi32 p mod uld <= 1) by (pose proof (Z.mod_le (hi32 p) uld); lia). unfold rest. nia.
Qed.

(** Each turn halves the high word, but for one. *)
Lemma ends_halving n p : 0 <= p < 18446744073709551616 -> hi32 p <= 2 ^ Z.of_nat n + 1 -> ends_in (3 + n) p.
Proof.
  revert p. induction n as [|n IH]; intros p H Hh.
  - destruct (hi_rest p 2 H Hh) as [H1 H2]; [lia|]. right. apply ends_one; [exact H1|]. lia.
  - replace (Z.of_nat (S n)) with (1 + Z.of_nat n) in Hh by lia. rewrite Z.pow_add_r in Hh by lia.
    destruct (hi_rest p (2 ^ 1 * 2 ^ Z.of_nat n + 1) H Hh) as [H1 H2]; [lia|]. right. apply IH; [exact H1|]. lia.
Qed.

Lemma ulldiv_loop_spec k : forall fuel p q N,
  0 <= N < 18446744073709551616 -> q * uld + p = N -> 0 <= p -> 0 <= q -> ends_in k p -> (k <= fuel)%nat ->
  ulldiv_loop fuel uld qf rf p q = Some (N / uld, N mod uld).
Proof.
  assert (Hend : forall fuel p q N, 0 <= N < 18446744073709551616 -> q * uld + p = N -> 0 <= p -> p < uld ->
    ulldiv_loop fuel uld qf rf p q = Some (N / uld, N mod uld)).
  { intros fuel p q N HN E Hp Hlt. assert (Eq : q = N / uld) by (apply (Z.div_unique_pos _ _ _ p); lia).
    assert (Er : p = N mod uld) by (apply (Z.mod_unique_pos _ _ q); lia).
    destruct fuel; cbn [ulldiv_loop]; (rewrite Z.geb_leb, (proj2 (Z.leb_gt _ _)) by lia); unfold u32; rewrite Z.mod_small by lia; by rewrite <- Eq, <- Er. }
  induction k as [|k IH]; intros fuel p q N HN E Hp Hq [Hk|Hk] Hf; try (by eapply Hend).
  destruct (Z_lt_le_dec p uld) as [Hlt|Hge]; [by eapply Hend|].
  destruct fuel as [|fuel]; [lia|]. cbn [ulldiv_loop]. rewrite Z.geb_leb, (proj2 (Z.leb_le _ _)) by lia.
  assert (Hp64 : 0 <= p < 18446744073709551616) by nia.
  destruct (split_words p Hp64) as (_ & Hh & Hl). pose proof (turn_divides p Hp64) as D. pose proof (quot_nonneg p Hp64) as Q0.
  pose proof (rest_le p Hp64) as [R0 _].
  assert (HQ : (q + quot p) * uld + rest p = N) by nia. assert (Hqb : q + quot p < 18446744073709551616) by nia.
  pose proof (Z.mod_pos_bound (hi32 p) uld ltac:(lia)) as B1. pose proof (Z.mod_pos_bound (lo32 p) uld ltac:(lia)) as B2.
  pose proof (Z.div_pos (hi32 p) uld ltac:(lia) ltac:(lia)) as B3. pose proof (Z.div_pos (lo32 p) uld ltac:(lia) ltac:(lia)) as B4.
  pose proof qf_pos as B5.
  pose proof (Z.div_mod (hi32 p) uld ltac:(lia)) as D1. pose proof (Z.div_mod (lo32 p) uld ltac:(lia)) as D2.
  assert (E1 : u32 (hi32 p - hi32 p / uld * uld) = hi32 p mod uld) by (unfold u32; rewrite Z.mod_small; lia).
  assert (E2 : u32 (lo32 p - lo32 p / uld * uld) = lo32 p mod uld) by (unfold u32; rewrite Z.mod_small; lia).
  assert (E3 : lo32 q + u32 (hi32 q + hi32 p / uld) * 4294967296 = q + hi32 p / uld * 4294967296).
  { destruct (split_words q) as (Eq & Qh & Ql); [lia|]. unfold quot in Hqb.
    assert (0 <= hi32 p mod uld * qf) by (apply Z.mul_nonneg_nonneg; lia). unfold u32. rewrite Z.mod_small by lia. lia. }
  assert (B6 : 0 <= hi32 p mod uld * qf) by (apply Z.mul_nonneg_nonneg; lia).
  rewrite E1, E2, E3. unfold u64. change (hi32 p mod uld * rf + lo32 p mod uld) with (rest p). rewrite (Z.mod_small (rest p)) by lia.
  rewrite (Z.mod_small (q + hi32 p / uld * 4294967296)) by (unfold quot in Hqb; lia).
  replace (q + hi32 p / uld * 4294967296 + (hi32 p mod uld * qf + lo32 p / uld)) with (q + quot p) by (unfold quot; lia).
  rewrite (Z.mod_small (q + quot p)) by lia. apply IH; [exact HN|exact HQ|lia|lia|exact Hk|lia].
Qed.
End Division.

(** C34: [ulldiv] ends, with the quotient and the rest of the division, for every
    64-bit number and every 32-bit divisor but 0; no step overflows. *)
Theorem ulldiv_divides ull uld :
  0 <= ull < 18446744073709551616 -> 0 < uld < 4294967296 -> ulldiv ull uld = Some (ull / uld, ull mod uld).
Proof.
  intros Hn Hd. unfold ulldiv, u64. pose proof (rf_range uld Hd) as [R1 _].
  rewrite (Z.mod_small (4294967296 - _)) by lia. rewrite (Z.mod_small ull) by lia.
  apply (ulldiv_loop_spec uld Hd 35); [exact Hn|lia|lia|lia| |unfold ULLDIV_FUEL; lia].
  change 35%nat with (3 + 32)%nat. apply (ends_halving uld Hd); [exact Hn|]. destruct (split_words ull Hn) as (_ & H & _).
  change (2 ^ Z.of_nat 32) with 4294967296. lia.
Qed.

Lemma ulldiv_divides_witness : ulldiv 18446744073709551615 1000000000 = Some (18446744073, 709551615).
Proof. apply (ulldiv_divides 18446744073709551615 1000000000); by vm_compute. Defined.
