(* ===== verification/Pthread.v ===== *)
(** Pthread: POSIX threads, mutexes and condition variables.

    [posix/src/rtai_pthread.c]: threads are tasks with a descriptor; mutexes
    and condition variables are semaphore structs whose queues the module works
    on itself, with the list operations that the scheduler exports.  The
    semaphore [m_semaphore] of the mutex at [m] is [Sem m], and [c_waiting] of the
    condition variable at [c] is [Sem c].

    The state contains that of the scheduler.  Fields of the descriptors that the
    module writes but never reads are left out, and so are trace events. *)

From S2P Require Import Prelude Resume DList SchedState SchedQueues Schedule SchedTask SchedTimer Ulldiv.

Record PTHR : Type := mkPTHR {
  (* pthread_mutex_t *)
  m_owner : Z -> Z;
  m_kind : Z -> Z;
  (* struct _pthread_descr_struct, by index *)
  p_tid : Z -> Z;
  p_priority : Z -> Z;
  p_policy : Z -> Z;
  p_detached : Z -> Z;
  start_policy : Z -> Z;
  start_priority : Z -> Z;
  (* RT_TASK, and the Z_APPS it points to *)
  system_data_ptr : Z -> Z;
  z_pthreads : Z -> Z;
  (* pthread_attr_t, pthread_mutexattr_t *)
  detachstate : Z -> Z;
  schedpolicy : Z -> Z;
  attr_priority : Z -> Z;
  inheritsched : Z -> Z;
  scope : Z -> Z;
  mutexkind : Z -> Z;
  num_pthreads : Z;
  tick_period : Z;
  sched : RTAI
}.

#[export] Instance PTHR_eta : Eta PTHR := fun s =>
  mkPTHR (m_owner s) (m_kind s) (p_tid s) (p_priority s) (p_policy s) (p_detached s)
    (start_policy s) (start_priority s) (system_data_ptr s) (z_pthreads s) (detachstate s)
    (schedpolicy s) (attr_priority s) (inheritsched s) (scope s) (mutexkind s) (num_pthreads s)
    (tick_period s) (sched s).

#[export] Instance set_m_owner : Setter m_owner := ltac:(mk_setter).
#[export] Instance set_m_kind : Setter m_kind := ltac:(mk_setter).
#[export] Instance set_p_tid : Setter p_tid := ltac:(mk_setter).
#[export] Instance set_p_priority : Setter p_priority := ltac:(mk_setter).
#[export] Instance set_p_policy : Setter p_policy := ltac:(mk_setter).
#[export] Instance set_p_detached : Setter p_detached := ltac:(mk_setter).
#[export] Instance set_start_policy : Setter start_policy := ltac:(mk_setter).
#[export] Instance set_start_priority : Setter start_priority := ltac:(mk_setter).
#[export] Instance set_system_data_ptr : Setter system_data_ptr := ltac:(mk_setter).
#[export] Instance set_z_pthreads : Setter z_pthreads := ltac:(mk_setter).
#[export] Instance set_detachstate : Setter detachstate := ltac:(mk_setter).
#[export] Instance set_schedpolicy : Setter schedpolicy := ltac:(mk_setter).
#[export] Instance set_attr_priority : Setter attr_priority := ltac:(mk_setter).
#[export] Instance set_inheritsched : Setter inheritsched := ltac:(mk_setter).
#[export] Instance set_scope : Setter scope := ltac:(mk_setter).
#[export] Instance set_mutexkind : Setter mutexkind := ltac:(mk_setter).
#[export] Instance set_num_pthreads : Setter num_pthreads := ltac:(mk_setter).
#[export] Instance set_pthr_tick_period : Setter tick_period := ltac:(mk_setter).
#[export] Instance set_pthr_sched : Setter sched := ltac:(mk_setter).

Abbreviation P A := (M PTHR A).

Definition schd {A} (m : K A) : P A := lift sched m.

(** The values of the data segment. *)
Definition pthr_zero (sched_ : RTAI) : PTHR :=
  mkPTHR (fun _ => 0) (fun _ => 0) (fun _ => 0) (fun _ => 0) (fun _ => 0) (fun _ => 0) (fun _ => 0) (fun _ => 0)
    (fun _ => 0) (fun _ => 0) (fun _ => 0) (fun _ => 0) (fun _ => 0) (fun _ => 0) (fun _ => 0) (fun _ => 0) 0 0 sched_.

(** * Constants *)

Definition POSIX_THREADS_MAX : Z := 64.
Definition PTHREAD_PRIORITY_FACTOR : Z := 99.
Definition DEFAULT_TICK_PERIOD : Z := 1000000.
Definition SCHED_OTHER : Z := 0.
Definition SCHED_FIFO : Z := 1.
Definition SCHED_RR : Z := 2.
Definition PTHREAD_INHERIT_SCHED : Z := 0.
Definition PTHREAD_EXPLICIT_SCHED : Z := 1.
Definition PTHREAD_CREATE_JOINABLE : Z := 0.
Definition PTHREAD_CREATE_DETACHED : Z := 1.
Definition PTHREAD_SCOPE_SYSTEM : Z := 0.
Definition PTHREAD_SCOPE_PROCESS : Z := 1.
Definition PTHREAD_MUTEX_FAST_NP : Z := 0.
Definition PTHREAD_MUTEX_RECURSIVE_NP : Z := 1.
Definition PTHREAD_MUTEX_ERRORCHECK_NP : Z := 2.
Definition CLOCK_REALTIME : Z := 0.
Definition EPERM : Z := 1.
Definition ESRCH : Z := 3.
Definition EINTR : Z := 4.
Definition ENOTSUP : Z := 95.
Definition ETIMEDOUT : Z := 110.

(** [&rt_pthread_descr[j].rtask_struct] *)
Definition rtask (j : Z) : Z := 36864 + j.

(** * Threads *)

Definition get_max_priority (policy_ : Z) : Z :=
  if (policy_ =? SCHED_FIFO) || (policy_ =? SCHED_RR) then 99
  else if policy_ =? SCHED_OTHER then 0
  else - EINVAL.

Definition get_min_priority (policy_ : Z) : Z :=
  if (policy_ =? SCHED_FIFO) || (policy_ =? SCHED_RR) then 1
  else if policy_ =? SCHED_OTHER then 0
  else - EINVAL.

(** [if (system_data_ptr == NULL) system_data_ptr = init_z_apps(task);], and the
    store of the descriptor; [za] is the result of [rt_malloc], which is used
    without a check. *)
Definition attach_descr (za task j : Z) : P unit :=
  s ← get;
  when (negb (nz (system_data_ptr s task)))
    (wr system_data_ptr task za;;
     if nz za then wr z_pthreads za 0 else stuck);;
  s ← get;
  wr z_pthreads (system_data_ptr s task) j.

(** The first free descriptor. *)
Fixpoint free_descr (fuel : nat) (s : PTHR) (j : Z) : option Z :=
  match fuel with
  | O => None
  | S fuel' => if p_tid s j =? 0 then Some j else free_descr fuel' s (j + 1)
  end.

Definition init_descr (attr j : Z) : P unit :=
  s ← get;
  wr p_tid j (j + 1);;
  wr p_priority j 0;;
  wr p_policy j SCHED_OTHER;;
  wr p_detached j (if nz attr then detachstate s attr else 0);;
  wr start_policy j SCHED_OTHER;;
  when (nz attr && negb (schedpolicy s attr =? SCHED_OTHER))
    (when (inheritsched s attr =? PTHREAD_EXPLICIT_SCHED)
       (wr start_policy j (schedpolicy s attr);;
        wr start_priority j (attr_priority s attr));;
     s ← get;
     wr p_priority j (start_priority s j);;
     wr p_policy j (start_policy s j));;
  s ← get;
  when (p_priority s j >? PTHREAD_PRIORITY_FACTOR) (wr p_priority j PTHREAD_PRIORITY_FACTOR);;
  s ← get;
  schd (wr priority (rtask j) (PTHREAD_PRIORITY_FACTOR - p_priority s j)).

(** [st] is the stack and [za1], [za2] the areas that are allocated, [fpu] is
    [TASK_USES_FPU]; the result is that of the call, and [*thread] if it was
    set.  [rt_task_init] resets [system_data_ptr]. *)
Definition pthread_create (st za1 za2 fpu attr : Z) : P (Z * option Z) :=
  s ← get;
  if num_pthreads s >=? POSIX_THREADS_MAX then mret (EAGAIN, None)
  else
    match free_descr (Z.to_nat POSIX_THREADS_MAX) s 0 with
    | None => mret (EAGAIN, None)
    | Some j =>
        init_descr attr j;;
        attach_descr za1 (rtask j) j;;
        s ← get;
        r ← schd (rt_task_init st (rtask j) (priority (sched s) (rtask j)) fpu 0);
        if r =? 0 then
          wr system_data_ptr (rtask j) 0;;
          wr p_tid j (j + 1);;
          attach_descr za2 (rtask j) j;;
          r ← schd (rt_task_resume (rtask j));
          if r <? 0 then
            wr p_tid j 0;;
            _ ← schd (rt_task_delete (rtask j));
            mret (EAGAIN, Some (j + 1))
          else mret (0, Some (j + 1))
        else mret (EAGAIN, None)
    end.

(** The descriptor of the running task. *)
Definition self_descr : P Z :=
  s ← get;
  let z := system_data_ptr s (rt_whoami (sched s)) in
  if nz z then mret (z_pthreads s z) else stuck.

Definition pthread_exit : P unit :=
  s ← get;
  let task := rt_whoami (sched s) in
  j ← self_descr;
  schd (emit (FreeMem (system_data_ptr s task)));;
  wr system_data_ptr task 0;;
  wr p_tid j 0;;
  _ ← schd (rt_task_delete task);
  mret tt.

Definition sched_yield : P Z := schd rt_task_yield;; mret 0.

Definition pthread_self : P Z := j ← self_descr; s ← get; mret (p_tid s j).

(** * Attributes *)

Definition pthread_attr_init (attr : Z) : P Z :=
  wr detachstate attr PTHREAD_CREATE_JOINABLE;;
  wr schedpolicy attr SCHED_OTHER;;
  wr attr_priority attr 0;;
  wr inheritsched attr PTHREAD_EXPLICIT_SCHED;;
  wr scope attr PTHREAD_SCOPE_SYSTEM;;
  mret 0.

Definition pthread_attr_destroy (attr : Z) : P Z := mret 0.

Definition pthread_attr_setdetachstate (attr v : Z) : P Z :=
  if (v <? PTHREAD_CREATE_JOINABLE) || (v >? PTHREAD_CREATE_DETACHED) then mret EINVAL
  else wr detachstate attr v;; mret 0.
Definition pthread_attr_getdetachstate (s : PTHR) (attr : Z) : Z := detachstate s attr.

Definition pthread_attr_setschedparam (attr prio : Z) : P Z :=
  s ← get;
  if (prio <? get_min_priority (schedpolicy s attr)) || (prio >? get_max_priority (schedpolicy s attr)) then mret EINVAL
  else wr attr_priority attr prio;; mret 0.
Definition pthread_attr_getschedparam (s : PTHR) (attr : Z) : Z := attr_priority s attr.

Definition pthread_attr_setschedpolicy (attr v : Z) : P Z :=
  if negb (v =? SCHED_OTHER) && negb (v =? SCHED_FIFO) && negb (v =? SCHED_RR) then mret EINVAL
  else wr schedpolicy attr v;; mret 0.
Definition pthread_attr_getschedpolicy (s : PTHR) (attr : Z) : Z := schedpolicy s attr.

Definition pthread_attr_setinheritsched (attr v : Z) : P Z :=
  if negb (v =? PTHREAD_INHERIT_SCHED) && negb (v =? PTHREAD_EXPLICIT_SCHED) then mret EINVAL
  else wr inheritsched attr v;; mret 0.
Definition pthread_attr_getinheritsched (s : PTHR) (attr : Z) : Z := inheritsched s attr.

Definition pthread_attr_setscope (attr v : Z) : P Z :=
  if v =? PTHREAD_SCOPE_SYSTEM then wr scope attr v;; mret 0
  else if v =? PTHREAD_SCOPE_PROCESS then mret ENOTSUP
  else mret EINVAL.
Definition pthread_attr_getscope (s : PTHR) (attr : Z) : Z := scope s attr.

(** [prio] is [param->sched_priority].  The task is not moved in the ready list. *)
Definition pthread_setschedparam (thread policy_ prio : Z) : P Z :=
  s ← get;
  let j := thread - 1 in
  if p_tid s j =? 0 then mret ESRCH
  else
    let max_prio := get_max_priority policy_ in
    let min_prio := get_min_priority policy_ in
    if (min_prio <? 0) || (max_prio <? 0) then mret EINVAL
    else if (prio <? min_prio) || (prio >? max_prio) then mret EINVAL
    else
      wr p_priority j prio;;
      wr p_policy j policy_;;
      schd (wr priority (rtask j) (PTHREAD_PRIORITY_FACTOR - prio));;
      schd (wr base_priority (rtask j) (PTHREAD_PRIORITY_FACTOR - prio));;
      mret 0.

(** The error, or the policy and the priority. *)
Definition pthread_getschedparam (s : PTHR) (thread : Z) : Z + Z * Z :=
  let j := thread - 1 in
  if p_tid s j =? 0 then inl ESRCH else inr (p_policy s j, p_priority s j).

(** * Time *)

Definition NSECS_PER_SEC : Z := 1000000000.

(** Seconds and nanoseconds; both are [long]. *)
Definition ts_from_ns (t : Z) : option (Z * Z) :=
  '(q, r) ← ulldiv t NSECS_PER_SEC;
  let '(sec, nsec) := (i32 q, i32 r) in
  Some (if nsec <? 0 then (i32 (sec - 1), i32 (nsec + NSECS_PER_SEC)) else (sec, nsec)).

Definition count2timespec (s : RTAI) (t : Z) : option (Z * Z) :=
  '(q, r) ← ulldiv (count2nano s t) 1000000000; Some (i32 q, i32 r).

Definition timespec2count (s : RTAI) (sec nsec : Z) : Z := nano2count s (i64 (sec * 1000000000 + nsec)).

Definition clock_gettime (clockid : Z) : P (Z * (Z * Z)) :=
  s ← get;
  if negb (clockid =? CLOCK_REALTIME) then mret (- EINVAL, (0, 0))
  else
    ts ← of_option (ts_from_ns (count2nano (sched s) (rt_get_time (sched s))));
    mret (0, ts).

(** [rmtp] tells whether the rest is asked for. *)
Definition nanosleep (sec nsec : Z) (rmtp : bool) : P (Z * option (Z * Z)) :=
  if (nsec >=? 1000000000) || (nsec <? 0) || (sec <? 0) then mret (- EINVAL, None)
  else
    s ← get;
    let expire := i64 (rt_get_time (sched s) + timespec2count (sched s) sec nsec) in
    schd (rt_sleep_until expire);;
    s ← get;
    let expire := i64 (expire - rt_get_time (sched s)) in
    if expire >? 0 then
      (if rmtp then ts ← of_option (count2timespec (sched s) expire); mret (- EINTR, Some ts)
       else mret (- EINTR, None))
    else mret (0, None).

(** * Queues *)

(** A queue that was initialised statically is made empty at first use. *)
Definition mend_queue (q : qptr) : K unit :=
  s ← get;
  when (bool_decide (q_prev s q = QNull) || bool_decide (q_next s q = QNull)) (wr q_prev q q;; wr q_next q q).

Definition priority_enqueue_task (mutex : Z) : K unit :=
  mend_queue (SemQueue (Sem mutex));;
  s ← get;
  q ← queue_walk (SemQueue (Sem mutex)) (priority s (rt_whoami s)) s;
  qlink (Queue (rt_whoami s)) q.

Definition cond_enqueue_task (cond : Z) : K unit :=
  mend_queue (SemQueue (Sem cond));;
  s ← get;
  qlink (Queue (rt_whoami s)) (SemQueue (Sem cond)).

(** The priority of the owner is raised; a mutex without an owner has a null pointer
    read. *)
Definition mutex_inherit_prio (mutex : Z) : P unit :=
  s ← get;
  let owner := m_owner s mutex in
  let current_task := rt_whoami (sched s) in
  if negb (nz owner) then stuck
  else when (priority (sched s) owner >? priority (sched s) current_task)
         (schd (wr priority owner (priority (sched s) current_task))).

(** * Mutexes *)

Definition sem_setup (m : semp) : K unit :=
  wr sem_magic m RT_SEM_MAGIC;;
  wr sem_count m 1;;
  wr sem_type m BIN_SEM;;
  queue_init (SemQueue m) 0;;
  wr sem_owndby m 0;;
  wr sem_qtype m FIFO_Q.

Definition pthread_mutex_init (mutex mutex_attr : Z) : P Z :=
  s ← get;
  wr m_owner mutex 0;;
  wr m_kind mutex (if nz mutex_attr then mutexkind s mutex_attr else PTHREAD_MUTEX_FAST_NP);;
  schd (sem_setup (Sem mutex));;
  mret 0.

(** [while ((rt_q = rt_q->next) != &queue) (rt_q->task)->state &= ~(SEMAPHORE | DELAYED);] *)
Fixpoint clear_waiters (fuel : nat) (queue rt_q : qptr) : K unit :=
  s ← get;
  let rt_q := q_next s rt_q in
  if bool_decide (rt_q = queue) then mret tt
  else match fuel with
       | O => stuck
       | S fuel' =>
           wr state (q_task s rt_q) (clr (state s (q_task s rt_q)) (Z.lor SEMAPHORE DELAYED));;
           clear_waiters fuel' queue rt_q
       end.

Definition pthread_mutex_destroy (mutex : Z) : P Z :=
  s ← get;
  if negb (sem_magic (sched s) (Sem mutex) =? RT_SEM_MAGIC) then mret EINVAL
  else if sem_count (sched s) (Sem mutex) <? 1 then mret EBUSY
  else
    schd (wr sem_magic (Sem mutex) 0);;
    schd (clear_waiters LIST_FUEL (SemQueue (Sem mutex)) (SemQueue (Sem mutex)));;
    mret 0.

Definition pthread_mutexattr_init (attr : Z) : P Z := wr mutexkind attr PTHREAD_MUTEX_FAST_NP;; mret 0.
Definition pthread_mutexattr_destroy (attr : Z) : P Z := mret 0.
Definition pthread_mutexattr_setkind_np (attr kind : Z) : P Z :=
  if negb (kind =? PTHREAD_MUTEX_FAST_NP) && negb (kind =? PTHREAD_MUTEX_RECURSIVE_NP) &&
     negb (kind =? PTHREAD_MUTEX_ERRORCHECK_NP) then mret EINVAL
  else wr mutexkind attr kind;; mret 0.
Definition pthread_mutexattr_getkind_np (s : PTHR) (attr : Z) : Z := mutexkind s attr.

(** [mutex->m_semaphore.count = count; mutex->m_owner = mutex->m_semaphore.owndby = self;] *)
Definition mutex_take (mutex self count : Z) : P Z :=
  schd (wr sem_count (Sem mutex) count);;
  wr m_owner mutex self;;
  schd (wr sem_owndby (Sem mutex) self);;
  mret 0.

Definition pthread_mutex_trylock (mutex : Z) : P Z :=
  s ← get;
  let σ := sched s in
  let self := rt_whoami σ in
  let count := sem_count σ (Sem mutex) in
  if negb (sem_magic σ (Sem mutex) =? RT_SEM_MAGIC) then mret EINVAL
  else if (m_kind s mutex =? PTHREAD_MUTEX_FAST_NP) || (m_kind s mutex =? PTHREAD_MUTEX_ERRORCHECK_NP) then
    if count >? 0 then mutex_take mutex self 0 else mret EBUSY
  else if m_kind s mutex =? PTHREAD_MUTEX_RECURSIVE_NP then
    if (count =? 0) || (m_owner s mutex =? self) then mutex_take mutex self (i32 (count - 1)) else mret EBUSY
  else mret EINVAL.

(** What a task does when it gets the processor back. *)
Definition after_wait (mutex current_task : Z) : P Z :=
  s ← get;
  if negb (bool_decide (blocked_on (sched s) current_task = QNull)) ||
     negb (sem_magic (sched s) (Sem mutex) =? RT_SEM_MAGIC) then mret EINVAL
  else mutex_take mutex current_task 0.

(** The wait of a task; [early] is the order in which [blocked_on] is set. *)
Definition mutex_wait (mutex current_task : Z) (early : bool) : P Z :=
  s ← get;
  schd (wr state current_task (Z.lor (state (sched s) current_task) SEMAPHORE));;
  (if early then
     schd (wr blocked_on current_task (SemQueue (Sem mutex)));; schd (rem_ready_current current_task)
   else
     schd (rem_ready_current current_task);; schd (wr blocked_on current_task (SemQueue (Sem mutex))));;
  schd (priority_enqueue_task mutex);;
  mutex_inherit_prio mutex;;
  schd rt_schedule;;
  after_wait mutex current_task.

Definition pthread_mutex_lock (mutex : Z) : P Z :=
  s ← get;
  let σ := sched s in
  let current_task := rt_whoami σ in
  let count := sem_count σ (Sem mutex) in
  if negb (sem_magic σ (Sem mutex) =? RT_SEM_MAGIC) then mret EINVAL
  else if m_kind s mutex =? PTHREAD_MUTEX_FAST_NP then
    if count >? 0 then mutex_take mutex current_task 0 else mutex_wait mutex current_task false
  else if m_kind s mutex =? PTHREAD_MUTEX_RECURSIVE_NP then
    if (count =? 0) || (m_owner s mutex =? current_task) then mutex_take mutex current_task (i32 (count - 1))
    else mutex_wait mutex current_task false
  else if m_kind s mutex =? PTHREAD_MUTEX_ERRORCHECK_NP then
    if count >? 0 then mutex_take mutex current_task 0 else mutex_wait mutex current_task true
  else mret EINVAL.

(** The first task of the queue [q] leaves it ([dequeue_task]); the scheduler is
    called if [resched] and the task is ready.  [DELAYED] is cleared before
    [rt_rem_timed_task] tests it. *)
Definition wake_first (q : qptr) (resched : bool) : K unit :=
  s ← get;
  let next_task := q_task s (q_next s q) in
  wr blocked_on next_task QNull;;
  wr state next_task (clr (state s next_task) (Z.lor SEMAPHORE DELAYED));;
  qunlink (Queue next_task);;
  rem_timed_task next_task;;
  s ← get;
  when (state s next_task =? READY) (enq_ready_task next_task;; when resched rt_schedule).

Definition has_waiter (s : RTAI) (q : qptr) : bool :=
  negb (bool_decide (q_next s q = QNull)) && negb (bool_decide (q_prev s q = QNull)) && nz (q_task s (q_next s q)).

Definition mutex_release (mutex current_task : Z) : P unit :=
  s ← get;
  schd (wr priority current_task (base_priority (sched s) current_task));;
  s ← get;
  when (has_waiter (sched s) (SemQueue (Sem mutex))) (schd (wake_first (SemQueue (Sem mutex)) true)).

Definition pthread_mutex_unlock (mutex : Z) : P Z :=
  s ← get;
  let σ := sched s in
  let current_task := rt_whoami σ in
  if negb (sem_magic σ (Sem mutex) =? RT_SEM_MAGIC) || negb (m_owner s mutex =? current_task) then mret EINVAL
  else if m_kind s mutex =? PTHREAD_MUTEX_FAST_NP then
    schd (wr sem_count (Sem mutex) 1);;
    wr m_owner mutex 0;;
    schd (wr sem_owndby (Sem mutex) 0);;
    mutex_release mutex current_task;;
    mret 0
  else if m_kind s mutex =? PTHREAD_MUTEX_RECURSIVE_NP then
    let count := i32 (sem_count σ (Sem mutex) + 1) in
    schd (wr sem_count (Sem mutex) count);;
    if count <=? 0 then mret 0
    else
      schd (wr sem_count (Sem mutex) 1);;
      wr m_owner mutex 0;;
      mutex_release mutex current_task;;
      mret 0
  else if m_kind s mutex =? PTHREAD_MUTEX_ERRORCHECK_NP then
    if (sem_count σ (Sem mutex) =? 1) || negb (m_owner s mutex =? current_task) then mret EPERM
    else
      schd (wr sem_count (Sem mutex) 1);;
      wr m_owner mutex 0;;
      mutex_release mutex current_task;;
      mret 0
  else mret EINVAL.

(** * Condition variables *)

Definition pthread_cond_init (cond cond_attr : Z) : P Z := schd (sem_setup (Sem cond));; mret 0.

Definition pthread_cond_destroy (cond : Z) : P Z :=
  s ← get;
  let q := SemQueue (Sem cond) in
  if negb (bool_decide (q_next (sched s) q = q)) && negb (bool_decide (q_prev (sched s) q = q)) then mret EBUSY
  else schd (wr sem_magic (Sem cond) 0);; mret 0.

Definition pthread_condattr_init (attr : Z) : P Z := mret 0.
Definition pthread_condattr_destroy (attr : Z) : P Z := mret 0.

Definition pthread_cond_wait (cond mutex : Z) : P Z :=
  s ← get;
  let current_task := rt_whoami (sched s) in
  schd (wr state current_task (Z.lor (state (sched s) current_task) SEMAPHORE));;
  schd (rem_ready_current current_task);;
  schd (wr blocked_on current_task (SemQueue (Sem cond)));;
  schd (cond_enqueue_task cond);;
  _ ← pthread_mutex_unlock mutex;
  schd rt_schedule;;
  _ ← pthread_mutex_lock mutex;
  mret 0.

Definition pthread_cond_timedwait (cond mutex sec nsec : Z) : P Z :=
  s ← get;
  let time := nano2count (sched s) (i64 (1000000000 * sec + nsec)) in
  let current_task := rt_whoami (sched s) in
  schd (wr resume_time current_task time);;
  schd (wr state current_task (Z.lor (state (sched s) current_task) (Z.lor SEMAPHORE DELAYED)));;
  schd (rem_ready_current current_task);;
  schd (wr blocked_on current_task (SemQueue (Sem cond)));;
  schd (cond_enqueue_task cond);;
  schd (enq_timed_task current_task);;
  _ ← pthread_mutex_unlock mutex;
  schd rt_schedule;;
  s ← get;
  let semret := negb (bool_decide (blocked_on (sched s) current_task = QNull)) in
  when semret (schd (wr blocked_on current_task QNull);; schd (dequeue_blocked current_task));;
  _ ← pthread_mutex_lock mutex;
  mret (if semret then ETIMEDOUT else 0).

Definition pthread_cond_signal (cond : Z) : P Z :=
  s ← get;
  let q := SemQueue (Sem cond) in
  if bool_decide (q_next (sched s) q = QNull) then stuck
  else
    when (has_waiter (sched s) q) (schd (wake_first q true));;
    mret 0.

(** [while ((cond->c_waiting.queue.next)->task != 0) { ... }] *)
Fixpoint wake_all (fuel : nat) (q : qptr) : K unit :=
  s ← get;
  if negb (nz (q_task s (q_next s q))) then mret tt
  else match fuel with
       | O => stuck
       | S fuel' => wake_first q false;; wake_all fuel' q
       end.

Definition pthread_cond_broadcast (cond : Z) : P Z :=
  s ← get;
  let q := SemQueue (Sem cond) in
  when (negb (bool_decide (q_next (sched s) q = QNull)) && negb (bool_decide (q_prev (sched s) q = QNull)))
    (schd (wake_all LIST_FUEL q));;
  schd rt_schedule;;
  mret 0.

(** * The module *)

Section Module.
Context (LATCH : Z) (request : Z -> TIMES).

Definition init_module (fpu : Z) : P Z :=
  schd rt_set_periodic_mode;;
  s ← get;
  t ← schd (start_rt_timer LATCH request (i32 (nano2count (sched s) DEFAULT_TICK_PERIOD)));
  wg tick_period t;;
  schd (rt_linux_use_fpu fpu);;
  mret 0.

Definition cleanup_module : P unit := schd stop_rt_timer;; schd (rt_busy_sleep 10000000).
End Module.
