(* ===== verification/PthreadSpec.v ===== *)
(** PthreadSpec: what mutexes and condition variables of [Pthread] do.

    A mutex between a lock and an unlock; the wait for a mutex; what the code does
    wrong: two owners, recursive mutexes, timed waits, lost descriptors. *)

From S2P Require Import Prelude Resume DList SchedState SchedQueues Schedule SchedTask SchedTimer Ulldiv Pthread.

Ltac step_p := cbv beta delta [schd lift emit]; run_m; cbn [lift_out]; run_m.

Lemma pthr_done {A} (m : K A) s (r : A) σ : m (sched s) = Done r σ -> schd m s = Done r (s <| sched := σ |>).
Proof. intros E. unfold schd. by rewrite (lift_done _ _ _ _ _ E). Qed.

Lemma pthr_lift_out {A} s σ (o : Out RTAI A) : lift_out sched (s <| sched := σ |>) o = lift_out sched s o.
Proof. by destruct o. Qed.

Lemma pthr_after {A} (m m' : K A) s σ : m (sched s) = m' σ -> schd m s = schd m' (s <| sched := σ |>).
Proof. intros E. unfold schd, lift. rewrite E. symmetry. apply pthr_lift_out. Qed.

(** * A mutex between lock and unlock *)

(** A mutex of a kind other than recursive, that nobody holds or waits for. *)
Record free_mutex (s : PTHR) (m : Z) : Prop := {
  fm_magic : sem_magic (sched s) (Sem m) = RT_SEM_MAGIC;
  fm_kind : m_kind s m = PTHREAD_MUTEX_FAST_NP \/ m_kind s m = PTHREAD_MUTEX_ERRORCHECK_NP;
  fm_count : sem_count (sched s) (Sem m) = 1;
  fm_queue : q_next (sched s) (SemQueue (Sem m)) = SemQueue (Sem m);
  fm_head : q_task (sched s) (SemQueue (Sem m)) = 0
}.

Section Mutex.
Implicit Types (s : PTHR) (m a b : Z) (l ws : list Z).

Lemma mutex_take_eq s m a c :
  mutex_take m a c s = Done 0 (s <| sched := (sched s <| sem_count ::= <[Sem m := c]> |> <| sem_owndby ::= <[Sem m := a]> |>) |>
                                 <| m_owner ::= <[m := a]> |>).
Proof. unfold mutex_take. step_p. reflexivity. Qed.

(** An unlock, up to the waking of who waits. *)
Definition unlocked s m (w : semp -> Z) : PTHR :=
  s <| sched := (sched s <| sem_count ::= <[Sem m := 1]> |> <| sem_owndby := w |>) |> <| m_owner ::= <[m := 0]> |>.

Lemma pthread_mutex_unlock_eq s m a :
  sem_magic (sched s) (Sem m) = RT_SEM_MAGIC -> m_owner s m = a -> rt_smp_current (sched s) = a ->
  (m_kind s m = PTHREAD_MUTEX_FAST_NP \/ m_kind s m = PTHREAD_MUTEX_ERRORCHECK_NP /\ sem_count (sched s) (Sem m) <> 1) ->
  exists w, pthread_mutex_unlock m s = (mutex_release m a;; mret 0) (unlocked s m w).
Proof.
  intros Hm Ho Hc Hk. unfold pthread_mutex_unlock, rt_whoami. step_p. rewrite Hm, Ho, Hc, !Z.eqb_refl. cbn [negb orb].
  destruct Hk as [Hk|[Hk Hn]]; rewrite Hk.
  - exists (<[Sem m := 0]> (sem_owndby (sched s))). reflexivity.
  - rewrite (proj2 (Z.eqb_neq _ _) Hn). exists (sem_owndby (sched s)). cbn [Z.eqb Pos.eqb PTHREAD_MUTEX_FAST_NP PTHREAD_MUTEX_RECURSIVE_NP PTHREAD_MUTEX_ERRORCHECK_NP negb orb].
    step_p. unfold unlocked. by destruct s as [? ? ? ? ? ? ? ? ? ? ? ? ? ? ? ? ? ? []].
Qed.

Lemma pthread_mutex_unlock_other s m :
  m_owner s m <> rt_smp_current (sched s) -> pthread_mutex_unlock m s = Done EINVAL s.
Proof.
  intros H. unfold pthread_mutex_unlock, rt_whoami. unfold mbind, M_bind, get. cbn [bind_out].
  by rewrite (proj2 (Z.eqb_neq _ _) H), orb_true_r.
Qed.

Lemma mutex_release_idle s m a :
  has_waiter (sched s) (SemQueue (Sem m)) = false ->
  mutex_release m a s = Done tt (s <| sched := (sched s <| priority ::= <[a := base_priority (sched s) a]> |>) |>).
Proof.
  intros H. unfold mutex_release, schd. step_p.
  change (has_waiter (sched s <| priority ::= <[a := base_priority (sched s) a]> |>) (SemQueue (Sem m)) = false) in H.
  by rewrite H.
Qed.

(** C12: A mutex that is free is taken by the first who locks it; whoever tries
    then is refused; only the owner can unlock it, and then it is free as
    before. *)
Theorem mutex_lock_unlock s m a :
  free_mutex s m -> rt_smp_current (sched s) = a -> a <> 0 -> base_priority (sched s) a = priority (sched s) a ->
  exists s1 s2, pthread_mutex_lock m s = Done 0 s1 /\ m_owner s1 m = a /\
    (forall b, pthread_mutex_trylock m (s1 <| sched := (sched s1 <| rt_smp_current := b |>) |>) =
                 Done EBUSY (s1 <| sched := (sched s1 <| rt_smp_current := b |>) |>)) /\
    (forall b, b <> a -> pthread_mutex_unlock m (s1 <| sched := (sched s1 <| rt_smp_current := b |>) |>) =
                 Done EINVAL (s1 <| sched := (sched s1 <| rt_smp_current := b |>) |>)) /\
    pthread_mutex_unlock m s1 = Done 0 s2 /\ free_mutex s2 m /\ m_owner s2 m = 0 /\
    rnext (sched s2) = rnext (sched s) /\ rt_smp_current (sched s2) = a /\ priority (sched s2) a = priority (sched s) a.
Proof.
  intros [Hm Hk Hc Hq Hh] Ha Ha0 Hb.
  assert (Hrec : m_kind s m =? PTHREAD_MUTEX_RECURSIVE_NP = false) by (destruct Hk as [-> | ->]; done).
  set (s1 := s <| sched := (sched s <| sem_count ::= <[Sem m := 0]> |> <| sem_owndby ::= <[Sem m := a]> |>) |> <| m_owner ::= <[m := a]> |>).
  assert (E1 : pthread_mutex_lock m s = Done 0 s1).
  { unfold pthread_mutex_lock, rt_whoami. step_p. rewrite Hm, Hc, Ha.
    destruct Hk as [Hk|Hk]; rewrite Hk; exact (mutex_take_eq s m a 0). }
  destruct (pthread_mutex_unlock_eq s1 m a) as (w & E2); [exact Hm|apply upd_eq|exact Ha| |].
  { destruct Hk as [Hk|Hk]; [by left|right]. split; [exact Hk|]. subst s1. state_simpl. by rewrite upd_eq. }
  exists s1. eexists. split; [exact E1|]. split; [apply upd_eq|]. split; [|split; [|split]].
  - intros b. unfold pthread_mutex_trylock, rt_whoami, s1. step_p. rewrite Hm, upd_eq.
    destruct Hk as [Hk|Hk]; rewrite Hk; done.
  - intros b Hne. apply pthread_mutex_unlock_other. unfold s1. state_simpl. rewrite upd_eq. congruence.
  - rewrite E2. unfold mbind, M_bind. rewrite mutex_release_idle; [reflexivity|].
    unfold has_waiter, unlocked. subst s1. state_simpl. rewrite Hq, Hh. cbn [nz negb Z.eqb]. apply andb_false_r.
  - unfold unlocked. subst s1. split; [split; state_simpl; [exact Hm|exact Hk|apply upd_eq|exact Hq|exact Hh]|]. state_simpl.
    split; [apply upd_eq|]. split; [done|]. split; [exact Ha|]. by rewrite upd_eq.
Qed.
End Mutex.

(** * Waiting for a mutex *)

Section Wait.
Implicit Types (s : PTHR) (σ : RTAI) (m c o : Z) (l W : list Z) (q : qptr).

Lemma bool_decide_QNull q : q <> QNull -> bool_decide (q = QNull) = false.
Proof. apply bool_decide_false. Qed.

Lemma wait_queue_links σ q W : wait_queue σ q W -> q <> QNull -> q_next σ q <> QNull /\ q_prev σ q <> QNull.
Proof.
  intros [Hr _] Hq. assert (H : forall x, x ∈ q :: (Queue <$> W) -> x <> QNull).
  { intros x [->|[y [-> _]]%list_elem_of_fmap]%elem_of_cons; done. }
  split; apply H.
  - rewrite (ring_next _ _ _ _ Hr). destruct W; simpl; [list_in|]. rewrite !elem_of_cons. tauto.
  - destruct Hr as [Hs _]. exact (seg_prev_elem _ _ _ _ _ Hs).
Qed.

(** A queue that was initialised is not touched. *)
Lemma mend_queue_id σ q W : wait_queue σ q W -> q <> QNull -> mend_queue q σ = Done tt σ.
Proof.
  intros Hw Hq. destruct (wait_queue_links _ _ _ Hw Hq) as [H1 H2]. unfold mend_queue. step_m.
  by rewrite !bool_decide_QNull.
Qed.

Lemma priority_enqueue_task_spec σ m c W :
  let q := SemQueue (Sem m) in
  wait_queue σ q W -> fits W -> c = rt_smp_current σ -> c ∉ W -> q_task σ (Queue c) = c ->
  exists σ', priority_enqueue_task m σ = Done tt σ' /\ queue_links (in_queue q (c :: W)) σ σ' /\
    wait_queue σ' q (insert_after (fun y => priority σ y <=? priority σ c) c W).
Proof.
  intros q Hw Hf Hc Hcw Htt. unfold priority_enqueue_task, rt_whoami. fold q.
  unfold mbind at 1, M_bind at 1. rewrite (mend_queue_id _ _ _ Hw) by done. step_m. rewrite <- Hc.
  rewrite (queue_walk_spec σ q _ W) by done. cbn [bind_out].
  set (p := fun y => priority σ y <=? priority σ c).
  pose proof (take_drop_while p W) as Hl. rewrite <- Hl in Hw, Hcw.
  destruct (qlink_spec σ q c _ _ Hw Hcw) as (σ' & E & L & W'); [done|done|].
  rewrite Hl in L. by exists σ'.
Qed.

Definition inherited σ c o : Z -> Z := if priority σ o >? priority σ c then <[o := priority σ c]> (priority σ) else priority σ.

Lemma mutex_inherit_prio_eq s m c o :
  m_owner s m = o -> o <> 0 -> rt_smp_current (sched s) = c ->
  mutex_inherit_prio m s = Done tt (s <| sched := (sched s <| priority := inherited (sched s) c o |>) |>).
Proof.
  intros Ho Hn Hc. unfold mutex_inherit_prio, rt_whoami, inherited. step_p. apply nz_true in Hn. rewrite Ho, Hn, Hc. cbn [negb].
  destruct (_ >? _); [reflexivity|]. by destruct s as [? ? ? ? ? ? ? ? ? ? ? ? ? ? ? ? ? ? []].
Qed.

(** The scheduler state in which [c] waits for the mutex, its owner being [o]. *)
Definition lent σ c o : Z -> Z := <[o := Z.min (priority σ o) (priority σ c)]> (priority σ).

Definition waits m c o σ σ' : Prop :=
  exists P N QP QN f, σ' = σ <| state ::= <[c := Z.lor (state σ c) SEMAPHORE]> |> <| rnext := N |> <| rprev := P |>
    <| blocked_on ::= <[c := SemQueue (Sem m)]> |> <| q_prev := QP |> <| q_next := QN |> <| priority := f |> /\
    forall x, f x = lent σ c o x.

Lemma lent_eq σ c o x : inherited σ c o x = lent σ c o x.
Proof.
  unfold inherited, lent. rewrite Z.gtb_ltb. destruct (Z.ltb_spec (priority σ c) (priority σ o)); rewrite !upd_dec; case_decide; subst; try done; lia.
Qed.

Lemma rem_ready_current_eq σ c :
  is_hard σ c <> 0 -> rem_ready_current c σ =
    Done tt (σ <| rnext := unlink_next (rnext σ) (rprev σ) c |> <| rprev := unlink_prev (rnext σ) (rprev σ) c |>).
Proof.
  intros H. apply nz_true in H. unfold rem_ready_current, soft_to_hardrealtime. step_m. rewrite H. cbn [negb]. step_m. apply runlink_eq.
Qed.

(** The first part of the wait. *)
Definition queued m c σ σ' : Prop :=
  exists P N QP QN, σ' = σ <| state ::= <[c := Z.lor (state σ c) SEMAPHORE]> |> <| rnext := N |> <| rprev := P |>
    <| blocked_on ::= <[c := SemQueue (Sem m)]> |> <| q_prev := QP |> <| q_next := QN |>.

Lemma mutex_wait_queues s m c early l1 l2 W :
  let q := SemQueue (Sem m) in
  rt_smp_current (sched s) = c -> ready_list (sched s) (l1 ++ c :: l2) -> is_hard (sched s) c <> 0 ->
  wait_queue (sched s) q W -> fits W -> c ∉ W -> q_task (sched s) (Queue c) = c ->
  exists σ, mutex_wait m c early s = (mutex_inherit_prio m;; schd rt_schedule;; after_wait m c) (s <| sched := σ |>) /\
    queued m c (sched s) σ /\ ready_list σ (l1 ++ l2) /\
    wait_queue σ q (insert_after (fun y => priority (sched s) y <=? priority (sched s) c) c W).
Proof.
  intros q Hc Hr Hh Hw Hf Hcw Htt. set (σ := sched s) in *.
  set (σ1 := σ <| state ::= <[c := Z.lor (state σ c) SEMAPHORE]> |>).
  set (P := unlink_prev (rnext σ) (rprev σ) c). set (N := unlink_next (rnext σ) (rprev σ) c).
  set (σ3 := σ1 <| rnext := N |> <| rprev := P |> <| blocked_on ::= <[c := q]> |>).
  assert (E3 : (if early then schd (wr blocked_on c q);; schd (rem_ready_current c)
                else schd (rem_ready_current c);; schd (wr blocked_on c q)) (s <| sched := σ1 |>) = Done tt (s <| sched := σ3 |>)).
  { destruct early; unfold mbind, M_bind.
    - rewrite (pthr_done _ _ _ (σ1 <| blocked_on ::= <[c := q]> |>)) by reflexivity. cbn [bind_out].
      erewrite pthr_done; [reflexivity|]. rewrite rem_ready_current_eq by exact Hh. reflexivity.
    - erewrite pthr_done; [|apply rem_ready_current_eq; exact Hh]. cbn [bind_out]. erewrite pthr_done; reflexivity. }
  destruct (priority_enqueue_task_spec σ3 m c W) as (σ4 & E4 & (QP & QN & -> & _) & W4); [exact Hw|done|done|done|exact Htt|].
  set (σ4 := σ3 <| q_prev := QP |> <| q_next := QN |>) in *.
  exists σ4. split; [|split; [by exists P, N, QP, QN|split; [exact (ring_unlink _ _ _ _ _ _ Hr)|exact W4]]].
  unfold mutex_wait. unfold mbind at 1 2, M_bind at 1 2, get at 1. cbn [bind_out].
  rewrite (pthr_done _ _ tt σ1) by reflexivity. cbn [bind_out].
  unfold mbind at 1, M_bind at 1. fold q. rewrite E3. cbn [bind_out].
  unfold mbind at 1, M_bind at 1. rewrite (pthr_done _ _ tt σ4) by exact E4. reflexivity.
Qed.

Lemma mutex_wait_eq s m c o early l1 l2 W :
  let q := SemQueue (Sem m) in
  m_owner s m = o -> o <> 0 -> rt_smp_current (sched s) = c ->
  ready_list (sched s) (l1 ++ c :: l2) -> is_hard (sched s) c <> 0 ->
  wait_queue (sched s) q W -> fits W -> c ∉ W -> q_task (sched s) (Queue c) = c ->
  exists σ, mutex_wait m c early s = (schd rt_schedule;; after_wait m c) (s <| sched := σ |>) /\
    waits m c o (sched s) σ /\ ready_list σ (l1 ++ l2) /\
    wait_queue σ q (insert_after (fun y => priority (sched s) y <=? priority (sched s) c) c W).
Proof.
  intros q Ho Hn Hc Hr Hh Hw Hf Hcw Htt.
  destruct (mutex_wait_queues s m c early l1 l2 W) as (σ4 & E & (P & N & QP & QN & F) & R & W'); [done..|].
  set (σ := sched s) in *.
  exists (σ4 <| priority := inherited σ4 c o |>). split; [|split; [|split; [exact R|exact W']]].
  - rewrite E. unfold mbind at 1, M_bind at 1. rewrite (mutex_inherit_prio_eq _ m c o); [|exact Ho|exact Hn|rewrite F; exact Hc]. reflexivity.
  - exists P, N, QP, QN, (inherited σ4 c o). split; [rewrite F at 1; reflexivity|]. intros x. rewrite lent_eq, F. reflexivity.
Qed.
End Wait.

Section Waiters.
Implicit Types (s : PTHR) (σ : RTAI) (m c o t : Z) (l W : list Z) (q : qptr).

Lemma after_wait_taken s m c :
  blocked_on (sched s) c = QNull -> sem_magic (sched s) (Sem m) = RT_SEM_MAGIC ->
  after_wait m c s = mutex_take m c 0 s.
Proof. intros Hb Hm. unfold after_wait. step_p. by rewrite Hb, Hm. Qed.

Lemma after_wait_fails s m c :
  blocked_on (sched s) c <> QNull \/ sem_magic (sched s) (Sem m) <> RT_SEM_MAGIC -> after_wait m c s = Done EINVAL s.
Proof.
  intros H. unfold after_wait. step_p. destruct H as [H|H]; [by rewrite bool_decide_QNull|].
  by rewrite (proj2 (Z.eqb_neq _ _) H), orb_true_r.
Qed.

(** What becomes of the task that [wake_first] wakes. *)
Definition wakes_first t σ σ' : Prop :=
  exists QP QN P N, σ' = σ <| blocked_on ::= <[t := QNull]> |> <| state ::= <[t := READY]> |>
    <| q_next := QN |> <| q_prev := QP |> <| rprev := P |> <| rnext := N |>.

(** A task that [wake_first] can put in the ready list [l]. *)
Record sleeper σ t l : Prop := {
  sl_state : clr (state σ t) (Z.lor SEMAPHORE DELAYED) = READY;
  sl_hard : is_hard σ t <> 0;
  sl_prio : priority σ t < RT_LINUX_PRIORITY;
  sl_out : t ∉ rt_linux_task :: l
}.

Lemma wake_first_eq σ q t W l resched :
  wait_queue σ q (t :: W) -> sleeper σ t l -> ready_list σ l -> fits l -> priority σ rt_linux_task = RT_LINUX_PRIORITY ->
  exists σ', wake_first q resched σ = (when resched rt_schedule) σ' /\ wakes_first t σ σ' /\
    wait_queue σ' q W /\ ready_list σ' (insert_ready (priority σ) (priority σ t) t l).
Proof.
  intros [Hq Ht] [Hs Hh Hp Ho] Hr Hf Hl.
  assert (E : q_task σ (q_next σ q) = t) by (rewrite (ring_next _ _ _ _ Hq); apply Ht; list_in).
  unfold wake_first. step_m. rewrite E, Hs.
  set (σ1 := σ <| blocked_on ::= <[t := QNull]> |> <| state ::= <[t := READY]> |>).
  destruct (qunlink_spec σ1 q t [] W) as (σ2 & E2 & (QP & QN & -> & _) & W2); [by split|].
  rewrite E2. cbn [bind_out app] in *. rewrite rem_timed_task_not_delayed by (state_simpl; unfold σ1; state_simpl; by rewrite upd_eq).
  cbn [bind_out]. change (state (σ1 <| q_prev := QP |> <| q_next := QN |>) t) with ((<[t := READY]> (state σ)) t). rewrite upd_eq.
  change (READY =? READY) with true. cbn match.
  destruct (enq_ready_task_spec (σ1 <| q_prev := QP |> <| q_next := QN |>) t l) as (σ3 & E3 & (P & N & ->) & R3); [exact Hr|done..|].
  rewrite E3. cbn [bind_out]. eexists. split; [reflexivity|]. split; [exists QP, QN, P, N; reflexivity|]. split; [exact W2|exact R3].
Qed.

Lemma has_waiter_true σ q t W : wait_queue σ q (t :: W) -> q <> QNull -> t <> 0 -> has_waiter σ q = true.
Proof.
  intros Hw Hq Ht. destruct (wait_queue_links _ _ _ Hw Hq) as [H1 H2].
  assert (E : q_task σ (q_next σ q) = t).
  { destruct Hw as [Hr Hqt]. rewrite (ring_next _ _ _ _ Hr). apply Hqt. list_in. }
  unfold has_waiter. by rewrite E, !bool_decide_QNull, (proj2 (nz_true _) Ht) by done.
Qed.

(** An unlock wakes the first who waits. *)
Lemma mutex_release_wakes s m a t W l :
  let q := SemQueue (Sem m) in
  let σ := sched s <| priority ::= <[a := base_priority (sched s) a]> |> in
  wait_queue σ q (t :: W) -> t <> 0 -> sleeper σ t l -> ready_list σ l -> fits l -> priority σ rt_linux_task = RT_LINUX_PRIORITY ->
  exists σ', mutex_release m a s = schd rt_schedule (s <| sched := σ' |>) /\ wakes_first t σ σ' /\
    wait_queue σ' q W /\ ready_list σ' (insert_ready (priority σ) (priority σ t) t l).
Proof.
  intros q σ Hw Ht Hsl Hr Hf Hl. destruct (wake_first_eq σ q t W l true Hw Hsl Hr Hf Hl) as (σ' & E & F & W' & R').
  exists σ'. split; [|by split]. unfold mutex_release. unfold mbind, M_bind, get. cbn [bind_out].
  rewrite (pthr_done _ _ tt σ) by reflexivity. cbn [bind_out]. change (sched (s <| sched := σ |>)) with σ. fold q.
  rewrite (has_waiter_true _ _ _ _ Hw) by done. cbn match.
  change (schd (wake_first q true) (s <| sched := σ |>) = schd rt_schedule (s <| sched := σ |> <| sched := σ' |>)).
  apply pthr_after. exact E.
Qed.

(** All that wait are woken one by one. *)
Definition woken_list (prio : Z -> Z) (l W : list Z) : list Z := foldl (fun l t => insert_ready prio (prio t) t l) l W.

Lemma woken_list_cons prio l t W : woken_list prio l (t :: W) = woken_list prio (insert_ready prio (prio t) t l) W.
Proof. done. Qed.

Lemma wake_all_eq σ q W l fuel :
  wait_queue σ q W -> q_task σ q = 0 -> q <> QNull -> (length W <= fuel)%nat -> (length l + length W < LIST_FUEL)%nat ->
  (forall t, t ∈ W -> t <> 0 /\ sleeper σ t l) -> ready_list σ l -> priority σ rt_linux_task = RT_LINUX_PRIORITY ->
  exists σ', wake_all fuel q σ = Done tt σ' /\ wait_queue σ' q [] /\ ready_list σ' (woken_list (priority σ) l W) /\
    (forall t, t ∈ W -> state σ' t = READY /\ blocked_on σ' t = QNull) /\
    (forall t, t ∉ W -> state σ' t = state σ t /\ blocked_on σ' t = blocked_on σ t) /\ rt_smp_current σ' = rt_smp_current σ.
Proof.
  revert σ l fuel. induction W as [|t W IH]; intros σ l fuel Hw Hq0 Hqn Hn Hf Hsl Hr Hl.
  - exists σ. assert (E : q_task σ (q_next σ q) = 0) by (destruct Hw as [Hring _]; by rewrite (ring_next _ _ _ _ Hring)).
    split; [destruct fuel; simpl; step_m; by rewrite E|]. split; [exact Hw|]. split; [exact Hr|].
    split; [intros t Ht; by apply elem_of_nil in Ht|]. by split.
  - destruct (Hsl t) as [Ht0 Hst]; [list_in|]. destruct fuel as [|fuel]; [simpl in Hn; lia|].
    assert (E : q_task σ (q_next σ q) = t).
    { destruct Hw as [Hring Hqt]. rewrite (ring_next _ _ _ _ Hring). apply Hqt. list_in. }
    assert (HtW : t ∉ W) by (destruct (wait_queue_middle σ q t [] W Hw) as [H _]; exact H).
    destruct (wake_first_eq σ q t W l false Hw Hst Hr) as (σ1 & E1 & (QP & QN & P & N & F) & W1 & R1); [unfold fits; simpl in *; lia|done|].
    assert (Ep : priority σ1 = priority σ) by (rewrite F; reflexivity).
    destruct (IH σ1 (insert_ready (priority σ) (priority σ t) t l) fuel) as (σ2 & E2 & W2 & R2 & H2 & H3 & C2).
    + exact W1.
    + rewrite F. exact Hq0.
    + done.
    + simpl in Hn. lia.
    + rewrite insert_ready_perm. simpl in *. lia.
    + intros x Hx. destruct (Hsl x) as [Hx0 [S1 S2 S3 S4]]; [list_in|]. split; [done|].
      assert (Hxt : x <> t) by congruence. split.
      * rewrite F. state_simpl. by rewrite upd_ne by done.
      * rewrite F. exact S2.
      * by rewrite Ep.
      * rewrite not_elem_of_cons, insert_ready_perm, not_elem_of_cons. rewrite not_elem_of_cons in S4. tauto.
    + exact R1.
    + by rewrite Ep.
    + exists σ2. split.
      { cbn [wake_all]. unfold mbind, M_bind, get. cbn [bind_out]. rewrite E, (proj2 (nz_true _) Ht0). cbn [negb]. rewrite E1. exact E2. }
      rewrite woken_list_cons. rewrite Ep in R2. split; [exact W2|]. split; [exact R2|]. split; [|split].
      * intros x Hx. destruct (decide (x = t)) as [->|Hne]; [|apply H2; list_in].
        destruct (H3 t HtW) as [-> ->]. rewrite F. state_simpl. by rewrite !upd_eq.
      * intros x Hx. rewrite not_elem_of_cons in Hx. destruct Hx as [Hx Hx']. destruct (H3 x Hx') as [-> ->]. rewrite F. state_simpl. by rewrite !upd_ne by done.
      * rewrite C2, F. reflexivity.
Qed.
End Waiters.

(** * Descriptors *)

Section Descriptors.
Implicit Types (s : PTHR).

(** The first [n] descriptors are taken, without a task in any. *)
Record descriptors s (n : Z) : Prop := {
  ds_taken : forall j, 0 <= j < n -> p_tid s j <> 0;
  ds_free : forall j, n <= j < POSIX_THREADS_MAX -> p_tid s j = 0;
  ds_magic : forall j, 0 <= j < POSIX_THREADS_MAX -> magic (sched s) (rtask j) <> RT_TASK_MAGIC;
  ds_num : num_pthreads s < POSIX_THREADS_MAX
}.

Lemma free_descr_spec s n k fuel :
  (forall j, k <= j < n -> p_tid s j <> 0) -> k <= n ->
  (n < k + Z.of_nat fuel -> p_tid s n = 0) ->
  free_descr fuel s k = if n <? k + Z.of_nat fuel then Some n else None.
Proof.
  revert k. induction fuel as [|fuel IH]; intros k Ht Hk Hn; cbn [free_descr].
  - rewrite (proj2 (Z.ltb_ge _ _)) by lia. done.
  - destruct (decide (k = n)) as [->|Hne].
    + rewrite Hn by lia. rewrite (proj2 (Z.ltb_lt _ _)) by lia. done.
    + rewrite (proj2 (Z.eqb_neq _ _)) by (apply Ht; lia). rewrite IH; [|intros j Hj; apply Ht; lia|lia|intros; apply Hn; lia].
      replace (k + 1 + Z.of_nat fuel) with (k + Z.of_nat (S fuel)) by lia. done.
Qed.

Lemma rt_task_init_no_memory (σ : RTAI) task p fpu sig :
  magic σ task <> RT_TASK_MAGIC -> 0 <= p -> rt_task_init 0 task p fpu sig σ = Done (- ENOMEM) σ.
Proof.
  intros Hm Hp. unfold rt_task_init, rt_task_init_cpuid. step_m.
  rewrite (proj2 (Z.eqb_neq _ _) Hm), (proj2 (Z.ltb_ge _ _) Hp). done.
Qed.

Lemma init_descr_frame s j :
  exists s1, init_descr 0 j s = Done tt s1 /\ p_tid s1 = <[j := j + 1]> (p_tid s) /\ magic (sched s1) = magic (sched s) /\
    num_pthreads s1 = num_pthreads s /\ priority (sched s1) (rtask j) = PTHREAD_PRIORITY_FACTOR.
Proof.
  unfold init_descr. step_p. change (nz 0) with false. cbn [andb bind_out]. state_simpl. rewrite upd_eq. cbn [Z.gtb Z.compare PTHREAD_PRIORITY_FACTOR bind_out]. eexists. split; [reflexivity|]. repeat (split; [reflexivity|]).
  state_simpl. by rewrite !upd_eq.
Qed.

Lemma attach_descr_frame s za task j :
  za <> 0 -> exists s1, attach_descr za task j s = Done tt s1 /\ p_tid s1 = p_tid s /\ sched s1 = sched s /\
    num_pthreads s1 = num_pthreads s.
Proof.
  intros Hz. apply nz_true in Hz. unfold attach_descr. step_p. rewrite Hz.
  destruct (nz (system_data_ptr s task)); eexists; (split; [reflexivity|by repeat split]).
Qed.

(** Without memory for a stack, a call keeps the descriptor. *)
Lemma pthread_create_no_memory s n za1 za2 fpu :
  descriptors s n -> 0 <= n < POSIX_THREADS_MAX -> za1 <> 0 ->
  exists s', pthread_create 0 za1 za2 fpu 0 s = Done (EAGAIN, None) s' /\ descriptors s' (n + 1).
Proof.
  intros [H1 H2 H3 H4] Hn Hz. unfold pthread_create. unfold mbind at 1, M_bind at 1, get at 1. cbn [bind_out].
  rewrite Z.geb_leb, (proj2 (Z.leb_gt _ _) H4).
  rewrite (free_descr_spec s n 0) by (try intros; try apply H1; try apply H2; unfold POSIX_THREADS_MAX in *; lia).
  change (Z.of_nat (Z.to_nat POSIX_THREADS_MAX)) with POSIX_THREADS_MAX. rewrite (proj2 (Z.ltb_lt _ _)) by lia.
  destruct (init_descr_frame s n) as (s1 & E1 & T1 & M1 & N1 & P1).
  destruct (attach_descr_frame s1 za1 (rtask n) n Hz) as (s2 & E2 & T2 & S2 & N2).
  unfold mbind, M_bind, get. cbn [bind_out]. rewrite E1. cbn [bind_out]. rewrite E2. cbn [bind_out].
  rewrite (pthr_done _ _ (- ENOMEM) (sched s2)).
  2:{ rewrite S2. apply rt_task_init_no_memory; [rewrite M1; by apply H3|rewrite P1; done]. }
  cbn [bind_out]. eexists. split; [reflexivity|].
  split; state_simpl.
  - intros j Hj. rewrite T2, T1, upd_dec. case_decide; [lia|]. apply H1. lia.
  - intros j Hj. rewrite T2, T1, upd_ne by lia. apply H2. lia.
  - intros j. rewrite S2, M1. apply H3.
  - by rewrite N2, N1.
Qed.

(** [n] calls without memory for a stack. *)
Fixpoint failed_creates (n : nat) (za1 za2 fpu : Z) : P unit :=
  match n with
  | O => mret tt
  | S n' => r ← pthread_create 0 za1 za2 fpu 0; if r.1 =? EAGAIN then failed_creates n' za1 za2 fpu else stuck
  end.

Lemma failed_creates_take s k n za1 za2 fpu :
  descriptors s k -> 0 <= k -> k + Z.of_nat n <= POSIX_THREADS_MAX -> za1 <> 0 ->
  exists s', failed_creates n za1 za2 fpu s = Done tt s' /\ descriptors s' (k + Z.of_nat n).
Proof.
  revert s k. induction n as [|n IH]; intros s k Hd Hk Hn Hz.
  - exists s. split; [done|]. by rewrite Z.add_0_r.
  - destruct (pthread_create_no_memory s k za1 za2 fpu) as (s1 & E1 & D1); [done|lia|done|].
    destruct (IH s1 (k + 1)) as (s2 & E2 & D2); [done|lia|lia|done|].
    exists s2. split; [|by replace (k + Z.of_nat (S n)) with (k + 1 + Z.of_nat n) by lia].
    cbn [failed_creates]. unfold mbind, M_bind. rewrite E1. exact E2.
Qed.
End Descriptors.

(** * Properties *)

Section Properties.
Implicit Types (s : PTHR) (σ : RTAI) (m c o t : Z) (l W : list Z) (q : qptr).

(** C11: Who locks a mutex that is held leaves the processor and waits in the queue
    by its priority, and the owner gets that priority if it is higher than its
    own.  When the task runs again it has the mutex, whoever holds it, unless it was
    not woken by an unlock or the mutex was destroyed. *)
Theorem mutex_lock_waits s m c o l1 l2 W :
  let q := SemQueue (Sem m) in
  sem_magic (sched s) (Sem m) = RT_SEM_MAGIC ->
  m_kind s m = PTHREAD_MUTEX_FAST_NP \/ m_kind s m = PTHREAD_MUTEX_ERRORCHECK_NP -> sem_count (sched s) (Sem m) <= 0 ->
  m_owner s m = o -> o <> 0 -> rt_smp_current (sched s) = c ->
  ready_list (sched s) (l1 ++ c :: l2) -> is_hard (sched s) c <> 0 ->
  wait_queue (sched s) q W -> fits W -> c ∉ W -> q_task (sched s) (Queue c) = c ->
  exists σ, pthread_mutex_lock m s = (schd rt_schedule;; after_wait m c) (s <| sched := σ |>) /\
    ready_list σ (l1 ++ l2) /\
    wait_queue σ q (insert_after (fun y => priority (sched s) y <=? priority (sched s) c) c W) /\
    state σ c = Z.lor (state (sched s) c) SEMAPHORE /\ blocked_on σ c = q /\
    (forall x, priority σ x = lent (sched s) c o x) /\
    (forall s2, blocked_on (sched s2) c = QNull -> sem_magic (sched s2) (Sem m) = RT_SEM_MAGIC ->
       exists s3, after_wait m c s2 = Done 0 s3 /\ m_owner s3 m = c) /\
    (forall s2, blocked_on (sched s2) c <> QNull \/ sem_magic (sched s2) (Sem m) <> RT_SEM_MAGIC ->
       after_wait m c s2 = Done EINVAL s2).
Proof.
  intros q Hm Hk Hn Ho Ho0 Hc Hr Hh Hw Hf Hcw Htt.
  assert (E : exists early, pthread_mutex_lock m s = mutex_wait m c early s).
  { unfold pthread_mutex_lock, rt_whoami. unfold mbind at 1, M_bind at 1, get at 1. cbn [bind_out].
    rewrite Hm, Hc, Z.gtb_ltb, (proj2 (Z.ltb_ge _ _) Hn). destruct Hk as [Hk|Hk]; rewrite Hk; [by exists false|by exists true]. }
  destruct E as (early & ->).
  destruct (mutex_wait_eq s m c o early l1 l2 W) as (σ & E & (P & N & QP & QN & f & F & Hp) & R & W'); [done..|].
  exists σ. split; [exact E|]. split; [exact R|]. split; [exact W'|].
  split; [rewrite F; state_simpl; apply upd_eq|]. split; [rewrite F; state_simpl; apply upd_eq|].
  split; [intros x; rewrite F; state_simpl; apply Hp|]. split.
  - intros s2 Hb Hm2. rewrite after_wait_taken, mutex_take_eq by done. eexists. split; [reflexivity|]. apply upd_eq.
  - intros s2. apply after_wait_fails.
Qed.

(** A signal wakes the task that waits longest: it leaves the queue and is in
    the ready list at its place when the scheduler is called.  If it waited with
    a timeout it stays in the timed list too. *)
Theorem cond_signal_wakes s cond t W l :
  let q := SemQueue (Sem cond) in let σ := sched s in
  wait_queue σ q (t :: W) -> t <> 0 -> sleeper σ t l -> ready_list σ l -> fits l ->
  priority σ rt_linux_task = RT_LINUX_PRIORITY ->
  exists σ', pthread_cond_signal cond s = (schd rt_schedule;; mret 0) (s <| sched := σ' |>) /\
    wait_queue σ' q W /\ ready_list σ' (insert_ready (priority σ) (priority σ t) t l) /\
    state σ' t = READY /\ blocked_on σ' t = QNull /\ rt_smp_current σ' = rt_smp_current σ /\
    (forall tl, timed_list σ tl -> timed_list σ' tl).
Proof.
  intros q σ Hw Ht Hsl Hr Hf Hl.
  destruct (wait_queue_links _ _ _ Hw) as [H1 H2]; [done|].
  assert (E : q_task σ (q_next σ q) = t).
  { destruct Hw as [Hq Hqt]. rewrite (ring_next _ _ _ _ Hq). apply Hqt. list_in. }
  destruct (wake_first_eq σ q t W l true Hw Hsl Hr Hf Hl) as (σ' & E' & (QP & QN & P & N & F) & W' & R').
  exists σ'. split.
  { unfold pthread_cond_signal. unfold mbind at 1, M_bind at 1, get at 1. cbn [bind_out]. fold q σ.
    rewrite bool_decide_QNull by done. unfold has_waiter. rewrite E, !bool_decide_QNull, (proj2 (nz_true _) Ht) by done. cbn [negb andb].
    unfold when. unfold mbind, M_bind. by rewrite (pthr_after _ _ s σ' E'). }
  split; [exact W'|]. split; [exact R'|]. rewrite F. unfold timed_list. state_simpl. rewrite !upd_eq. repeat (split; [reflexivity|]). intros tl H. exact H.
Qed.

(** C33: A broadcast wakes every task that waits on the condition variable: all
    are ready, in the ready list by their priorities, and the queue is empty,
    when the scheduler is called. *)
Theorem cond_broadcast_wakes_all s cond W l :
  let q := SemQueue (Sem cond) in let σ := sched s in
  wait_queue σ q W -> q_task σ q = 0 -> (forall t, t ∈ W -> t <> 0 /\ sleeper σ t l) ->
  ready_list σ l -> (length l + length W < LIST_FUEL)%nat -> priority σ rt_linux_task = RT_LINUX_PRIORITY ->
  exists σ', pthread_cond_broadcast cond s = (schd rt_schedule;; mret 0) (s <| sched := σ' |>) /\
    wait_queue σ' q [] /\ ready_list σ' (woken_list (priority σ) l W) /\
    (forall t, t ∈ W -> state σ' t = READY /\ blocked_on σ' t = QNull) /\
    (forall t, t ∉ W -> state σ' t = state σ t /\ blocked_on σ' t = blocked_on σ t) /\
    rt_smp_current σ' = rt_smp_current σ.
Proof.
  intros q σ Hw Hq0 Hsl Hr Hf Hl.
  destruct (wake_all_eq σ q W l LIST_FUEL Hw Hq0) as (σ' & E & R); [done|lia|done..|].
  exists σ'. split; [|exact R].
  destruct (wait_queue_links _ _ _ Hw) as [H1 H2]; [done|].
  unfold pthread_cond_broadcast. unfold mbind at 1, M_bind at 1, get at 1. cbn [bind_out]. fold q σ.
  rewrite !bool_decide_QNull by done. cbn [negb andb]. unfold when. unfold mbind at 1, M_bind at 1.
  by rewrite (pthr_done _ _ tt σ' E).
Qed.

(** C39: A task that unlocks a mutex and locks it again before the task that it woke
    runs holds it together with that task: the woken task takes it without a look at
    its owner, who can no longer unlock it. *)
Theorem mutex_two_owners s m a b l W :
  let q := SemQueue (Sem m) in let σ := sched s in
  sem_magic σ (Sem m) = RT_SEM_MAGIC -> m_kind s m = PTHREAD_MUTEX_FAST_NP -> m_owner s m = a ->
  rt_smp_current σ = a -> ready_list σ (a :: l) -> fits (a :: l) -> priority σ rt_linux_task = RT_LINUX_PRIORITY ->
  a <> rt_linux_task -> wait_queue σ q (b :: W) -> b <> 0 -> sleeper σ b (a :: l) ->
  base_priority σ a <= priority σ b -> policy σ a <= 0 -> oneshot_running σ = 0 ->
  exists s1 s2 s3, pthread_mutex_unlock m s = Done 0 s1 /\ rt_smp_current (sched s1) = a /\ state (sched s1) b = READY /\
    pthread_mutex_lock m s1 = Done 0 s2 /\ m_owner s2 m = a /\
    after_wait m b (s2 <| sched := (sched s2 <| rt_smp_current := b |>) |>) = Done 0 s3 /\ m_owner s3 m = b /\
    pthread_mutex_unlock m (s3 <| sched := (sched s3 <| rt_smp_current := a |>) |>) =
      Done EINVAL (s3 <| sched := (sched s3 <| rt_smp_current := a |>) |>).
Proof.
  intros q σ Hm Hk Ho Hc Hr Hf Hl Ha Hw Hb Hsl Hp Hpol Hone.
  destruct (pthread_mutex_unlock_eq s m a) as (w & E1); [done..|by left|].
  set (u := unlocked s m w) in *. set (σ1 := sched u <| priority ::= <[a := base_priority (sched u) a]> |>).
  assert (Hba : b <> a) by (destruct Hsl as [_ _ _ Hn]; rewrite !not_elem_of_cons in Hn; tauto).
  assert (Hs1 : sleeper σ1 b (a :: l)).
  { destruct Hsl as [S1 S2 S3 S4]. split; [exact S1|exact S2| |exact S4]. unfold σ1. state_simpl. rewrite upd_ne by done. exact S3. }
  assert (Hl1 : priority σ1 rt_linux_task = RT_LINUX_PRIORITY) by (unfold σ1; state_simpl; by rewrite upd_ne by congruence).
  destruct (mutex_release_wakes u m a b W (a :: l) Hw Hb Hs1 Hr Hf Hl1) as (σ2 & E2 & (QP & QN & P & N & F) & W2 & R2).
  destruct (insert_ready_head (priority σ1) (priority σ1 b) b a l) as (l' & El).
  { unfold σ1. state_simpl. rewrite upd_eq, upd_ne by done. exact Hp. }
  fold σ1 in R2. rewrite El in R2.
  assert (Hc2 : rt_smp_current σ2 = a) by (rewrite F; exact Hc).
  destruct (rt_schedule_stays σ2 (a :: l') R2) as (y & E3); [by rewrite Hc2|rewrite Hc2, F; exact Hpol|rewrite F; exact Hone|].
  set (σ3 := σ2 <| sched_rqsted := 1 |> <| yield_time := y |>) in *.
  set (s1 := u <| sched := σ3 |>).
  assert (Hst : state σ3 b = READY) by (unfold σ3; rewrite F; state_simpl; apply upd_eq).
  assert (Hbl : blocked_on σ3 b = QNull) by (unfold σ3; rewrite F; state_simpl; apply upd_eq).
  assert (Hm3 : sem_magic σ3 (Sem m) = RT_SEM_MAGIC) by (unfold σ3; rewrite F; exact Hm).
  assert (Hn3 : sem_count σ3 (Sem m) = 1) by (unfold σ3; rewrite F; state_simpl; apply upd_eq).
  set (σ4 := σ3 <| sem_count ::= <[Sem m := 0]> |> <| sem_owndby ::= <[Sem m := a]> |>).
  set (s2 := s1 <| sched := σ4 |> <| m_owner ::= <[m := a]> |>).
  assert (E4 : pthread_mutex_lock m s1 = Done 0 s2).
  { unfold pthread_mutex_lock, rt_whoami. unfold mbind at 1, M_bind at 1, get at 1. cbn [bind_out].
    change (sched s1) with σ3. change (m_kind s1 m) with (m_kind s m). change (rt_smp_current σ3) with (rt_smp_current σ2).
    rewrite Hm3, Hk, Hn3, Hc2. exact (mutex_take_eq s1 m a 0). }
  set (s2' := s2 <| sched := σ4 <| rt_smp_current := b |> |>).
  eexists s1, s2, _. split; [|split; [exact Hc2|split; [exact Hst|split; [exact E4|split; [apply upd_eq|]]]]].
  { rewrite E1. unfold mbind at 1, M_bind at 1. rewrite E2. rewrite (pthr_done rt_schedule (u <| sched := σ2 |>) tt σ3); [reflexivity|]. state_simpl. exact E3. }
  split; [exact (eq_trans (after_wait_taken s2' m b Hbl Hm3) (mutex_take_eq s2' m b 0))|].
  split; [apply upd_eq|]. apply pthread_mutex_unlock_other. state_simpl. by rewrite upd_eq.
Qed.

(** A mutex of the recursive kind cannot be locked: [pthread_mutex_trylock] finds
    it busy, and [pthread_mutex_lock] reads the priority of an owner that is not there. *)
Theorem recursive_mutex_unusable s m attr c l1 l2 :
  attr <> 0 -> mutexkind s attr = PTHREAD_MUTEX_RECURSIVE_NP -> rt_smp_current (sched s) = c -> c <> 0 ->
  ready_list (sched s) (l1 ++ c :: l2) -> is_hard (sched s) c <> 0 -> q_task (sched s) (Queue c) = c ->
  exists s1, pthread_mutex_init m attr s = Done 0 s1 /\ pthread_mutex_trylock m s1 = Done EBUSY s1 /\
    pthread_mutex_lock m s1 = Stuck.
Proof.
  intros Ha Hk Hc Hc0 Hr Hh Htt. unfold pthread_mutex_init, sem_setup, queue_init. step_p. rewrite (proj2 (nz_true _) Ha), Hk.
  eexists. split; [reflexivity|]. set (s1 := s <| m_owner ::= _ |> <| m_kind ::= _ |> <| sched := _ |>).
  assert (H0 : m_owner s1 m = 0) by apply upd_eq. assert (H1 : m_kind s1 m = PTHREAD_MUTEX_RECURSIVE_NP) by apply upd_eq.
  assert (H2 : sem_magic (sched s1) (Sem m) = RT_SEM_MAGIC) by apply upd_eq.
  assert (H3 : sem_count (sched s1) (Sem m) = 1) by apply upd_eq.
  assert (H4 : rt_smp_current (sched s1) = c) by exact Hc.
  assert (Hw : wait_queue (sched s1) (SemQueue (Sem m)) []).
  { split; [apply ring_nil; apply upd_eq|]. intros t Ht. by apply elem_of_nil in Ht. }
  assert (Ht1 : q_task (sched s1) (Queue c) = c) by (unfold s1; state_simpl; by rewrite upd_ne).
  assert (Hn : 0 =? c = false) by (by apply Z.eqb_neq).
  split.
  - unfold pthread_mutex_trylock, rt_whoami. unfold mbind, M_bind, get. cbn [bind_out]. by rewrite H2, H1, H3, H0, H4, Hn.
  - destruct (mutex_wait_queues s1 m c false l1 l2 [] H4 Hr Hh Hw) as (σ & E & (P & N & QP & QN & F) & _);
      [unfold fits; cbn; unfold LIST_FUEL; lia|by apply not_elem_of_nil|exact Ht1|].
    unfold pthread_mutex_lock, rt_whoami. unfold mbind at 1, M_bind at 1, get at 1. cbn [bind_out]. rewrite H2, H1, H3, H0, H4, Hn.
    change (mutex_wait m c false s1 = Stuck). rewrite E. unfold mutex_inherit_prio, mbind, M_bind, get. cbn [bind_out].
    change (m_owner (s1 <| sched := σ |>) m) with (m_owner s1 m). by rewrite H0.
Qed.

(** C40: [pthread_create] keeps the descriptor when the task cannot be made: after
    64 calls that failed for want of memory no thread can be created any more,
    although none exists. *)
Theorem pthread_descriptors_leak s za1 za2 fpu :
  descriptors s 0 -> za1 <> 0 ->
  exists s', failed_creates 64 za1 za2 fpu s = Done tt s' /\
    (forall j, 0 <= j < POSIX_THREADS_MAX -> magic (sched s') (rtask j) <> RT_TASK_MAGIC) /\
    forall st z1 z2 fpu' attr, pthread_create st z1 z2 fpu' attr s' = Done (EAGAIN, None) s'.
Proof.
  intros Hd Hz. destruct (failed_creates_take s 0 64 za1 za2 fpu Hd) as (s' & E & [H1 H2 H3 H4]); [done..|].
  exists s'. split; [exact E|]. split; [exact H3|]. intros st z1 z2 fpu' attr.
  unfold pthread_create. unfold mbind at 1, M_bind at 1, get at 1. cbn [bind_out].
  rewrite Z.geb_leb, (proj2 (Z.leb_gt _ _) H4).
  rewrite (free_descr_spec s' 64 0); [done|intros j Hj; apply H1; cbn; lia|done|intros H; by vm_compute in H].
Qed.
End Properties.

(** * Witnesses *)

(** The task of priority 1 runs, and a mutex is free. *)
Definition demo_mutex : PTHR := run (pthread_mutex_init 7 0) (pthr_zero (demo <| rt_smp_current := 32 |>)).

(** It has locked the mutex, for which the task of priority 2 waits. *)
Definition demo_held : PTHR :=
  run (pthread_mutex_lock 7;; schd (enqueue_blocked 64 (SemQueue (Sem 7)) 0;; wr state 64 (Z.lor READY SEMAPHORE))) demo_mutex.

(** Two tasks wait on a condition variable, one with a timeout. *)
Definition demo_cond : PTHR :=
  run (pthread_cond_init 9 0;;
       schd (wr state 64 (Z.lor READY (Z.lor SEMAPHORE DELAYED));; enqueue_blocked 64 (SemQueue (Sem 9)) 1;;
             wr resume_time 64 1000;; enq_timed_task 64;;
             wr state 80 (Z.lor READY SEMAPHORE);; enqueue_blocked 80 (SemQueue (Sem 9)) 1))
    (pthr_zero (new_task 80 3 demo <| rt_smp_current := 32 |>)).

(** The task of priority 3 tries to lock it. *)
Definition demo_contended : PTHR := demo_held <| sched := sched demo_held <| rt_smp_current := 48 |> |>.

(** A queue of at most two tasks, by evaluation. *)
Ltac solve_queue :=
  let t := fresh in let Ht := fresh in
  split; [solve_ring|]; intros t Ht; rewrite ?elem_of_cons, ?elem_of_nil in Ht;
  repeat destruct Ht as [->|Ht]; try destruct Ht; by_eval.

Lemma held_queue : wait_queue (sched demo_held) (SemQueue (Sem 7)) [64].
Proof. solve_queue. Qed.

Lemma contended_queue : wait_queue (sched demo_contended) (SemQueue (Sem 7)) [64].
Proof. solve_queue. Qed.

Lemma cond_queue : wait_queue (sched demo_cond) (SemQueue (Sem 9)) [64; 80].
Proof. solve_queue. Qed.

Lemma mutex_lock_unlock_witness :
  exists s1 s2, pthread_mutex_lock 7 demo_mutex = Done 0 s1 /\ m_owner s1 7 = 32 /\
    (forall b, pthread_mutex_trylock 7 (s1 <| sched := (sched s1 <| rt_smp_current := b |>) |>) =
                 Done EBUSY (s1 <| sched := (sched s1 <| rt_smp_current := b |>) |>)) /\
    (forall b, b <> 32 -> pthread_mutex_unlock 7 (s1 <| sched := (sched s1 <| rt_smp_current := b |>) |>) =
                 Done EINVAL (s1 <| sched := (sched s1 <| rt_smp_current := b |>) |>)) /\
    pthread_mutex_unlock 7 s1 = Done 0 s2 /\ free_mutex s2 7 /\ m_owner s2 7 = 0 /\
    rnext (sched s2) = rnext (sched demo_mutex) /\ rt_smp_current (sched s2) = 32 /\
    priority (sched s2) 32 = priority (sched demo_mutex) 32.
Proof. apply mutex_lock_unlock; [split; [by_eval|left; by_eval|by_eval|by_eval|by_eval]|by_eval|by_eval|by_eval]. Defined.

Lemma mutex_lock_waits_witness :
  exists σ, pthread_mutex_lock 7 demo_contended = (schd rt_schedule;; after_wait 7 48) (demo_contended <| sched := σ |>) /\
    ready_list σ ([32] ++ []) /\
    wait_queue σ (SemQueue (Sem 7))
      (insert_after (fun y => priority (sched demo_contended) y <=? priority (sched demo_contended) 48) 48 [64]) /\
    state σ 48 = Z.lor (state (sched demo_contended) 48) SEMAPHORE /\ blocked_on σ 48 = SemQueue (Sem 7) /\
    (forall x, priority σ x = lent (sched demo_contended) 48 32 x) /\
    (forall s2, blocked_on (sched s2) 48 = QNull -> sem_magic (sched s2) (Sem 7) = RT_SEM_MAGIC ->
       exists s3, after_wait 7 48 s2 = Done 0 s3 /\ m_owner s3 7 = 48) /\
    (forall s2, blocked_on (sched s2) 48 <> QNull \/ sem_magic (sched s2) (Sem 7) <> RT_SEM_MAGIC ->
       after_wait 7 48 s2 = Done EINVAL s2).
Proof.
  apply (mutex_lock_waits demo_contended 7 48 32 [32] [] [64]);
    [by_eval|left; by_eval|by_eval|by_eval|by_eval|by_eval|solve_ring|by_eval|exact contended_queue|fits_eval|not_in|by_eval].
Defined.

Lemma mutex_two_owners_witness :
  exists s1 s2 s3, pthread_mutex_unlock 7 demo_held = Done 0 s1 /\ rt_smp_current (sched s1) = 32 /\
    state (sched s1) 64 = READY /\ pthread_mutex_lock 7 s1 = Done 0 s2 /\ m_owner s2 7 = 32 /\
    after_wait 7 64 (s2 <| sched := (sched s2 <| rt_smp_current := 64 |>) |>) = Done 0 s3 /\ m_owner s3 7 = 64 /\
    pthread_mutex_unlock 7 (s3 <| sched := (sched s3 <| rt_smp_current := 32 |>) |>) =
      Done EINVAL (s3 <| sched := (sched s3 <| rt_smp_current := 32 |>) |>).
Proof.
  apply (mutex_two_owners demo_held 7 32 64 [48] []);
    [by_eval|by_eval|by_eval|by_eval|solve_ring|fits_eval|by_eval|by_eval|exact held_queue|by_eval
    |split; [by_eval|by_eval|by_eval|not_in]|by_eval|by_eval|by_eval].
Defined.

Lemma cond_signal_wakes_witness :
  timed_list (sched demo_cond) [64] /\
  exists σ', pthread_cond_signal 9 demo_cond = (schd rt_schedule;; mret 0) (demo_cond <| sched := σ' |>) /\
    wait_queue σ' (SemQueue (Sem 9)) [80] /\
    ready_list σ' (insert_ready (priority (sched demo_cond)) (priority (sched demo_cond) 64) 64 [32; 48]) /\
    state σ' 64 = READY /\ blocked_on σ' 64 = QNull /\ rt_smp_current σ' = rt_smp_current (sched demo_cond) /\
    (forall tl, timed_list (sched demo_cond) tl -> timed_list σ' tl).
Proof.
  split; [solve_ring|]. apply (cond_signal_wakes demo_cond 9 64 [80] [32; 48]);
    [exact cond_queue|by_eval|split; [by_eval|by_eval|by_eval|not_in]|solve_ring|fits_eval|by_eval].
Defined.

Lemma cond_broadcast_wakes_all_witness :
  exists σ', pthread_cond_broadcast 9 demo_cond = (schd rt_schedule;; mret 0) (demo_cond <| sched := σ' |>) /\
    wait_queue σ' (SemQueue (Sem 9)) [] /\ ready_list σ' (woken_list (priority (sched demo_cond)) [32; 48] [64; 80]) /\
    (forall t, t ∈ [64; 80] -> state σ' t = READY /\ blocked_on σ' t = QNull) /\
    (forall t, t ∉ [64; 80] -> state σ' t = state (sched demo_cond) t /\ blocked_on σ' t = blocked_on (sched demo_cond) t) /\
    rt_smp_current σ' = rt_smp_current (sched demo_cond).
Proof.
  apply cond_broadcast_wakes_all; [exact cond_queue|by_eval| |solve_ring|vm_compute; lia|by_eval].
  intros t Ht. rewrite !elem_of_cons, elem_of_nil in Ht.
  destruct Ht as [->|[->|[]]]; (split; [by_eval|split; [by_eval|by_eval|by_eval|not_in]]).
Defined.

Lemma recursive_mutex_unusable_witness :
  let s := demo_mutex <| mutexkind ::= <[5 := PTHREAD_MUTEX_RECURSIVE_NP]> |> in
  exists s1, pthread_mutex_init 8 5 s = Done 0 s1 /\ pthread_mutex_trylock 8 s1 = Done EBUSY s1 /\
    pthread_mutex_lock 8 s1 = Stuck.
Proof. apply (recursive_mutex_unusable _ 8 5 32 [] [48]); [by_eval|by_eval|by_eval|by_eval|solve_ring|by_eval|by_eval]. Defined.

Lemma pthread_descriptors_leak_witness :
  exists s', failed_creates 64 900 901 1 demo_mutex = Done tt s' /\
    (forall j, 0 <= j < POSIX_THREADS_MAX -> magic (sched s') (rtask j) <> RT_TASK_MAGIC) /\
    forall st z1 z2 fpu' attr, pthread_create st z1 z2 fpu' attr s' = Done (EAGAIN, None) s'.
Proof.
  apply pthread_descriptors_leak; [|done]. split; [intros; lia|intros; by vm_compute| |by vm_compute].
  assert (H : Forall (fun j => magic (sched demo_mutex) (rtask j) <> RT_TASK_MAGIC) (seqZ 0 64))
    by (apply (bool_decide_unpack _); vm_compute; exact I).
  intros j Hj. apply (proj1 (Forall_forall _ _) H). apply elem_of_seqZ. exact Hj.
Defined.
